(** * make-pi: the decimal bignum core, the worker and the work partition of
    make_pi_4.c

    A shallow embedding of [src/v4/make_pi_4.c].  A [bignum] is the C struct;
    its [digits] buffer and every scratch buffer is a [list Z] of [char]
    cells.  A function that writes through its result pointer returns the
    new contents of that object.  Reading or writing outside a buffer is
    undefined behaviour in C and is the outcome [Undef] here. *)

From Stdlib Require Import String Ascii DecimalString.
From Stdlib Require Import ZArith List Lia Bool.
From Stdlib Require Decimal DecimalFacts DecimalPos.
Import ListNotations.
Local Open Scope Z_scope.

(** ** Outcomes

    [Ok]: the call returns.  [Undef]: it reads or writes outside a buffer or
    through a null pointer.  [Timeout]: a loop has used up its budget of
    iterations. *)

Inductive result (A : Type) : Type :=
| Ok (a : A)
| Undef
| Timeout.

Arguments Ok {A} a.
Arguments Undef {A}.
Arguments Timeout {A}.

Definition bind {A B : Type} (m : result A) (k : A -> result B) : result B :=
  match m with
  | Ok a => k a
  | Undef => Undef
  | Timeout => Timeout
  end.

Notation "x <- m ;; k" := (bind m (fun x => k))
  (at level 61, m at next level, right associativity).
Notation "' pat <- m ;; k" := (bind m (fun x => match x with pat => k end))
  (at level 61, pat pattern, m at next level, right associativity).

(** ** Machine integers

    [long] is 64 bits and [int] 32 bits (LP64); [char] is a signed byte. *)

Definition wrap_long (z : Z) : Z := (z + 2 ^ 63) mod 2 ^ 64 - 2 ^ 63.
Definition wrap_ulong (z : Z) : Z := z mod 2 ^ 64.
Definition wrap_int (z : Z) : Z := (z + 2 ^ 31) mod 2 ^ 32 - 2 ^ 31.
Definition wrap_char (z : Z) : Z := (z + 128) mod 256 - 128.

(** ** Buffers of [char] *)

Fixpoint upd (n : nat) (v : Z) (l : list Z) : list Z :=
  match l, n with
  | [], _ => []
  | _ :: t, O => v :: t
  | x :: t, S n' => x :: upd n' v t
  end.

Definition in_buf (l : list Z) (j : Z) : bool :=
  (0 <=? j) && (j <? Z.of_nat (length l)).

(** [buf[(int)i]] as an rvalue. *)
Definition rd (l : list Z) (i : Z) : result Z :=
  let j := wrap_int i in
  if in_buf l j then Ok (nth (Z.to_nat j) l 0) else Undef.

(** [buf[(int)i] = v]; the stored value is converted to [char]. *)
Definition wr (l : list Z) (i : Z) (v : Z) : result (list Z) :=
  let j := wrap_int i in
  if in_buf l j then Ok (upd (Z.to_nat j) (wrap_char v) l) else Undef.

(** [calloc((int)n, sizeof(char))]: [ok] says whether the allocator has the
    memory; a negative count becomes a huge [size_t] and is refused. *)
Definition calloc (ok : bool) (n : Z) : option (list Z) :=
  let c := wrap_int n in
  if ok && (0 <=? c) then Some (repeat 0 (Z.to_nat c)) else None.

(** ** Loops *)

Fixpoint for_iter {St : Type} (n : nat) (i : Z) (body : Z -> St -> result St)
  (s : St) : result St :=
  match n with
  | O => Ok s
  | S n' => s' <- body i s ;; for_iter n' (i + 1) body s'
  end.

(** [for (i = lo; i < hi; i++) body], the bounds not touched by the body. *)
Definition for_loop {St : Type} (lo hi : Z) (body : Z -> St -> result St)
  (s : St) : result St :=
  for_iter (Z.to_nat (hi - lo)) lo body s.

(** [while (cond) body] with a budget of iterations. *)
Fixpoint while {St : Type} (fuel : nat) (cond : St -> bool)
  (body : St -> result St) (s : St) : result St :=
  if cond s then
    match fuel with
    | O => Timeout
    | S f => s' <- body s ;; while f cond body s'
    end
  else Ok s.

(** ** The bignum *)

Record bignum : Type := mk_bignum {
  power : Z;
  sig_digs : Z;
  digits : list Z;
  precision : Z
}.

(** [bignum_init]: both allocations are used unchecked before the null test
    can help, so a failed allocation dereferences a null pointer. *)
Definition bignum_init (ok : bool) (prec : Z) : result bignum :=
  match calloc ok prec with
  | Some d => Ok (mk_bignum 0 0 d (wrap_ulong prec))
  | None => Undef
  end.

Definition bignum_reset (numval : bignum) : result bignum :=
  if 0 <? sig_digs numval then
    d <- for_loop 0 (sig_digs numval) (fun i d => wr d i 0) (digits numval) ;;
    Ok (mk_bignum 0 0 d (precision numval))
  else Ok numval.

Definition bignum_set (newnum oldnum : bignum) : result bignum :=
  if 0 <? sig_digs oldnum then
    let sd := if sig_digs oldnum >? precision newnum
              then precision newnum else sig_digs oldnum in
    d <- for_loop 0 sd
           (fun i d => v <- rd (digits oldnum) i ;; wr d i v)
           (digits newnum) ;;
    Ok (mk_bignum (power oldnum) sd d (precision newnum))
  else bignum_reset newnum.

(** Number of iterations the digit-splitting loop of [bignum_set_int] can
    need: every division by ten at least halves the value. *)
Definition split_budget (intval : Z) : nat := S (Z.to_nat (Z.log2 intval)).

Definition bignum_set_int (ok : bool) (numval : bignum) (intval : Z)
  : result (Z * bignum) :=
  if 0 <? intval then
    match calloc ok (precision numval) with
    | None => Ok (0, numval)
    | Some temp_word =>
      (* separate out the digits, stored backwards *)
      '(temp_word, temp_int, counter) <-
        while (split_budget intval)
          (fun '(_, temp_int, _) => 0 <? temp_int)
          (fun '(tw, temp_int, counter) =>
             tw' <- wr tw counter (Z.rem temp_int 10) ;;
             Ok (tw', Z.quot temp_int 10, counter + 1))
          (temp_word, intval, 0) ;;
      let pw := wrap_long (counter - 1) in
      (* zeros at the start of the reversed word *)
      '(leadingzeros, hasleading) <-
        while (S (length temp_word))
          (fun '(_, hasleading) => hasleading =? 1)
          (fun '(leadingzeros, hasleading) =>
             v <- rd temp_word leadingzeros ;;
             if negb (v =? 0) then Ok (leadingzeros, 0)
             else Ok (leadingzeros + 1, hasleading))
          (0, 1) ;;
      d <- for_loop 0 (counter - leadingzeros)
             (fun temp_int d =>
                v <- rd temp_word (counter - temp_int - 1) ;; wr d temp_int v)
             (digits numval) ;;
      Ok (1, mk_bignum pw (counter - leadingzeros) d (precision numval))
    end
  else r <- bignum_reset numval ;; Ok (1, r).

(** ** Printing

    [printf("%d", (int)digit)] appends the decimal form of the cell. *)

Definition print_int (z : Z) : string := NilZero.string_of_int (Z.to_int z).

Definition print_digits (lo hi : Z) (d : list Z) (out : string)
  : result string :=
  for_loop lo hi (fun i out => v <- rd d i ;; Ok (out ++ print_int v)%string) out.

Definition print_zeros (lo hi : Z) (out : string) : result string :=
  for_loop lo hi (fun _ out => Ok (out ++ "0")%string) out.

Definition bignum_print (numval : bignum) (maxdigits : Z) : result string :=
  let limit := sig_digs numval in
  if sig_digs numval =? 0 then Ok "0"%string
  else
    let limit := if (0 <? maxdigits) && (maxdigits <? sig_digs numval)
                 then maxdigits else limit in
    out <-
      (if power numval <? 0 then
         out <- print_zeros 1 (wrap_long (-1 * power numval)) "0."%string ;;
         print_digits 0 limit (digits numval) out
       else if sig_digs numval >? wrap_long (power numval + 1) then
         out <- print_digits 0 (power numval + 1) (digits numval) ""%string ;;
         let out := if limit >? wrap_long (power numval + 1)
                    then (out ++ ".")%string else out in
         print_digits (wrap_long (power numval + 1)) limit (digits numval) out
       else print_digits 0 (sig_digs numval) (digits numval) ""%string) ;;
    if (0 <? power numval) && (wrap_long (power numval + 1) >? sig_digs numval)
    then print_zeros 0 (wrap_long (power numval + 1) - sig_digs numval) out
    else Ok out.

(** ** Addition *)

(** The digit loop of [bignum_add]: cell [startdigitcopy - i - 1] of the
    result receives the cell of [bigger] and the carry. *)
Definition add_step (bigger_digits : list Z) (startdigitcopy : Z) (i : Z)
  (st : list Z * Z * Z * Z) : result (list Z * Z * Z * Z) :=
  let '(d, carry, trailingzeros, zerocount) := st in
  let k := startdigitcopy - i - 1 in
  x <- rd d k ;;
  y <- rd bigger_digits k ;;
  d <- wr d k (x + (y + carry)) ;;
  x <- rd d k ;;
  '(d, carry) <- (if 10 <=? x
                  then d <- wr d k (x - 10) ;; Ok (d, 1)
                  else Ok (d, 0)) ;;
  x <- rd d k ;;
  if trailingzeros =? 1 then
    if x =? 0 then Ok (d, carry, trailingzeros, zerocount + 1)
    else Ok (d, carry, 0, zerocount)
  else Ok (d, carry, trailingzeros, zerocount).

(** The shift that makes room for a final carry. *)
Definition carry_shift_step (i : Z) (st : list Z * Z) : result (list Z * Z) :=
  let '(d, startdigitcopy) := st in
  d <- (if 0 <=? startdigitcopy then
          v <- rd d startdigitcopy ;; wr d (startdigitcopy + 1) v
        else if 0 <=? startdigitcopy + 1 then wr d (startdigitcopy + 1) 0
        else Ok d) ;;
  Ok (d, startdigitcopy - 1).

(** Lines 546-562 of [bignum_add]: the digits of [smaller] go into the
    result, [difference] cells to the right, cut at the precision.  Returns
    the cells and [startdigitcopy]. *)
Definition add_transfer (resultnum smaller : bignum) (difference : Z)
  : result (list Z * Z) :=
  let startdigit := wrap_long (sig_digs smaller + difference) in
  let transfertotal := sig_digs smaller in
  let '(startdigit, transfertotal) :=
    if wrap_ulong startdigit >? precision resultnum
    then (wrap_long (precision resultnum - difference),
          wrap_long (precision resultnum - difference))
    else (startdigit, transfertotal) in
  let startdigitcopy := startdigit in
  let startdigit := startdigit - 1 in
  '(d, _) <-
    for_loop 0 transfertotal
      (fun _ '(d, startdigit) =>
         d <- (if 0 <=? startdigit - difference then
                 v <- rd (digits smaller) (startdigit - difference) ;;
                 wr d startdigit v
               else Ok d) ;;
         Ok (d, startdigit - 1))
      (digits resultnum, startdigit) ;;
  Ok (d, startdigitcopy).

(** Lines 591-612: trailing zeros leave the count, a final carry shifts the
    digits one cell to the right. *)
Definition add_carry_out (prec pw sd zerocount carry : Z) (d : list Z)
  : result (Z * bignum) :=
  let sd := sd - zerocount in
  if 0 <? carry then
    let transfertotal := sd in
    let transfertotal :=
      if transfertotal =? prec then transfertotal - 1 else transfertotal in
    '(d, _) <- for_loop 0 transfertotal carry_shift_step
                 (d, transfertotal - 1) ;;
    d <- wr d 0 carry ;;
    Ok (1, mk_bignum (wrap_long (pw + 1)) (sd + 1) d prec)
  else Ok (1, mk_bignum pw sd d prec).

(** Lines 546-612 of [bignum_add]: the operands are told apart, [bigger]
    has the larger power; [resultnum] has been reset. *)
Definition add_aligned (resultnum bigger smaller : bignum)
  : result (Z * bignum) :=
  let difference := wrap_long (power bigger - power smaller) in
  '(d, startdigitcopy) <- add_transfer resultnum smaller difference ;;
  let pw := power bigger in
  let sd := startdigitcopy in
  let '(sd, startdigitcopy) :=
    if sig_digs bigger >? sd then (sig_digs bigger, sig_digs bigger)
    else (sd, startdigitcopy) in
  '(d, carry, _, zerocount) <-
    for_loop 0 sd (add_step (digits bigger) startdigitcopy) (d, 0, 1, 0) ;;
  add_carry_out (precision resultnum) pw sd zerocount carry d.

Definition bignum_add (resultnum leftnum rightnum : bignum)
  : result (Z * bignum) :=
  resultnum <- bignum_reset resultnum ;;
  if (sig_digs leftnum =? 0) && (0 <? sig_digs rightnum) then
    r <- bignum_set resultnum rightnum ;; Ok (1, r)
  else if (sig_digs rightnum =? 0) && (0 <? sig_digs leftnum) then
    r <- bignum_set resultnum leftnum ;; Ok (1, r)
  else if (sig_digs leftnum =? 0) && (sig_digs rightnum =? 0) then
    Ok (1, resultnum)
  else
    let dl := wrap_long (power leftnum - power rightnum) in
    let dr := wrap_long (power rightnum - power leftnum) in
    if (0 <? dl) && (wrap_ulong dl >? precision resultnum) then
      r <- bignum_set resultnum leftnum ;; Ok (1, r)
    else if (0 <? dr) && (wrap_ulong dr >? precision resultnum) then
      r <- bignum_set resultnum rightnum ;; Ok (1, r)
    else
      let '(bigger, smaller) :=
        if 0 <=? dl then (leftnum, rightnum) else (rightnum, leftnum) in
      add_aligned resultnum bigger smaller.

Definition bignum_add_int (ok_init ok_word : bool)
  (resultnum leftnum : bignum) (rightint : Z) : result (Z * bignum) :=
  resultnum <- bignum_reset resultnum ;;
  if (rightint =? 0) && (0 <? sig_digs leftnum) then
    r <- bignum_set resultnum leftnum ;; Ok (1, r)
  else if (sig_digs leftnum =? 0) && (0 <? rightint) then
    bignum_set_int ok_word resultnum rightint
  else if (sig_digs leftnum =? 0) && (rightint =? 0) then Ok (1, resultnum)
  else
    tempnum <- bignum_init ok_init (precision resultnum) ;;
    '(rc, tempnum) <- bignum_set_int ok_word tempnum rightint ;;
    if rc =? 0 then Ok (0, resultnum)
    else bignum_add resultnum leftnum tempnum.

(** ** Multiplication *)

(** One digit of [smaller] times all of [bigger], added into the word. *)
Definition mult_inner_step (bigger smaller : bignum) (prec bigcounter : Z)
  (smallcounter : Z) (st : list Z * Z) : result (list Z * Z) :=
  let '(tw, carry) := st in
  let bigstart := sig_digs bigger - 1 in
  let smallstart := sig_digs smaller - 1 in
  let k := wrap_ulong (2 * prec) - smallcounter - bigcounter - 1 in
  x <- rd tw k ;;
  sdig <- rd (digits smaller) (smallstart - bigcounter) ;;
  bdig <- rd (digits bigger) (bigstart - smallcounter) ;;
  tw <- wr tw k (x + (carry + sdig * bdig)) ;;
  x <- rd tw k ;;
  let carry := wrap_char (Z.quot x 10) in
  tw <- wr tw k (Z.rem x 10) ;;
  Ok (tw, carry).

Definition mult_outer_step (bigger smaller : bignum) (prec : Z)
  (bigcounter : Z) (st : list Z * Z) : result (list Z * Z) :=
  let '(tw, carry) := st in
  let smallstart := sig_digs smaller - 1 in
  sdig <- rd (digits smaller) (smallstart - bigcounter) ;;
  if negb (sdig =? 0) then
    '(tw, carry) <- for_loop 0 (sig_digs bigger)
                      (mult_inner_step bigger smaller prec bigcounter) (tw, 0) ;;
    tw <- wr tw (wrap_ulong (2 * prec) - bigcounter - sig_digs bigger - 1)
            carry ;;
    Ok (tw, carry)
  else Ok (tw, carry).

(** [while (trailingzeros == 1)] walking down from cell [i]: the number of
    zero cells met before the first non-zero one.  Nothing stops the walk at
    the start of the buffer. *)
Definition count_trailing_zeros (buf : list Z) (i : Z) : result Z :=
  '(_, zerocount, _) <-
    while (S (length buf))
      (fun '(trailingzeros, _, _) => trailingzeros =? 1)
      (fun '(trailingzeros, zerocount, i) =>
         v <- rd buf i ;;
         if v =? 0 then Ok (trailingzeros, zerocount + 1, i - 1)
         else Ok (0, zerocount, i - 1))
      (1, 0, i) ;;
  Ok zerocount.

Definition bignum_mult (ok : bool) (resultnum leftnum rightnum : bignum)
  : result (Z * bignum) :=
  resultnum <- bignum_reset resultnum ;;
  if (sig_digs leftnum =? 0) || (sig_digs rightnum =? 0) then Ok (1, resultnum)
  else
    let prec := precision resultnum in
    match calloc ok (wrap_ulong (2 * prec)) with
    | None => Ok (0, resultnum)
    | Some temp_word =>
      (* both differences are unsigned *)
      '(bigger, smaller) <-
        (if 0 <=? wrap_ulong (sig_digs leftnum - sig_digs rightnum)
         then Ok (leftnum, rightnum)
         else if 0 <? wrap_ulong (sig_digs rightnum - sig_digs leftnum)
         then Ok (rightnum, leftnum)
         else Undef) ;;
      '(temp_word, carry) <-
        for_loop 0 (sig_digs smaller) (mult_outer_step bigger smaller prec)
          (temp_word, 0) ;;
      let pw := wrap_long (power bigger + power smaller) in
      let sd := sig_digs bigger + sig_digs smaller in
      let '(sd, pw) := if carry <? 1 then (sd - 1, wrap_long (pw - 1))
                       else (sd, pw) in
      let pw := wrap_long (pw + 1) in
      zerocount <- count_trailing_zeros temp_word (wrap_ulong (2 * prec) - 1) ;;
      let sd := wrap_ulong (sd - zerocount) in
      let sd := if sd >? prec then prec else sd in
      let tempstart :=
        wrap_ulong (2 * prec) - (sig_digs bigger + sig_digs smaller) in
      let tempstart := if carry <? 1 then tempstart + 1 else tempstart in
      d <- for_loop 0 sd
             (fun i d => v <- rd temp_word (tempstart + i) ;; wr d i v)
             (digits resultnum) ;;
      Ok (1, mk_bignum pw sd d prec)
    end.

Definition bignum_mult_int (ok_init ok_word ok_mult : bool)
  (resultnum leftnum : bignum) (rightint : Z) : result (Z * bignum) :=
  resultnum <- bignum_reset resultnum ;;
  if (sig_digs leftnum =? 0) || (rightint =? 0) then Ok (1, resultnum)
  else
    tempnum <- bignum_init ok_init (precision resultnum) ;;
    '(rc, tempnum) <- bignum_set_int ok_word tempnum rightint ;;
    if rc =? 0 then Ok (0, resultnum)
    else bignum_mult ok_mult resultnum leftnum tempnum.

(** ** Division *)

(** The comparison loop of [bignum_divide], the denominator against the
    [ds] cells of the word after cell [ni], most significant first.  The
    source has it twice: before the main loop with [ni = 0] written out,
    and inside the subtraction loop. *)
Definition denom_compare (den : list Z) (ds : Z) (tw : list Z) (ni : Z)
  (denom_bigger : Z) : result Z :=
  '(_, denom_bigger) <-
    while (Z.to_nat ds)
      (fun '(i, denom_bigger) => (0 <=? i) && (denom_bigger =? 1))
      (fun '(i, denom_bigger) =>
         dd <- rd den (ds - i - 1) ;;
         t <- rd tw (ds + ni - i) ;;
         if dd >? t then Ok (0 - 1, denom_bigger)
         else if dd <? t then Ok (i - 1, 0)
         else if (dd =? t) && (i =? 0) then Ok (i - 1, 0)
         else Ok (i - 1, denom_bigger))
      (ds - 1, denom_bigger) ;;
  Ok denom_bigger.

(** One digit position of the in-place subtraction of the denominator. *)
Definition subtract_step (den : list Z) (ds ni : Z) (i : Z) (tw : list Z)
  : result (list Z) :=
  let k := ds + ni - i in
  x <- rd tw k ;;
  dd <- rd den (ds - i - 1) ;;
  tw <- wr tw k (x - dd) ;;
  x <- rd tw k ;;
  if x <? 0 then
    tw <- wr tw k (x + 10) ;;
    y <- rd tw (k - 1) ;;
    wr tw (k - 1) (y - 1)
  else Ok tw.

(** The subtraction loop: how often the denominator goes into the window. *)
Definition subtract_loop (fuel : nat) (den : list Z) (ds ni : Z) (tw : list Z)
  : result (list Z * Z) :=
  '(tw, current_digit, _) <-
    while fuel
      (fun '(_, _, numer_bigger) => numer_bigger =? 1)
      (fun '(tw, current_digit, numer_bigger) =>
         ov <- rd tw ni ;;
         let denom_bigger := if 0 <? ov then 0 else 1 in
         denom_bigger <- denom_compare den ds tw ni denom_bigger ;;
         let numer_bigger := if denom_bigger =? 1 then 0 else numer_bigger in
         if numer_bigger =? 1 then
           tw <- for_loop 0 ds (subtract_step den ds ni) tw ;;
           Ok (tw, wrap_char (current_digit + 1), numer_bigger)
         else Ok (tw, current_digit, numer_bigger))
      (tw, 0, 1) ;;
  Ok (tw, current_digit).

(** Zero detection on the window and the cell above it. *)
Definition window_is_zero (tw : list Z) (ds ni : Z) : result bool :=
  '(_, zerocounter) <-
    while (S (Z.to_nat ds))
      (fun '(i, zerocounter) => (i =? zerocounter) && (i <=? ds))
      (fun '(i, zerocounter) =>
         v <- rd tw (ni + i) ;;
         Ok (i + 1, if v <? 1 then zerocounter + 1 else zerocounter))
      (0, 0) ;;
  Ok (zerocounter =? ds + 1).

Definition divide_step (fuel : nat) (num den : bignum) (prec : Z)
  (st : list Z * list Z * Z * Z * Z) : result (list Z * list Z * Z * Z * Z) :=
  let '(tw, d, sigdigctr, numeratorindex, nonzero) := st in
  '(tw, current_digit) <-
    subtract_loop fuel (digits den) (sig_digs den) numeratorindex tw ;;
  nonzero <-
    (if sigdigctr >? sig_digs num then
       z <- window_is_zero tw (sig_digs den) numeratorindex ;;
       Ok (if z then 0 else nonzero)
     else Ok nonzero) ;;
  d <- (if sigdigctr <? prec then wr d sigdigctr current_digit else Ok d) ;;
  Ok (tw, d, sigdigctr + 1, numeratorindex + 1, nonzero).

(** [fuel] bounds the iterations of each run of the subtraction loop, the
    only loop of the function without a bound of its own. *)
Definition bignum_divide (fuel : nat) (ok : bool)
  (resultnum numerator denominator : bignum) : result (Z * bignum) :=
  resultnum <- bignum_reset resultnum ;;
  if sig_digs denominator =? 0 then Ok (0, resultnum)
  else if sig_digs numerator =? 0 then Ok (1, resultnum)
  else
    let prec := precision resultnum in
    match calloc ok (wrap_ulong (2 * prec + 2)) with
    | None => Ok (0, resultnum)
    | Some temp_word =>
      temp_word <-
        for_loop 0 (sig_digs numerator)
          (fun i tw => v <- rd (digits numerator) i ;; wr tw (i + 1) v)
          temp_word ;;
      let pw := wrap_long (power numerator - power denominator) in
      denom_bigger <-
        denom_compare (digits denominator) (sig_digs denominator) temp_word 0 1 ;;
      let '(numeratorindex, pw) :=
        if denom_bigger =? 1 then (1, wrap_long (pw - 1)) else (0, pw) in
      '(_, d, sigdigctr, _, _) <-
        while (Z.to_nat prec)
          (fun '(_, _, sigdigctr, _, nonzero) =>
             (sigdigctr <? prec) && (nonzero =? 1))
          (divide_step fuel numerator denominator prec)
          (temp_word, digits resultnum, 0, numeratorindex, 1) ;;
      zerocount <- count_trailing_zeros d (sigdigctr - 1) ;;
      Ok (1, mk_bignum pw (wrap_ulong (sigdigctr - zerocount)) d prec)
    end.

Definition bignum_int_divide (fuel : nat) (ok_init ok_word ok_div : bool)
  (resultnum : bignum) (leftint : Z) (rightnum : bignum)
  : result (Z * bignum) :=
  resultnum <- bignum_reset resultnum ;;
  if sig_digs rightnum =? 0 then Ok (0, resultnum)
  else if leftint =? 0 then Ok (1, resultnum)
  else
    tempnum <- bignum_init ok_init (precision resultnum) ;;
    '(rc, tempnum) <- bignum_set_int ok_word tempnum leftint ;;
    if rc =? 0 then Ok (0, resultnum)
    else bignum_divide fuel ok_div resultnum tempnum rightnum.

Definition bignum_divide_int (fuel : nat) (ok_init ok_word ok_div : bool)
  (resultnum leftnum : bignum) (rightint : Z) : result (Z * bignum) :=
  resultnum <- bignum_reset resultnum ;;
  if rightint =? 0 then Ok (0, resultnum)
  else if sig_digs leftnum =? 0 then Ok (1, resultnum)
  else
    tempnum <- bignum_init ok_init (precision resultnum) ;;
    '(rc, tempnum) <- bignum_set_int ok_word tempnum rightint ;;
    if rc =? 0 then Ok (0, resultnum)
    else bignum_divide fuel ok_div resultnum leftnum tempnum.

(** ** The driver: work partition and the reference line *)

Record limits : Type := mk_limits {
  threadid : Z;
  lowlimit : Z;
  highlimit : Z;
  totaliterations : Z;
  max_digits : Z
}.

(** The descriptor that [main] fills in for worker [i]. *)
Definition funct_args (iterations num_threads maxdigits : Z) (i : Z) : limits :=
  mk_limits i
    (wrap_long (i * Z.quot iterations num_threads))
    (if wrap_long (i + 1) =? num_threads then iterations
     else wrap_long (wrap_long (i + 1) * Z.quot iterations num_threads))
    iterations maxdigits.

(** Defaults of the three command line arguments ([None]: not given). *)
Definition iterations_arg (a : option Z) : Z :=
  match a with
  | Some v => if wrap_long v <? 1 then 20000 else wrap_long v
  | None => 20000
  end.

Definition num_threads_arg (a : option Z) : Z :=
  match a with
  | Some v => if wrap_long v <? 1 then 8 else wrap_long v
  | None => 8
  end.

Definition max_digits_arg (a : option Z) : Z :=
  match a with
  | Some v => if wrap_int v <? 1 then 25 else wrap_int v
  | None => 25
  end.

Definition nl : string := String (ascii_of_nat 10) EmptyString.

(** The string literal [accepted_pi]; the array also holds the written
    [\0] and the terminator. *)
Definition accepted_pi : list ascii :=
  list_ascii_of_string
    ("3.14159265358979323846264338327950288419716939937510" ++
     "58209749445923078164062862089986280348253421170679")%string
  ++ [zero; zero].

Definition rd_char (l : list ascii) (i : Z) : result ascii :=
  let j := wrap_int i in
  if (0 <=? j) && (j <? Z.of_nat (length l))
  then Ok (nth (Z.to_nat j) l zero) else Undef.

(** [printf("%s", pi_printer)] for the one-character buffer. *)
Definition print_char (c : ascii) : string :=
  if Ascii.eqb c zero then EmptyString else String c EmptyString.

(** What lines 205-214 of [main] send to standard output. *)
Definition print_accepted_pi (maxdigits : Z) : result string :=
  for_loop 0 (maxdigits - 1)
    (fun i out => c <- rd_char accepted_pi (i + 2) ;;
                  Ok (out ++ print_char c)%string)
    (nl ++ "The actual value of pi is     3.")%string.

(** ** The worker

    [calculate] for the descriptor [args].  [gtrap] and [gmid] are the slots
    [globaltrap[threadid]] and [globalmid[threadid]]; their new contents are
    returned.  Every allocation succeeds.  The return codes of the bignum
    operations are not looked at, as in the source. *)

(** One pass of the main iteration loop; [inverseiterations] is only
    read. *)
Definition calculate_iteration (fuel : nat) (inverseiterations : bignum)
  (st : bignum * bignum * bignum * bignum * bignum * bignum * bignum * Z)
  : result (bignum * bignum * bignum * bignum * bignum * bignum * bignum * Z) :=
  let '(trap, mid, temp_holder, temp_holder2, inc, leftrect, rightrect, k) :=
    st in
  (* the trapezoid rule *)
  leftrect <- bignum_reset leftrect ;;
  '(_, leftrect) <- bignum_set_int true leftrect k ;;
  '(_, temp_holder2) <- bignum_mult true temp_holder2 leftrect inverseiterations ;;
  leftrect <- bignum_reset leftrect ;;
  leftrect <- bignum_set leftrect temp_holder2 ;;
  temp_holder2 <- bignum_reset temp_holder2 ;;
  let k := wrap_long (k + 1) in
  rightrect <- bignum_reset rightrect ;;
  '(_, rightrect) <- bignum_set_int true rightrect k ;;
  '(_, temp_holder2) <- bignum_mult true temp_holder2 rightrect inverseiterations ;;
  rightrect <- bignum_reset rightrect ;;
  rightrect <- bignum_set rightrect temp_holder2 ;;
  temp_holder2 <- bignum_reset temp_holder2 ;;
  '(_, temp_holder) <- bignum_add temp_holder leftrect rightrect ;;
  '(_, temp_holder2) <-
    bignum_divide_int fuel true true true temp_holder2 temp_holder 2 ;;
  temp_holder <- bignum_reset temp_holder ;;
  temp_holder <- bignum_set temp_holder temp_holder2 ;;
  temp_holder2 <- bignum_reset temp_holder2 ;;
  '(_, temp_holder2) <- bignum_mult true temp_holder2 temp_holder temp_holder ;;
  temp_holder <- bignum_reset temp_holder ;;
  temp_holder <- bignum_set temp_holder temp_holder2 ;;
  temp_holder2 <- bignum_reset temp_holder2 ;;
  '(_, temp_holder2) <- bignum_add_int true true temp_holder2 temp_holder 1 ;;
  temp_holder <- bignum_reset temp_holder ;;
  temp_holder <- bignum_set temp_holder temp_holder2 ;;
  temp_holder2 <- bignum_reset temp_holder2 ;;
  '(_, temp_holder2) <-
    bignum_int_divide fuel true true true temp_holder2 1 temp_holder ;;
  temp_holder <- bignum_reset temp_holder ;;
  temp_holder <- bignum_set temp_holder temp_holder2 ;;
  temp_holder2 <- bignum_reset temp_holder2 ;;
  '(_, temp_holder2) <- bignum_mult true temp_holder2 temp_holder inverseiterations ;;
  temp_holder <- bignum_reset temp_holder ;;
  temp_holder <- bignum_set temp_holder temp_holder2 ;;
  temp_holder2 <- bignum_reset temp_holder2 ;;
  '(_, temp_holder2) <- bignum_add temp_holder2 trap temp_holder ;;
  trap <- bignum_reset trap ;;
  trap <- bignum_set trap temp_holder2 ;;
  temp_holder2 <- bignum_reset temp_holder2 ;;
  temp_holder <- bignum_reset temp_holder ;;
  (* the midpoint rule *)
  temp_holder <- bignum_set temp_holder inc ;;
  '(_, temp_holder2) <- bignum_add temp_holder2 inc inverseiterations ;;
  inc <- bignum_reset inc ;;
  inc <- bignum_set inc temp_holder2 ;;
  temp_holder2 <- bignum_reset temp_holder2 ;;
  '(_, temp_holder2) <- bignum_mult true temp_holder2 temp_holder temp_holder ;;
  temp_holder <- bignum_reset temp_holder ;;
  temp_holder <- bignum_set temp_holder temp_holder2 ;;
  temp_holder2 <- bignum_reset temp_holder2 ;;
  '(_, temp_holder2) <- bignum_add_int true true temp_holder2 temp_holder 1 ;;
  temp_holder <- bignum_reset temp_holder ;;
  temp_holder <- bignum_set temp_holder temp_holder2 ;;
  temp_holder2 <- bignum_reset temp_holder2 ;;
  '(_, temp_holder2) <-
    bignum_int_divide fuel true true true temp_holder2 1 temp_holder ;;
  temp_holder <- bignum_reset temp_holder ;;
  temp_holder <- bignum_set temp_holder temp_holder2 ;;
  temp_holder2 <- bignum_reset temp_holder2 ;;
  '(_, temp_holder2) <- bignum_mult true temp_holder2 temp_holder inverseiterations ;;
  temp_holder <- bignum_reset temp_holder ;;
  temp_holder <- bignum_set temp_holder temp_holder2 ;;
  temp_holder2 <- bignum_reset temp_holder2 ;;
  '(_, temp_holder2) <- bignum_add temp_holder2 mid temp_holder ;;
  mid <- bignum_reset mid ;;
  mid <- bignum_set mid temp_holder2 ;;
  temp_holder2 <- bignum_reset temp_holder2 ;;
  temp_holder <- bignum_reset temp_holder ;;
  Ok (trap, mid, temp_holder, temp_holder2, inc, leftrect, rightrect, k).

Definition calculate (fuel : nat) (args : limits) (gtrap gmid : bignum)
  : result (bignum * bignum) :=
  trap <- bignum_init true (max_digits args) ;;
  mid <- bignum_init true (max_digits args) ;;
  inverseiterations <- bignum_init true (max_digits args) ;;
  temp_holder <- bignum_init true (max_digits args) ;;
  temp_holder2 <- bignum_init true (max_digits args) ;;
  inc <- bignum_init true (max_digits args) ;;
  leftrect <- bignum_init true (max_digits args) ;;
  rightrect <- bignum_init true (max_digits args) ;;
  (* the values before the loop *)
  '(_, temp_holder) <- bignum_set_int true temp_holder (totaliterations args) ;;
  '(_, inverseiterations) <-
    bignum_int_divide fuel true true true inverseiterations 1 temp_holder ;;
  temp_holder <- bignum_reset temp_holder ;;
  let k := lowlimit args in
  '(_, temp_holder) <-
    bignum_divide_int fuel true true true temp_holder inverseiterations 2 ;;
  '(_, inc) <- bignum_set_int true inc k ;;
  '(_, temp_holder2) <- bignum_mult true temp_holder2 inc inverseiterations ;;
  inc <- bignum_reset inc ;;
  inc <- bignum_set inc temp_holder2 ;;
  temp_holder2 <- bignum_reset temp_holder2 ;;
  '(_, temp_holder2) <- bignum_add temp_holder2 inc temp_holder ;;
  inc <- bignum_reset inc ;;
  inc <- bignum_set inc temp_holder2 ;;
  temp_holder2 <- bignum_reset temp_holder2 ;;
  temp_holder <- bignum_reset temp_holder ;;
  '(trap, mid, _, _, _, _, _, _) <-
    for_loop (lowlimit args) (highlimit args)
      (fun _ st => calculate_iteration fuel inverseiterations st)
      (trap, mid, temp_holder, temp_holder2, inc, leftrect, rightrect, k) ;;
  (* save the partial result *)
  gtrap <- bignum_set gtrap trap ;;
  gmid <- bignum_set gmid mid ;;
  Ok (gtrap, gmid).

(** * Scenarios and specifications *)

(** ** Concrete scenarios *)

(** [a] and [r] of precision [p], [set_int(a, 999); add_int(r, a, 1)]. *)
Definition scenario_S5 (p : Z) : result (Z * bignum * string) :=
  a <- bignum_init true p ;;
  r <- bignum_init true p ;;
  '(_, a) <- bignum_set_int true a 999 ;;
  '(rc, r) <- bignum_add_int true true r a 1 ;;
  out <- bignum_print r 0 ;;
  Ok (rc, r, out).

(** [a], [b] and [r] of precision [p],
    [set_int(a, 1); set_int(b, 3); divide(r, a, b)], then [print(r, 0)]. *)
Definition scenario_S6 (fuel : nat) (p : Z) : result (Z * bignum * string) :=
  a <- bignum_init true p ;;
  b <- bignum_init true p ;;
  r <- bignum_init true p ;;
  '(_, a) <- bignum_set_int true a 1 ;;
  '(_, b) <- bignum_set_int true b 3 ;;
  '(rc, r) <- bignum_divide fuel true r a b ;;
  out <- bignum_print r 0 ;;
  Ok (rc, r, out).

(** [n] times the character [c]. *)
Fixpoint replicate (n : nat) (c : ascii) : string :=
  match n with
  | O => EmptyString
  | S n' => String c (replicate n' c)
  end.

(** [a] and [r] of precision 3, [set_int(a, 999); add_int(r, a, 2)]. *)
Definition add_at_full_precision : result (Z * bignum) :=
  a <- bignum_init true 3 ;;
  r <- bignum_init true 3 ;;
  '(_, a) <- bignum_set_int true a 999 ;;
  bignum_add_int true true r a 2.


(** The line that the specification gives for the digit budget 25. *)
Definition spec_line_25 : string :=
  (nl ++ "The actual value of pi is     3.141592653589793238463383")%string.

(** ** Well-formed bignums *)

Definition get (l : list Z) (i : Z) : Z := nth (Z.to_nat i) l 0.
Definition put (l : list Z) (i v : Z) : list Z := upd (Z.to_nat i) v l.
Definition len (l : list Z) : Z := Z.of_nat (length l).

(** A buffer of [n] zero cells, and the cells of a one-digit number. *)
Definition zero_cells (n : Z) : list Z := repeat 0 (Z.to_nat n).
Definition one_digit (p v : Z) : list Z := put (zero_cells p) 0 v.

(** The largest precision whose scratch words ([2 * precision + 2] cells in
    [bignum_divide]) still have an [int] size. *)
Definition max_precision : Z := 2 ^ 30 - 2.

Definition digit_cells (l : list Z) : Prop := Forall (fun x => 0 <= x <= 9) l.

(** Cells from [sig_digs] on are zero. *)
Definition zero_tail (b : bignum) : Prop :=
  forall i, sig_digs b <= i < len (digits b) -> get (digits b) i = 0.

(** A bignum of precision [p] as [bignum_init] allocates it and the
    operations mean to keep it: at most [p] decimal digits in the first
    [sig_digs] cells, the first of them not zero, zeros after them. *)
Record wf (p : Z) (b : bignum) : Prop := mk_wf {
  wf_prec : precision b = p;
  wf_len : len (digits b) = p;
  wf_sig : 0 <= sig_digs b <= p;
  wf_cells : digit_cells (digits b);
  wf_tail : zero_tail b;
  wf_lead : 0 < sig_digs b -> get (digits b) 0 <> 0
}.

(** A checker for [wf] on concrete bignums. *)
Definition wfb (p : Z) (b : bignum) : bool :=
  (precision b =? p) && (len (digits b) =? p) &&
  (0 <=? sig_digs b) && (sig_digs b <=? p) &&
  forallb (fun x => (0 <=? x) && (x <=? 9)) (digits b) &&
  forallb (fun x => x =? 0) (skipn (Z.to_nat (sig_digs b)) (digits b)) &&
  ((sig_digs b =? 0) || negb (get (digits b) 0 =? 0)).

(** ** The public operations

    The operations of the bignum interface with their operands; the bignum
    they write to is the state.  Allocations succeed. *)

Inductive bignum_op : Type :=
| op_reset
| op_set (src : bignum)
| op_set_int (n : Z)
| op_add (a b : bignum)
| op_add_int (a : bignum) (n : Z)
| op_mult (a b : bignum)
| op_mult_int (a : bignum) (n : Z)
| op_divide (a b : bignum)
| op_int_divide (n : Z) (b : bignum)
| op_divide_int (a : bignum) (n : Z).

Definition run_op (fuel : nat) (o : bignum_op) (r : bignum) : result bignum :=
  match o with
  | op_reset => bignum_reset r
  | op_set src => bignum_set r src
  | op_set_int n => '(_, r') <- bignum_set_int true r n ;; Ok r'
  | op_add a b => '(_, r') <- bignum_add r a b ;; Ok r'
  | op_add_int a n => '(_, r') <- bignum_add_int true true r a n ;; Ok r'
  | op_mult a b => '(_, r') <- bignum_mult true r a b ;; Ok r'
  | op_mult_int a n => '(_, r') <- bignum_mult_int true true true r a n ;; Ok r'
  | op_divide a b => '(_, r') <- bignum_divide fuel true r a b ;; Ok r'
  | op_int_divide n b =>
      '(_, r') <- bignum_int_divide fuel true true true r n b ;; Ok r'
  | op_divide_int a n =>
      '(_, r') <- bignum_divide_int fuel true true true r a n ;; Ok r'
  end.

(** Powers far from the ends of [long]. *)
Definition power_ok (b : bignum) : Prop := - 2 ^ 62 < power b < 2 ^ 62.

(** What an operation expects of its operands at precision [p]: bignums
    are well-formed, native integers are non-negative and have at most [p]
    digits, and the destination of [set] and [set_int] has been reset. *)
Definition op_ready (p : Z) (o : bignum_op) (r : bignum) : Prop :=
  match o with
  | op_reset => True
  | op_set src => wf p src /\ sig_digs r = 0
  | op_set_int n => 0 <= n < 10 ^ p /\ sig_digs r = 0
  | op_add a b => wf p a /\ wf p b /\ power_ok a /\ power_ok b
  | op_add_int a n => wf p a /\ power_ok a /\ 0 <= n < 10 ^ p
  | op_mult a b => wf p a /\ wf p b
  | op_mult_int a n => wf p a /\ 0 <= n < 10 ^ p
  | op_divide a b => wf p a /\ wf p b
  | op_int_divide n b => wf p b /\ 0 <= n < 10 ^ p
  | op_divide_int a n => wf p a /\ 0 <= n < 10 ^ p
  end.

(** The number written in [n] cells of [l] from cell [lo] on, most
    significant first. *)
Fixpoint val (l : list Z) (lo : Z) (n : nat) : Z :=
  match n with
  | O => 0
  | S n' => 10 * val l lo n' + get l (lo + Z.of_nat n')
  end.

(** ** The value of a bignum *)

(** The cells of a bignum read as one integer of [precision] digits.  The
    number that the bignum stands for is
    [mantissa b * 10 ^ (power b - precision b + 1)]. *)
Definition mantissa (b : bignum) : Z :=
  val (digits b) 0 (Z.to_nat (precision b)).

(** The last stored digit is not zero. *)
Definition normal (b : bignum) : Prop :=
  0 < sig_digs b -> get (digits b) (sig_digs b - 1) <> 0.

(** What [bignum_add] takes over from the operand of the smaller power,
    [diff] cells to the right, as a number of [p] digits.  When the shifted
    digits do not fit, the copy stops [diff] cells before the end. *)
Definition transferred (p diff : Z) (smaller : bignum) : Z :=
  if sig_digs smaller + diff >? p
  then mantissa smaller / 10 ^ (2 * diff) * 10 ^ diff
  else mantissa smaller / 10 ^ diff.

(** A bignum as [bignum_add] leaves it after a carry at full precision: one
    significant digit more than its buffer has cells. *)
Definition overfull (p : Z) (b : bignum) : Prop :=
  precision b = p /\ len (digits b) = p /\ sig_digs b = p + 1 /\
  digit_cells (digits b).

(** The characters that [printf("%d")] gives for the cells
    [lo .. lo + n). *)
Fixpoint cell_string (l : list Z) (lo : Z) (n : nat) : string :=
  match n with
  | O => EmptyString
  | S n' => (print_int (get l lo) ++ cell_string l (lo + 1) n')%string
  end.

(** The reference line for the digit budget [D] when the loop stays inside
    the constant: the first [D - 1] of its hundred digits. *)
Definition reference_line (D : Z) : string :=
  (nl ++ "The actual value of pi is     3." ++
   string_of_list_ascii
     (firstn (Z.to_nat (Z.min (D - 1) 100)) (skipn 2 accepted_pi)))%string.

(** Whether [print_accepted_pi] gives the reference line for every budget
    from [D] down to [D - n + 1]. *)
Fixpoint reference_line_ok (n : nat) (D : Z) : bool :=
  match n with
  | O => true
  | S n' =>
      match print_accepted_pi D with
      | Ok s => String.eqb s (reference_line D)
      | _ => false
      end && reference_line_ok n' (D - 1)
  end.

(** * Proofs *)

(** Case analysis on the integer comparisons of the goal. *)
Ltac break_cmp :=
  repeat match goal with
  | |- context [Z.ltb ?a ?b] => destruct (Z.ltb_spec a b)
  | |- context [Z.leb ?a ?b] => destruct (Z.leb_spec a b)
  | |- context [Z.eqb ?a ?b] => destruct (Z.eqb_spec a b)
  | |- context [Z.gtb ?a ?b] => destruct (Z.gtb_spec a b)
  | |- context [Z.geb ?a ?b] => destruct (Z.geb_spec a b)
  end.

(** ** Machine integers *)

Lemma wrap_long_id z : - 2 ^ 63 <= z < 2 ^ 63 -> wrap_long z = z.
Proof. intros H. unfold wrap_long. rewrite Z.mod_small; lia. Qed.

Lemma wrap_ulong_id z : 0 <= z < 2 ^ 64 -> wrap_ulong z = z.
Proof. intros H. unfold wrap_ulong. apply Z.mod_small; lia. Qed.

Lemma wrap_int_id z : - 2 ^ 31 <= z < 2 ^ 31 -> wrap_int z = z.
Proof. intros H. unfold wrap_int. rewrite Z.mod_small; lia. Qed.

Lemma wrap_char_id z : - 128 <= z < 128 -> wrap_char z = z.
Proof. intros H. unfold wrap_char. rewrite Z.mod_small; lia. Qed.

Lemma wrap_ulong_nonneg z : 0 <= wrap_ulong z.
Proof. unfold wrap_ulong. apply Z.mod_pos_bound. lia. Qed.

Lemma max_precision_int p : p <= max_precision -> 2 * p + 2 < 2 ^ 31.
Proof. unfold max_precision. lia. Qed.

(** ** Buffers *)

Lemma length_upd n v l : length (upd n v l) = length l.
Proof.
  revert n; induction l as [|x l IH]; intros [|n]; simpl; auto.
Qed.

Lemma len_put l i v : len (put l i v) = len l.
Proof. unfold len, put. now rewrite length_upd. Qed.

Lemma len_nonneg l : 0 <= len l.
Proof. unfold len. lia. Qed.

Lemma nth_upd_same n v l : (n < length l)%nat -> nth n (upd n v l) 0 = v.
Proof.
  revert n; induction l as [|x l IH]; intros [|n] H; simpl in *; try lia; auto.
  apply IH. lia.
Qed.

Lemma nth_upd_other n m v l : n <> m -> nth m (upd n v l) 0 = nth m l 0.
Proof.
  revert n m; induction l as [|x l IH]; intros [|n] [|m] H; simpl; auto.
  congruence.
Qed.

Lemma get_put_same l i v : 0 <= i < len l -> get (put l i v) i = v.
Proof. unfold get, put, len. intros H. apply nth_upd_same. lia. Qed.

Lemma get_put_other l i j v : 0 <= i -> 0 <= j -> i <> j ->
  get (put l i v) j = get l j.
Proof. unfold get, put. intros Hi Hj H. apply nth_upd_other. lia. Qed.

Lemma get_put l i j v : 0 <= i < len l -> 0 <= j ->
  get (put l i v) j = if j =? i then v else get l j.
Proof.
  intros Hi Hj. destruct (Z.eqb_spec j i) as [->|Hne].
  - now apply get_put_same.
  - apply get_put_other; lia.
Qed.

Lemma get_outside l i : len l <= i -> get l i = 0.
Proof. unfold get, len. intros H. apply nth_overflow. lia. Qed.

Lemma get_repeat v n i : 0 <= i < Z.of_nat n -> get (repeat v n) i = v.
Proof.
  unfold get. intros H. rewrite nth_repeat_lt; [reflexivity | lia].
Qed.

Lemma get_repeat_0 n i : get (repeat 0 n) i = 0.
Proof. unfold get. apply nth_repeat. Qed.

Lemma len_repeat v n : len (repeat v n) = Z.of_nat n.
Proof. unfold len. now rewrite repeat_length. Qed.

Lemma buf_ext l1 l2 :
  len l1 = len l2 -> (forall i, 0 <= i < len l1 -> get l1 i = get l2 i) ->
  l1 = l2.
Proof.
  unfold len, get. intros Hl H. apply (nth_ext _ _ 0 0); [lia|].
  intros n Hn. specialize (H (Z.of_nat n)). rewrite Nat2Z.id in H.
  apply H. lia.
Qed.

Lemma rd_ok l i : 0 <= i < len l -> len l < 2 ^ 31 -> rd l i = Ok (get l i).
Proof.
  unfold rd, in_buf, len, get. intros Hi Hl.
  rewrite wrap_int_id by lia.
  destruct (Z.leb_spec 0 i), (Z.ltb_spec i (Z.of_nat (length l))); try lia.
  reflexivity.
Qed.

Lemma wr_ok l i v : 0 <= i < len l -> len l < 2 ^ 31 -> -128 <= v < 128 ->
  wr l i v = Ok (put l i v).
Proof.
  unfold wr, in_buf, len, put. intros Hi Hl Hv.
  rewrite wrap_int_id by lia. rewrite wrap_char_id by lia.
  destruct (Z.leb_spec 0 i), (Z.ltb_spec i (Z.of_nat (length l))); try lia.
  reflexivity.
Qed.

Lemma calloc_ok n : 0 <= n < 2 ^ 31 -> calloc true n = Some (repeat 0 (Z.to_nat n)).
Proof.
  intros H. unfold calloc. rewrite wrap_int_id by lia. simpl.
  destruct (Z.leb_spec 0 n); [reflexivity | lia].
Qed.

Lemma digit_cells_get l i : digit_cells l -> 0 <= get l i <= 9.
Proof.
  unfold digit_cells, get. intros H.
  destruct (Nat.lt_ge_cases (Z.to_nat i) (length l)) as [Hlt|Hge].
  - rewrite Forall_forall in H. apply H. now apply nth_In.
  - rewrite nth_overflow by lia. lia.
Qed.

Lemma digit_cells_upd n v l : digit_cells l -> 0 <= v <= 9 -> digit_cells (upd n v l).
Proof.
  unfold digit_cells. intros H Hv. revert n.
  induction H as [|x l Hx H IH]; intros [|n]; simpl; constructor; auto.
Qed.

Lemma digit_cells_put l i v : digit_cells l -> 0 <= v <= 9 -> digit_cells (put l i v).
Proof. unfold put. apply digit_cells_upd. Qed.

Lemma digit_cells_repeat n : digit_cells (repeat 0 n).
Proof.
  unfold digit_cells. apply Forall_forall. intros x Hx.
  apply repeat_spec in Hx. lia.
Qed.

Lemma digit_cells_of_get l :
  (forall i, 0 <= i < len l -> 0 <= get l i <= 9) -> digit_cells l.
Proof.
  unfold digit_cells, get, len. intros H. apply Forall_forall. intros x Hx.
  destruct (In_nth _ _ 0 Hx) as (n & Hn & <-).
  specialize (H (Z.of_nat n)). rewrite Nat2Z.id in H. apply H. lia.
Qed.

Lemma put_put l i v w : put (put l i v) i w = put l i w.
Proof.
  unfold put. generalize (Z.to_nat i) as n. intros n. revert n.
  induction l as [|x l IH]; intros [|n]; simpl; auto. now rewrite IH.
Qed.

Lemma wr_outside l i v : len l <= i < 2 ^ 31 -> wr l i v = Undef.
Proof.
  unfold wr, in_buf, len. intros H. pose proof (Zle_0_nat (length l)).
  rewrite wrap_int_id by lia. break_cmp; try lia. reflexivity.
Qed.

Lemma len_zero_cells n : 0 <= n -> len (zero_cells n) = n.
Proof. intros H. unfold zero_cells. rewrite len_repeat. lia. Qed.

Lemma get_zero_cells n i : get (zero_cells n) i = 0.
Proof. apply get_repeat_0. Qed.

Lemma digit_cells_zero_cells n : digit_cells (zero_cells n).
Proof. apply digit_cells_repeat. Qed.

(** ** Loops

    Invariant rules.  They give the result of the loop, not only what holds
    if there is one: a body that can go wrong does not pass. *)

Lemma for_iter_rule {St : Type} (Inv : Z -> St -> Prop) body n : forall lo s,
  Inv lo s ->
  (forall i s, lo <= i < lo + Z.of_nat n -> Inv i s ->
     exists s', body i s = Ok s' /\ Inv (i + 1) s') ->
  exists s', for_iter n lo body s = Ok s' /\ Inv (lo + Z.of_nat n) s'.
Proof.
  induction n as [|n IH]; intros lo s H0 Hstep.
  - exists s. simpl. rewrite Z.add_0_r. auto.
  - destruct (Hstep lo s) as (s1 & Hb & H1); [lia | assumption |].
    destruct (IH (lo + 1) s1 H1) as (s2 & Hr & H2).
    { intros i s' Hi. apply Hstep. lia. }
    exists s2. cbn [for_iter]. rewrite Hb. cbn [bind]. split; [assumption|].
    replace (lo + Z.of_nat (S n)) with (lo + 1 + Z.of_nat n) by lia. assumption.
Qed.

Lemma for_loop_rule {St : Type} (Inv : Z -> St -> Prop) lo hi body s :
  lo <= hi -> Inv lo s ->
  (forall i s, lo <= i < hi -> Inv i s ->
     exists s', body i s = Ok s' /\ Inv (i + 1) s') ->
  exists s', for_loop lo hi body s = Ok s' /\ Inv hi s'.
Proof.
  intros Hle H0 Hstep. unfold for_loop.
  destruct (for_iter_rule Inv body (Z.to_nat (hi - lo)) lo s H0) as (s' & Hr & H1).
  { intros i s1 Hi. apply Hstep. lia. }
  exists s'. split; [assumption|].
  replace (lo + Z.of_nat (Z.to_nat (hi - lo))) with hi in H1 by lia. assumption.
Qed.

Lemma for_loop_none {St : Type} lo hi (body : Z -> St -> result St) s :
  hi <= lo -> for_loop lo hi body s = Ok s.
Proof.
  intros H. unfold for_loop. replace (Z.to_nat (hi - lo)) with O by lia. reflexivity.
Qed.

(** [m] is a variant: it stays non-negative and drops with every round, so
    a budget of [m s] rounds is enough. *)
Lemma while_rule {St : Type} (Inv : St -> Prop) (m : St -> Z) cond body fuel :
  forall s, Inv s -> m s <= Z.of_nat fuel ->
  (forall s, Inv s -> cond s = true ->
     exists s', body s = Ok s' /\ Inv s' /\ 0 <= m s' < m s) ->
  exists s', while fuel cond body s = Ok s' /\ Inv s' /\ cond s' = false.
Proof.
  induction fuel as [|f IH]; intros s H0 Hm Hstep.
  - destruct (cond s) eqn:Hc.
    + destruct (Hstep s H0 Hc) as (s' & _ & _ & Hlt). lia.
    + exists s. simpl. rewrite Hc. auto.
  - destruct (cond s) eqn:Hc.
    + destruct (Hstep s H0 Hc) as (s1 & Hb & H1 & Hlt).
      destruct (IH s1 H1) as (s2 & Hr & H2); [lia | assumption |].
      exists s2. simpl. rewrite Hc, Hb. simpl. auto.
    + exists s. simpl. rewrite Hc. auto.
Qed.


Lemma while_done {St : Type} fuel cond (body : St -> result St) s :
  cond s = false -> while fuel cond body s = Ok s.
Proof. intros H. destruct fuel; simpl; now rewrite H. Qed.

(** Two loops run side by side under a relation of their states. *)
Lemma for_iter_rule2 {S1 S2 : Type} (R : Z -> S1 -> S2 -> Prop) b1 b2 n :
  forall lo s1 s2,
  R lo s1 s2 ->
  (forall i s1 s2, lo <= i < lo + Z.of_nat n -> R i s1 s2 ->
     exists s1' s2', b1 i s1 = Ok s1' /\ b2 i s2 = Ok s2' /\ R (i + 1) s1' s2') ->
  exists r1 r2, for_iter n lo b1 s1 = Ok r1 /\ for_iter n lo b2 s2 = Ok r2 /\
    R (lo + Z.of_nat n) r1 r2.
Proof.
  induction n as [|n IH]; intros lo s1 s2 H0 Hstep.
  - exists s1, s2. cbn [for_iter]. rewrite Z.add_0_r. auto.
  - destruct (Hstep lo s1 s2) as (t1 & t2 & Hb1 & Hb2 & H1); [lia | assumption |].
    destruct (IH (lo + 1) t1 t2 H1) as (r1 & r2 & Hr1 & Hr2 & H2).
    { intros i u1 u2 Hi. apply Hstep. lia. }
    exists r1, r2. cbn [for_iter]. rewrite Hb1, Hb2. cbn [bind].
    repeat split; try assumption.
    replace (lo + Z.of_nat (S n)) with (lo + 1 + Z.of_nat n) by lia. assumption.
Qed.

Lemma for_loop_rule2 {S1 S2 : Type} (R : Z -> S1 -> S2 -> Prop) lo hi b1 b2 s1 s2 :
  lo <= hi -> R lo s1 s2 ->
  (forall i s1 s2, lo <= i < hi -> R i s1 s2 ->
     exists s1' s2', b1 i s1 = Ok s1' /\ b2 i s2 = Ok s2' /\ R (i + 1) s1' s2') ->
  exists r1 r2, for_loop lo hi b1 s1 = Ok r1 /\ for_loop lo hi b2 s2 = Ok r2 /\
    R hi r1 r2.
Proof.
  intros Hle H0 Hstep. unfold for_loop.
  destruct (for_iter_rule2 R b1 b2 (Z.to_nat (hi - lo)) lo s1 s2 H0)
    as (r1 & r2 & Hr1 & Hr2 & H1).
  { intros i u1 u2 Hi. apply Hstep. lia. }
  exists r1, r2. repeat split; try assumption.
  replace (lo + Z.of_nat (Z.to_nat (hi - lo))) with hi in H1 by lia. assumption.
Qed.

(** Apply the rules to the loop in the goal. *)
Ltac use_while Inv m :=
  match goal with
  | |- context [while ?f ?c ?b ?s] =>
      let s' := fresh "s" in
      let Hrun := fresh "Hrun" in
      let Hinv := fresh "Hinv" in
      let Hexit := fresh "Hexit" in
      destruct (while_rule Inv m c b f s) as (s' & Hrun & Hinv & Hexit);
      [ | | | rewrite Hrun; cbn [bind] ]
  end.

Ltac use_for Inv :=
  match goal with
  | |- context [for_loop ?lo ?hi ?b ?s] =>
      let s' := fresh "s" in
      let Hrun := fresh "Hrun" in
      let Hinv := fresh "Hinv" in
      destruct (for_loop_rule Inv lo hi b s) as (s' & Hrun & Hinv);
      [ | | | rewrite Hrun; cbn [bind] ]
  end.

(** ** Reset and copy *)

Lemma zero_loop d n :
  0 <= n <= len d -> len d < 2 ^ 31 ->
  exists d', for_loop 0 n (fun i d => wr d i 0) d = Ok d' /\
    len d' = len d /\
    forall j, 0 <= j -> get d' j = if j <? n then 0 else get d j.
Proof.
  intros Hn Hl.
  destruct (for_loop_rule
    (fun i d' => len d' = len d /\
       forall j, 0 <= j -> get d' j = if j <? i then 0 else get d j)
    0 n (fun i d => wr d i 0) d) as (d' & Hr & Hlen & Hget);
    [lia | | | exists d'; auto].
  - split; [reflexivity|]. intros j Hj. destruct (Z.ltb_spec j 0); [lia | reflexivity].
  - intros i s Hi (Hlen & Hget). exists (put s i 0).
    split; [apply wr_ok; lia|]. split; [now rewrite len_put|].
    intros j Hj. rewrite get_put by lia.
    rewrite Hget by lia. break_cmp; lia.
Qed.

(** [bignum_reset] zeroes the cells below [sig_digs] and no other. *)
Lemma bignum_reset_exact b :
  0 <= sig_digs b <= len (digits b) -> len (digits b) < 2 ^ 31 ->
  exists b',
    bignum_reset b = Ok b' /\ sig_digs b' = 0 /\
    precision b' = precision b /\ len (digits b') = len (digits b) /\
    forall j, 0 <= j ->
      get (digits b') j = if j <? sig_digs b then 0 else get (digits b) j.
Proof.
  intros Hsig Hlen. unfold bignum_reset.
  destruct (Z.ltb_spec 0 (sig_digs b)) as [Hpos|Hz].
  - destruct (zero_loop (digits b) (sig_digs b)) as (d' & -> & Hl & Hg);
      [lia | lia |].
    cbn [bind]. eexists. split; [reflexivity|].
    cbn [sig_digs precision digits]. auto.
  - exists b. split; [reflexivity|]. split; [lia|].
    split; [reflexivity|]. split; [reflexivity|].
    intros j Hj. destruct (Z.ltb_spec j (sig_digs b)); [lia | reflexivity].
Qed.

Lemma all_zero_repeat d : (forall j, 0 <= j < len d -> get d j = 0) ->
  d = repeat 0 (Z.to_nat (len d)).
Proof.
  intros H. apply buf_ext.
  - rewrite len_repeat. pose proof (len_nonneg d). lia.
  - intros i Hi. rewrite get_repeat_0. now apply H.
Qed.

Lemma bignum_reset_zero p b :
  0 <= p < 2 ^ 31 -> precision b = p -> len (digits b) = p ->
  0 <= sig_digs b <= p -> zero_tail b ->
  exists pw, bignum_reset b = Ok (mk_bignum pw 0 (repeat 0 (Z.to_nat p)) p).
Proof.
  intros Hp Hprec Hlen Hsig Htail. unfold bignum_reset.
  destruct (Z.ltb_spec 0 (sig_digs b)) as [Hpos|Hz].
  - destruct (zero_loop (digits b) (sig_digs b)) as (d' & -> & Hl & Hg); [lia | lia |].
    exists 0. cbn [bind]. rewrite Hprec. do 2 f_equal. rewrite <- Hlen, <- Hl.
    apply all_zero_repeat. intros j Hj. rewrite Hg by lia.
    destruct (Z.ltb_spec j (sig_digs b)); [reflexivity|]. apply Htail. lia.
  - exists (power b). destruct b as [pw sd d pr]; simpl in *.
    assert (sd = 0) by lia. subst. do 2 f_equal.
    apply all_zero_repeat. intros j Hj. apply Htail. simpl. lia.
Qed.

Lemma bignum_reset_wf p b : 0 <= p < 2 ^ 31 -> wf p b ->
  exists pw, bignum_reset b = Ok (mk_bignum pw 0 (repeat 0 (Z.to_nat p)) p).
Proof. intros Hp [? ? ? ? ? ?]. now apply bignum_reset_zero. Qed.

(** A reset bignum is left alone by another reset. *)
Lemma bignum_reset_idle pw d p :
  bignum_reset (mk_bignum pw 0 d p) = Ok (mk_bignum pw 0 d p).
Proof. reflexivity. Qed.

Lemma copy_loop src dst n :
  0 <= n -> n <= len src -> n <= len dst -> len src < 2 ^ 31 -> len dst < 2 ^ 31 ->
  (forall j, 0 <= j < n -> -128 <= get src j < 128) ->
  exists d', for_loop 0 n (fun i d => v <- rd src i ;; wr d i v) dst = Ok d' /\
    len d' = len dst /\
    forall j, 0 <= j -> get d' j = if j <? n then get src j else get dst j.
Proof.
  intros Hn Hs Hd Hls Hld Hc.
  destruct (for_loop_rule
    (fun i d' => len d' = len dst /\
       forall j, 0 <= j -> get d' j = if j <? i then get src j else get dst j)
    0 n (fun i d => v <- rd src i ;; wr d i v) dst) as (d' & Hr & Hlen & Hget);
    [lia | | | exists d'; auto].
  - split; [reflexivity|]. intros j Hj. destruct (Z.ltb_spec j 0); [lia | reflexivity].
  - intros i s Hi (Hlen & Hget). exists (put s i (get src i)).
    rewrite rd_ok by lia. cbn [bind].
    split; [apply wr_ok; try lia; apply Hc; lia|]. split; [now rewrite len_put|].
    intros j Hj. rewrite get_put by lia.
    rewrite Hget by lia. break_cmp; subst; lia.
Qed.

Lemma digit_cells_char l j : digit_cells l -> -128 <= get l j < 128.
Proof. intros H. pose proof (digit_cells_get l j H). lia. Qed.

(** Copying a well-formed bignum into a reset one of the same precision
    gives the same bignum. *)
Lemma bignum_set_zero p pw src :
  0 <= p < 2 ^ 31 -> wf p src -> 0 < sig_digs src ->
  bignum_set (mk_bignum pw 0 (repeat 0 (Z.to_nat p)) p) src = Ok src.
Proof.
  intros Hp [Hprec Hlen Hsig Hcells Htail Hlead] Hpos. unfold bignum_set.
  destruct (Z.ltb_spec 0 (sig_digs src)); [|lia]. cbn [precision digits].
  destruct (Z.gtb_spec (sig_digs src) p); [lia|].
  destruct (copy_loop (digits src) (repeat 0 (Z.to_nat p)) (sig_digs src))
    as (d' & -> & Hl & Hg); rewrite ?len_repeat; try lia.
  { intros j _. now apply digit_cells_char. }
  cbn [bind]. destruct src as [spw ssd sd spr]; simpl in *. subst spr.
  do 2 f_equal. apply buf_ext; [rewrite Hl, len_repeat; lia|].
  intros i Hi. rewrite Hg by lia. destruct (Z.ltb_spec i ssd); [reflexivity|].
  rewrite get_repeat_0. symmetry. apply Htail. simpl. rewrite len_repeat in Hl. lia.
Qed.



(** ** Decimal digits of a native integer *)

Lemma pow10_pos c : 0 <= c -> 0 < 10 ^ c.
Proof. intros. apply Z.pow_pos_nonneg; lia. Qed.

Lemma digit_count_budget n k :
  1 <= k -> 10 ^ (k - 1) <= n -> k <= Z.of_nat (split_budget n).
Proof.
  intros Hk Hn. unfold split_budget.
  assert (0 < n) by (pose proof (pow10_pos (k - 1)); lia).
  assert (2 ^ (k - 1) <= 10 ^ (k - 1)) by (apply Z.pow_le_mono_l; lia).
  assert (2 ^ (k - 1) <= n) by (eapply Z.le_trans; eassumption).
  assert (k - 1 <= Z.log2 n) by (apply Z.log2_le_pow2; assumption).
  lia.
Qed.

Lemma div_pow10_pos n c k :
  0 <= n -> 0 <= c -> n < 10 ^ k -> 0 < n / 10 ^ c -> c < k.
Proof.
  intros Hn0 Hc Hn Hpos. pose proof (pow10_pos c Hc).
  destruct (Z_lt_le_dec c k) as [|Hge]; [assumption|].
  assert (10 ^ k <= 10 ^ c) by (apply Z.pow_le_mono_r; lia).
  rewrite Z.div_small in Hpos; lia.
Qed.

Lemma div_pow10_step n c : 0 <= n -> 0 <= c ->
  n / 10 ^ c / 10 = n / 10 ^ (c + 1).
Proof.
  intros Hn Hc. pose proof (pow10_pos c Hc).
  rewrite Z.div_div by lia. rewrite Z.pow_add_r by lia. reflexivity.
Qed.

Lemma lead_digit n k : 1 <= k -> 10 ^ (k - 1) <= n < 10 ^ k ->
  1 <= n / 10 ^ (k - 1) <= 9.
Proof.
  intros Hk [Hlo Hhi]. pose proof (pow10_pos (k - 1)).
  replace k with (k - 1 + 1) in Hhi by lia. rewrite Z.pow_add_r in Hhi by lia.
  split.
  - apply Z.div_le_lower_bound; lia.
  - assert (n / 10 ^ (k - 1) < 10); [|lia].
    apply Z.div_lt_upper_bound; lia.
Qed.

Section SetInt.
Variables (p n k : Z).
Hypothesis Hp : 1 <= p < 2 ^ 31.
Hypothesis Hk : 1 <= k <= p.
Hypothesis Hn : 10 ^ (k - 1) <= n < 10 ^ k.

Lemma set_int_pos : 0 < n.
Proof. pose proof (pow10_pos (k - 1)). lia. Qed.

Lemma split_loop :
  exists tw,
    while (split_budget n)
      (fun '(_, temp_int, _) => 0 <? temp_int)
      (fun '(tw, temp_int, counter) =>
         tw' <- wr tw counter (Z.rem temp_int 10) ;;
         Ok (tw', Z.quot temp_int 10, counter + 1))
      (repeat 0 (Z.to_nat p), n, 0) = Ok (tw, 0, k) /\
    len tw = p /\
    (forall j, 0 <= j < k -> get tw j = (n / 10 ^ j) mod 10) /\
    (forall j, k <= j -> get tw j = 0).
Proof.
  pose proof set_int_pos as npos.
  use_while
    (fun st : list Z * Z * Z =>
       let '(tw, t, c) := st in
       len tw = p /\ 0 <= c <= k /\ t = n / 10 ^ c /\
       (forall j, 0 <= j < c -> get tw j = (n / 10 ^ j) mod 10) /\
       (forall j, c <= j -> get tw j = 0))
    (fun st : list Z * Z * Z => k - snd st).
  - cbn. rewrite len_repeat. repeat split; try lia.
    + now rewrite Z.div_1_r.
    + intros. apply get_repeat_0.
  - cbn [snd]. rewrite Z.sub_0_r. apply digit_count_budget; lia.
  - intros [[tw t] c] (Hl & Hc & Ht & Hlow & Hhigh) Hcond. cbn [snd].
    apply Z.ltb_lt in Hcond.
    assert (c < k) by (apply (div_pow10_pos n); lia).
    assert (0 <= t) by lia.
    rewrite Z.rem_mod_nonneg, Z.quot_div_nonneg by lia.
    pose proof (Z.mod_pos_bound t 10 ltac:(lia)).
    rewrite wr_ok by lia. cbn [bind].
    eexists. split; [reflexivity|]. split; [|cbn [snd]; lia].
    rewrite len_put. repeat split; try lia.
    + subst t. apply div_pow10_step; lia.
    + intros j Hj. rewrite get_put by lia. break_cmp; subst; auto.
      apply Hlow; lia.
    + intros j Hj. rewrite get_put by lia. break_cmp; try lia. apply Hhigh; lia.
  - destruct s as [[tw t] c]. destruct Hinv as (Hl & Hc & Ht & Hlow & Hhigh).
    apply Z.ltb_ge in Hexit.
    assert (t = 0).
    { assert (0 <= t); [|lia]. subst t. apply Z.div_pos; [lia|].
      apply pow10_pos; lia. }
    assert (c = k).
    { destruct (Z_lt_le_dec c k) as [Hlt|]; [|lia]. exfalso.
      assert (10 ^ c <= 10 ^ (k - 1)) by (apply Z.pow_le_mono_r; lia).
      assert (1 <= n / 10 ^ c); [|lia].
      apply Z.div_le_lower_bound; [apply pow10_pos|]; lia. }
    subst. exists tw. rewrite H. auto.
Qed.

Lemma scan_loop tw :
  len tw = p -> get tw (k - 1) <> 0 ->
  exists lz,
    while (S (length tw))
      (fun '(_, hasleading) => hasleading =? 1)
      (fun '(leadingzeros, hasleading) =>
         v <- rd tw leadingzeros ;;
         if negb (v =? 0) then Ok (leadingzeros, 0)
         else Ok (leadingzeros + 1, hasleading))
      (0, 1) = Ok (lz, 0) /\
    0 <= lz <= k - 1 /\ get tw lz <> 0 /\
    (forall j, 0 <= j < lz -> get tw j = 0).
Proof.
  intros Hl Hmsd.
  use_while
    (fun st : Z * Z =>
       let '(lz, hl) := st in
       0 <= lz <= k - 1 /\ (forall j, 0 <= j < lz -> get tw j = 0) /\
       (hl = 1 \/ (hl = 0 /\ get tw lz <> 0)))
    (fun st : Z * Z => if snd st =? 1 then k - fst st + 1 else 0).
  - repeat split; try lia.
  - cbn [fst snd]. unfold len in Hl. rewrite Z.eqb_refl. lia.
  - intros [lz hl] (Hlz & Hz & Hhl) Hcond. apply Z.eqb_eq in Hcond. subst hl.
    rewrite rd_ok by lia. cbn [bind fst snd].
    destruct (Z.eqb_spec (get tw lz) 0) as [Hzero|Hnz]; cbn [negb].
    + assert (lz <> k - 1) by congruence.
      eexists. split; [reflexivity|]. cbn [fst snd]. rewrite Z.eqb_refl.
      repeat split; try lia. intros j Hj.
      destruct (Z.eq_dec j lz); [subst; assumption | apply Hz; lia].
    + eexists. split; [reflexivity|]. cbn [fst snd]. rewrite Z.eqb_refl.
      change (0 =? 1) with false. cbn iota.
      repeat split; try lia; auto.
  - destruct s as [lz hl]. destruct Hinv as (Hlz & Hz & Hhl).
    apply Z.eqb_neq in Hexit. destruct Hhl as [|[-> Hnz]]; [contradiction|].
    exists lz. auto.
Qed.

(** What [bignum_set_int] stores for a representable [n]. *)
Lemma bignum_set_int_fits dst :
  precision dst = p -> len (digits dst) = p ->
  exists r,
    bignum_set_int true dst n = Ok (1, r) /\
    power r = k - 1 /\ 1 <= sig_digs r <= k /\ precision r = p /\
    len (digits r) = p /\
    (forall i, 0 <= i < sig_digs r ->
       get (digits r) i = (n / 10 ^ (k - 1 - i)) mod 10) /\
    (forall i, sig_digs r <= i < k -> (n / 10 ^ (k - 1 - i)) mod 10 = 0) /\
    get (digits r) (sig_digs r - 1) <> 0 /\
    (forall i, sig_digs r <= i -> get (digits r) i = get (digits dst) i).
Proof.
  intros Hprec Hlen. pose proof set_int_pos as npos.
  unfold bignum_set_int. destruct (Z.ltb_spec 0 n); [|lia].
  rewrite Hprec, calloc_ok by lia.
  destruct split_loop as (tw & -> & Hl & Hlow & Hhigh). cbn [bind].
  assert (Hmsd : get tw (k - 1) <> 0).
  { rewrite Hlow by lia. pose proof (lead_digit n k ltac:(lia) Hn).
    rewrite Z.mod_small; lia. }
  destruct (scan_loop tw Hl Hmsd) as (lz & -> & Hlz & Hnz & Hz). cbn [bind].
  assert (Hcells : forall j, 0 <= j -> 0 <= get tw j <= 9).
  { intros j Hj. destruct (Z_lt_le_dec j k).
    - rewrite Hlow by lia. pose proof (Z.mod_pos_bound (n / 10 ^ j) 10). lia.
    - rewrite Hhigh by lia. lia. }
  use_for (fun i d => len d = p /\
    forall j, 0 <= j -> get d j = if j <? i then get tw (k - 1 - j)
                                  else get (digits dst) j).
  - lia.
  - split; [assumption|]. intros j Hj. break_cmp; [lia | reflexivity].
  - intros i d Hi (Hld & Hd).
    rewrite rd_ok by lia. cbn [bind].
    pose proof (Hcells (k - i - 1) ltac:(lia)).
    rewrite wr_ok by lia. eexists. split; [reflexivity|].
    rewrite len_put. split; [assumption|].
    intros j Hj. rewrite get_put by lia. rewrite Hd by lia.
    break_cmp; subst; try lia. f_equal. lia.
  - destruct Hinv as (Hld & Hd). rewrite wrap_long_id by lia.
    eexists. split; [reflexivity|]. cbn [power sig_digs precision digits].
    repeat split; try lia.
    + intros i Hi. rewrite Hd by lia. break_cmp; [|lia].
      rewrite Hlow by lia. reflexivity.
    + intros i Hi. rewrite <- (Hlow (k - 1 - i)) by lia. apply Hz. lia.
    + rewrite Hd by lia. break_cmp; [|lia].
      replace (k - 1 - (k - lz - 1)) with lz by lia. assumption.
    + intros i Hi. rewrite Hd by lia. break_cmp; [lia | reflexivity].
Qed.

End SetInt.


(** An integer with more digits than the precision makes the splitting
    loop write past the end of its scratch word. *)
Lemma split_loop_overrun p n : 1 <= p < 2 ^ 31 -> 10 ^ p <= n ->
  forall (m : nat) (fuel : nat) tw c,
    len tw = p -> 0 <= c -> p - c = Z.of_nat m -> (m < fuel)%nat ->
    while fuel
      (fun '(_, temp_int, _) => 0 <? temp_int)
      (fun '(tw, temp_int, counter) =>
         tw' <- wr tw counter (Z.rem temp_int 10) ;;
         Ok (tw', Z.quot temp_int 10, counter + 1))
      (tw, n / 10 ^ c, c) = Undef.
Proof.
  intros Hp Hn. induction m as [|m IH]; intros fuel tw c Hl Hc Hm Hfuel.
  - destruct fuel as [|f]; [lia|]. cbn [while].
    assert (c = p) by lia. subst c.
    assert (1 <= n / 10 ^ p).
    { apply Z.div_le_lower_bound; [apply pow10_pos|]; lia. }
    destruct (Z.ltb_spec 0 (n / 10 ^ p)); [|lia].
    rewrite wr_outside by lia. reflexivity.
  - destruct fuel as [|f]; [lia|]. cbn [while].
    assert (10 ^ c <= 10 ^ p) by (apply Z.pow_le_mono_r; lia).
    assert (1 <= n / 10 ^ c).
    { apply Z.div_le_lower_bound; [apply pow10_pos|]; lia. }
    destruct (Z.ltb_spec 0 (n / 10 ^ c)); [|lia].
    rewrite Z.rem_mod_nonneg, Z.quot_div_nonneg by lia.
    pose proof (Z.mod_pos_bound (n / 10 ^ c) 10 ltac:(lia)).
    rewrite wr_ok by lia. cbn [bind].
    rewrite div_pow10_step by lia.
    apply IH; rewrite ?len_put; lia.
Qed.

Lemma bignum_set_int_overrun p n dst :
  1 <= p < 2 ^ 31 -> precision dst = p -> 10 ^ p <= n ->
  bignum_set_int true dst n = Undef.
Proof.
  intros Hp Hprec Hn. pose proof (pow10_pos p ltac:(lia)).
  unfold bignum_set_int. destruct (Z.ltb_spec 0 n); [|lia].
  rewrite Hprec, calloc_ok by lia.
  pose proof (digit_count_budget n (p + 1) ltac:(lia)) as Hb.
  replace (p + 1 - 1) with p in Hb by lia. specialize (Hb Hn).
  replace n with (n / 10 ^ 0) at 2 by (now rewrite Z.div_1_r).
  rewrite (split_loop_overrun p n Hp Hn (Z.to_nat p)); try reflexivity;
    rewrite ?len_repeat; lia.
Qed.

Lemma wfb_sound p b : wfb p b = true -> wf p b.
Proof.
  unfold wfb. rewrite !andb_true_iff.
  intros ((((((H1 & H2) & H3) & H4) & H5) & H6) & H7).
  apply Z.eqb_eq in H1, H2. apply Z.leb_le in H3, H4.
  rewrite forallb_forall in H5, H6.
  constructor; try assumption; try lia.
  - apply Forall_forall. intros x Hx. specialize (H5 x Hx).
    apply andb_true_iff in H5. destruct H5 as [Ha Hb].
    apply Z.leb_le in Ha, Hb. lia.
  - intros i Hi. unfold get, len in *.
    replace (Z.to_nat i)
      with (Z.to_nat (sig_digs b) + (Z.to_nat i - Z.to_nat (sig_digs b)))%nat
      by lia.
    rewrite <- nth_skipn. apply Z.eqb_eq. apply H6. apply nth_In.
    rewrite length_skipn. lia.
Qed.

Lemma digit_count n p : 0 <= p -> 0 < n < 10 ^ p ->
  exists k, 1 <= k <= p /\ 10 ^ (k - 1) <= n < 10 ^ k.
Proof.
  intros Hp. pattern p. apply natlike_ind; [| |assumption].
  - intros H. simpl in H. lia.
  - intros x Hx IH Hn. destruct (Z_lt_le_dec n (10 ^ x)) as [Hlt|Hge].
    + destruct IH as (k & Hk & Hnk); [lia|]. exists k. split; [lia | assumption].
    + exists (Z.succ x). split; [lia|].
      replace (Z.succ x - 1) with x by lia. lia.
Qed.

(** ** Scenario S6: one third *)






Lemma bignum_init_ok p : 0 <= p < 2 ^ 31 ->
  bignum_init true p = Ok (mk_bignum 0 0 (zero_cells p) p).
Proof.
  intros Hp. unfold bignum_init. rewrite calloc_ok by lia.
  rewrite wrap_ulong_id by lia. reflexivity.
Qed.

Lemma bignum_set_int_digit p v : 1 <= p < 2 ^ 31 -> 1 <= v <= 9 ->
  bignum_set_int true (mk_bignum 0 0 (zero_cells p) p) v
  = Ok (1, mk_bignum 0 1 (one_digit p v) p).
Proof.
  intros Hp Hv.
  destruct (bignum_set_int_fits p v 1 Hp ltac:(lia) ltac:(simpl; lia)
              (mk_bignum 0 0 (zero_cells p) p))
    as (r & -> & H1 & H2 & H3 & H4 & H5 & _ & _ & H8).
  { reflexivity. }
  { cbn [digits]. rewrite len_zero_cells; lia. }
  destruct r as [pw sd d pr]. cbn [power sig_digs digits precision] in *.
  do 2 f_equal. f_equal; try lia.
  apply buf_ext.
  - unfold one_digit. rewrite len_put, len_zero_cells; lia.
  - intros i Hi. unfold one_digit.
    rewrite get_put by (rewrite ?len_zero_cells; lia).
    destruct (Z.eqb_spec i 0) as [->|Hne].
    + rewrite H5 by lia. simpl. rewrite Z.div_1_r. apply Z.mod_small. lia.
    + rewrite H8 by lia. reflexivity.
Qed.


Section OneThird.
Variable p : Z.
Hypothesis Hp : 1 <= p <= max_precision.

Local Abbreviation den := (one_digit p 3).
Local Abbreviation zeros := (zero_cells (2 * p + 2)).

Lemma len_zeros : len zeros = 2 * p + 2.
Proof. rewrite len_zero_cells; lia. Qed.

Lemma len_den : len den = p.
Proof. unfold one_digit. rewrite len_put, len_zero_cells; lia. Qed.

Lemma get_den : get den 0 = 3.
Proof. unfold one_digit. apply get_put_same. rewrite len_zero_cells; lia. Qed.

Lemma compare_overflow tw ni : denom_compare den 1 tw ni 0 = Ok 0.
Proof. reflexivity. Qed.

Lemma compare_cell ni v :
  0 <= ni -> ni + 1 < 2 * p + 2 -> 0 <= v <= 9 ->
  denom_compare den 1 (put zeros (ni + 1) v) ni 1
  = Ok (if 3 >? v then 1 else 0).
Proof.
  intros Hni Hni' Hv. pose proof (max_precision_int p ltac:(lia)).
  pose proof len_zeros. pose proof len_den.
  unfold denom_compare. change (Z.to_nat 1) with 1%nat. cbn [while].
  change (1 - 1) with 0. change ((0 <=? 0) && (1 =? 1)) with true. cbn iota.
  replace (1 - 0 - 1) with 0 by lia. replace (1 + ni - 0) with (ni + 1) by lia.
  rewrite rd_ok by lia. rewrite get_den. cbn [bind].
  rewrite rd_ok by (rewrite len_put; lia). cbn [bind].
  rewrite get_put_same by lia.
  destruct (Z.gtb_spec 3 v); [reflexivity|].
  destruct (Z.ltb_spec 3 v); [reflexivity|].
  replace v with 3 by lia. reflexivity.
Qed.

Lemma subtract_borrow ni :
  0 <= ni -> ni + 1 < 2 * p + 2 ->
  for_loop 0 1 (subtract_step den 1 ni) (put zeros ni 1)
  = Ok (put zeros (ni + 1) 7).
Proof.
  intros Hni Hni'. pose proof (max_precision_int p ltac:(lia)).
  pose proof len_zeros. pose proof len_den.
  unfold for_loop. change (Z.to_nat (1 - 0)) with 1%nat. cbn [for_iter].
  unfold subtract_step.
  replace (1 - 0 - 1) with 0 by lia. replace (1 + ni - 0) with (ni + 1) by lia.
  replace (ni + 1 - 1) with ni by lia.
  rewrite rd_ok by (rewrite ?len_put; lia). cbn [bind].
  rewrite rd_ok by lia. rewrite get_den. cbn [bind].
  rewrite get_put_other, get_zero_cells by lia.
  rewrite wr_ok by (rewrite ?len_put; lia). cbn [bind].
  rewrite rd_ok by (rewrite ?len_put; lia). cbn [bind].
  rewrite get_put_same by (rewrite ?len_put; lia).
  change (0 - 3 <? 0) with true. cbn iota.
  rewrite wr_ok by (rewrite ?len_put; lia). cbn [bind].
  rewrite rd_ok by (rewrite ?len_put; lia). cbn [bind].
  rewrite !get_put_other by lia. rewrite get_put_same by lia.
  rewrite wr_ok by (rewrite ?len_put; lia). cbn [bind].
  f_equal. apply buf_ext; [now rewrite !len_put|].
  intros j Hj. rewrite !len_put in Hj.
  repeat (rewrite get_put by (rewrite ?len_put; lia)).
  rewrite !get_zero_cells.
  destruct (Z.eqb_spec j ni), (Z.eqb_spec j (ni + 1)); try lia; reflexivity.
Qed.

Lemma subtract_plain ni v :
  0 <= ni -> ni + 1 < 2 * p + 2 -> 3 <= v <= 9 ->
  for_loop 0 1 (subtract_step den 1 ni) (put zeros (ni + 1) v)
  = Ok (put zeros (ni + 1) (v - 3)).
Proof.
  intros Hni Hni' Hv. pose proof (max_precision_int p ltac:(lia)).
  pose proof len_zeros. pose proof len_den.
  unfold for_loop. change (Z.to_nat (1 - 0)) with 1%nat. cbn [for_iter].
  unfold subtract_step.
  replace (1 - 0 - 1) with 0 by lia. replace (1 + ni - 0) with (ni + 1) by lia.
  rewrite rd_ok by (rewrite ?len_put; lia). cbn [bind].
  rewrite rd_ok by lia. rewrite get_den. cbn [bind].
  rewrite get_put_same by lia.
  rewrite wr_ok by (rewrite ?len_put; lia). cbn [bind].
  rewrite rd_ok by (rewrite ?len_put; lia). cbn [bind].
  rewrite get_put_same by (rewrite ?len_put; lia).
  destruct (Z.ltb_spec (v - 3) 0); [lia|].
  cbn [bind]. now rewrite put_put.
Qed.

(** The window [1 0] holds three denominators and leaves [0 1]. *)
Lemma subtract_loop_third fuel ni :
  (4 <= fuel)%nat -> 0 <= ni -> ni + 1 < 2 * p + 2 ->
  subtract_loop fuel den 1 ni (put zeros ni 1)
  = Ok (put zeros (ni + 1) 1, 3).
Proof.
  intros Hfuel Hni Hni'. pose proof (max_precision_int p ltac:(lia)).
  pose proof len_zeros.
  destruct fuel as [|[|[|[|f]]]]; try lia.
  unfold subtract_loop. cbn [while].
  change (1 =? 1) with true. cbn iota.
  (* first round: the cell above the window is 1 *)
  rewrite rd_ok by (rewrite ?len_put; lia). cbn [bind].
  rewrite get_put_same by lia. change (0 <? 1) with true. cbn iota.
  rewrite compare_overflow. cbn [bind].
  change (0 =? 1) with false. cbn iota. change (1 =? 1) with true. cbn iota.
  rewrite subtract_borrow by lia. cbn [bind].
  change (wrap_char (0 + 1)) with 1.
  (* second round: 7 in the window *)
  rewrite rd_ok by (rewrite ?len_put; lia). cbn [bind].
  rewrite get_put_other by lia. rewrite get_zero_cells.
  change (0 <? 0) with false. cbn iota.
  rewrite compare_cell by lia. change (3 >? 7) with false. cbn iota. cbn [bind].
  change (0 =? 1) with false. cbn iota. change (1 =? 1) with true. cbn iota.
  rewrite subtract_plain by lia. cbn [bind].
  change (wrap_char (1 + 1)) with 2. change (7 - 3) with 4.
  (* third round: 4 in the window *)
  rewrite rd_ok by (rewrite ?len_put; lia). cbn [bind].
  rewrite get_put_other by lia. rewrite get_zero_cells.
  change (0 <? 0) with false. cbn iota.
  rewrite compare_cell by lia. change (3 >? 4) with false. cbn iota. cbn [bind].
  change (0 =? 1) with false. cbn iota. change (1 =? 1) with true. cbn iota.
  rewrite subtract_plain by lia. cbn [bind].
  change (wrap_char (2 + 1)) with 3. change (4 - 3) with 1.
  (* fourth round: 1 in the window, the denominator is bigger *)
  rewrite rd_ok by (rewrite ?len_put; lia). cbn [bind].
  rewrite get_put_other by lia. rewrite get_zero_cells.
  change (0 <? 0) with false. cbn iota.
  rewrite compare_cell by lia. change (3 >? 1) with true. cbn iota. cbn [bind].
  change (1 =? 1) with true. cbn iota. change (0 =? 1) with false. cbn iota.
  cbn [bind]. rewrite while_done by reflexivity. reflexivity.
Qed.

Lemma window_not_zero ni :
  0 <= ni -> ni + 1 < 2 * p + 2 ->
  window_is_zero (put zeros (ni + 1) 1) 1 ni = Ok false.
Proof.
  intros Hni Hni'. pose proof (max_precision_int p ltac:(lia)).
  pose proof len_zeros.
  unfold window_is_zero. change (S (Z.to_nat 1)) with 2%nat. cbn [while].
  change ((0 =? 0) && (0 <=? 1)) with true. cbn iota.
  replace (ni + 0) with ni by lia.
  rewrite rd_ok by (rewrite ?len_put; lia). cbn [bind].
  rewrite get_put_other by lia. rewrite get_zero_cells.
  change (0 <? 1) with true. cbn iota.
  change ((0 + 1 =? 0 + 1) && (0 + 1 <=? 1)) with true. cbn iota.
  rewrite rd_ok by (rewrite ?len_put; lia). cbn [bind].
  rewrite get_put_same by lia.
  reflexivity.
Qed.

Lemma divide_step_third fuel k d :
  (4 <= fuel)%nat -> 0 <= k < p -> len d = p ->
  divide_step fuel (mk_bignum 0 1 (one_digit p 1) p)
    (mk_bignum 0 1 den p) p (put zeros (k + 1) 1, d, k, k + 1, 1)
  = Ok (put zeros (k + 1 + 1) 1, put d k 3, k + 1, k + 1 + 1, 1).
Proof.
  intros Hfuel Hk Hd. pose proof (max_precision_int p ltac:(lia)).
  unfold divide_step. cbn [digits sig_digs].
  rewrite subtract_loop_third by lia. cbn [bind].
  assert (Hnz : (if k >? 1
                 then z <- window_is_zero (put zeros (k + 1 + 1) 1) 1 (k + 1) ;;
                      Ok (if z then 0 else 1)
                 else Ok 1) = Ok 1).
  { destruct (k >? 1); [|reflexivity].
    rewrite window_not_zero by lia. reflexivity. }
  rewrite Hnz. cbn [bind].
  destruct (Z.ltb_spec k p); [|lia].
  rewrite wr_ok by lia. reflexivity.
Qed.

Lemma divide_loop_third fuel :
  (4 <= fuel)%nat ->
  exists tw,
    while (Z.to_nat p)
      (fun '(_, _, sigdigctr, _, nonzero) =>
         (sigdigctr <? p) && (nonzero =? 1))
      (divide_step fuel (mk_bignum 0 1 (one_digit p 1) p)
         (mk_bignum 0 1 den p) p)
      (put zeros 1 1, zero_cells p, 0, 1, 1)
    = Ok (tw, repeat 3 (Z.to_nat p), p, p + 1, 1).
Proof.
  intros Hfuel.
  use_while
    (fun st : list Z * list Z * Z * Z * Z =>
       exists k d,
         st = (put zeros (k + 1) 1, d, k, k + 1, 1) /\
         0 <= k <= p /\ len d = p /\
         forall j, 0 <= j -> get d j = if j <? k then 3 else 0)
    (fun st : list Z * list Z * Z * Z * Z =>
       let '(_, _, k, _, _) := st in p - k).
  - exists 0, (zero_cells p). split; [reflexivity|].
    split; [lia|]. split; [apply len_zero_cells; lia|].
    intros j Hj. rewrite get_zero_cells. break_cmp; [lia | reflexivity].
  - lia.
  - intros st (k & d & -> & Hk & Hd & Hget) Hcond.
    apply andb_true_iff in Hcond. destruct Hcond as [Hlt _].
    apply Z.ltb_lt in Hlt.
    rewrite divide_step_third by lia.
    eexists. split; [reflexivity|]. split; [|lia].
    exists (k + 1), (put d k 3). split; [reflexivity|].
    split; [lia|]. split; [now rewrite len_put|].
    intros j Hj. rewrite get_put by lia. rewrite Hget by lia.
    break_cmp; try lia; reflexivity.
  - destruct Hinv as (k & d & -> & Hk & Hd & Hget).
    apply andb_false_iff in Hexit. destruct Hexit as [Hge|Hnz];
      [|discriminate Hnz].
    apply Z.ltb_ge in Hge. assert (k = p) by lia. subst k.
    assert (d = repeat 3 (Z.to_nat p)) as ->.
    { apply buf_ext; [rewrite len_repeat; lia|].
      intros j Hj. rewrite Hget by lia. rewrite get_repeat by lia.
      break_cmp; [reflexivity | lia]. }
    exists (put zeros (p + 1) 1). reflexivity.
Qed.

Lemma threes_no_trailing_zero :
  count_trailing_zeros (repeat 3 (Z.to_nat p)) (p - 1) = Ok 0.
Proof.
  pose proof (max_precision_int p ltac:(lia)).
  unfold count_trailing_zeros. cbn [while].
  change (1 =? 1) with true. cbn iota.
  rewrite rd_ok by (rewrite ?len_repeat; lia). cbn [bind].
  rewrite get_repeat by lia. change (3 =? 0) with false. cbn iota.
  cbn [bind]. rewrite while_done by reflexivity. reflexivity.
Qed.

Lemma divide_one_third fuel :
  (4 <= fuel)%nat ->
  bignum_divide fuel true (mk_bignum 0 0 (zero_cells p) p)
    (mk_bignum 0 1 (one_digit p 1) p) (mk_bignum 0 1 den p)
  = Ok (1, mk_bignum (-1) p (repeat 3 (Z.to_nat p)) p).
Proof.
  intros Hfuel. pose proof (max_precision_int p ltac:(lia)).
  pose proof len_zeros.
  unfold bignum_divide. cbn [bignum_reset sig_digs Z.ltb Z.compare bind].
  cbn [sig_digs precision digits power Z.eqb].
  rewrite (wrap_ulong_id (2 * p + 2)) by lia. rewrite calloc_ok by lia.
  fold (zero_cells (2 * p + 2)).
  (* the numerator goes into the word *)
  unfold for_loop at 1. change (Z.to_nat (1 - 0)) with 1%nat. cbn [for_iter].
  rewrite rd_ok by (unfold one_digit; rewrite len_put, len_zero_cells; lia).
  cbn [bind]. unfold one_digit at 1.
  rewrite get_put_same by (rewrite len_zero_cells; lia).
  rewrite wr_ok by lia. cbn [bind]. change (0 + 1) with 1.
  (* the denominator is bigger than the first window *)
  replace (put zeros 1 1) with (put zeros (0 + 1) 1) at 1 by reflexivity.
  rewrite compare_cell by lia. change (3 >? 1) with true. cbn iota.
  cbn [bind]. change (1 =? 1) with true. cbn iota.
  change (wrap_long (0 - 0)) with 0. change (wrap_long (0 - 1)) with (-1).
  destruct (divide_loop_third fuel Hfuel) as (tw & ->). cbn [bind].
  rewrite threes_no_trailing_zero. cbn [bind].
  rewrite Z.sub_0_r, wrap_ulong_id by lia. reflexivity.
Qed.
End OneThird.

Lemma string_app_assoc (a b c : string) :
  ((a ++ b) ++ c = a ++ (b ++ c))%string.
Proof. induction a as [|x a IH]; simpl; [reflexivity | now rewrite IH]. Qed.

Lemma print_threes d : len d < 2 ^ 31 ->
  forall n lo out, 0 <= lo -> lo + Z.of_nat n <= len d ->
    (forall j, lo <= j < lo + Z.of_nat n -> get d j = 3) ->
    for_iter n lo (fun i out => v <- rd d i ;; Ok (out ++ print_int v)%string) out
    = Ok (out ++ replicate n "3")%string.
Proof.
  intros Hd. induction n as [|n IH]; intros lo out Hlo Hhi Hget.
  - cbn. f_equal. induction out; simpl; congruence.
  - cbn [for_iter replicate]. rewrite rd_ok by lia. cbn [bind].
    rewrite Hget by lia. change (print_int 3) with "3"%string.
    rewrite IH by (try lia; intros; apply Hget; lia).
    rewrite string_app_assoc. reflexivity.
Qed.

Lemma print_one_third p : 1 <= p < 2 ^ 31 ->
  bignum_print (mk_bignum (-1) p (repeat 3 (Z.to_nat p)) p) 0
  = Ok ("0." ++ replicate (Z.to_nat p) "3")%string.
Proof.
  intros Hp. unfold bignum_print. cbn [sig_digs power digits].
  destruct (Z.eqb_spec p 0); [lia|].
  change (0 <? 0) with false. cbn [andb]. change (-1 <? 0) with true. cbn iota.
  change (wrap_long (-1 * -1)) with 1.
  unfold print_zeros. rewrite for_loop_none by lia. cbn [bind].
  unfold print_digits, for_loop. rewrite Z.sub_0_r.
  rewrite print_threes; rewrite ?len_repeat; try lia.
  - reflexivity.
  - intros j Hj. apply get_repeat. lia.
Qed.

(** ** Addition *)



(** The digit step of the addition, on cells that are decimal digits. *)
Lemma add_step_ok B sd i d c t z :
  len d < 2 ^ 31 -> len B = len d -> 0 <= i < sd -> sd <= len d ->
  digit_cells d -> digit_cells B -> 0 <= c <= 1 ->
  add_step B sd i (d, c, t, z)
  = let k := sd - i - 1 in
    let s := get d k + (get B k + c) in
    let v := if 10 <=? s then s - 10 else s in
    Ok (put d k v, if 10 <=? s then 1 else 0,
        if t =? 1 then (if v =? 0 then t else 0) else t,
        if t =? 1 then (if v =? 0 then z + 1 else z) else z).
Proof.
  intros Hl HB Hi Hsd Hd HBc Hc. unfold add_step. cbv zeta.
  pose proof (digit_cells_get d (sd - i - 1) Hd).
  pose proof (digit_cells_get B (sd - i - 1) HBc).
  rewrite !rd_ok by lia. cbn [bind].
  rewrite wr_ok by lia. cbn [bind].
  rewrite rd_ok by (rewrite ?len_put; lia). cbn [bind].
  rewrite get_put_same by lia.
  destruct (Z.leb_spec 10 (get d (sd - i - 1) + (get B (sd - i - 1) + c))).
  - rewrite wr_ok by (rewrite ?len_put; lia). cbn [bind].
    rewrite rd_ok by (rewrite ?len_put; lia). cbn [bind].
    rewrite put_put. rewrite get_put_same by lia.
    destruct (t =? 1); [|reflexivity].
    destruct (_ =? 0); reflexivity.
  - cbn [bind]. rewrite rd_ok by (rewrite ?len_put; lia). cbn [bind].
    rewrite get_put_same by lia.
    destruct (t =? 1); [|reflexivity].
    destruct (_ =? 0); reflexivity.
Qed.

(** The addition loop does not care which operand sits in the result. *)
Lemma add_loop_sym X Y sd :
  len X < 2 ^ 31 -> len Y = len X -> 0 <= sd <= len X ->
  digit_cells X -> digit_cells Y ->
  (forall j, sd <= j -> get X j = get Y j) ->
  exists r,
    for_loop 0 sd (add_step X sd) (Y, 0, 1, 0) = Ok r /\
    for_loop 0 sd (add_step Y sd) (X, 0, 1, 0) = Ok r.
Proof.
  intros Hl HY Hsd HX HYc Htail.
  destruct (for_loop_rule2
    (fun i (s1 s2 : list Z * Z * Z * Z) =>
       let '(d1, c1, t1, z1) := s1 in
       let '(d2, c2, t2, z2) := s2 in
       c1 = c2 /\ t1 = t2 /\ z1 = z2 /\ 0 <= c1 <= 1 /\
       len d1 = len X /\ len d2 = len X /\ digit_cells d1 /\ digit_cells d2 /\
       (forall j, sd - i <= j -> get d1 j = get d2 j) /\
       (forall j, 0 <= j < sd - i -> get d1 j = get Y j /\ get d2 j = get X j))
    0 sd (add_step X sd) (add_step Y sd) (Y, 0, 1, 0) (X, 0, 1, 0))
    as (r1 & r2 & Hr1 & Hr2 & HR).
  - lia.
  - repeat split; try lia; try assumption.
    intros j Hj. symmetry. apply Htail. lia.
  - intros i [[[d1 c1] t1] z1] [[[d2 c2] t2] z2]
      Hi (-> & -> & -> & Hc & Hl1 & Hl2 & Hd1 & Hd2 & Hhigh & Hlow).
    rewrite !add_step_ok by (try assumption; lia). cbv zeta.
    destruct (Hlow (sd - i - 1) ltac:(lia)) as [E1 E2].
    rewrite E1, E2.
    replace (get X (sd - i - 1) + (get Y (sd - i - 1) + c2))
      with (get Y (sd - i - 1) + (get X (sd - i - 1) + c2)) by lia.
    pose proof (digit_cells_get X (sd - i - 1) HX).
    pose proof (digit_cells_get Y (sd - i - 1) HYc).
    set (s := get Y (sd - i - 1) + (get X (sd - i - 1) + c2)) in *.
    set (v := if 10 <=? s then s - 10 else s).
    assert (Hv : 0 <= v <= 9) by (subst v; destruct (Z.leb_spec 10 s); lia).
    eexists. eexists. split; [reflexivity|]. split; [reflexivity|].
    rewrite !len_put. repeat split; try assumption;
      try (destruct (10 <=? s); lia); try (apply digit_cells_put; assumption).
    + intros j Hj. rewrite !get_put by lia.
      destruct (Z.eqb_spec j (sd - i - 1)); [reflexivity|]. apply Hhigh. lia.
    + rewrite get_put_other by lia. apply Hlow. lia.
    + rewrite get_put_other by lia. apply Hlow. lia.
  - destruct r1 as [[[d1 c1] t1] z1], r2 as [[[d2 c2] t2] z2].
    destruct HR as (-> & -> & -> & Hc & Hl1 & Hl2 & Hd1 & Hd2 & Hhigh & Hlow).
    assert (d1 = d2) as ->.
    { apply buf_ext; [congruence|]. intros j Hj. apply Hhigh. lia. }
    eexists. split; eassumption.
Qed.


Lemma add_transfer_spec p pw small diff :
  1 <= p < 2 ^ 31 -> wf p small -> 0 <= diff <= p ->
  exists d E,
    add_transfer (mk_bignum pw 0 (zero_cells p) p) small diff = Ok (d, E) /\
    0 <= E <= p /\ len d = p /\ digit_cells d /\
    (forall j, E <= j -> get d j = 0) /\
    (diff = 0 -> d = digits small /\ E = sig_digs small).
Proof.
  intros Hp [Hprec Hlen Hsig Hcells Htail Hlead] Hdiff.
  unfold add_transfer. cbn [precision digits].
  rewrite (wrap_long_id (sig_digs small + diff)) by lia.
  rewrite (wrap_ulong_id (sig_digs small + diff)) by lia.
  rewrite (wrap_long_id (p - diff)) by lia.
  set (E := if sig_digs small + diff >? p then p - diff else sig_digs small + diff).
  set (tt := if sig_digs small + diff >? p then p - diff else sig_digs small).
  assert (HE : 0 <= tt <= E /\ E <= p).
  { subst E tt. destruct (Z.gtb_spec (sig_digs small + diff) p); lia. }
  replace (if sig_digs small + diff >? p then (p - diff, p - diff)
           else (sig_digs small + diff, sig_digs small)) with (E, tt)
    by (subst E tt; destruct (sig_digs small + diff >? p); reflexivity).
  use_for (fun i (st : list Z * Z) =>
    let '(d, sdg) := st in
    sdg = E - 1 - i /\ len d = p /\ digit_cells d /\
    forall j, 0 <= j ->
      get d j = if (E - i <=? j) && (j <? E) && (diff <=? j)
                then get small.(digits) (j - diff) else 0).
  - lia.
  - split; [lia|]. split; [apply len_zero_cells; lia|].
    split; [apply digit_cells_zero_cells|].
    intros j Hj. rewrite get_zero_cells.
    destruct (Z.leb_spec (E - 0) j), (Z.ltb_spec j E); try lia; reflexivity.
  - intros i [d sdg] Hi (-> & Hl & Hd & Hget).
    destruct (Z.leb_spec 0 (E - 1 - i - diff)) as [Hge|Hlt].
    + rewrite rd_ok by lia. cbn [bind].
      pose proof (digit_cells_get (digits small) (E - 1 - i - diff) Hcells).
      rewrite wr_ok by lia. cbn [bind].
      eexists. split; [reflexivity|]. cbv beta iota.
      split; [lia|]. split; [now rewrite len_put|].
      split; [apply digit_cells_put; assumption|].
      intros j Hj. rewrite get_put by lia. rewrite Hget by lia.
      destruct (Z.eqb_spec j (E - 1 - i)) as [->|Hne].
      * destruct (Z.leb_spec (E - (i + 1)) (E - 1 - i)),
          (Z.ltb_spec (E - 1 - i) E), (Z.leb_spec diff (E - 1 - i));
          try lia; reflexivity.
      * destruct (Z.leb_spec (E - (i + 1)) j), (Z.leb_spec (E - i) j);
          try lia; reflexivity.
    + cbn [bind]. eexists. split; [reflexivity|]. cbv beta iota.
      split; [lia|]. split; [assumption|]. split; [assumption|].
      intros j Hj. rewrite Hget by lia.
      destruct (Z.leb_spec (E - (i + 1)) j), (Z.leb_spec (E - i) j),
        (Z.ltb_spec j E), (Z.leb_spec diff j); try lia; reflexivity.
  - destruct s as [d sdg]. destruct Hinv as (-> & Hl & Hd & Hget).
    exists d, E. split; [reflexivity|]. split; [lia|].
    split; [assumption|]. split; [assumption|]. split.
    + intros j Hj. rewrite Hget by lia.
      destruct (Z.ltb_spec j E); [lia|]. now rewrite andb_false_r.
    + intros ->. assert (E = sig_digs small /\ tt = sig_digs small) as [HE1 HE2].
      { subst E tt. destruct (Z.gtb_spec (sig_digs small + 0) p); lia. }
      split; [|assumption]. apply buf_ext; [congruence|].
      intros j Hj. rewrite Hget by lia. rewrite HE1, HE2, Z.sub_0_r.
      destruct (Z.leb_spec (sig_digs small - sig_digs small) j),
        (Z.ltb_spec j (sig_digs small)), (Z.leb_spec 0 j); try lia; cbn [andb].
      * reflexivity.
      * symmetry. apply Htail. lia.
Qed.

Lemma add_loop_spec p B d sd :
  1 <= p < 2 ^ 31 -> len d = p -> len B = p -> digit_cells d -> digit_cells B ->
  0 <= sd <= p -> (forall j, sd <= j -> get d j = 0) ->
  exists d' c t z,
    for_loop 0 sd (add_step B sd) (d, 0, 1, 0) = Ok (d', c, t, z) /\
    len d' = p /\ digit_cells d' /\ 0 <= c <= 1 /\ 0 <= z <= sd /\
    (forall j, sd - z <= j -> get d' j = 0).
Proof.
  intros Hp Hl HB Hd HBc Hsd Htail.
  use_for (fun i (st : list Z * Z * Z * Z) =>
    let '(d', c, t, z) := st in
    len d' = p /\ digit_cells d' /\ 0 <= c <= 1 /\ 0 <= z <= i /\
    (t = 1 -> z = i) /\
    (forall j, sd <= j -> get d' j = 0) /\
    (forall j, sd - z <= j < sd -> get d' j = 0)).
  - lia.
  - repeat split; try lia; assumption.
  - intros i [[[d' c] t] z] Hi (Hl' & Hd' & Hc & Hz & Ht & Hhigh & Hzero).
    rewrite add_step_ok by (try assumption; lia). cbv zeta.
    pose proof (digit_cells_get d' (sd - i - 1) Hd').
    pose proof (digit_cells_get B (sd - i - 1) HBc).
    set (s := get d' (sd - i - 1) + (get B (sd - i - 1) + c)) in *.
    set (v := if 10 <=? s then s - 10 else s).
    assert (Hv : 0 <= v <= 9) by (subst v; destruct (Z.leb_spec 10 s); lia).
    eexists. split; [reflexivity|]. cbv beta iota.
    rewrite len_put. split; [assumption|].
    split; [apply digit_cells_put; assumption|].
    split; [destruct (10 <=? s); lia|].
    destruct (Z.eqb_spec t 1) as [->|Hne].
    + specialize (Ht eq_refl). subst z.
      destruct (Z.eqb_spec v 0) as [Hv0|Hv0].
      * split; [lia|]. split; [lia|]. split.
        -- intros j Hj. rewrite get_put_other by lia. apply Hhigh. lia.
        -- intros j Hj. rewrite get_put by lia.
           destruct (Z.eqb_spec j (sd - i - 1)); [assumption|].
           apply Hzero. lia.
      * split; [lia|]. split; [discriminate|]. split.
        -- intros j Hj. rewrite get_put_other by lia. apply Hhigh. lia.
        -- intros j Hj. rewrite get_put_other by lia. apply Hzero. lia.
    + split; [lia|]. split; [intros; contradiction|]. split.
      * intros j Hj. rewrite get_put_other by lia. apply Hhigh. lia.
      * intros j Hj. rewrite get_put_other by lia. apply Hzero. lia.
  - destruct s as [[[d' c] t] z].
    destruct Hinv as (Hl' & Hd' & Hc & Hz & Ht & Hhigh & Hzero).
    exists d', c, t, z. repeat split; try assumption; try lia.
    intros j Hj. destruct (Z_lt_le_dec j sd); [apply Hzero | apply Hhigh]; lia.
Qed.

Lemma add_carry_out_spec p pw sd z c d :
  1 <= p < 2 ^ 31 -> len d = p -> digit_cells d -> 0 <= c <= 1 ->
  0 <= z <= sd -> sd <= p -> (forall j, sd - z <= j -> get d j = 0) ->
  exists r,
    add_carry_out p pw sd z c d = Ok (1, r) /\
    precision r = p /\ len (digits r) = p /\ digit_cells (digits r) /\
    0 <= sig_digs r <= p + 1 /\ zero_tail r.
Proof.
  intros Hp Hl Hd Hc Hz Hsd Htail. unfold add_carry_out.
  destruct (Z.ltb_spec 0 c) as [Hc1|Hc0].
  - set (tt := if sd - z =? p then sd - z - 1 else sd - z).
    assert (Htt : 0 <= tt <= p - 1 /\ tt <= sd - z <= tt + 1).
    { subst tt. destruct (Z.eqb_spec (sd - z) p); lia. }
    assert (c = 1) by lia. subst c.
    destruct (Z_le_gt_dec tt 0) as [Hz0|Hpos].
    + rewrite for_loop_none by lia. cbn [bind].
      rewrite wr_ok by lia. cbn [bind].
      eexists. split; [reflexivity|]. cbn [precision digits sig_digs].
      rewrite len_put. repeat split; try lia.
      * apply digit_cells_put; [assumption | lia].
      * intros j Hj. cbn [sig_digs digits] in *. rewrite len_put in Hj.
        rewrite get_put_other by lia. apply Htail. lia.
    + use_for (fun i (st : list Z * Z) =>
        let '(d', sc) := st in
        sc = tt - 1 - i /\ len d' = p /\ digit_cells d' /\
        forall j, tt < j -> get d' j = get d j).
      * lia.
      * repeat split; try lia; assumption.
      * intros i [d' sc] Hi (-> & Hl' & Hd' & Hsame).
        unfold carry_shift_step.
        destruct (Z.leb_spec 0 (tt - 1 - i)); [|lia].
        rewrite rd_ok by lia. cbn [bind].
        pose proof (digit_cells_get d' (tt - 1 - i) Hd').
        rewrite wr_ok by lia. cbn [bind].
        eexists. split; [reflexivity|]. cbv beta iota.
        rewrite len_put. split; [lia|]. split; [assumption|].
        split; [apply digit_cells_put; assumption|].
        intros j Hj. rewrite get_put_other by lia. apply Hsame. lia.
      * destruct s as [d' sc]. destruct Hinv as (-> & Hl' & Hd' & Hsame).
        rewrite wr_ok by lia. cbn [bind].
        eexists. split; [reflexivity|]. cbn [precision digits sig_digs].
        rewrite len_put. repeat split; try lia.
        -- apply digit_cells_put; [assumption | lia].
        -- intros j Hj. cbn [sig_digs digits] in *. rewrite len_put in Hj.
           rewrite get_put_other by lia. rewrite Hsame by lia. apply Htail. lia.
  - eexists. split; [reflexivity|]. cbn [precision digits sig_digs].
    repeat split; try lia; try assumption.
    intros j Hj. cbn [sig_digs digits] in *. apply Htail. lia.
Qed.

(** The aligned addition of two well-formed operands runs to its end. *)
Lemma add_aligned_spec p pw bigger smaller :
  1 <= p < 2 ^ 31 -> wf p bigger -> wf p smaller ->
  0 <= power bigger - power smaller <= p ->
  exists r,
    add_aligned (mk_bignum pw 0 (zero_cells p) p) bigger smaller = Ok (1, r) /\
    precision r = p /\ len (digits r) = p /\ digit_cells (digits r) /\
    0 <= sig_digs r <= p + 1 /\ zero_tail r.
Proof.
  intros Hp Hb Hs Hdiff. unfold add_aligned.
  rewrite wrap_long_id by lia.
  destruct (add_transfer_spec p pw smaller (power bigger - power smaller) Hp Hs Hdiff)
    as (d & E & -> & HE & Hl & Hd & Htail & _).
  cbn [bind precision].
  destruct Hb as [Hprec Hlen Hsig Hcells Hbt Hlead].
  set (sd := if sig_digs bigger >? E then sig_digs bigger else E).
  assert (Hsd : 0 <= sd <= p /\ E <= sd).
  { subst sd. destruct (Z.gtb_spec (sig_digs bigger) E); lia. }
  replace (if sig_digs bigger >? E then (sig_digs bigger, sig_digs bigger)
           else (E, E)) with (sd, sd)
    by (subst sd; destruct (sig_digs bigger >? E); reflexivity).
  destruct (add_loop_spec p (digits bigger) d sd)
    as (d' & c & t & z & -> & Hl' & Hd' & Hc & Hz & Hzero);
    try assumption; try lia.
  { intros j Hj. apply Htail. lia. }
  cbn [bind]. apply add_carry_out_spec; try assumption; lia.
Qed.

Lemma wf_get_tail p b j : wf p b -> sig_digs b <= j -> get (digits b) j = 0.
Proof.
  intros [Hprec Hlen Hsig Hcells Htail Hlead] Hj.
  destruct (Z_lt_le_dec j (len (digits b))).
  - apply Htail. lia.
  - now apply get_outside.
Qed.

(** With equal powers the two orders of the operands give one result. *)
Lemma add_aligned_sym p pw a b :
  1 <= p < 2 ^ 31 -> wf p a -> wf p b -> power a = power b ->
  add_aligned (mk_bignum pw 0 (zero_cells p) p) a b
  = add_aligned (mk_bignum pw 0 (zero_cells p) p) b a.
Proof.
  intros Hp Ha Hb Hpw. unfold add_aligned.
  rewrite Hpw, Z.sub_diag. change (wrap_long 0) with 0.
  destruct (add_transfer_spec p pw b 0 Hp Hb ltac:(lia))
    as (d1 & E1 & -> & _ & _ & _ & _ & Hd1).
  destruct (add_transfer_spec p pw a 0 Hp Ha ltac:(lia))
    as (d2 & E2 & -> & _ & _ & _ & _ & Hd2).
  destruct (Hd1 eq_refl) as [-> ->]. destruct (Hd2 eq_refl) as [-> ->].
  cbn [bind precision].
  set (sd := Z.max (sig_digs a) (sig_digs b)).
  replace (if sig_digs a >? sig_digs b then (sig_digs a, sig_digs a)
           else (sig_digs b, sig_digs b)) with (sd, sd)
    by (subst sd; destruct (Z.gtb_spec (sig_digs a) (sig_digs b));
        f_equal; lia).
  replace (if sig_digs b >? sig_digs a then (sig_digs b, sig_digs b)
           else (sig_digs a, sig_digs a)) with (sd, sd)
    by (subst sd; destruct (Z.gtb_spec (sig_digs b) (sig_digs a));
        f_equal; lia).
  pose proof (wf_sig _ _ Ha). pose proof (wf_sig _ _ Hb).
  destruct (add_loop_sym (digits a) (digits b) sd) as (r & -> & ->).
  - rewrite (wf_len _ _ Ha). lia.
  - rewrite (wf_len _ _ Ha). apply Hb.
  - rewrite (wf_len _ _ Ha). lia.
  - apply Ha.
  - apply Hb.
  - intros j Hj. rewrite (wf_get_tail p a), (wf_get_tail p b); auto; lia.
  - reflexivity.
Qed.

Lemma wf_zero p pw : 0 <= p -> wf p (mk_bignum pw 0 (zero_cells p) p).
Proof.
  intros Hp. constructor; cbn [precision digits sig_digs];
    [ reflexivity | now apply len_zero_cells | lia
    | apply digit_cells_zero_cells | intros i _; apply get_zero_cells | lia ].
Qed.

(** [bignum_add] on well-formed operands: it returns, the cells after the
    result's [sig_digs] are zero, and the order of the operands does not
    matter. *)
Lemma bignum_add_spec p r a b :
  1 <= p < 2 ^ 31 -> wf p r -> wf p a -> wf p b ->
  - 2 ^ 63 < power a - power b < 2 ^ 63 ->
  exists r',
    bignum_add r a b = Ok (1, r') /\ bignum_add r b a = Ok (1, r') /\
    precision r' = p /\ len (digits r') = p /\ digit_cells (digits r') /\
    0 <= sig_digs r' <= p + 1 /\ zero_tail r'.
Proof.
  intros Hp Hr Ha Hb Hrange.
  destruct (bignum_reset_wf p r ltac:(lia) Hr) as (pw & Hreset).
  fold (zero_cells p) in Hreset.
  unfold bignum_add. rewrite Hreset. cbn [bind precision].
  pose proof (wf_sig _ _ Ha) as Hsa. pose proof (wf_sig _ _ Hb) as Hsb.
  rewrite (wrap_long_id (power a - power b)) by lia.
  rewrite (wrap_long_id (power b - power a)) by lia.
  assert (Hwfres : forall x, wf p x ->
            precision x = p /\ len (digits x) = p /\ digit_cells (digits x) /\
            0 <= sig_digs x <= p + 1 /\ zero_tail x).
  { intros x [? ? ? ? ? ?]. repeat split; try assumption; lia. }
  destruct (Z.eqb_spec (sig_digs a) 0) as [Ha0|Ha0];
    destruct (Z.eqb_spec (sig_digs b) 0) as [Hb0|Hb0]; cbn [andb].
  - (* both zero *)
    destruct (Z.ltb_spec 0 (sig_digs a)); [lia|].
    destruct (Z.ltb_spec 0 (sig_digs b)); [lia|].
    eexists. split; [reflexivity|]. split; [reflexivity|].
    apply Hwfres, wf_zero. lia.
  - destruct (Z.ltb_spec 0 (sig_digs b)); [|lia].
    unfold zero_cells. rewrite (bignum_set_zero p pw b) by (try assumption; lia).
    cbn [bind]. exists b. split; [reflexivity|]. split; [reflexivity|].
    now apply Hwfres.
  - destruct (Z.ltb_spec 0 (sig_digs a)); [|lia].
    unfold zero_cells. rewrite (bignum_set_zero p pw a) by (try assumption; lia).
    cbn [bind]. exists a. split; [reflexivity|]. split; [reflexivity|].
    now apply Hwfres.
  - (* both operands non-zero *)
    destruct (Z_lt_le_dec p (power a - power b)) as [Hover|Hle1].
    { (* the left power is out of reach *)
      rewrite (wrap_ulong_id (power a - power b)) by lia.
      unfold zero_cells.
      rewrite (bignum_set_zero p pw a) by (try assumption; lia).
      exists a. split; [|split; [|now apply Hwfres]];
        break_cmp; try lia; reflexivity. }
    destruct (Z_lt_le_dec p (power b - power a)) as [Hover|Hle2].
    { rewrite (wrap_ulong_id (power b - power a)) by lia.
      unfold zero_cells.
      rewrite (bignum_set_zero p pw b) by (try assumption; lia).
      exists b. split; [|split; [|now apply Hwfres]];
        break_cmp; try lia; reflexivity. }
    assert (Hno1 : (0 <? power a - power b)
                   && (wrap_ulong (power a - power b) >? p) = false).
    { destruct (Z.ltb_spec 0 (power a - power b)); [|reflexivity].
      rewrite wrap_ulong_id by lia. cbn [andb].
      destruct (Z.gtb_spec (power a - power b) p); [lia | reflexivity]. }
    assert (Hno2 : (0 <? power b - power a)
                   && (wrap_ulong (power b - power a) >? p) = false).
    { destruct (Z.ltb_spec 0 (power b - power a)); [|reflexivity].
      rewrite wrap_ulong_id by lia. cbn [andb].
      destruct (Z.gtb_spec (power b - power a) p); [lia | reflexivity]. }
    rewrite Hno1, Hno2.
    destruct (Z.leb_spec 0 (power a - power b)) as [Hab|Hab];
      destruct (Z.leb_spec 0 (power b - power a)) as [Hba|Hba]; try lia.
    + (* equal powers *)
      rewrite <- (add_aligned_sym p pw a b) by (try assumption; lia).
      destruct (add_aligned_spec p pw a b) as (r' & -> & Hres);
        try assumption; try lia.
      exists r'. auto.
    + destruct (add_aligned_spec p pw a b) as (r' & -> & Hres);
        try assumption; try lia.
      exists r'. auto.
    + destruct (add_aligned_spec p pw b a) as (r' & -> & Hres);
        try assumption; try lia.
      exists r'. auto.
Qed.

(** ** The number in a run of cells *)

Lemma val_S l lo n :
  val l lo (S n) = 10 * val l lo n + get l (lo + Z.of_nat n).
Proof. reflexivity. Qed.

Lemma val_eq l1 l2 lo1 lo2 n :
  (forall j, 0 <= j < Z.of_nat n -> get l1 (lo1 + j) = get l2 (lo2 + j)) ->
  val l1 lo1 n = val l2 lo2 n.
Proof.
  induction n as [|n IH]; intros H; [reflexivity|].
  rewrite !val_S. rewrite IH by (intros; apply H; lia).
  rewrite H by lia. reflexivity.
Qed.

Lemma val_bound l lo n :
  (forall j, lo <= j < lo + Z.of_nat n -> 0 <= get l j <= 9) ->
  0 <= val l lo n < 10 ^ Z.of_nat n.
Proof.
  induction n as [|n IH]; intros H; [simpl; lia|].
  rewrite val_S. specialize (IH ltac:(intros; apply H; lia)).
  specialize (H (lo + Z.of_nat n) ltac:(lia)).
  rewrite Nat2Z.inj_succ, Z.pow_succ_r by lia. lia.
Qed.

Lemma val_msd l lo n :
  val l lo (S n) = get l lo * 10 ^ Z.of_nat n + val l (lo + 1) n.
Proof.
  induction n as [|n IH].
  - cbn [val]. rewrite Z.add_0_r. simpl. lia.
  - rewrite val_S, IH, (val_S l (lo + 1) n).
    rewrite Nat2Z.inj_succ, Z.pow_succ_r by lia.
    replace (lo + 1 + Z.of_nat n) with (lo + Z.succ (Z.of_nat n)) by lia. lia.
Qed.

Lemma val_app l lo n m :
  val l lo (n + m) = val l lo n * 10 ^ Z.of_nat m + val l (lo + Z.of_nat n) m.
Proof.
  induction m as [|m IH].
  - rewrite Nat.add_0_r. simpl. lia.
  - rewrite Nat.add_succ_r, !val_S, IH.
    rewrite Nat2Z.inj_succ, Z.pow_succ_r by lia.
    replace (lo + Z.of_nat (n + m)) with (lo + Z.of_nat n + Z.of_nat m) by lia.
    lia.
Qed.

Lemma val_put_outside l lo n k v :
  0 <= lo -> 0 <= k -> (k < lo \/ lo + Z.of_nat n <= k) ->
  val (put l k v) lo n = val l lo n.
Proof.
  intros Hlo Hk Hout. apply val_eq. intros j Hj.
  apply get_put_other; lia.
Qed.

Lemma val_put_inside l lo n k v :
  0 <= lo -> lo <= k < lo + Z.of_nat n -> k < len l ->
  val (put l k v) lo n
  = val l lo n + (v - get l k) * 10 ^ (lo + Z.of_nat n - 1 - k).
Proof.
  intros Hlo. induction n as [|n IH]; intros Hk Hlen; [lia|].
  rewrite !val_S. destruct (Z.eq_dec k (lo + Z.of_nat n)) as [->|Hne].
  - rewrite val_put_outside by lia. rewrite get_put_same by lia.
    replace (lo + Z.of_nat (S n) - 1 - (lo + Z.of_nat n)) with 0 by lia.
    simpl. lia.
  - rewrite IH by lia. rewrite get_put_other by lia.
    replace (lo + Z.of_nat (S n) - 1 - k) with (Z.succ (lo + Z.of_nat n - 1 - k)) by lia.
    rewrite Z.pow_succ_r by lia. lia.
Qed.

(** Comparing digit by digit from the most significant end compares the
    numbers. *)
Lemma val_lex l1 l2 lo1 lo2 n m :
  (m < n)%nat ->
  (forall j, 0 <= j < Z.of_nat n -> 0 <= get l1 (lo1 + j) <= 9) ->
  (forall j, 0 <= j < Z.of_nat n -> 0 <= get l2 (lo2 + j) <= 9) ->
  (forall j, 0 <= j < Z.of_nat m -> get l1 (lo1 + j) = get l2 (lo2 + j)) ->
  get l1 (lo1 + Z.of_nat m) < get l2 (lo2 + Z.of_nat m) ->
  val l1 lo1 n < val l2 lo2 n.
Proof.
  intros Hm H1 H2 Heq Hlt.
  replace n with (m + S (n - m - 1))%nat by lia.
  rewrite !val_app, !val_msd.
  rewrite (val_eq l1 l2 lo1 lo2 m Heq).
  pose proof (val_bound l1 (lo1 + Z.of_nat m + 1) (n - m - 1)) as B1.
  pose proof (val_bound l2 (lo2 + Z.of_nat m + 1) (n - m - 1)) as B2.
  specialize (B1 ltac:(intros j Hj;
    replace j with (lo1 + (j - lo1)) by lia; apply H1; lia)).
  specialize (B2 ltac:(intros j Hj;
    replace j with (lo2 + (j - lo2)) by lia; apply H2; lia)).
  set (r := Z.of_nat (n - m - 1)) in *.
  assert (0 < 10 ^ r) by (apply Z.pow_pos_nonneg; lia).
  assert (0 < 10 ^ Z.of_nat (S (n - m - 1))) by (apply Z.pow_pos_nonneg; lia).
  nia.
Qed.

(** ** The comparison of the denominator with the window *)

Lemma denom_compare_skip den ds tw ni : denom_compare den ds tw ni 0 = Ok 0.
Proof.
  unfold denom_compare. rewrite while_done; [reflexivity|].
  cbv beta iota. change (0 =? 1) with false. apply andb_false_r.
Qed.

Lemma denom_compare_spec den ds tw ni :
  1 <= ds <= len den -> len den < 2 ^ 31 ->
  0 <= ni -> ni + ds < len tw -> len tw < 2 ^ 31 ->
  digit_cells den -> digit_cells tw ->
  denom_compare den ds tw ni 1
  = Ok (if val den 0 (Z.to_nat ds) >? val tw (ni + 1) (Z.to_nat ds)
        then 1 else 0).
Proof.
  intros Hds Hlden Hni Hni' Hltw Hden Htw.
  set (D := val den 0 (Z.to_nat ds)). set (W := val tw (ni + 1) (Z.to_nat ds)).
  unfold denom_compare.
  use_while
    (fun st : Z * Z =>
       let '(i, db) := st in
       -1 <= i <= ds - 1 /\
       ((db = 1 /\ 0 <= i /\
         forall j, 0 <= j < ds - 1 - i -> get den (0 + j) = get tw (ni + 1 + j)) \/
        (db = 1 /\ i = -1 /\ D > W) \/
        (db = 0 /\ D <= W)))
    (fun st : Z * Z => fst st + 1).
  - split; [lia|]. left. split; [reflexivity|]. split; [lia|]. intros; lia.
  - cbn [fst]. lia.
  - intros [i db] (Hi & Hcase) Hcond.
    apply andb_true_iff in Hcond. destruct Hcond as [Hi0 Hdb].
    apply Z.leb_le in Hi0. apply Z.eqb_eq in Hdb. subst db.
    destruct Hcase as [(_ & _ & Hpre)|[(_ & ? & _)|(? & _)]]; try lia.
    rewrite !rd_ok by lia. cbn [bind fst].
    set (m := Z.to_nat (ds - 1 - i)).
    assert (Hcd : forall j, 0 <= j < Z.of_nat (Z.to_nat ds) ->
                    0 <= get den (0 + j) <= 9)
      by (intros; apply digit_cells_get; assumption).
    assert (Hcw : forall j, 0 <= j < Z.of_nat (Z.to_nat ds) ->
                    0 <= get tw (ni + 1 + j) <= 9)
      by (intros; apply digit_cells_get; assumption).
    assert (Hpre' : forall j, 0 <= j < Z.of_nat m ->
                      get den (0 + j) = get tw (ni + 1 + j))
      by (intros; apply Hpre; lia).
    replace (ds - i - 1) with (0 + Z.of_nat m) by lia.
    replace (ds + ni - i) with (ni + 1 + Z.of_nat m) by lia.
    destruct (Z.gtb_spec (get den (0 + Z.of_nat m)) (get tw (ni + 1 + Z.of_nat m)))
      as [Hgt|Hle].
    { eexists. split; [reflexivity|]. cbn [fst]. split; [|lia].
      split; [lia|]. right. left. split; [reflexivity|]. split; [lia|].
      pose proof (val_lex tw den (ni + 1) 0 (Z.to_nat ds) m ltac:(lia) Hcw Hcd
                    ltac:(intros; symmetry; apply Hpre'; lia) ltac:(lia)).
      subst D W. lia. }
    destruct (Z.ltb_spec (get den (0 + Z.of_nat m)) (get tw (ni + 1 + Z.of_nat m)))
      as [Hlt|Hge].
    { eexists. split; [reflexivity|]. cbn [fst]. split; [|lia].
      split; [lia|]. right. right. split; [reflexivity|].
      pose proof (val_lex den tw 0 (ni + 1) (Z.to_nat ds) m ltac:(lia) Hcd Hcw
                    Hpre' ltac:(lia)).
      subst D W. lia. }
    assert (Heq : get den (0 + Z.of_nat m) = get tw (ni + 1 + Z.of_nat m)) by lia.
    rewrite Heq, Z.eqb_refl. cbn [andb].
    destruct (Z.eqb_spec i 0) as [->|Hne].
    { eexists. split; [reflexivity|]. cbn [fst]. split; [|lia].
      split; [lia|]. right. right. split; [reflexivity|].
      assert (D = W); [|lia]. subst D W. apply val_eq. intros j Hj.
      destruct (Z.eq_dec j (Z.of_nat m)) as [->|]; [assumption|].
      apply Hpre'. lia. }
    eexists. split; [reflexivity|]. cbn [fst]. split; [|lia].
    split; [lia|]. left. split; [reflexivity|]. split; [lia|].
    intros j Hj. destruct (Z.eq_dec j (Z.of_nat m)) as [->|]; [assumption|].
    apply Hpre'. lia.
  - destruct s as [i db]. destruct Hinv as (Hi & Hcase).
    apply andb_false_iff in Hexit.
    destruct Hcase as [(-> & Hi0 & _)|[(-> & _ & Hgt)|(-> & Hle)]].
    + exfalso. destruct Hexit as [H|H]; [apply Z.leb_gt in H; lia | discriminate H].
    + destruct (Z.gtb_spec D W); [reflexivity | lia].
    + destruct (Z.gtb_spec D W); [lia | reflexivity].
Qed.

(** ** Subtracting the denominator from the window *)

Lemma subtract_spec den ds tw ni :
  1 <= ds <= len den -> len den < 2 ^ 31 ->
  0 <= ni -> ni + ds < len tw -> len tw < 2 ^ 31 ->
  digit_cells den -> digit_cells tw ->
  val den 0 (Z.to_nat ds) <= val tw ni (S (Z.to_nat ds)) ->
  exists tw',
    for_loop 0 ds (subtract_step den ds ni) tw = Ok tw' /\
    len tw' = len tw /\ digit_cells tw' /\
    (forall j, 0 <= j -> j < ni \/ ni + ds < j -> get tw' j = get tw j) /\
    val tw' ni (S (Z.to_nat ds))
    = val tw ni (S (Z.to_nat ds)) - val den 0 (Z.to_nat ds).
Proof.
  intros Hds Hlden Hni Hni' Hltw Hden Htw Hge.
  set (n := Z.to_nat ds) in *.
  use_for (fun i tw' =>
    len tw' = len tw /\
    (forall j, 0 <= j -> j <> ni + ds - i -> 0 <= get tw' j <= 9) /\
    -1 <= get tw' (ni + ds - i) <= 9 /\
    (forall j, 0 <= j -> j < ni + ds - i \/ ni + ds < j -> get tw' j = get tw j) /\
    val tw' ni (S n) = val tw ni (S n) - val den (ds - i) (Z.to_nat i)).
  - lia.
  - split; [reflexivity|].
    split; [intros; now apply digit_cells_get|].
    split; [pose proof (digit_cells_get tw (ni + ds - 0) Htw); lia|].
    split; [reflexivity|]. cbn [Z.to_nat val]. lia.
  - intros i t Hi (Hl & Hcells & Hk & Hsame & Hval).
    unfold subtract_step.
    replace (ds + ni - i) with (ni + ds - i) by lia.
    set (k := ni + ds - i) in *.
    pose proof (digit_cells_get den (ds - i - 1) Hden) as Hdd.
    set (dd := get den (ds - i - 1)) in *.
    rewrite !rd_ok by lia. cbn [bind]. fold dd.
    rewrite wr_ok by lia. cbn [bind].
    rewrite rd_ok by (rewrite ?len_put; lia). cbn [bind].
    rewrite get_put_same by lia.
    assert (Hden_step : val den (ds - (i + 1)) (Z.to_nat (i + 1))
                        = dd * 10 ^ i + val den (ds - i) (Z.to_nat i)).
    { replace (Z.to_nat (i + 1)) with (S (Z.to_nat i)) by lia.
      rewrite val_msd. rewrite Z2Nat.id by lia.
      replace (ds - (i + 1)) with (ds - i - 1) by lia.
      replace (ds - i - 1 + 1) with (ds - i) by lia. reflexivity. }
    assert (Hwk : ni + Z.of_nat (S n) - 1 - k = i) by (subst k n; lia).
    destruct (Z.ltb_spec (get t k - dd) 0) as [Hneg|Hpos].
    + (* borrow from the next cell *)
      rewrite wr_ok by (rewrite ?len_put; lia). cbn [bind].
      rewrite put_put.
      rewrite rd_ok by (rewrite ?len_put; lia). cbn [bind].
      rewrite get_put_other by lia.
      pose proof (Hcells (k - 1) ltac:(lia) ltac:(lia)) as Hy.
      rewrite wr_ok by (rewrite ?len_put; lia).
      eexists. split; [reflexivity|]. rewrite !len_put.
      replace (ni + ds - (i + 1)) with (k - 1) by lia.
      split; [assumption|]. split.
      { intros j Hj Hne. rewrite get_put_other by lia. rewrite get_put by lia.
        destruct (Z.eqb_spec j k); [lia|]. apply Hcells; lia. }
      split; [rewrite get_put_same by (rewrite len_put; lia); lia|].
      split.
      { intros j Hj Hout. rewrite !get_put_other by lia. apply Hsame; lia. }
      rewrite val_put_inside by (rewrite ?len_put; subst n; lia).
      rewrite get_put_other by lia.
      rewrite val_put_inside by (subst n; lia).
      rewrite Hval, Hden_step, Hwk.
      replace (ni + Z.of_nat (S n) - 1 - (k - 1)) with (Z.succ i) by lia.
      rewrite Z.pow_succ_r by lia. lia.
    + eexists. split; [reflexivity|]. rewrite !len_put.
      replace (ni + ds - (i + 1)) with (k - 1) by lia.
      split; [assumption|]. split.
      { intros j Hj Hne. rewrite get_put by lia.
        destruct (Z.eqb_spec j k); [lia|]. apply Hcells; lia. }
      split.
      { rewrite get_put_other by lia.
        pose proof (Hcells (k - 1) ltac:(lia) ltac:(lia)). lia. }
      split.
      { intros j Hj Hout. rewrite !get_put_other by lia. apply Hsame; lia. }
      rewrite val_put_inside by (subst n; lia).
      rewrite Hval, Hden_step, Hwk. lia.
  - destruct Hinv as (Hl & Hcells & Hk & Hsame & Hval).
    replace (ni + ds - ds) with ni in * by lia.
    replace (ds - ds) with 0 in Hval by lia. fold n in Hval.
    exists s. split; [reflexivity|]. split; [assumption|].
    assert (Hlead : 0 <= get s ni).
    { rewrite val_msd in Hval.
      pose proof (val_bound s (ni + 1) n
                    ltac:(intros j Hj; apply Hcells; lia)).
      assert (0 < 10 ^ Z.of_nat n) by (apply Z.pow_pos_nonneg; lia).
      nia. }
    split.
    { apply digit_cells_of_get. intros j Hj.
      destruct (Z.eq_dec j ni) as [->|]; [lia|]. apply Hcells; lia. }
    split; [|assumption].
    intros j Hj Hout. apply Hsame; lia.
Qed.

Lemma subtract_loop_spec fuel den ds tw ni :
  1 <= ds <= len den -> len den < 2 ^ 31 ->
  0 <= ni -> ni + ds < len tw -> len tw < 2 ^ 31 ->
  digit_cells den -> digit_cells tw ->
  0 < val den 0 (Z.to_nat ds) ->
  val tw ni (S (Z.to_nat ds)) < 10 * val den 0 (Z.to_nat ds) ->
  (10 <= fuel)%nat ->
  exists tw' q,
    subtract_loop fuel den ds ni tw = Ok (tw', q) /\
    0 <= q <= 9 /\ len tw' = len tw /\ digit_cells tw' /\
    (forall j, 0 <= j -> j < ni \/ ni + ds < j -> get tw' j = get tw j) /\
    val tw' ni (S (Z.to_nat ds))
    = val tw ni (S (Z.to_nat ds)) - q * val den 0 (Z.to_nat ds) /\
    val tw' ni (S (Z.to_nat ds)) < val den 0 (Z.to_nat ds).
Proof.
  intros Hds Hlden Hni Hni' Hltw Hden Htw HD HW Hfuel.
  set (n := Z.to_nat ds) in *. set (D := val den 0 n) in *.
  set (W0 := val tw ni (S n)) in *.
  assert (HDn : D < 10 ^ Z.of_nat n).
  { apply val_bound. intros. now apply digit_cells_get. }
  assert (Hpow : 0 < 10 ^ Z.of_nat n) by (apply Z.pow_pos_nonneg; lia).
  unfold subtract_loop.
  use_while
    (fun st : list Z * Z * Z =>
       let '(t, c, nb) := st in
       len t = len tw /\ digit_cells t /\
       (forall j, 0 <= j -> j < ni \/ ni + ds < j -> get t j = get tw j) /\
       0 <= c /\ val t ni (S n) = W0 - c * D /\
       (nb = 1 \/ (nb = 0 /\ val t ni (S n) < D)))
    (fun st : list Z * Z * Z =>
       let '(t, c, nb) := st in
       if nb =? 1 then val t ni (S n) / D + 1 else 0).
  - repeat split; try lia; try assumption.
  - cbv beta iota. change (1 =? 1) with true. cbv iota. fold W0.
    assert (W0 / D < 10) by (apply Z.div_lt_upper_bound; lia). lia.
  - intros [[t c] nb] (Hl & Ht & Hsame & Hc & Hval & Hnb) Hcond.
    apply Z.eqb_eq in Hcond. subst nb. clear Hnb.
    assert (HW0 : 0 <= val t ni (S n)).
    { apply val_bound. intros. now apply digit_cells_get. }
    pose proof (val_bound t (ni + 1) n
                  ltac:(intros; now apply digit_cells_get)) as Hrest.
    pose proof (digit_cells_get t ni Ht) as Hov.
    pose proof (val_msd t ni n) as Hmsd.
    assert (Hc9 : c <= 9) by nia.
    rewrite rd_ok by lia. cbn [bind].
    assert (Hcmp : denom_compare den ds t ni (if 0 <? get t ni then 0 else 1)
                   = Ok (if D >? val t ni (S n) then 1 else 0)).
    { destruct (Z.ltb_spec 0 (get t ni)).
      - rewrite denom_compare_skip.
        destruct (Z.gtb_spec D (val t ni (S n))); [nia | reflexivity].
      - rewrite denom_compare_spec by (try assumption; lia).
        fold n. fold D. replace (val t ni (S n)) with (val t (ni + 1) n) by nia.
        reflexivity. }
    rewrite Hcmp. cbn [bind].
    destruct (Z.gtb_spec D (val t ni (S n))) as [Hsmall|Hbig].
    + (* the denominator is bigger: the digit is complete *)
      change (1 =? 1) with true. cbv iota. change (0 =? 1) with false. cbv iota.
      eexists. split; [reflexivity|]. cbv beta iota.
      change (0 =? 1) with false. cbv iota.
      split.
      { repeat split; try lia; try assumption. }
      assert (0 <= val t ni (S n) / D) by (apply Z.div_pos; lia). lia.
    + change (0 =? 1) with false. cbv iota. change (1 =? 1) with true. cbv iota.
      destruct (subtract_spec den ds t ni) as (t' & -> & Hl' & Ht' & Hsame' & Hval');
        try assumption; try lia.
      cbn [bind]. rewrite wrap_char_id by lia.
      eexists. split; [reflexivity|]. cbv beta iota.
      change (1 =? 1) with true. cbv iota. fold n in Hval'. fold D in Hval'.
      split.
      { split; [congruence|]. split; [assumption|]. split.
        { intros j Hj Hout. rewrite Hsame' by assumption. now apply Hsame. }
        split; [lia|]. split; [lia|]. left. reflexivity. }
      rewrite Hval'.
      replace (val t ni (S n) - D) with (val t ni (S n) + (-1) * D) by lia.
      rewrite Z.div_add by lia.
      assert (0 <= (val t ni (S n) + -1 * D) / D) by (apply Z.div_pos; lia).
      rewrite Z.div_add in H by lia. lia.
  - destruct s as [[t c] nb].
    destruct Hinv as (Hl & Ht & Hsame & Hc & Hval & Hnb).
    apply Z.eqb_neq in Hexit. destruct Hnb as [|[-> Hlt]]; [contradiction|].
    assert (HW0 : 0 <= val t ni (S n)).
    { apply val_bound. intros. now apply digit_cells_get. }
    exists t, c. split; [reflexivity|].
    repeat split; try assumption; try lia; nia.
Qed.

(** ** Trailing zeros, zero detection *)

Lemma count_trailing_zeros_spec buf i0 j0 :
  0 <= j0 <= i0 -> i0 < len buf -> len buf < 2 ^ 31 -> get buf j0 <> 0 ->
  exists zc,
    count_trailing_zeros buf i0 = Ok zc /\ 0 <= zc <= i0 - j0 /\
    (forall j, i0 - zc < j <= i0 -> get buf j = 0) /\
    get buf (i0 - zc) <> 0.
Proof.
  intros Hj0 Hi0 Hl Hnz. unfold count_trailing_zeros.
  use_while
    (fun st : Z * Z * Z =>
       let '(t, zc, i) := st in
       (t = 1 /\ i = i0 - zc /\ j0 <= i /\ 0 <= zc /\
        forall j, i < j <= i0 -> get buf j = 0) \/
       (t = 0 /\ 0 <= zc <= i0 - j0 /\ get buf (i0 - zc) <> 0 /\
        forall j, i0 - zc < j <= i0 -> get buf j = 0))
    (fun st : Z * Z * Z =>
       let '(t, zc, i) := st in if t =? 1 then i + 2 else 0).
  - left. repeat split; try lia.
  - cbv beta iota. change (1 =? 1) with true. cbv iota. unfold len in Hi0. lia.
  - intros [[t zc] i] Hinv Hcond. apply Z.eqb_eq in Hcond. subst t.
    destruct Hinv as [(_ & -> & Hge & Hzc & Hz)|(? & _)]; [|lia].
    rewrite rd_ok by lia. cbn [bind].
    destruct (Z.eqb_spec (get buf (i0 - zc)) 0) as [Hzero|Hnon].
    + assert (i0 - zc <> j0) by congruence.
      eexists. split; [reflexivity|]. cbv beta iota.
      change (1 =? 1) with true. cbv iota. split; [|lia].
      left. repeat split; try lia. intros j Hj.
      destruct (Z.eq_dec j (i0 - zc)) as [->|]; [assumption|]. apply Hz. lia.
    + eexists. split; [reflexivity|]. cbv beta iota.
      change (1 =? 1) with true. change (0 =? 1) with false. cbv iota.
      split; [|lia]. right. repeat split; try lia; assumption.
  - destruct s as [[t zc] i]. apply Z.eqb_neq in Hexit.
    destruct Hinv as [(? & _)|(-> & Hzc & Hnon & Hz)]; [contradiction|].
    exists zc. auto.
Qed.

Lemma window_is_zero_total tw ds ni :
  0 <= ds -> 0 <= ni -> ni + ds < len tw -> len tw < 2 ^ 31 ->
  exists z, window_is_zero tw ds ni = Ok z.
Proof.
  intros Hds Hni Hni' Hl. unfold window_is_zero.
  use_while (fun st : Z * Z => 0 <= fst st <= ds + 1)
            (fun st : Z * Z => ds + 1 - fst st).
  - cbn [fst]. lia.
  - cbn [fst]. lia.
  - intros [i zc] Hi Hcond. cbn [fst] in *.
    apply andb_true_iff in Hcond. destruct Hcond as [_ Hle].
    apply Z.leb_le in Hle.
    rewrite rd_ok by lia. cbn [bind].
    eexists. split; [reflexivity|]. cbn [fst]. lia.
  - destruct s as [i zc]. eexists. reflexivity.
Qed.

(** ** The division loop *)

Lemma den_val_bounds p den :
  wf p den -> 0 < sig_digs den ->
  10 ^ (sig_digs den - 1) <= val (digits den) 0 (Z.to_nat (sig_digs den))
  < 10 ^ sig_digs den.
Proof.
  intros [Hprec Hlen Hsig Hcells Htail Hlead] Hsd.
  pose proof (digit_cells_get (digits den) 0 Hcells).
  specialize (Hlead Hsd).
  replace (Z.to_nat (sig_digs den))
    with (S (Z.to_nat (sig_digs den - 1))) by lia.
  rewrite val_msd.
  pose proof (val_bound (digits den) (0 + 1) (Z.to_nat (sig_digs den - 1))
                ltac:(intros; now apply digit_cells_get)) as Hrest.
  rewrite Z2Nat.id in * by lia.
  assert (0 < 10 ^ (sig_digs den - 1)) by (apply Z.pow_pos_nonneg; lia).
  replace (10 ^ sig_digs den) with (10 * 10 ^ (sig_digs den - 1)).
  - nia.
  - rewrite <- Z.pow_succ_r by lia. f_equal. lia.
Qed.

Section Divide.
Variables (p : Z) (fuel : nat) (num den : bignum).
Hypothesis Hp : 1 <= p <= max_precision.
Hypothesis Hden : wf p den.
Hypothesis Hsd : 0 < sig_digs den.
Hypothesis Hfuel : (10 <= fuel)%nat.

Local Abbreviation n := (Z.to_nat (sig_digs den)).
Local Abbreviation D := (val (digits den) 0 (Z.to_nat (sig_digs den))).

Lemma divide_step_spec tw d k ni nz :
  len tw = 2 * p + 2 -> digit_cells tw -> len d = p ->
  0 <= k < p -> 0 <= ni <= k + 1 ->
  val tw ni (S n) < 10 * D ->
  exists tw' q nz',
    divide_step fuel num den p (tw, d, k, ni, nz)
    = Ok (tw', put d k q, k + 1, ni + 1, nz') /\
    len tw' = 2 * p + 2 /\ digit_cells tw' /\ 0 <= q <= 9 /\
    val tw' (ni + 1) (S n) < 10 * D /\
    (D <= val tw ni (S n) -> 1 <= q) /\ (nz' = nz \/ nz' = 0).
Proof.
  intros Hltw Htw Hld Hk Hni HW.
  pose proof (max_precision_int p ltac:(lia)) as Hint.
  pose proof (den_val_bounds p den Hden Hsd) as HD.
  assert (0 < 10 ^ (sig_digs den - 1)) by (apply Z.pow_pos_nonneg; lia).
  destruct Hden as [Hprec Hlen Hsig Hcells Htail Hlead].
  unfold divide_step.
  destruct (subtract_loop_spec fuel (digits den) (sig_digs den) tw ni)
    as (tw' & q & -> & Hq & Hl' & Ht' & Hsame & Hval & Hlt);
    try assumption; try lia.
  cbn [bind].
  (* the cell above the window is used up *)
  pose proof (val_bound tw' (ni + 1) n
                ltac:(intros; now apply digit_cells_get)) as Hrest.
  pose proof (digit_cells_get tw' ni Ht') as Hov.
  pose proof (digit_cells_get tw' (ni + 1 + Z.of_nat n) Ht') as Hnext.
  pose proof (val_msd tw' ni n) as Hmsd.
  rewrite Z2Nat.id in * by lia.
  assert (Hwin : val tw' (ni + 1) n < D) by nia.
  assert (Hnew : val tw' (ni + 1) (S n) < 10 * D).
  { rewrite val_S, Z2Nat.id by lia. lia. }
  assert (Hnz : exists nz',
            (if k >? sig_digs num
             then z <- window_is_zero tw' (sig_digs den) ni ;;
                  Ok (if z then 0 else nz)
             else Ok nz) = Ok nz' /\ (nz' = nz \/ nz' = 0)).
  { destruct (k >? sig_digs num); [|exists nz; auto].
    destruct (window_is_zero_total tw' (sig_digs den) ni) as (z & ->); try lia.
    cbn [bind]. destruct z; eexists; split; eauto. }
  destruct Hnz as (nz' & -> & Hnz'). cbn [bind].
  destruct (Z.ltb_spec k p); [|lia].
  rewrite wr_ok by lia. cbn [bind].
  exists tw', q, nz'. split; [reflexivity|].
  repeat split; try assumption; try lia.
Qed.

(** The main loop, started on a window that holds at least one and less
    than ten denominators. *)
Lemma divide_loop_spec tw ni0 :
  len tw = 2 * p + 2 -> digit_cells tw -> 0 <= ni0 <= 1 ->
  D <= val tw ni0 (S n) < 10 * D ->
  exists tw' d k ni nz,
    while (Z.to_nat p)
      (fun '(_, _, sigdigctr, _, nonzero) =>
         (sigdigctr <? p) && (nonzero =? 1))
      (divide_step fuel num den p)
      (tw, zero_cells p, 0, ni0, 1) = Ok (tw', d, k, ni, nz) /\
    1 <= k <= p /\ len d = p /\ digit_cells d /\ get d 0 <> 0 /\
    (forall j, k <= j -> get d j = 0).
Proof.
  intros Hltw Htw Hni0 HW.
  use_while
    (fun st : list Z * list Z * Z * Z * Z =>
       let '(t, d, k, ni, nz) := st in
       len t = 2 * p + 2 /\ digit_cells t /\ len d = p /\ digit_cells d /\
       0 <= k <= p /\ ni = ni0 + k /\ (k = 0 -> nz = 1) /\
       val t ni (S n) < 10 * D /\ (k = 0 -> D <= val t ni (S n)) /\
       (1 <= k -> get d 0 <> 0) /\ (forall j, k <= j -> get d j = 0))
    (fun st : list Z * list Z * Z * Z * Z =>
       let '(_, _, k, _, _) := st in p - k).
  - rewrite len_zero_cells by lia.
    repeat split; try lia; try assumption.
    + apply digit_cells_zero_cells.
    + intros. apply get_zero_cells.
  - lia.
  - intros [[[[t d] k] ni] nz]
      (Hlt & Ht & Hld & Hd & Hk & Hni & Hnz & HWt & HDt & Hlead & Htail) Hcond.
    apply andb_true_iff in Hcond. destruct Hcond as [Hkp _].
    apply Z.ltb_lt in Hkp.
    destruct (divide_step_spec t d k ni nz)
      as (t' & q & nz' & -> & Hlt' & Ht' & Hq & HW' & Hq1 & Hnz');
      try assumption; try lia.
    eexists. split; [reflexivity|]. cbv beta iota.
    rewrite len_put. split; [|lia].
    split; [assumption|]. split; [assumption|]. split; [assumption|].
    split; [apply digit_cells_put; assumption|].
    split; [lia|]. split; [lia|]. split; [lia|].
    split; [replace (ni0 + (k + 1)) with (ni + 1) by lia; assumption|].
    split; [lia|]. split.
    + intros _. rewrite get_put by lia.
      destruct (Z.eqb_spec 0 k) as [<-|Hne].
      * specialize (Hq1 (HDt eq_refl)). lia.
      * apply Hlead. lia.
    + intros j Hj. rewrite get_put_other by lia. apply Htail. lia.
  - destruct s as [[[[t d] k] ni] nz].
    destruct Hinv as (Hlt & Ht & Hld & Hd & Hk & Hni & Hnz & HWt & HDt & Hlead & Htail).
    assert (1 <= k).
    { destruct (Z.eq_dec k 0) as [->|]; [|lia]. exfalso.
      rewrite (Hnz eq_refl) in Hexit.
      destruct (Z.ltb_spec 0 p); [discriminate Hexit | lia]. }
    exists t, d, k, ni, nz. split; [reflexivity|].
    repeat split; try assumption; try lia.
Qed.
End Divide.

Lemma numerator_copy p num :
  1 <= p <= max_precision -> wf p num ->
  exists tw,
    for_loop 0 (sig_digs num)
      (fun i tw => v <- rd (digits num) i ;; wr tw (i + 1) v)
      (zero_cells (2 * p + 2)) = Ok tw /\
    len tw = 2 * p + 2 /\ digit_cells tw /\
    forall j, 0 <= j ->
      get tw j = if (1 <=? j) && (j <=? sig_digs num)
                 then get (digits num) (j - 1) else 0.
Proof.
  intros Hp [Hprec Hlen Hsig Hcells Htail Hlead].
  pose proof (max_precision_int p ltac:(lia)) as Hint.
  use_for (fun i tw =>
    len tw = 2 * p + 2 /\ digit_cells tw /\
    forall j, 0 <= j ->
      get tw j = if (1 <=? j) && (j <=? i)
                 then get (digits num) (j - 1) else 0).
  - lia.
  - rewrite len_zero_cells by lia. split; [reflexivity|].
    split; [apply digit_cells_zero_cells|].
    intros j Hj. rewrite get_zero_cells.
    destruct (Z.leb_spec 1 j), (Z.leb_spec j 0); try lia; reflexivity.
  - intros i tw Hi (Hl & Ht & Hget).
    rewrite rd_ok by lia. cbn [bind].
    pose proof (digit_cells_get (digits num) i Hcells).
    rewrite wr_ok by lia.
    eexists. split; [reflexivity|]. rewrite len_put.
    split; [assumption|]. split; [apply digit_cells_put; assumption|].
    intros j Hj. rewrite get_put by lia. rewrite Hget by lia.
    destruct (Z.eqb_spec j (i + 1)) as [->|Hne].
    + destruct (Z.leb_spec 1 (i + 1)), (Z.leb_spec (i + 1) (i + 1)); try lia.
      cbn [andb]. f_equal. lia.
    + destruct (Z.leb_spec 1 j), (Z.leb_spec j i), (Z.leb_spec j (i + 1));
        try lia; reflexivity.
  - exists s. auto.
Qed.

(** [bignum_divide] on well-formed, non-zero operands returns a well-formed,
    non-zero quotient. *)
Lemma bignum_divide_spec p fuel r num den :
  1 <= p <= max_precision -> wf p r -> wf p num -> wf p den ->
  0 < sig_digs num -> 0 < sig_digs den -> (10 <= fuel)%nat ->
  exists r',
    bignum_divide fuel true r num den = Ok (1, r') /\
    wf p r' /\ 0 < sig_digs r'.
Proof.
  intros Hp Hr Hnum Hden Hsn Hsd Hfuel.
  pose proof (max_precision_int p ltac:(lia)) as Hint.
  destruct (bignum_reset_wf p r ltac:(lia) Hr) as (pw & Hreset).
  unfold bignum_divide. rewrite Hreset. cbn [bind precision digits].
  destruct (Z.eqb_spec (sig_digs den) 0) as [|_]; [lia|].
  destruct (Z.eqb_spec (sig_digs num) 0) as [|_]; [lia|].
  rewrite (wrap_ulong_id (2 * p + 2)) by lia. rewrite calloc_ok by lia.
  fold (zero_cells (2 * p + 2)). fold (zero_cells p).
  destruct (numerator_copy p num Hp Hnum) as (tw & -> & Hltw & Htw & Hget).
  cbn [bind].
  pose proof (den_val_bounds p den Hden Hsd) as HD.
  assert (Hpow : 0 < 10 ^ (sig_digs den - 1)) by (apply Z.pow_pos_nonneg; lia).
  assert (Hpow' : 10 ^ sig_digs den = 10 * 10 ^ (sig_digs den - 1)).
  { rewrite <- Z.pow_succ_r by lia. f_equal. lia. }
  pose proof (wf_sig _ _ Hden) as Hsigd. pose proof (wf_sig _ _ Hnum) as Hsign.
  rewrite denom_compare_spec
    by (try assumption; try apply Hden; rewrite ?(wf_len _ _ Hden); lia).
  cbn [bind].
  set (n := Z.to_nat (sig_digs den)) in *.
  set (D := val (digits den) 0 n) in *.
  pose proof (val_bound tw (0 + 1) n ltac:(intros; now apply digit_cells_get))
    as Hw1.
  assert (Hwindow : exists ni0 pw',
    (if (if D >? val tw (0 + 1) n then 1 else 0) =? 1
     then (1, wrap_long (wrap_long (power num - power den) - 1))
     else (0, wrap_long (power num - power den))) = (ni0, pw') /\
    0 <= ni0 <= 1 /\ D <= val tw ni0 (S n) < 10 * D).
  { destruct (Z.gtb_spec D (val tw (0 + 1) n)) as [Hbig|Hsmall].
    - change (1 =? 1) with true. cbv iota. eexists. eexists.
      split; [reflexivity|]. split; [lia|].
      pose proof (digit_cells_get tw (1 + Z.of_nat n) Htw).
      pose proof (val_bound tw (1 + 1) n
                    ltac:(intros; now apply digit_cells_get)).
      pose proof (val_msd tw 1 n) as Hm. pose proof (val_S tw 1 n) as Hs.
      assert (Hl1 : 1 <= get tw 1).
      { rewrite Hget by lia.
        destruct (Z.leb_spec 1 1), (Z.leb_spec 1 (sig_digs num)); try lia.
        cbn [andb]. change (1 - 1) with 0.
        pose proof (wf_lead _ _ Hnum Hsn).
        pose proof (digit_cells_get (digits num) 0 (wf_cells _ _ Hnum)). lia. }
      subst n. rewrite Z2Nat.id in * by lia.
      change (0 + 1) with 1 in *. nia.
    - change (0 =? 1) with false. cbv iota. eexists. eexists.
      split; [reflexivity|]. split; [lia|].
      pose proof (val_msd tw 0 n) as Hm.
      assert (Hl0 : get tw 0 = 0).
      { rewrite Hget by lia. reflexivity. }
      subst n. rewrite Z2Nat.id in * by lia.
      change (0 + 1) with 1 in *. nia. }
  destruct Hwindow as (ni0 & pw' & -> & Hni0 & HW).
  destruct (divide_loop_spec p fuel num den Hp Hden Hsd Hfuel tw ni0)
    as (tw' & d & k & ni & nz & -> & Hk & Hld & Hd & Hlead & Htail);
    try assumption.
  cbn [bind].
  destruct (count_trailing_zeros_spec d (k - 1) 0)
    as (zc & -> & Hzc & Hzeros & Hlast); try lia; try assumption.
  cbn [bind]. rewrite wrap_ulong_id by lia.
  eexists. split; [reflexivity|]. cbn [sig_digs]. split; [|lia].
  constructor; cbn [precision digits sig_digs]; try assumption; try lia.
  intros j Hj. cbn [sig_digs digits] in Hj.
  destruct (Z_lt_le_dec j k); [apply Hzeros | apply Htail]; lia.
Qed.

(** ** Multiplication *)


Lemma copy_loop_from src dst off n :
  0 <= n -> 0 <= off -> off + n <= len src -> n <= len dst ->
  len src < 2 ^ 31 -> len dst < 2 ^ 31 -> digit_cells src ->
  exists d',
    for_loop 0 n (fun i d => v <- rd src (off + i) ;; wr d i v) dst = Ok d' /\
    len d' = len dst /\
    forall j, 0 <= j -> get d' j = if j <? n then get src (off + j) else get dst j.
Proof.
  intros Hn Hoff Hs Hd Hls Hld Hc.
  use_for (fun i d' => len d' = len dst /\
    forall j, 0 <= j -> get d' j = if j <? i then get src (off + j) else get dst j).
  - lia.
  - split; [reflexivity|]. intros j Hj. destruct (Z.ltb_spec j 0); [lia | reflexivity].
  - intros i s Hi (Hlen & Hget).
    rewrite rd_ok by lia. cbn [bind].
    pose proof (digit_cells_get src (off + i) Hc).
    rewrite wr_ok by lia. eexists. split; [reflexivity|].
    rewrite len_put. split; [assumption|].
    intros j Hj. rewrite get_put by lia. rewrite Hget by lia.
    break_cmp; subst; try lia; reflexivity.
  - exists s. auto.
Qed.

Section Mult.
Variables (p : Z) (bigger smaller : bignum).
Hypothesis Hp : 1 <= p <= max_precision.
Hypothesis Hbig : wf p bigger.
Hypothesis Hsmall : wf p smaller.
Hypothesis Hbs : 0 < sig_digs bigger.
Hypothesis Hss : 0 < sig_digs smaller.

Local Abbreviation bs := (sig_digs bigger).
Local Abbreviation ss := (sig_digs smaller).

Lemma mult_inner_step_ok bc sc tw carry :
  0 <= bc < ss -> 0 <= sc < bs -> len tw = 2 * p -> digit_cells tw ->
  0 <= carry <= 9 ->
  mult_inner_step bigger smaller p bc sc (tw, carry)
  = let k := 2 * p - sc - bc - 1 in
    let s := get tw k
             + (carry + get (digits smaller) (ss - 1 - bc)
                        * get (digits bigger) (bs - 1 - sc)) in
    Ok (put tw k (s mod 10), s / 10).
Proof.
  intros Hbc Hsc Hl Htw Hc.
  pose proof (max_precision_int p ltac:(lia)) as Hint.
  pose proof (wf_sig _ _ Hbig). pose proof (wf_sig _ _ Hsmall).
  pose proof (wf_len _ _ Hbig). pose proof (wf_len _ _ Hsmall).
  unfold mult_inner_step. cbv zeta.
  rewrite (wrap_ulong_id (2 * p)) by lia.
  pose proof (digit_cells_get tw (2 * p - sc - bc - 1) Htw).
  pose proof (digit_cells_get (digits smaller) (ss - 1 - bc) (wf_cells _ _ Hsmall)).
  pose proof (digit_cells_get (digits bigger) (bs - 1 - sc) (wf_cells _ _ Hbig)).
  rewrite !rd_ok by lia. cbn [bind].
  set (s := get tw (2 * p - sc - bc - 1)
            + (carry + get (digits smaller) (ss - 1 - bc)
                       * get (digits bigger) (bs - 1 - sc))).
  assert (Hs : 0 <= s <= 99) by (subst s; nia).
  rewrite wr_ok by lia. cbn [bind].
  rewrite rd_ok by (rewrite ?len_put; lia). cbn [bind].
  rewrite get_put_same by lia.
  rewrite Z.quot_div_nonneg, Z.rem_mod_nonneg by lia.
  pose proof (Z.mod_pos_bound s 10 ltac:(lia)).
  assert (0 <= s / 10 <= 9).
  { split; [apply Z.div_pos; lia|]. 
    assert (s / 10 < 10) by (apply Z.div_lt_upper_bound; lia). lia. }
  rewrite wrap_char_id by lia.
  rewrite wr_ok by (rewrite ?len_put; lia). cbn [bind].
  rewrite put_put. reflexivity.
Qed.

(** One digit of [smaller] against all of [bigger]. *)
Lemma mult_inner_loop bc tw :
  0 <= bc < ss -> len tw = 2 * p -> digit_cells tw ->
  get (digits smaller) (ss - 1 - bc) <> 0 ->
  exists t c,
    for_loop 0 bs (mult_inner_step bigger smaller p bc) (tw, 0) = Ok (t, c) /\
    len t = 2 * p /\ digit_cells t /\ 0 <= c <= 9 /\
    (forall j, 0 <= j <= 2 * p - bs - bc - 1 -> get t j = get tw j) /\
    (c <> 0 \/ get t (2 * p - bc - bs) <> 0).
Proof.
  intros Hbc Hl Htw Hsdig.
  pose proof (max_precision_int p ltac:(lia)) as Hint.
  pose proof (wf_sig _ _ Hbig). pose proof (wf_sig _ _ Hsmall).
  use_for (fun sc (st : list Z * Z) =>
    let '(t, c) := st in
    len t = 2 * p /\ digit_cells t /\ 0 <= c <= 9 /\
    (forall j, 0 <= j <= 2 * p - sc - bc - 1 -> get t j = get tw j) /\
    (1 <= sc -> get (digits bigger) (bs - sc) <> 0 ->
     c <> 0 \/ get t (2 * p - bc - sc) <> 0)).
  - lia.
  - repeat split; try lia; try assumption.
  - intros sc [t c] Hsc (Hlt & Ht & Hc & Hsame & Hnz).
    rewrite mult_inner_step_ok by (try assumption; lia). cbv zeta.
    pose proof (digit_cells_get t (2 * p - sc - bc - 1) Ht).
    pose proof (digit_cells_get (digits smaller) (ss - 1 - bc) (wf_cells _ _ Hsmall)).
    pose proof (digit_cells_get (digits bigger) (bs - 1 - sc) (wf_cells _ _ Hbig)).
    set (s := get t (2 * p - sc - bc - 1)
              + (c + get (digits smaller) (ss - 1 - bc)
                     * get (digits bigger) (bs - 1 - sc))) in *.
    assert (Hs : 0 <= s <= 99) by (subst s; nia).
    pose proof (Z.mod_pos_bound s 10 ltac:(lia)).
    assert (0 <= s / 10 <= 9).
    { split; [apply Z.div_pos; lia|].
      assert (s / 10 < 10) by (apply Z.div_lt_upper_bound; lia). lia. }
    eexists. split; [reflexivity|]. cbv beta iota. rewrite len_put.
    split; [assumption|]. split; [apply digit_cells_put; [assumption | lia]|].
    split; [lia|]. split.
    + intros j Hj. rewrite get_put_other by lia. apply Hsame. lia.
    + intros _ Hbd. replace (bs - (sc + 1)) with (bs - 1 - sc) in Hbd by lia.
      replace (2 * p - bc - (sc + 1)) with (2 * p - sc - bc - 1) by lia.
      rewrite get_put_same by lia.
      assert (1 <= s) by (subst s; nia).
      pose proof (Z.div_mod s 10 ltac:(lia)). lia.
  - destruct s as [t c]. destruct Hinv as (Hlt & Ht & Hc & Hsame & Hnz).
    exists t, c. split; [reflexivity|].
    split; [assumption|]. split; [assumption|]. split; [assumption|]. split.
    + intros j Hj. apply Hsame. lia.
    + apply Hnz; [lia|]. replace (bs - bs) with 0 by lia.
      apply (wf_lead _ _ Hbig). lia.
Qed.

Lemma mult_outer_loop :
  exists t c,
    for_loop 0 ss (mult_outer_step bigger smaller p)
      (zero_cells (2 * p), 0) = Ok (t, c) /\
    len t = 2 * p /\ digit_cells t /\ 0 <= c <= 9 /\
    c = get t (2 * p - bs - ss) /\
    (get t (2 * p - bs - ss) <> 0 \/ get t (2 * p - bs - ss + 1) <> 0).
Proof.
  pose proof (max_precision_int p ltac:(lia)) as Hint.
  pose proof (wf_sig _ _ Hbig). pose proof (wf_sig _ _ Hsmall).
  pose proof (wf_len _ _ Hsmall).
  use_for (fun bc (st : list Z * Z) =>
    let '(t, c) := st in
    len t = 2 * p /\ digit_cells t /\ 0 <= c <= 9 /\
    (forall j, 0 <= j < 2 * p - bs - bc -> get t j = 0) /\
    (1 <= bc -> get (digits smaller) (ss - bc) <> 0 ->
     c = get t (2 * p - bs - bc) /\
     (get t (2 * p - bs - bc) <> 0 \/ get t (2 * p - bs - bc + 1) <> 0))).
  - lia.
  - rewrite len_zero_cells by lia. repeat split; try lia.
    + apply digit_cells_zero_cells.
    + intros. apply get_zero_cells.
  - intros bc [t c] Hbc (Hlt & Ht & Hc & Hzero & Htop).
    unfold mult_outer_step.
    rewrite rd_ok by lia. cbn [bind].
    destruct (Z.eqb_spec (get (digits smaller) (ss - 1 - bc)) 0) as [Hz|Hnz];
      cbn [negb].
    + eexists. split; [reflexivity|]. cbv beta iota.
      split; [assumption|]. split; [assumption|]. split; [assumption|]. split.
      * intros j Hj. apply Hzero. lia.
      * intros _ Hd. exfalso. apply Hd.
        replace (ss - (bc + 1)) with (ss - 1 - bc) by lia. assumption.
    + destruct (mult_inner_loop bc t) as (t' & c' & -> & Hlt' & Ht' & Hc' & Hsame & Hnz');
        try assumption; try lia.
      cbn [bind]. rewrite (wrap_ulong_id (2 * p)) by lia.
      rewrite wr_ok by lia. cbn [bind].
      eexists. split; [reflexivity|]. cbv beta iota. rewrite len_put.
      split; [assumption|]. split; [apply digit_cells_put; assumption|].
      split; [assumption|]. split.
      * intros j Hj. rewrite get_put_other by lia. rewrite Hsame by lia.
        apply Hzero. lia.
      * intros _ _.
        replace (2 * p - bs - (bc + 1)) with (2 * p - bc - bs - 1) by lia.
        rewrite get_put_same by lia. split; [reflexivity|].
        replace (2 * p - bc - bs - 1 + 1) with (2 * p - bc - bs) by lia.
        rewrite get_put_other by lia.
        destruct Hnz'; [left | right]; assumption.
  - destruct s as [t c]. destruct Hinv as (Hlt & Ht & Hc & Hzero & Htop).
    exists t, c. split; [reflexivity|].
    destruct Htop as [Hc' Hnz]; [lia | |].
    { replace (ss - ss) with 0 by lia. apply (wf_lead _ _ Hsmall). lia. }
    repeat split; try assumption; lia.
Qed.
End Mult.

(** [bignum_mult] on well-formed, non-zero operands returns a well-formed,
    non-zero product. *)
Lemma bignum_mult_spec p r a b :
  1 <= p <= max_precision -> wf p r -> wf p a -> wf p b ->
  0 < sig_digs a -> 0 < sig_digs b ->
  exists r', bignum_mult true r a b = Ok (1, r') /\ wf p r' /\ 0 < sig_digs r'.
Proof.
  intros Hp Hr Ha Hb Hsa Hsb.
  pose proof (max_precision_int p ltac:(lia)) as Hint.
  pose proof (wf_sig _ _ Ha). pose proof (wf_sig _ _ Hb).
  destruct (bignum_reset_wf p r ltac:(lia) Hr) as (pw & Hreset).
  unfold bignum_mult. rewrite Hreset. cbn [bind precision digits].
  destruct (Z.eqb_spec (sig_digs a) 0) as [|_]; [lia|].
  destruct (Z.eqb_spec (sig_digs b) 0) as [|_]; [lia|]. cbn [orb].
  rewrite (wrap_ulong_id (2 * p)) by lia. rewrite calloc_ok by lia.
  fold (zero_cells (2 * p)). fold (zero_cells p).
  pose proof (wrap_ulong_nonneg (sig_digs a - sig_digs b)) as Hnn.
  destruct (Z.leb_spec 0 (wrap_ulong (sig_digs a - sig_digs b))); [|lia].
  cbn [bind].
  destruct (mult_outer_loop p a b Hp Ha Hb Hsa Hsb)
    as (t & c & -> & Hlt & Ht & Hc & Hctop & Hnz).
  cbn [bind].
  set (T := 2 * p - (sig_digs a + sig_digs b)).
  replace (2 * p - sig_digs a - sig_digs b) with T in * by (subst T; lia).
  set (e := if c <? 1 then 1 else 0).
  assert (He : 0 <= e <= 1) by (subst e; destruct (c <? 1); lia).
  assert (Htop : get t (T + e) <> 0).
  { subst e. destruct (Z.ltb_spec c 1).
    - destruct Hnz as [Hn|Hn]; [lia | assumption].
    - replace (T + 0) with T by lia. lia. }
  destruct (count_trailing_zeros_spec t (2 * p - 1) (T + e))
    as (zc & -> & Hzc & Hzeros & Hlast); try (subst T; lia); try assumption.
  cbn [bind].
  set (sd0 := sig_digs a + sig_digs b - e).
  replace (if c <? 1
           then (sig_digs a + sig_digs b - 1,
                 wrap_long (wrap_long (power a + power b) - 1))
           else (sig_digs a + sig_digs b, wrap_long (power a + power b)))
    with (sd0, if c <? 1 then wrap_long (wrap_long (power a + power b) - 1)
               else wrap_long (power a + power b))
    by (subst sd0 e; destruct (c <? 1); f_equal; lia).
  cbv beta iota.
  rewrite (wrap_ulong_id (sd0 - zc)) by (subst sd0 T; lia).
  set (sd := if sd0 - zc >? p then p else sd0 - zc).
  assert (Hsd : 1 <= sd <= p /\ sd <= sd0 - zc).
  { subst sd. destruct (Z.gtb_spec (sd0 - zc) p); subst sd0 T; lia. }
  replace (if c <? 1 then T + 1 else T) with (T + e)
    by (subst e; destruct (c <? 1); lia).
  destruct (copy_loop_from t (zero_cells p) (T + e) sd)
    as (d & -> & Hld & Hd); rewrite ?len_zero_cells; try (subst sd0 T; lia);
    try assumption.
  cbn [bind]. rewrite len_zero_cells in Hld by lia.
  eexists. split; [reflexivity|]. cbn [sig_digs]. split; [|lia].
  constructor; cbn [precision digits sig_digs]; try lia.
  - apply digit_cells_of_get. intros j Hj. rewrite Hd by lia.
    destruct (Z.ltb_spec j sd).
    + now apply digit_cells_get.
    + rewrite get_zero_cells. lia.
  - intros j Hj. cbn [sig_digs digits] in Hj. rewrite Hd by lia.
    destruct (Z.ltb_spec j sd); [lia|]. apply get_zero_cells.
  - intros _. rewrite Hd by lia. destruct (Z.ltb_spec 0 sd); [|lia].
    replace (T + e + 0) with (T + e) by lia. assumption.
Qed.

(** ** Every operation keeps the cells after [sig_digs] zero *)

Lemma wf_reset_form p b : wf p b -> sig_digs b = 0 ->
  b = mk_bignum (power b) 0 (zero_cells p) p.
Proof.
  intros [Hprec Hlen Hsig Hcells Htail Hlead] Hz.
  destruct b as [pw sd d pr]. cbn [power sig_digs digits precision] in *.
  subst sd pr. f_equal. unfold zero_cells. rewrite <- Hlen.
  apply all_zero_repeat. intros j Hj. apply Htail. cbn [sig_digs digits]. lia.
Qed.

Lemma wf_zero_tail p b : wf p b -> zero_tail b /\ len (digits b) = p /\ precision b = p.
Proof. intros [? ? ? ? ? ?]. auto. Qed.

(** A native integer of at most [p] digits becomes a well-formed bignum. *)
Lemma bignum_set_int_wf p pw n :
  1 <= p < 2 ^ 31 -> 0 < n < 10 ^ p ->
  exists t,
    bignum_set_int true (mk_bignum pw 0 (zero_cells p) p) n = Ok (1, t) /\
    wf p t /\ 0 < sig_digs t /\ 0 <= power t < p.
Proof.
  intros Hp Hn.
  destruct (digit_count n p ltac:(lia) Hn) as (k & Hk & Hnk).
  destruct (bignum_set_int_fits p n k Hp Hk Hnk (mk_bignum pw 0 (zero_cells p) p))
    as (t & Ht & Hpw & Hsig & Hprec & Hlen & Hdig & _ & Hlast & Hrest).
  { reflexivity. }
  { cbn [digits]. apply len_zero_cells. lia. }
  exists t. split; [assumption|]. split; [|lia].
  constructor; try assumption; try lia.
  - apply digit_cells_of_get. intros j Hj.
    destruct (Z_lt_le_dec j (sig_digs t)).
    + rewrite Hdig by lia.
      pose proof (Z.mod_pos_bound (n / 10 ^ (k - 1 - j)) 10 ltac:(lia)). lia.
    + rewrite Hrest by lia. cbn [digits]. rewrite get_zero_cells. lia.
  - intros j Hj. rewrite Hrest by lia. cbn [digits]. apply get_zero_cells.
  - intros _. rewrite Hdig by lia. rewrite Z.sub_0_r.
    pose proof (lead_digit n k ltac:(lia) Hnk). rewrite Z.mod_small; lia.
Qed.

Lemma zero_tail_zero p pw : 0 <= p ->
  zero_tail (mk_bignum pw 0 (zero_cells p) p) /\
  len (digits (mk_bignum pw 0 (zero_cells p) p)) = p /\
  precision (mk_bignum pw 0 (zero_cells p) p) = p.
Proof. intros Hp. apply wf_zero_tail, wf_zero. assumption. Qed.

(** ** Scenario S5 at every precision *)

Lemma bignum_set_int_999 p : 3 <= p < 2 ^ 31 ->
  bignum_set_int true (mk_bignum 0 0 (zero_cells p) p) 999
  = Ok (1, mk_bignum 2 3 (put (put (one_digit p 9) 1 9) 2 9) p).
Proof.
  intros Hp.
  destruct (bignum_set_int_fits p 999 3 ltac:(lia) ltac:(lia) ltac:(simpl; lia)
              (mk_bignum 0 0 (zero_cells p) p))
    as (r & -> & H1 & H2 & H3 & H4 & H5 & H6 & _ & H8).
  { reflexivity. }
  { cbn [digits]. rewrite len_zero_cells; lia. }
  destruct r as [pw sd d pr]. cbn [power sig_digs digits precision] in *.
  assert (sd = 3).
  { destruct (Z.eq_dec sd 3); [assumption|]. exfalso.
    specialize (H6 2 ltac:(lia)). vm_compute in H6. discriminate H6. }
  subst sd. do 2 f_equal. f_equal; try lia.
  apply buf_ext.
  - unfold one_digit. rewrite !len_put, len_zero_cells; lia.
  - intros i Hi. unfold one_digit.
    repeat (rewrite get_put by (rewrite ?len_put, ?len_zero_cells; lia)).
    rewrite get_zero_cells.
    destruct (Z.eqb_spec i 2) as [->|]; [rewrite H5 by lia; reflexivity|].
    destruct (Z.eqb_spec i 1) as [->|]; [rewrite H5 by lia; reflexivity|].
    destruct (Z.eqb_spec i 0) as [->|]; [rewrite H5 by lia; reflexivity|].
    rewrite H8 by lia. apply get_zero_cells.
Qed.

Lemma print_one_thousand p : 3 <= p < 2 ^ 31 ->
  bignum_print (mk_bignum 3 1 (one_digit p 1) p) 0 = Ok "1000"%string.
Proof.
  intros Hp. unfold bignum_print. cbn [sig_digs power digits].
  change (1 =? 0) with false. cbv iota.
  change ((0 <? 0) && (0 <? 1)) with false. cbv iota.
  change (3 <? 0) with false. cbv iota.
  change (wrap_long (3 + 1)) with 4. change (1 >? 4) with false. cbv iota.
  unfold print_digits, for_loop. change (Z.to_nat (1 - 0)) with 1%nat.
  cbn [for_iter].
  rewrite rd_ok by (unfold one_digit; rewrite len_put, len_zero_cells; lia).
  unfold one_digit. rewrite get_put_same by (rewrite len_zero_cells; lia).
  reflexivity.
Qed.

Section Thousand.
Variable p : Z.
Hypothesis Hp : 3 <= p < 2 ^ 31.

Local Abbreviation nines := (put (put (one_digit p 9) 1 9) 2 9).

Lemma len_nines : len nines = p.
Proof. unfold one_digit. rewrite !len_put, len_zero_cells; lia. Qed.

Lemma digit_cells_nines : digit_cells nines.
Proof.
  unfold one_digit. repeat apply digit_cells_put; try lia.
  apply digit_cells_zero_cells.
Qed.

Lemma get_nines i : 0 <= i <= 2 -> get nines i = 9.
Proof.
  intros Hi. pose proof len_nines. unfold one_digit in *. rewrite !len_put in *.
  repeat (rewrite get_put by (rewrite ?len_put; lia)).
  destruct (Z.eqb_spec i 2); [reflexivity|].
  destruct (Z.eqb_spec i 1); [reflexivity|].
  destruct (Z.eqb_spec i 0); [reflexivity | lia].
Qed.

Lemma add_999_1 pw :
  bignum_add (mk_bignum pw 0 (zero_cells p) p) (mk_bignum 2 3 nines p)
    (mk_bignum 0 1 (one_digit p 1) p)
  = Ok (1, mk_bignum 3 1 (one_digit p 1) p).
Proof.
  pose proof len_nines as Hln. pose proof digit_cells_nines as Hdn.
  assert (Hlz : len (zero_cells p) = p) by (apply len_zero_cells; lia).
  assert (Hl1 : len (one_digit p 1) = p)
    by (unfold one_digit; now rewrite len_put).
  assert (Hl9 : len (one_digit p 9) = p)
    by (unfold one_digit; now rewrite len_put).
  unfold bignum_add. rewrite bignum_reset_idle.
  cbn [bind sig_digs power precision digits].
  change ((3 =? 0) && (0 <? 1)) with false. cbv iota.
  change ((1 =? 0) && (0 <? 3)) with false. cbv iota.
  change ((3 =? 0) && (1 =? 0)) with false. cbv iota.
  change (wrap_long (2 - 0)) with 2. change (wrap_long (0 - 2)) with (-2).
  change (wrap_ulong 2) with 2. change (0 <? -2) with false.
  cbn [andb]. destruct (Z.gtb_spec 2 p); [lia|].
  change (0 <? 2) with true. cbn [andb]. cbv iota.
  change (0 <=? 2) with true. cbv iota.
  (* the 1 goes to the third cell *)
  unfold add_aligned, add_transfer.
  cbn [bind sig_digs power precision digits].
  change (wrap_long (2 - 0)) with 2. change (wrap_long (1 + 2)) with 3.
  change (wrap_ulong 3) with 3. destruct (Z.gtb_spec 3 p); [lia|].
  unfold for_loop at 1. change (Z.to_nat (1 - 0)) with 1%nat. cbn [for_iter].
  change (0 <=? 3 - 1 - 2) with true. cbv iota.
  change (3 - 1 - 2) with 0. change (3 - 1) with 2.
  rewrite rd_ok by lia. cbn [bind].
  unfold one_digit at 1. rewrite get_put_same by lia.
  rewrite wr_ok by lia. cbn [bind].
  change (3 >? 3) with false. cbv iota.
  (* three digits, each 9 + carry *)
  assert (Hd0 : digit_cells (put (zero_cells p) 2 1)).
  { apply digit_cells_put; [apply digit_cells_zero_cells | lia]. }
  unfold for_loop at 1. change (Z.to_nat (3 - 0)) with 3%nat. cbn [for_iter].
  rewrite add_step_ok by (rewrite ?len_put; try assumption; lia).
  cbv zeta. change (3 - 0 - 1) with 2.
  rewrite get_put_same, get_nines by lia.
  change (10 <=? 1 + (9 + 0)) with true. cbv iota.
  change (1 + (9 + 0) - 10) with 0. change (1 =? 1) with true.
  change (0 =? 0) with true. cbv iota. cbn [bind]. rewrite put_put.
  assert (Hd1 : digit_cells (put (zero_cells p) 2 0)).
  { apply digit_cells_put; [apply digit_cells_zero_cells | lia]. }
  rewrite add_step_ok by (rewrite ?len_put; try assumption; lia).
  cbv zeta. change (3 - (0 + 1) - 1) with 1.
  rewrite get_nines by lia. rewrite get_put_other, get_zero_cells by lia.
  change (10 <=? 0 + (9 + 1)) with true. cbv iota.
  change (0 + (9 + 1) - 10) with 0. change (1 =? 1) with true.
  change (0 =? 0) with true. cbv iota. cbn [bind].
  assert (Hd2 : digit_cells (put (put (zero_cells p) 2 0) 1 0)).
  { apply digit_cells_put; [assumption | lia]. }
  rewrite add_step_ok by (rewrite ?len_put; try assumption; lia).
  cbv zeta. change (3 - (0 + 1 + 1) - 1) with 0.
  rewrite get_nines by lia. rewrite !get_put_other, get_zero_cells by lia.
  change (10 <=? 0 + (9 + 1)) with true. cbv iota.
  change (0 + (9 + 1) - 10) with 0. change (1 =? 1) with true.
  change (0 =? 0) with true. cbv iota. cbn [bind].
  (* all three are zero, the carry becomes the only digit *)
  unfold add_carry_out. change (0 <? 1) with true. cbv iota.
  change (3 - (0 + 1 + 1 + 1)) with 0.
  destruct (Z.eqb_spec 0 p); [lia|].
  rewrite for_loop_none by lia. cbn [bind].
  rewrite wr_ok by (rewrite ?len_put; lia). cbn [bind].
  change (wrap_long (2 + 1)) with 3. change (0 + 1) with 1.
  do 3 f_equal. apply buf_ext.
  - rewrite !len_put. lia.
  - intros i Hi. rewrite !len_put in Hi. unfold one_digit.
    repeat (rewrite get_put by (rewrite ?len_put; lia)).
    rewrite get_zero_cells.
    destruct (Z.eqb_spec i 0), (Z.eqb_spec i 1), (Z.eqb_spec i 2);
      try lia; reflexivity.
Qed.
End Thousand.

(** * The claims *)

Ltac wf_by_check := apply wfb_sound; vm_compute; reflexivity.

(** ** C1: the representation invariant *)

(** C1 fails on the code: at precision 3, [999 + 2] leaves a bignum with
    [sig_digs = 4], one more than its precision, whose last stored cell is
    zero. *)
Theorem C1_add_exceeds_precision :
  add_at_full_precision = Ok (1, mk_bignum 3 4 [1; 0; 0] 3).
Proof. vm_compute. reflexivity. Qed.

(** The product has the same trouble at the other end: at precision 2,
    [15 * 7] is cut to the cells 1, 0 and the zero stays a stored digit. *)
Example mult_keeps_a_trailing_zero :
  bignum_mult true (mk_bignum 0 0 [0; 0] 2) (mk_bignum 1 2 [1; 5] 2)
    (mk_bignum 0 1 [7; 0] 2)
  = Ok (1, mk_bignum 2 2 [1; 0] 2).
Proof. vm_compute. reflexivity. Qed.

(** ** C2: division by zero *)

(** C2: [bignum_divide] reports an error when the denominator is zero
    ([sig_digs = 0]) and, the scratch word granted, only then: with a
    non-zero denominator it returns 1, and a zero numerator leaves the
    result reset to zero.  The operands are well-formed bignums of one
    precision; ten rounds of the subtraction loop are enough for a digit. *)
Theorem C2_divide_error p fuel r num den :
  1 <= p <= max_precision -> wf p r -> wf p num -> wf p den ->
  (10 <= fuel)%nat ->
  (sig_digs den = 0 ->
   forall ok, exists pw,
     bignum_divide fuel ok r num den
     = Ok (0, mk_bignum pw 0 (zero_cells p) p)) /\
  (0 < sig_digs den ->
   exists r', bignum_divide fuel true r num den = Ok (1, r')) /\
  (0 < sig_digs den -> sig_digs num = 0 ->
   forall ok, exists pw,
     bignum_divide fuel ok r num den
     = Ok (1, mk_bignum pw 0 (zero_cells p) p)).
Proof.
  intros Hp Hr Hnum Hden Hfuel.
  pose proof (max_precision_int p ltac:(lia)) as Hint.
  destruct (bignum_reset_wf p r ltac:(lia) Hr) as (pw & Hreset).
  fold (zero_cells p) in Hreset.
  assert (Hzero : 0 < sig_digs den -> sig_digs num = 0 ->
            forall ok, exists pw,
              bignum_divide fuel ok r num den
              = Ok (1, mk_bignum pw 0 (zero_cells p) p)).
  { intros Hsd Hsn ok. exists pw. unfold bignum_divide.
    rewrite Hreset. cbn [bind]. rewrite Hsn.
    destruct (Z.eqb_spec (sig_digs den) 0); [lia | reflexivity]. }
  split; [|split; [|exact Hzero]].
  - intros Hsd ok. exists pw. unfold bignum_divide.
    rewrite Hreset. cbn [bind]. rewrite Hsd. reflexivity.
  - intros Hsd. pose proof (wf_sig _ _ Hnum) as Hsn.
    destruct (Z.eq_dec (sig_digs num) 0) as [Hn0|Hn0].
    + destruct (Hzero Hsd Hn0 true) as (pw' & H). eexists. exact H.
    + destruct (bignum_divide_spec p fuel r num den) as (r' & H & _);
        try assumption; try lia.
      exists r'. exact H.
Qed.

(** 1/3 at precision 3. *)
Lemma C2_divide_error_witness :
  exists r',
    bignum_divide 10 true (mk_bignum 0 0 [0; 0; 0] 3)
      (mk_bignum 0 1 [1; 0; 0] 3) (mk_bignum 0 1 [3; 0; 0] 3) = Ok (1, r').
Proof.
  destruct (C2_divide_error 3 10 (mk_bignum 0 0 [0; 0; 0] 3)
              (mk_bignum 0 1 [1; 0; 0] 3) (mk_bignum 0 1 [3; 0; 0] 3))
    as (_ & H & _);
    [ unfold max_precision; lia | wf_by_check | wf_by_check | wf_by_check
    | lia | ].
  apply H. cbn [sig_digs]. lia.
Defined.

(** ** C3: one third *)

(** C3: for every precision from 10 on (up to the largest one whose scratch
    word has an [int] size), [set_int(a, 1); set_int(b, 3); divide(r, a, b)]
    gives [power = -1], [sig_digs = precision], every digit 3, and prints
    [0.] followed by [precision] threes. *)
Theorem C3_one_third fuel p :
  10 <= p <= max_precision -> (4 <= fuel)%nat ->
  scenario_S6 fuel p
  = Ok (1, mk_bignum (-1) p (repeat 3 (Z.to_nat p)) p,
        ("0." ++ replicate (Z.to_nat p) "3")%string).
Proof.
  intros Hp Hfuel. pose proof (max_precision_int p ltac:(lia)).
  unfold scenario_S6. rewrite bignum_init_ok by lia. cbn [bind].
  rewrite !bignum_set_int_digit by lia. cbn [bind].
  rewrite divide_one_third by lia. cbn [bind].
  rewrite print_one_third by lia. reflexivity.
Qed.

Lemma C3_one_third_witness :
  scenario_S6 4 10
  = Ok (1, mk_bignum (-1) 10 (repeat 3 (Z.to_nat 10)) 10,
        ("0." ++ replicate (Z.to_nat 10) "3")%string).
Proof. apply (C3_one_third 4 10); [unfold max_precision; lia | lia]. Defined.

(** ** C4: 999 + 1 *)

(** C4: at every precision from 3 on (25 among them), after
    [set_int(a, 999); add_int(r, a, 1)] the result has [sig_digs = 1] and
    [power = 3], one stored digit 1, and prints as [1000]. *)
Theorem C4_add_int_999_1 p :
  3 <= p < 2 ^ 31 ->
  scenario_S5 p = Ok (1, mk_bignum 3 1 (one_digit p 1) p, "1000"%string).
Proof.
  intros Hp. unfold scenario_S5.
  rewrite bignum_init_ok by lia. cbn [bind].
  rewrite bignum_set_int_999 by lia. cbn [bind].
  unfold bignum_add_int. rewrite bignum_reset_idle.
  cbn [bind sig_digs precision].
  change ((1 =? 0) && (0 <? 3)) with false. cbv iota.
  change ((3 =? 0) && (0 <? 1)) with false. cbv iota.
  change ((3 =? 0) && (1 =? 0)) with false. cbv iota.
  rewrite bignum_init_ok by lia. cbn [bind].
  rewrite bignum_set_int_digit by lia. cbn [bind].
  change (1 =? 0) with false. cbv iota.
  rewrite add_999_1 by lia. cbn [bind].
  rewrite print_one_thousand by lia. reflexivity.
Qed.

Lemma C4_add_int_999_1_witness :
  scenario_S5 25 = Ok (1, mk_bignum 3 1 (one_digit 25 1) 25, "1000"%string).
Proof. apply (C4_add_int_999_1 25). lia. Defined.

(** ** C5: the over-shift of [bignum_add] *)

(** C5: both operands non-zero and the powers further apart than the
    precision: [bignum_add] returns the operand with the larger power,
    on whichever side it stands. *)
Theorem C5_overshift p r a b :
  0 <= p < 2 ^ 31 -> wf p r -> wf p a -> wf p b ->
  0 < sig_digs a -> 0 < sig_digs b ->
  - 2 ^ 63 < power a - power b < 2 ^ 63 ->
  p < power a - power b ->
  bignum_add r a b = Ok (1, a) /\ bignum_add r b a = Ok (1, a).
Proof.
  intros Hp Hr Ha Hb Hsa Hsb Hrange Hshift.
  destruct (bignum_reset_wf p r Hp Hr) as (pw & Hreset).
  unfold bignum_add. rewrite Hreset. cbn [bind precision].
  rewrite (wrap_long_id (power a - power b)) by lia.
  rewrite (wrap_long_id (power b - power a)) by lia.
  rewrite (wrap_ulong_id (power a - power b)) by lia.
  rewrite (bignum_set_zero p pw a Hp Ha Hsa).
  split.
  - break_cmp; try lia; reflexivity.
  - break_cmp; try lia; reflexivity.
Qed.

(** 700000 + 12 at precision 3. *)
Lemma C5_overshift_witness :
  bignum_add (mk_bignum 0 0 [0; 0; 0] 3) (mk_bignum 5 1 [7; 0; 0] 3)
    (mk_bignum 1 2 [1; 2; 0] 3)
  = Ok (1, mk_bignum 5 1 [7; 0; 0] 3).
Proof.
  destruct (C5_overshift 3 (mk_bignum 0 0 [0; 0; 0] 3)
              (mk_bignum 5 1 [7; 0; 0] 3) (mk_bignum 1 2 [1; 2; 0] 3))
    as [H _];
    [ lia | wf_by_check | wf_by_check | wf_by_check
    | cbn [sig_digs]; lia | cbn [sig_digs]; lia
    | cbn [power]; lia | cbn [power]; lia | exact H ].
Defined.

(** ** C6: addition commutes *)




(** ** C7: the work partition *)

(** After the defaults of [main] both counts are positive [long] values. *)
Lemma driver_args_positive a b :
  1 <= iterations_arg a < 2 ^ 63 /\ 1 <= num_threads_arg b < 2 ^ 63.
Proof.
  assert (H : forall v, - 2 ^ 63 <= wrap_long v < 2 ^ 63).
  { intros v. unfold wrap_long.
    pose proof (Z.mod_pos_bound (v + 2 ^ 63) (2 ^ 64) ltac:(lia)). lia. }
  unfold iterations_arg, num_threads_arg.
  destruct a as [v|], b as [w|];
    try destruct (Z.ltb_spec (wrap_long v) 1);
    try destruct (Z.ltb_spec (wrap_long w) 1);
    try pose proof (H v); try pose proof (H w); lia.
Qed.

Lemma funct_args_lo N W D j :
  1 <= N < 2 ^ 63 -> 1 <= W < 2 ^ 63 -> 0 <= j < W ->
  lowlimit (funct_args N W D j) = j * (N / W).
Proof.
  intros HN HW Hj. cbn [funct_args lowlimit].
  rewrite Z.quot_div_nonneg by lia.
  assert (0 <= N / W) by (apply Z.div_pos; lia).
  assert (W * (N / W) <= N) by (apply Z.mul_div_le; lia).
  apply wrap_long_id. nia.
Qed.

Lemma funct_args_hi N W D j :
  1 <= N < 2 ^ 63 -> 1 <= W < 2 ^ 63 -> 0 <= j < W ->
  highlimit (funct_args N W D j) = if j =? W - 1 then N else (j + 1) * (N / W).
Proof.
  intros HN HW Hj. cbn [funct_args highlimit].
  rewrite Z.quot_div_nonneg by lia.
  assert (0 <= N / W) by (apply Z.div_pos; lia).
  assert (W * (N / W) <= N) by (apply Z.mul_div_le; lia).
  rewrite (wrap_long_id (j + 1)) by lia.
  destruct (Z.eqb_spec (j + 1) W), (Z.eqb_spec j (W - 1)); try lia.
  apply wrap_long_id. nia.
Qed.

(** C7, as the code has it: for [1 <= N] and [1 <= W] (both of type [long])
    worker [j] gets [lo = j * (N / W)] and [hi = (j + 1) * (N / W)], the last
    worker [hi = N]; [lo_0 = 0]; consecutive ranges are contiguous; every
    index of [0, N) lies in exactly one range and no range leaves [0, N);
    each range has [0 <= lo <= hi <= N], and [lo < hi] when [W <= N]. *)
Theorem C7_partition N W D :
  1 <= N < 2 ^ 63 -> 1 <= W < 2 ^ 63 ->
  (forall j, 0 <= j < W ->
     lowlimit (funct_args N W D j) = j * (N / W) /\
     highlimit (funct_args N W D j)
       = (if j =? W - 1 then N else (j + 1) * (N / W)) /\
     0 <= lowlimit (funct_args N W D j) <= highlimit (funct_args N W D j) /\
     highlimit (funct_args N W D j) <= N /\
     (W <= N ->
      lowlimit (funct_args N W D j) < highlimit (funct_args N W D j))) /\
  lowlimit (funct_args N W D 0) = 0 /\
  highlimit (funct_args N W D (W - 1)) = N /\
  (forall j, 0 <= j < W - 1 ->
     highlimit (funct_args N W D j) = lowlimit (funct_args N W D (j + 1))) /\
  (forall k, 0 <= k < N ->
     exists j, 0 <= j < W /\
       lowlimit (funct_args N W D j) <= k < highlimit (funct_args N W D j) /\
       forall j', 0 <= j' < W ->
         lowlimit (funct_args N W D j') <= k < highlimit (funct_args N W D j') ->
         j' = j) /\
  (forall j k, 0 <= j < W ->
     lowlimit (funct_args N W D j) <= k < highlimit (funct_args N W D j) ->
     0 <= k < N).
Proof.
  intros HN HW.
  assert (Hq0 : 0 <= N / W) by (apply Z.div_pos; lia).
  assert (Hq1 : W * (N / W) <= N) by (apply Z.mul_div_le; lia).
  assert (Hq2 : W <= N -> 1 <= N / W).
  { intros. apply Z.div_le_lower_bound; lia. }
  assert (Hbody : forall j, 0 <= j < W ->
     lowlimit (funct_args N W D j) = j * (N / W) /\
     highlimit (funct_args N W D j)
       = (if j =? W - 1 then N else (j + 1) * (N / W)) /\
     0 <= lowlimit (funct_args N W D j) <= highlimit (funct_args N W D j) /\
     highlimit (funct_args N W D j) <= N /\
     (W <= N ->
      lowlimit (funct_args N W D j) < highlimit (funct_args N W D j))).
  { intros j Hj. rewrite funct_args_lo, funct_args_hi by lia.
    destruct (Z.eqb_spec j (W - 1)); repeat split; try nia;
      intros HWN; specialize (Hq2 HWN); nia. }
  split; [exact Hbody|].
  split; [rewrite funct_args_lo by lia; lia|].
  split; [rewrite funct_args_hi by lia; rewrite Z.eqb_refl; reflexivity|].
  split.
  { intros j Hj. rewrite funct_args_lo, funct_args_hi by lia.
    destruct (Z.eqb_spec j (W - 1)); lia. }
  split.
  - intros k Hk.
    destruct (Z_lt_le_dec k ((W - 1) * (N / W))) as [Hlt|Hge].
    + (* an inner worker *)
      assert (Hqpos : 0 < N / W) by nia.
      exists (k / (N / W)).
      assert (Hd : (N / W) * (k / (N / W)) <= k
                   < (N / W) * (k / (N / W)) + N / W).
      { pose proof (Z.mul_div_le k (N / W) Hqpos).
        pose proof (Z.mul_succ_div_gt k (N / W) Hqpos). lia. }
      assert (Hj : 0 <= k / (N / W) < W - 1).
      { split; [apply Z.div_pos; lia|]. apply Z.div_lt_upper_bound; lia. }
      split; [lia|]. split.
      * rewrite funct_args_lo, funct_args_hi by lia.
        destruct (Z.eqb_spec (k / (N / W)) (W - 1)); lia.
      * intros j' Hj'. rewrite funct_args_lo, funct_args_hi by lia.
        destruct (Z.eqb_spec j' (W - 1)); intros; nia.
    + exists (W - 1). split; [lia|]. split.
      * rewrite funct_args_lo, funct_args_hi by lia. rewrite Z.eqb_refl. lia.
      * intros j' Hj'. rewrite funct_args_lo, funct_args_hi by lia.
        destruct (Z.eqb_spec j' (W - 1)); intros; nia.
  - intros j k Hj Hr. destruct (Hbody j Hj) as (_ & _ & ? & ? & _). lia.
Qed.

(** The canonical run: 20000 subintervals on 8 workers. *)
Lemma C7_partition_witness :
  lowlimit (funct_args 20000 8 25 0) = 0 /\
  highlimit (funct_args 20000 8 25 (8 - 1)) = 20000.
Proof.
  destruct (C7_partition 20000 8 25) as (_ & H0 & H1 & _); [lia | lia |].
  exact (conj H0 H1).
Defined.

(** With one subinterval and two workers the first worker's range is empty:
    its [lo] is not below its [hi]. *)
Lemma C7_counterexample :
  ~ (lowlimit (funct_args 1 2 25 0) < highlimit (funct_args 1 2 25 0)).
Proof. vm_compute. intros H; discriminate H. Qed.

(** ** C8: integer ingestion *)

(** C8, as the code has it: [set_int] on a non-negative [n] and a
    well-formed destination.  Zero resets the destination.  When [n] has
    [k <= precision] decimal digits the call succeeds, [power = k - 1], and
    the cells hold the digits of [n] from the most significant to the last
    non-zero one.  When [n] has more digits than the precision the splitting
    loop writes past its scratch word: no outcome is defined, nothing is
    truncated.  The call returns failure only when the allocator refuses the
    scratch word. *)
Theorem C8_set_int p dst n :
  1 <= p < 2 ^ 31 -> wf p dst -> 0 <= n ->
  (n = 0 -> exists pw,
     bignum_set_int true dst n
     = Ok (1, mk_bignum pw 0 (repeat 0 (Z.to_nat p)) p)) /\
  (forall k, 1 <= k <= p -> 10 ^ (k - 1) <= n < 10 ^ k ->
     exists r,
       bignum_set_int true dst n = Ok (1, r) /\
       power r = k - 1 /\ 1 <= sig_digs r <= k /\ precision r = p /\
       (forall i, 0 <= i < sig_digs r ->
          get (digits r) i = (n / 10 ^ (k - 1 - i)) mod 10) /\
       (forall i, sig_digs r <= i < k -> (n / 10 ^ (k - 1 - i)) mod 10 = 0) /\
       get (digits r) (sig_digs r - 1) <> 0) /\
  (10 ^ p <= n -> bignum_set_int true dst n = Undef) /\
  (forall ok r, bignum_set_int ok dst n = Ok (0, r) -> ok = false) /\
  (0 < n -> bignum_set_int false dst n = Ok (0, dst)).
Proof.
  intros Hp Hwf Hn.
  assert (Hzero : n = 0 -> exists pw,
     bignum_set_int true dst n
     = Ok (1, mk_bignum pw 0 (repeat 0 (Z.to_nat p)) p)).
  { intros ->. cbn. destruct (bignum_reset_wf p dst ltac:(lia) Hwf) as (pw & ->).
    exists pw. reflexivity. }
  assert (Hfits : forall k, 1 <= k <= p -> 10 ^ (k - 1) <= n < 10 ^ k ->
     exists r,
       bignum_set_int true dst n = Ok (1, r) /\
       power r = k - 1 /\ 1 <= sig_digs r <= k /\ precision r = p /\
       (forall i, 0 <= i < sig_digs r ->
          get (digits r) i = (n / 10 ^ (k - 1 - i)) mod 10) /\
       (forall i, sig_digs r <= i < k -> (n / 10 ^ (k - 1 - i)) mod 10 = 0) /\
       get (digits r) (sig_digs r - 1) <> 0).
  { intros k Hk Hnk.
    destruct (bignum_set_int_fits p n k Hp Hk Hnk dst (wf_prec _ _ Hwf) (wf_len _ _ Hwf))
      as (r & Hr & H1 & H2 & H3 & H4 & H5 & H6 & H7 & H8).
    exists r. auto 10. }
  assert (Hover : 10 ^ p <= n -> bignum_set_int true dst n = Undef).
  { intros. apply (bignum_set_int_overrun p); try assumption. apply Hwf. }
  split; [exact Hzero|]. split; [exact Hfits|]. split; [exact Hover|]. split.
  - intros ok r Hr. destruct ok; [exfalso | reflexivity].
    destruct (Z.eq_dec n 0) as [Hn0|Hn0].
    { destruct (Hzero Hn0) as (pw & Hz). congruence. }
    destruct (Z_lt_le_dec n (10 ^ p)) as [Hlt|Hge].
    + destruct (digit_count n p ltac:(lia) ltac:(lia)) as (k & Hk & Hnk).
      destruct (Hfits k Hk Hnk) as (r' & Hr' & _). congruence.
    + rewrite (Hover Hge) in Hr. discriminate.
  - intros Hpos. unfold bignum_set_int.
    destruct (Z.ltb_spec 0 n); [reflexivity | lia].
Qed.

(** 120 into a fresh bignum of precision 3. *)
Lemma C8_set_int_witness :
  exists r,
    bignum_set_int true (mk_bignum 0 0 [0; 0; 0] 3) 120 = Ok (1, r) /\
    power r = 2 /\ 1 <= sig_digs r <= 3.
Proof.
  destruct (C8_set_int 3 (mk_bignum 0 0 [0; 0; 0] 3) 120) as (_ & H & _);
    [ lia | wf_by_check | lia | ].
  destruct (H 3) as (r & Hr & Hpw & Hsig & _); [lia | simpl; lia |].
  exists r. split; [exact Hr|]. split; [exact Hpw | exact Hsig].
Defined.

(** 123 does not fit into two digits: the call has no defined outcome, it
    neither fails nor truncates. *)
Lemma C8_counterexample :
  ~ exists rc r, bignum_set_int true (mk_bignum 0 0 [0; 0] 2) 123 = Ok (rc, r).
Proof. vm_compute. intros (rc & r & H). discriminate H. Qed.

(** ** C9: the reference line *)

(** C9, as the code has it: with the digit budget 25 the second line of
    output is [The actual value of pi is     3.] followed by the first 24
    decimals of the stored constant, 141592653589793238462643. *)
Theorem C9_second_line :
  print_accepted_pi (max_digits_arg (Some 25))
  = Ok (nl ++ "The actual value of pi is     3.141592653589793238462643")%string.
Proof. vm_compute. reflexivity. Qed.

(** The line differs from the one the specification quotes. *)
Lemma C9_counterexample :
  print_accepted_pi (max_digits_arg (Some 25)) <> Ok spec_line_25.
Proof. vm_compute. intros H; discriminate H. Qed.

(** ** C10: zeros after the significant digits *)

(** C10, as the code has it: on well-formed operands every operation
    returns and leaves the cells from [sig_digs] on zero, where [set] and
    [set_int] need a destination that has been reset; [reset] zeroes
    exactly the cells below the old [sig_digs]. *)
Theorem C10_zero_tail_kept p fuel o r :
  1 <= p <= max_precision -> (10 <= fuel)%nat -> wf p r -> op_ready p o r ->
  exists r',
    run_op fuel o r = Ok r' /\
    zero_tail r' /\ len (digits r') = p /\ precision r' = p /\
    (o = op_reset ->
     forall j, 0 <= j ->
       get (digits r') j = if j <? sig_digs r then 0 else get (digits r) j).
Proof.
  intros Hp Hfuel Hr Hready.
  pose proof (max_precision_int p ltac:(lia)) as Hint.
  assert (Hp31 : 1 <= p < 2 ^ 31) by lia.
  destruct (bignum_reset_wf p r ltac:(lia) Hr) as (pw & Hreset).
  fold (zero_cells p) in Hreset.
  pose proof (zero_tail_zero p pw ltac:(lia)) as Hz0.
  assert (Hwfz : forall pw', wf p (mk_bignum pw' 0 (zero_cells p) p))
    by (intros; apply wf_zero; lia).
  assert (Hinit : bignum_init true p = Ok (mk_bignum 0 0 (zero_cells p) p))
    by (apply bignum_init_ok; lia).
  destruct o as [|src|n|a b|a n|a b|a n|a b|n b|a n]; cbn [run_op op_ready] in *.
  - (* reset *)
    exists (mk_bignum pw 0 (zero_cells p) p). split; [assumption|].
    split; [apply Hz0|]. split; [apply Hz0|]. split; [apply Hz0|].
    intros _ j Hj. cbn [digits]. rewrite get_zero_cells.
    destruct (Z.ltb_spec j (sig_digs r)); [reflexivity|].
    symmetry. apply (wf_get_tail p); assumption.
  - (* set *)
    destruct Hready as [Hsrc Hrz].
    rewrite (wf_reset_form p r Hr Hrz).
    pose proof (wf_sig _ _ Hsrc).
    destruct (Z.eq_dec (sig_digs src) 0) as [Hs0|Hs0].
    + unfold bignum_set. rewrite Hs0. cbn [Z.ltb Z.compare].
      rewrite bignum_reset_idle. eexists. split; [reflexivity|].
      split; [apply zero_tail_zero; lia|]. split; [apply zero_tail_zero; lia|].
      split; [reflexivity | discriminate].
    + unfold zero_cells. rewrite (bignum_set_zero p) by (try assumption; lia).
      exists src. split; [reflexivity|].
      split; [apply Hsrc|]. split; [apply Hsrc|]. split; [apply Hsrc | discriminate].
  - (* set_int *)
    destruct Hready as [Hn Hrz].
    rewrite (wf_reset_form p r Hr Hrz).
    destruct (Z.eq_dec n 0) as [->|Hn0].
    + cbn. eexists. split; [reflexivity|].
      split; [apply zero_tail_zero; lia|]. split; [apply zero_tail_zero; lia|].
      split; [reflexivity | discriminate].
    + destruct (bignum_set_int_wf p (power r) n Hp31 ltac:(lia))
        as (t & -> & Ht & _). cbn [bind].
      exists t. split; [reflexivity|].
      split; [apply Ht|]. split; [apply Ht|]. split; [apply Ht | discriminate].
  - (* add *)
    destruct Hready as (Ha & Hb & Hpa & Hpb). unfold power_ok in *.
    destruct (bignum_add_spec p r a b Hp31 Hr Ha Hb ltac:(lia))
      as (r' & -> & _ & Hprec & Hlen & _ & _ & Htail).
    cbn [bind]. exists r'. repeat split; try assumption. discriminate.
  - (* add_int *)
    destruct Hready as (Ha & Hpa & Hn). unfold power_ok in *.
    pose proof (wf_sig _ _ Ha) as Hsa.
    unfold bignum_add_int. rewrite Hreset. cbn [bind precision].
    destruct (Z.eqb_spec n 0) as [->|Hn0];
      destruct (Z.eqb_spec (sig_digs a) 0) as [Ha0|Ha0]; cbn [andb].
    + destruct (Z.ltb_spec 0 (sig_digs a)); [lia|]. cbn [Z.ltb Z.compare bind].
      eexists. split; [reflexivity|]. repeat split; try apply Hz0. discriminate.
    + destruct (Z.ltb_spec 0 (sig_digs a)); [|lia].
      unfold zero_cells. rewrite (bignum_set_zero p) by (try assumption; lia).
      cbn [bind]. exists a. split; [reflexivity|].
      split; [apply Ha|]. split; [apply Ha|]. split; [apply Ha | discriminate].
    + destruct (Z.ltb_spec 0 n); [|lia].
      destruct (bignum_set_int_wf p pw n Hp31 ltac:(lia)) as (t & -> & Ht & _).
      cbn [bind]. exists t. split; [reflexivity|].
      split; [apply Ht|]. split; [apply Ht|]. split; [apply Ht | discriminate].
    + cbn [andb]. rewrite Hinit. cbn [bind].
      destruct (bignum_set_int_wf p 0 n Hp31 ltac:(lia))
        as (t & -> & Ht & Hst & Hpt).
      cbn [bind]. change (1 =? 0) with false. cbv iota.
      destruct (bignum_add_spec p (mk_bignum pw 0 (zero_cells p) p) a t
                  Hp31 (Hwfz pw) Ha Ht ltac:(lia))
        as (r' & -> & _ & Hprec & Hlen & _ & _ & Htail).
      cbn [bind]. exists r'. repeat split; try assumption. discriminate.
  - (* mult *)
    destruct Hready as (Ha & Hb).
    pose proof (wf_sig _ _ Ha) as Hsa. pose proof (wf_sig _ _ Hb) as Hsb.
    destruct (Z.eq_dec (sig_digs a) 0) as [Ha0|Ha0];
      [|destruct (Z.eq_dec (sig_digs b) 0) as [Hb0|Hb0]].
    + unfold bignum_mult. rewrite Hreset. cbn [bind]. rewrite Ha0.
      cbn [Z.eqb orb bind].
      eexists. split; [reflexivity|]. repeat split; try apply Hz0. discriminate.
    + unfold bignum_mult. rewrite Hreset. cbn [bind]. rewrite Hb0.
      rewrite orb_true_r. cbn [bind].
      eexists. split; [reflexivity|]. repeat split; try apply Hz0. discriminate.
    + destruct (bignum_mult_spec p r a b Hp Hr Ha Hb ltac:(lia) ltac:(lia))
        as (r' & -> & Hr' & _).
      cbn [bind]. exists r'. split; [reflexivity|].
      split; [apply Hr'|]. split; [apply Hr'|]. split; [apply Hr' | discriminate].
  - (* mult_int *)
    destruct Hready as (Ha & Hn).
    pose proof (wf_sig _ _ Ha) as Hsa.
    unfold bignum_mult_int. rewrite Hreset. cbn [bind precision].
    destruct (Z.eqb_spec (sig_digs a) 0) as [Ha0|Ha0];
      [|destruct (Z.eqb_spec n 0) as [Hn0|Hn0]]; cbn [orb].
    + eexists. split; [reflexivity|]. repeat split; try apply Hz0. discriminate.
    + eexists. split; [reflexivity|]. repeat split; try apply Hz0. discriminate.
    + rewrite Hinit. cbn [bind].
      destruct (bignum_set_int_wf p 0 n Hp31 ltac:(lia))
        as (t & -> & Ht & Hst & Hpt).
      cbn [bind]. change (1 =? 0) with false. cbv iota.
      destruct (bignum_mult_spec p (mk_bignum pw 0 (zero_cells p) p) a t
                  Hp (Hwfz pw) Ha Ht ltac:(lia) Hst)
        as (r' & -> & Hr' & _).
      cbn [bind]. exists r'. split; [reflexivity|].
      split; [apply Hr'|]. split; [apply Hr'|]. split; [apply Hr' | discriminate].
  - (* divide *)
    destruct Hready as (Ha & Hb).
    pose proof (wf_sig _ _ Ha) as Hsa. pose proof (wf_sig _ _ Hb) as Hsb.
    destruct (Z.eq_dec (sig_digs b) 0) as [Hb0|Hb0];
      [|destruct (Z.eq_dec (sig_digs a) 0) as [Ha0|Ha0]].
    + unfold bignum_divide. rewrite Hreset. cbn [bind]. rewrite Hb0.
      cbn [Z.eqb bind].
      eexists. split; [reflexivity|]. repeat split; try apply Hz0. discriminate.
    + unfold bignum_divide. rewrite Hreset. cbn [bind]. rewrite Ha0.
      destruct (Z.eqb_spec (sig_digs b) 0); [lia|]. cbn [Z.eqb bind].
      eexists. split; [reflexivity|]. repeat split; try apply Hz0. discriminate.
    + destruct (bignum_divide_spec p fuel r a b Hp Hr Ha Hb
                  ltac:(lia) ltac:(lia) Hfuel) as (r' & -> & Hr' & _).
      cbn [bind]. exists r'. split; [reflexivity|].
      split; [apply Hr'|]. split; [apply Hr'|]. split; [apply Hr' | discriminate].
  - (* int_divide *)
    destruct Hready as (Hb & Hn).
    pose proof (wf_sig _ _ Hb) as Hsb.
    unfold bignum_int_divide. rewrite Hreset. cbn [bind precision].
    destruct (Z.eqb_spec (sig_digs b) 0) as [Hb0|Hb0];
      [|destruct (Z.eqb_spec n 0) as [Hn0|Hn0]].
    + eexists. split; [reflexivity|]. repeat split; try apply Hz0. discriminate.
    + eexists. split; [reflexivity|]. repeat split; try apply Hz0. discriminate.
    + rewrite Hinit. cbn [bind].
      destruct (bignum_set_int_wf p 0 n Hp31 ltac:(lia))
        as (t & -> & Ht & Hst & Hpt).
      cbn [bind]. change (1 =? 0) with false. cbv iota.
      destruct (bignum_divide_spec p fuel (mk_bignum pw 0 (zero_cells p) p) t b
                  Hp (Hwfz pw) Ht Hb Hst ltac:(lia) Hfuel)
        as (r' & -> & Hr' & _).
      cbn [bind]. exists r'. split; [reflexivity|].
      split; [apply Hr'|]. split; [apply Hr'|]. split; [apply Hr' | discriminate].
  - (* divide_int *)
    destruct Hready as (Ha & Hn).
    pose proof (wf_sig _ _ Ha) as Hsa.
    unfold bignum_divide_int. rewrite Hreset. cbn [bind precision].
    destruct (Z.eqb_spec n 0) as [Hn0|Hn0];
      [|destruct (Z.eqb_spec (sig_digs a) 0) as [Ha0|Ha0]].
    + eexists. split; [reflexivity|]. repeat split; try apply Hz0. discriminate.
    + eexists. split; [reflexivity|]. repeat split; try apply Hz0. discriminate.
    + rewrite Hinit. cbn [bind].
      destruct (bignum_set_int_wf p 0 n Hp31 ltac:(lia))
        as (t & -> & Ht & Hst & Hpt).
      cbn [bind]. change (1 =? 0) with false. cbv iota.
      destruct (bignum_divide_spec p fuel (mk_bignum pw 0 (zero_cells p) p) a t
                  Hp (Hwfz pw) Ha Ht ltac:(lia) Hst Hfuel)
        as (r' & -> & Hr' & _).
      cbn [bind]. exists r'. split; [reflexivity|].
      split; [apply Hr'|]. split; [apply Hr'|]. split; [apply Hr' | discriminate].
Qed.

(** 12 * 5 at precision 3, into a bignum that holds 999. *)
Lemma C10_zero_tail_kept_witness :
  exists r',
    run_op 10 (op_mult (mk_bignum 1 2 [1; 2; 0] 3) (mk_bignum 0 1 [5; 0; 0] 3))
      (mk_bignum 2 3 [9; 9; 9] 3) = Ok r' /\ zero_tail r'.
Proof.
  destruct (C10_zero_tail_kept 3 10
              (op_mult (mk_bignum 1 2 [1; 2; 0] 3) (mk_bignum 0 1 [5; 0; 0] 3))
              (mk_bignum 2 3 [9; 9; 9] 3))
    as (r' & H1 & H2 & _);
    [ unfold max_precision; lia | lia | wf_by_check
    | split; wf_by_check | ].
  exists r'. split; assumption.
Defined.

(** [set] into a bignum that holds 123 and has not been reset: the old
    digits stay behind the new [sig_digs]. *)
Lemma C10_counterexample :
  wf 3 (mk_bignum 2 3 [1; 2; 3] 3) /\ wf 3 (mk_bignum 0 1 [5; 0; 0] 3) /\
  bignum_set (mk_bignum 2 3 [1; 2; 3] 3) (mk_bignum 0 1 [5; 0; 0] 3)
  = Ok (mk_bignum 0 1 [5; 2; 3] 3) /\
  ~ zero_tail (mk_bignum 0 1 [5; 2; 3] 3).
Proof.
  split; [wf_by_check|]. split; [wf_by_check|]. split; [reflexivity|].
  intros H. specialize (H 1 ltac:(cbn; lia)). discriminate H.
Qed.

(** The addition reads the cells of the operand that counts as the bigger
    one as far as the other operand reaches: a stray 7 after the single
    digit of 5 ends up in the sum with 11. *)
Example add_reads_cells_past_sig_digs :
  bignum_add (mk_bignum 0 0 [0; 0; 0] 3) (mk_bignum 0 1 [5; 7; 0] 3)
    (mk_bignum 0 2 [1; 1; 0] 3)
  = Ok (1, mk_bignum 0 2 [6; 8; 0] 3).
Proof. reflexivity. Qed.

(** * Values of the operations *)

(** ** More on the number in a run of cells *)

Lemma pow10_pred p : 1 <= p -> 10 ^ p = 10 ^ (p - 1) * 10.
Proof.
  intros Hp. replace p with (Z.succ (p - 1)) at 1 by lia.
  rewrite Z.pow_succ_r by lia. lia.
Qed.

Lemma val_zero l lo n :
  (forall j, lo <= j < lo + Z.of_nat n -> get l j = 0) -> val l lo n = 0.
Proof.
  induction n as [|n IH]; intros H; [reflexivity|].
  rewrite val_S, IH by (intros; apply H; lia). rewrite H by lia. reflexivity.
Qed.

Lemma val_nonneg l lo n : digit_cells l -> 0 <= val l lo n < 10 ^ Z.of_nat n.
Proof. intros H. apply val_bound. intros. now apply digit_cells_get. Qed.

(** Zero cells after the first [n] only scale the number. *)
Lemma val_zero_tail l lo n m :
  (forall j, lo + Z.of_nat n <= j < lo + Z.of_nat n + Z.of_nat m -> get l j = 0) ->
  val l lo (n + m) = val l lo n * 10 ^ Z.of_nat m.
Proof.
  intros H. rewrite val_app, (val_zero l (lo + Z.of_nat n) m) by assumption. lia.
Qed.

(** Zero cells before the run do not count. *)
Lemma val_zero_head l lo n m :
  (forall j, lo <= j < lo + Z.of_nat n -> get l j = 0) ->
  val l lo (n + m) = val l (lo + Z.of_nat n) m.
Proof.
  intros H. rewrite val_app, (val_zero l lo n) by assumption. lia.
Qed.

(** The first [n] of [n + m] digits. *)
Lemma val_prefix l lo n m :
  digit_cells l -> val l lo n = val l lo (n + m) / 10 ^ Z.of_nat m.
Proof.
  intros H. rewrite val_app.
  pose proof (val_nonneg l (lo + Z.of_nat n) m H).
  assert (0 < 10 ^ Z.of_nat m) by (apply Z.pow_pos_nonneg; lia).
  rewrite Z.div_add_l by lia. rewrite Z.div_small by lia. lia.
Qed.

(** The last [m] of [n + m] digits. *)
Lemma val_suffix l lo n m :
  digit_cells l ->
  val l (lo + Z.of_nat n) m = val l lo (n + m) mod 10 ^ Z.of_nat m.
Proof.
  intros H. rewrite val_app.
  pose proof (val_nonneg l (lo + Z.of_nat n) m H).
  assert (0 < 10 ^ Z.of_nat m) by (apply Z.pow_pos_nonneg; lia).
  symmetry. rewrite Z.add_comm, Z.mod_add by lia. apply Z.mod_small. lia.
Qed.

(** Two runs of digits with one value are the same digits. *)
Lemma val_inj_cells l1 l2 lo1 lo2 n :
  digit_cells l1 -> digit_cells l2 ->
  val l1 lo1 n = val l2 lo2 n ->
  forall j, 0 <= j < Z.of_nat n -> get l1 (lo1 + j) = get l2 (lo2 + j).
Proof.
  intros H1 H2. induction n as [|n IH]; intros Hv j Hj; [lia|].
  rewrite !val_S in Hv.
  pose proof (digit_cells_get l1 (lo1 + Z.of_nat n) H1).
  pose proof (digit_cells_get l2 (lo2 + Z.of_nat n) H2).
  assert (val l1 lo1 n = val l2 lo2 n /\
          get l1 (lo1 + Z.of_nat n) = get l2 (lo2 + Z.of_nat n)) as [Hv' Hg] by lia.
  destruct (Z.eq_dec j (Z.of_nat n)) as [->|]; [assumption|].
  apply IH; [assumption | lia].
Qed.

Lemma val_inj l1 l2 :
  digit_cells l1 -> digit_cells l2 -> len l1 = len l2 ->
  val l1 0 (Z.to_nat (len l1)) = val l2 0 (Z.to_nat (len l1)) -> l1 = l2.
Proof.
  intros H1 H2 Hl Hv. apply buf_ext; [assumption|].
  intros j Hj. apply (val_inj_cells l1 l2 0 0 _ H1 H2 Hv j).
  pose proof (len_nonneg l1). lia.
Qed.

(** ** The mantissa *)

Lemma mantissa_bound p b : wf p b -> 0 <= mantissa b < 10 ^ p.
Proof.
  intros [Hprec Hlen Hsig Hcells Htail Hlead]. unfold mantissa. rewrite Hprec.
  pose proof (val_nonneg (digits b) 0 (Z.to_nat p) Hcells) as H.
  rewrite Z2Nat.id in H by lia. assumption.
Qed.

(** The mantissa is the number in the significant cells, scaled. *)
Lemma mantissa_sig p b : wf p b ->
  mantissa b = val (digits b) 0 (Z.to_nat (sig_digs b)) * 10 ^ (p - sig_digs b).
Proof.
  intros [Hprec Hlen Hsig Hcells Htail Hlead]. unfold mantissa. rewrite Hprec.
  replace (Z.to_nat p)
    with (Z.to_nat (sig_digs b) + Z.to_nat (p - sig_digs b))%nat by lia.
  rewrite val_zero_tail.
  - rewrite Z2Nat.id by lia. reflexivity.
  - intros j Hj. apply Htail. lia.
Qed.

Lemma mantissa_zero p b : wf p b -> sig_digs b = 0 -> mantissa b = 0.
Proof.
  intros H Hz. rewrite (mantissa_sig p b H), Hz. reflexivity.
Qed.

(** A non-zero bignum has a mantissa of exactly [p] digits. *)
Lemma mantissa_lead p b : wf p b -> 0 < sig_digs b -> 10 ^ (p - 1) <= mantissa b.
Proof.
  intros H Hs. rewrite (mantissa_sig p b H).
  pose proof (den_val_bounds p b H Hs) as [Hlo _].
  pose proof (wf_sig _ _ H).
  replace (p - 1) with ((sig_digs b - 1) + (p - sig_digs b)) by lia.
  rewrite Z.pow_add_r by lia.
  assert (0 < 10 ^ (p - sig_digs b)) by (apply Z.pow_pos_nonneg; lia).
  nia.
Qed.

(** Well-formed bignums of one precision with the same power, count of
    digits and mantissa are equal. *)
Lemma wf_ext p a b :
  wf p a -> wf p b -> power a = power b -> sig_digs a = sig_digs b ->
  mantissa a = mantissa b -> a = b.
Proof.
  intros Ha Hb Hpw Hsd Hm.
  pose proof (wf_prec _ _ Ha) as Hqa. pose proof (wf_prec _ _ Hb) as Hqb.
  pose proof (wf_len _ _ Ha) as Hla. pose proof (wf_len _ _ Hb) as Hlb.
  pose proof (wf_cells _ _ Ha) as Hca. pose proof (wf_cells _ _ Hb) as Hcb.
  unfold mantissa in Hm. rewrite Hqa, Hqb in Hm.
  assert (Hd : digits a = digits b).
  { apply val_inj; [assumption | assumption | congruence |].
    rewrite Hla. assumption. }
  destruct a as [pa sa da qa], b as [pb sb db qb].
  cbn [power sig_digs digits precision] in *. congruence.
Qed.

(** In a well-formed, normal bignum the count of digits is fixed by the
    mantissa. *)
Lemma normal_sig p a b :
  wf p a -> wf p b -> normal a -> normal b -> digits a = digits b ->
  sig_digs a = sig_digs b.
Proof.
  intros Ha Hb Na Nb Hd.
  pose proof (wf_sig _ _ Ha). pose proof (wf_sig _ _ Hb).
  destruct (Z.lt_trichotomy (sig_digs a) (sig_digs b)) as [Hlt|[Heq|Hgt]];
    [exfalso | assumption | exfalso].
  - apply Nb; [lia|]. rewrite <- Hd. apply (wf_get_tail p a); [assumption | lia].
  - apply Na; [lia|]. rewrite Hd. apply (wf_get_tail p b); [assumption | lia].
Qed.

(** ** What the addition computes *)

(** The cells that the transfer loop leaves in the result. *)
Lemma add_transfer_cells p pw small diff :
  1 <= p < 2 ^ 31 -> wf p small -> 0 <= diff <= p ->
  exists d,
    add_transfer (mk_bignum pw 0 (zero_cells p) p) small diff
    = Ok (d, if sig_digs small + diff >? p then p - diff
             else sig_digs small + diff) /\
    len d = p /\ digit_cells d /\
    forall j, 0 <= j ->
      get d j = if (diff <=? j) &&
                   (j <? (if sig_digs small + diff >? p then p - diff
                          else sig_digs small + diff))
                then get (digits small) (j - diff) else 0.
Proof.
  intros Hp [Hprec Hlen Hsig Hcells Htail Hlead] Hdiff.
  unfold add_transfer. cbn [precision digits].
  rewrite (wrap_long_id (sig_digs small + diff)) by lia.
  rewrite (wrap_ulong_id (sig_digs small + diff)) by lia.
  rewrite (wrap_long_id (p - diff)) by lia.
  set (E := if sig_digs small + diff >? p then p - diff else sig_digs small + diff).
  set (tt := if sig_digs small + diff >? p then p - diff else sig_digs small).
  assert (HE : 0 <= tt <= E /\ E <= p /\ E - tt <= diff).
  { subst E tt. destruct (Z.gtb_spec (sig_digs small + diff) p); lia. }
  replace (if sig_digs small + diff >? p then (p - diff, p - diff)
           else (sig_digs small + diff, sig_digs small)) with (E, tt)
    by (subst E tt; destruct (sig_digs small + diff >? p); reflexivity).
  use_for (fun i (st : list Z * Z) =>
    let '(d, sdg) := st in
    sdg = E - 1 - i /\ len d = p /\ digit_cells d /\
    forall j, 0 <= j ->
      get d j = if (E - i <=? j) && (j <? E) && (diff <=? j)
                then get small.(digits) (j - diff) else 0).
  - lia.
  - split; [lia|]. split; [apply len_zero_cells; lia|].
    split; [apply digit_cells_zero_cells|].
    intros j Hj. rewrite get_zero_cells.
    destruct (Z.leb_spec (E - 0) j), (Z.ltb_spec j E); try lia; reflexivity.
  - intros i [d sdg] Hi (-> & Hl & Hd & Hget).
    destruct (Z.leb_spec 0 (E - 1 - i - diff)) as [Hge|Hlt].
    + rewrite rd_ok by lia. cbn [bind].
      pose proof (digit_cells_get (digits small) (E - 1 - i - diff) Hcells).
      rewrite wr_ok by lia. cbn [bind].
      eexists. split; [reflexivity|]. cbv beta iota.
      split; [lia|]. split; [now rewrite len_put|].
      split; [apply digit_cells_put; assumption|].
      intros j Hj. rewrite get_put by lia. rewrite Hget by lia.
      destruct (Z.eqb_spec j (E - 1 - i)) as [->|Hne].
      * destruct (Z.leb_spec (E - (i + 1)) (E - 1 - i)),
          (Z.ltb_spec (E - 1 - i) E), (Z.leb_spec diff (E - 1 - i));
          try lia; reflexivity.
      * destruct (Z.leb_spec (E - (i + 1)) j), (Z.leb_spec (E - i) j);
          try lia; reflexivity.
    + cbn [bind]. eexists. split; [reflexivity|]. cbv beta iota.
      split; [lia|]. split; [assumption|]. split; [assumption|].
      intros j Hj. rewrite Hget by lia.
      destruct (Z.leb_spec (E - (i + 1)) j), (Z.leb_spec (E - i) j),
        (Z.ltb_spec j E), (Z.leb_spec diff j); try lia; reflexivity.
  - destruct s as [d sdg]. destruct Hinv as (-> & Hl & Hd & Hget).
    exists d. split; [reflexivity|]. split; [assumption|]. split; [assumption|].
    intros j Hj. rewrite Hget by lia.
    destruct (Z.leb_spec (E - tt) j), (Z.ltb_spec j E), (Z.leb_spec diff j);
      try lia; reflexivity.
Qed.

(** Cells [lo .. hi) of [d] hold cells [0 .. hi - lo) of [s], all others
    are zero: the number in [d]. *)
Lemma val_placed d s p lo hi :
  0 <= lo -> lo <= hi <= p ->
  (forall j, 0 <= j ->
     get d j = if (lo <=? j) && (j <? hi) then get s (j - lo) else 0) ->
  val d 0 (Z.to_nat p) = val s 0 (Z.to_nat (hi - lo)) * 10 ^ (p - hi).
Proof.
  intros Hlo Hhi Hget.
  replace (Z.to_nat p)
    with (Z.to_nat lo + (Z.to_nat (hi - lo) + Z.to_nat (p - hi)))%nat by lia.
  rewrite val_zero_head.
  - rewrite val_zero_tail.
    + rewrite !Z2Nat.id by lia. f_equal. apply val_eq. intros j Hj.
      rewrite Hget by lia.
      destruct (Z.leb_spec lo (0 + lo + j)), (Z.ltb_spec (0 + lo + j) hi);
        try lia. cbn [andb]. f_equal. lia.
    + intros j Hj. rewrite Hget by lia.
      destruct (Z.leb_spec lo j), (Z.ltb_spec j hi); try lia; reflexivity.
  - intros j Hj. rewrite Hget by lia.
    destruct (Z.leb_spec lo j), (Z.ltb_spec j hi); try lia; reflexivity.
Qed.

(** The first [k] significant digits of a well-formed bignum, from its
    mantissa. *)
Lemma mantissa_prefix p b k : wf p b -> 0 <= k <= p ->
  val (digits b) 0 (Z.to_nat k) = mantissa b / 10 ^ (p - k).
Proof.
  intros Hb Hk. unfold mantissa. rewrite (wf_prec _ _ Hb).
  replace (Z.to_nat p) with (Z.to_nat k + Z.to_nat (p - k))%nat by lia.
  rewrite <- (Z2Nat.id (p - k)) at 2 by lia.
  apply val_prefix. apply Hb.
Qed.

Lemma add_transfer_val p pw small diff :
  1 <= p < 2 ^ 31 -> wf p small -> 0 <= diff <= p ->
  exists d E,
    add_transfer (mk_bignum pw 0 (zero_cells p) p) small diff = Ok (d, E) /\
    0 <= E <= p /\ len d = p /\ digit_cells d /\
    (forall j, E <= j -> get d j = 0) /\
    val d 0 (Z.to_nat p) = transferred p diff small.
Proof.
  intros Hp Hs Hdiff.
  destruct (add_transfer_cells p pw small diff Hp Hs Hdiff)
    as (d & Hrun & Hl & Hd & Hget).
  pose proof (wf_sig _ _ Hs) as Hsig.
  pose proof (mantissa_bound p small Hs) as Hm.
  set (E := if sig_digs small + diff >? p then p - diff
            else sig_digs small + diff) in *.
  assert (HE : 0 <= E <= p).
  { subst E. destruct (Z.gtb_spec (sig_digs small + diff) p); lia. }
  exists d, E. split; [assumption|]. split; [assumption|].
  split; [assumption|]. split; [assumption|]. split.
  { intros j Hj. rewrite Hget by lia.
    destruct (Z.ltb_spec j E); [lia|]. now rewrite andb_false_r. }
  unfold transferred. fold E.
  assert (Hp10 : forall e, 0 <= e -> 0 < 10 ^ e)
    by (intros; apply Z.pow_pos_nonneg; lia).
  destruct (Z_le_gt_dec diff E) as [Hle|Hgt].
  - rewrite (val_placed d (digits small) p diff E) by (try lia; assumption).
    rewrite (mantissa_prefix p small (E - diff)) by (try assumption; lia).
    subst E. destruct (Z.gtb_spec (sig_digs small + diff) p) as [Hcut|Hfit].
    + replace (p - (p - diff - diff)) with (2 * diff) by lia.
      replace (p - (p - diff)) with diff by lia. reflexivity.
    + (* all digits are taken: the cells after them are zero *)
      rewrite (mantissa_sig p small Hs).
      replace (p - (sig_digs small + diff - diff)) with (p - sig_digs small) by lia.
      rewrite Z.div_mul by (pose proof (Hp10 (p - sig_digs small)); lia).
      replace (p - sig_digs small)
        with ((p - (sig_digs small + diff)) + diff) by lia.
      rewrite Z.pow_add_r by lia.
      rewrite Z.mul_assoc, Z.div_mul by (pose proof (Hp10 diff); lia).
      reflexivity.
  - (* nothing is taken *)
    rewrite val_zero.
    + subst E. destruct (Z.gtb_spec (sig_digs small + diff) p) as [Hcut|Hfit];
        [|lia].
      rewrite Z.div_small; [reflexivity|].
      split; [lia|]. apply Z.lt_le_trans with (10 ^ p); [lia|].
      apply Z.pow_le_mono_r; lia.
    + intros j Hj. rewrite Hget by lia.
      destruct (Z.leb_spec diff j), (Z.ltb_spec j E); try lia; reflexivity.
Qed.

(** The digit loop adds the cells of [B] into [d] and counts the zeros at
    the end of the sum. *)
Lemma add_loop_val p B d sd :
  1 <= p < 2 ^ 31 -> len d = p -> len B = p -> digit_cells d -> digit_cells B ->
  0 <= sd <= p ->
  exists d' c t z,
    for_loop 0 sd (add_step B sd) (d, 0, 1, 0) = Ok (d', c, t, z) /\
    len d' = p /\ digit_cells d' /\ 0 <= c <= 1 /\ 0 <= z <= sd /\
    (forall j, sd <= j -> get d' j = get d j) /\
    (forall j, sd - z <= j < sd -> get d' j = 0) /\
    (z < sd -> get d' (sd - z - 1) <> 0) /\
    val d' 0 (Z.to_nat sd) + c * 10 ^ sd
    = val d 0 (Z.to_nat sd) + val B 0 (Z.to_nat sd).
Proof.
  intros Hp Hl HB Hd HBc Hsd.
  use_for (fun i (st : list Z * Z * Z * Z) =>
    let '(d', c, t, z) := st in
    len d' = p /\ digit_cells d' /\ 0 <= c <= 1 /\ 0 <= z <= i /\
    (t = 1 -> z = i) /\ (t <> 1 -> z < i /\ get d' (sd - z - 1) <> 0) /\
    (forall j, 0 <= j -> j < sd - i \/ sd <= j -> get d' j = get d j) /\
    (forall j, sd - z <= j < sd -> get d' j = 0) /\
    val d' (sd - i) (Z.to_nat i) + c * 10 ^ i
    = val d (sd - i) (Z.to_nat i) + val B (sd - i) (Z.to_nat i)).
  - lia.
  - repeat split; try lia; try assumption; try reflexivity.
  - intros i [[[d' c] t] z] Hi (Hl' & Hd' & Hc & Hz & Ht & Hnt & Hsame & Hzero & Hval).
    rewrite add_step_ok by (try assumption; lia). cbv zeta.
    pose proof (digit_cells_get d' (sd - i - 1) Hd').
    pose proof (digit_cells_get B (sd - i - 1) HBc).
    assert (Hdk : get d' (sd - i - 1) = get d (sd - i - 1))
      by (apply Hsame; lia).
    set (s := get d' (sd - i - 1) + (get B (sd - i - 1) + c)) in *.
    set (v := if 10 <=? s then s - 10 else s).
    set (c' := if 10 <=? s then 1 else 0).
    assert (Hv : 0 <= v <= 9 /\ 0 <= c' <= 1 /\ v + 10 * c' = s)
      by (subst v c'; destruct (Z.leb_spec 10 s); lia).
    eexists. split; [reflexivity|]. cbv beta iota.
    rewrite len_put. split; [assumption|].
    split; [apply digit_cells_put; [assumption | lia]|].
    split; [lia|].
    assert (Hval' :
      val (put d' (sd - i - 1) v) (sd - (i + 1)) (Z.to_nat (i + 1))
        + c' * 10 ^ (i + 1)
      = val d (sd - (i + 1)) (Z.to_nat (i + 1))
        + val B (sd - (i + 1)) (Z.to_nat (i + 1))).
    { replace (Z.to_nat (i + 1)) with (S (Z.to_nat i)) by lia.
      rewrite !val_msd. rewrite Z2Nat.id by lia.
      replace (sd - (i + 1) + 1) with (sd - i) by lia.
      replace (sd - (i + 1)) with (sd - i - 1) by lia.
      rewrite get_put_same by lia.
      rewrite val_put_outside by lia.
      rewrite Z.pow_add_r by lia. change (10 ^ 1) with 10.
      rewrite <- Hdk. nia. }
    assert (Hsame' : forall j, 0 <= j -> j < sd - (i + 1) \/ sd <= j ->
              get (put d' (sd - i - 1) v) j = get d j).
    { intros j Hj Hout. rewrite get_put_other by lia. apply Hsame; lia. }
    destruct (Z.eqb_spec t 1) as [->|Hne].
    + specialize (Ht eq_refl). subst z.
      destruct (Z.eqb_spec v 0) as [Hv0|Hv0].
      * split; [lia|]. split; [lia|]. split; [intros []; reflexivity|].
        split; [assumption|]. split; [|assumption].
        intros j Hj. rewrite get_put by lia.
        destruct (Z.eqb_spec j (sd - i - 1)); [assumption|].
        apply Hzero. lia.
      * split; [lia|]. split; [discriminate|]. split.
        { intros _. split; [lia|]. rewrite get_put_same by lia. assumption. }
        split; [assumption|]. split; [|assumption].
        intros j Hj. rewrite get_put_other by lia. apply Hzero. lia.
    + destruct (Hnt Hne) as [Hzi Hlast].
      split; [lia|]. split; [intros; contradiction|]. split.
      { intros _. split; [lia|]. rewrite get_put_other by lia. assumption. }
      split; [assumption|]. split; [|assumption].
      intros j Hj. rewrite get_put_other by lia. apply Hzero. lia.
  - destruct s as [[[d' c] t] z].
    destruct Hinv as (Hl' & Hd' & Hc & Hz & Ht & Hnt & Hsame & Hzero & Hval).
    exists d', c, t, z. split; [reflexivity|].
    split; [assumption|]. split; [assumption|]. split; [assumption|].
    split; [assumption|]. split.
    { intros j Hj. apply Hsame; lia. }
    split; [assumption|]. split.
    { intros Hzs. destruct (Z.eq_dec t 1) as [Ht1|Ht1].
      - specialize (Ht Ht1). lia.
      - apply Hnt. assumption. }
    replace (sd - sd) with 0 in Hval by lia. assumption.
Qed.

(** The cells after the shift that makes room for the carry. *)
Lemma carry_shift_cells p d tt :
  1 <= p < 2 ^ 31 -> len d = p -> digit_cells d -> 0 <= tt <= p - 1 ->
  exists d',
    for_loop 0 tt carry_shift_step (d, tt - 1) = Ok (d', -1) /\
    len d' = p /\ digit_cells d' /\
    forall j, 0 <= j ->
      get d' j = if (1 <=? j) && (j <=? tt) then get d (j - 1) else get d j.
Proof.
  intros Hp Hl Hd Htt.
  use_for (fun i (st : list Z * Z) =>
    let '(d', sc) := st in
    sc = tt - 1 - i /\ len d' = p /\ digit_cells d' /\
    forall j, 0 <= j ->
      get d' j = if (tt - i <? j) && (j <=? tt) then get d (j - 1) else get d j).
  - lia.
  - repeat split; try lia; try assumption.
    intros j Hj. destruct (Z.ltb_spec (tt - 0) j), (Z.leb_spec j tt);
      try lia; reflexivity.
  - intros i [d' sc] Hi (-> & Hl' & Hd' & Hget).
    unfold carry_shift_step.
    destruct (Z.leb_spec 0 (tt - 1 - i)); [|lia].
    rewrite rd_ok by lia. cbn [bind].
    pose proof (digit_cells_get d' (tt - 1 - i) Hd').
    rewrite wr_ok by lia. cbn [bind].
    eexists. split; [reflexivity|]. cbv beta iota.
    rewrite len_put. split; [lia|]. split; [assumption|].
    split; [apply digit_cells_put; assumption|].
    intros j Hj. rewrite get_put by lia. rewrite !Hget by lia.
    destruct (Z.eqb_spec j (tt - 1 - i + 1)) as [->|Hne].
    + destruct (Z.ltb_spec (tt - (i + 1)) (tt - 1 - i + 1)),
        (Z.leb_spec (tt - 1 - i + 1) tt),
        (Z.ltb_spec (tt - i) (tt - 1 - i)), (Z.leb_spec (tt - 1 - i) tt);
        try lia; cbn [andb]; f_equal; lia.
    + destruct (Z.ltb_spec (tt - (i + 1)) j), (Z.ltb_spec (tt - i) j),
        (Z.leb_spec j tt); try lia; reflexivity.
  - destruct s as [d' sc]. destruct Hinv as (-> & Hl' & Hd' & Hget).
    exists d'. split; [f_equal; f_equal; lia|].
    split; [assumption|]. split; [assumption|].
    intros j Hj. rewrite Hget by lia.
    destruct (Z.ltb_spec (tt - tt) j), (Z.leb_spec 1 j), (Z.leb_spec j tt);
      try lia; reflexivity.
Qed.

(** The last digit of a number in cells. *)
Lemma val_last l p : 1 <= p -> digit_cells l ->
  val l 0 (Z.to_nat p) mod 10 = get l (p - 1).
Proof.
  intros Hp Hl. replace (Z.to_nat p) with (S (Z.to_nat (p - 1))) by lia.
  rewrite val_S, Z2Nat.id by lia. cbn [Z.add].
  rewrite Z.add_comm, Z.mul_comm, Z.mod_add by lia.
  apply Z.mod_small. pose proof (digit_cells_get l (p - 1) Hl). lia.
Qed.

(** Lines 591-612 on the outcome of the digit loop: the count of digits, the
    power and the number that come out. *)
Lemma add_carry_out_val p pw sd z c d :
  1 <= p < 2 ^ 31 -> len d = p -> digit_cells d -> 0 <= c <= 1 ->
  0 <= z <= sd -> sd <= p -> (forall j, sd - z <= j -> get d j = 0) ->
  (z < sd -> get d (sd - z - 1) <> 0) ->
  exists r,
    add_carry_out p pw sd z c d = Ok (1, r) /\
    precision r = p /\ len (digits r) = p /\ digit_cells (digits r) /\
    zero_tail r /\
    power r = (if c =? 1 then wrap_long (pw + 1) else pw) /\
    sig_digs r = sd - z + c /\
    (c = 1 -> get (digits r) 0 = 1) /\ (c = 0 -> digits r = d) /\
    (sig_digs r <= p -> normal r) /\
    val (digits r) 0 (Z.to_nat p) = (val d 0 (Z.to_nat p) + c * 10 ^ p) / 10 ^ c.
Proof.
  intros Hp Hl Hd Hc Hz Hsd Htail Hlast. unfold add_carry_out.
  destruct (Z.ltb_spec 0 c) as [Hc1|Hc0].
  - assert (c = 1) by lia. subst c. change (1 =? 1) with true. cbv iota.
    set (tt := if sd - z =? p then sd - z - 1 else sd - z).
    assert (Htt : 0 <= tt <= p - 1 /\ tt <= sd - z <= tt + 1 /\
                  (sd - z < p -> tt = sd - z)).
    { subst tt. destruct (Z.eqb_spec (sd - z) p); lia. }
    destruct (carry_shift_cells p d tt Hp Hl Hd ltac:(lia))
      as (d' & -> & Hl' & Hd' & Hget).
    cbn [bind]. rewrite wr_ok by lia. cbn [bind].
    assert (Hf : forall j, 0 <= j < p ->
              get (put d' 0 1) j = if j =? 0 then 1 else get d (j - 1)).
    { intros j Hj. rewrite get_put by lia. destruct (Z.eqb_spec j 0); [reflexivity|].
      rewrite Hget by lia.
      destruct (Z.leb_spec 1 j), (Z.leb_spec j tt); try lia; cbn [andb];
        [reflexivity|].
      rewrite !Htail by lia. reflexivity. }
    eexists. split; [reflexivity|]. cbn [precision digits sig_digs power].
    rewrite len_put. split; [reflexivity|]. split; [assumption|].
    split; [apply digit_cells_put; [assumption | lia]|]. split.
    { intros j Hj. cbn [sig_digs digits] in *. rewrite len_put in Hj.
      rewrite Hf by lia. destruct (Z.eqb_spec j 0); [lia|]. apply Htail. lia. }
    split; [reflexivity|]. split; [reflexivity|]. split.
    { intros _. apply get_put_same. lia. }
    split; [lia|]. split.
    { intros Hfit _. cbn [sig_digs digits] in *.
      replace (sd - z + 1 - 1) with (sd - z) by lia. rewrite Hf by lia.
      destruct (Z.eqb_spec (sd - z) 0); [lia|]. apply Hlast. lia. }
    (* the number: one in front, the last digit gone *)
    replace (Z.to_nat p) with (S (Z.to_nat (p - 1))) at 1 by lia.
    rewrite val_msd. rewrite Hf by lia. change (0 =? 0) with true. cbv iota.
    rewrite (val_eq _ d (0 + 1) 0 (Z.to_nat (p - 1))).
    2:{ intros j Hj. rewrite Hf by lia.
        destruct (Z.eqb_spec (0 + 1 + j) 0); [lia|]. f_equal. lia. }
    rewrite (val_prefix d 0 (Z.to_nat (p - 1)) 1 Hd).
    replace (Z.to_nat (p - 1) + 1)%nat with (Z.to_nat p) by lia.
    rewrite Z2Nat.id by lia. change (10 ^ Z.of_nat 1) with 10.
    change (10 ^ 1) with 10.
    rewrite (pow10_pred p) by lia.
    rewrite !Z.mul_1_l, Z.div_add by lia. lia.
  - assert (c = 0) by lia. subst c. change (0 =? 1) with false. cbv iota.
    eexists. split; [reflexivity|]. cbn [precision digits sig_digs power].
    split; [reflexivity|]. split; [assumption|]. split; [assumption|]. split.
    { intros j Hj. cbn [sig_digs digits] in *. apply Htail. lia. }
    split; [reflexivity|]. split; [lia|]. split; [lia|].
    split; [reflexivity|]. split.
    { intros _ Hpos. cbn [sig_digs digits] in *. apply Hlast. lia. }
    change (10 ^ 0) with 1. rewrite Z.div_1_r. lia.
Qed.

(** Lines 546-612 of [bignum_add] on well-formed operands at most [p]
    powers apart: the sum, and when the count of digits leaves the
    precision. *)
Lemma add_aligned_val p pw bigger smaller :
  1 <= p < 2 ^ 31 -> wf p bigger -> wf p smaller -> 0 < sig_digs bigger ->
  0 <= power bigger - power smaller <= p ->
  let sm := mantissa bigger
           + transferred p (power bigger - power smaller) smaller in
  let c := if 10 ^ p <=? sm then 1 else 0 in
  exists r,
    add_aligned (mk_bignum pw 0 (zero_cells p) p) bigger smaller = Ok (1, r) /\
    precision r = p /\ len (digits r) = p /\ digit_cells (digits r) /\
    zero_tail r /\ get (digits r) 0 <> 0 /\
    power r = (if c =? 1 then wrap_long (power bigger + 1) else power bigger) /\
    mantissa r = sm / 10 ^ c /\
    1 <= sig_digs r <= p + 1 /\
    (sig_digs r = p + 1 <-> 10 ^ p <= sm /\ sm mod 10 <> 0) /\
    (sig_digs r <= p -> normal r).
Proof.
  intros Hp Hb Hs Hsb Hdiff sm c. unfold add_aligned.
  rewrite wrap_long_id by lia.
  destruct (add_transfer_val p pw smaller (power bigger - power smaller) Hp Hs Hdiff)
    as (d & E & -> & HE & Hl & Hd & Htail & HT).
  cbn [bind precision].
  pose proof (mantissa_sig p bigger Hb) as HMb.
  pose proof (mantissa_lead p bigger Hb Hsb) as HMlead.
  pose proof (wf_lead _ _ Hb Hsb) as Hlead.
  assert (Hbt : forall j, sig_digs bigger <= j -> get (digits bigger) j = 0)
    by (intros; now apply (wf_get_tail p bigger)).
  destruct Hb as [Hprec Hlen Hsig Hcells _ _].
  set (sd := if sig_digs bigger >? E then sig_digs bigger else E).
  assert (Hsd : 1 <= sd <= p /\ E <= sd /\ sig_digs bigger <= sd).
  { subst sd. destruct (Z.gtb_spec (sig_digs bigger) E); lia. }
  replace (if sig_digs bigger >? E then (sig_digs bigger, sig_digs bigger)
           else (E, E)) with (sd, sd)
    by (subst sd; destruct (sig_digs bigger >? E); reflexivity).
  destruct (add_loop_val p (digits bigger) d sd)
    as (d' & c' & t & z & -> & Hl' & Hd' & Hc & Hz & Hsame & Hzero & Hlast & Hval);
    try assumption; try lia.
  cbn [bind].
  assert (Htail' : forall j, sd - z <= j -> get d' j = 0).
  { intros j Hj. destruct (Z_lt_le_dec j sd); [apply Hzero; lia|].
    rewrite Hsame by lia. apply Htail. lia. }
  (* the sum over all [p] cells *)
  assert (Hext : forall l, (forall j, sd <= j -> get l j = 0) ->
            val l 0 (Z.to_nat p) = val l 0 (Z.to_nat sd) * 10 ^ (p - sd)).
  { intros l Hl0.
    replace (Z.to_nat p) with (Z.to_nat sd + Z.to_nat (p - sd))%nat by lia.
    rewrite val_zero_tail by (intros; apply Hl0; lia).
    rewrite Z2Nat.id by lia. reflexivity. }
  assert (Hpow : 0 < 10 ^ (p - sd)) by (apply Z.pow_pos_nonneg; lia).
  assert (Hpp : 10 ^ p = 10 ^ sd * 10 ^ (p - sd)).
  { rewrite <- Z.pow_add_r by lia. f_equal. lia. }
  assert (Hsum : val d' 0 (Z.to_nat p) + c' * 10 ^ p = sm).
  { subst sm. rewrite <- HT. unfold mantissa. rewrite Hprec.
    rewrite (Hext d') by (intros; apply Htail'; lia).
    rewrite (Hext d) by (intros; apply Htail; lia).
    rewrite (Hext (digits bigger)) by (intros; apply Hbt; lia).
    rewrite Hpp. nia. }
  pose proof (val_nonneg d' 0 (Z.to_nat p) Hd') as Hb'.
  rewrite Z2Nat.id in Hb' by lia.
  assert (Hcc : c' = c).
  { subst c. assert (c' = 0 \/ c' = 1) as [Hc0|Hc1] by lia;
      [rewrite Hc0 in Hsum | rewrite Hc1 in Hsum];
      destruct (Z.leb_spec (10 ^ p) sm); lia. }
  (* the first digit of the sum *)
  assert (Hfirst : c' = 0 -> get d' 0 <> 0).
  { intros Hc0 Hzero0.
    assert (Hd0 : val d' 0 (Z.to_nat p) < 10 ^ (p - 1)).
    { replace (Z.to_nat p) with (S (Z.to_nat (p - 1))) by lia.
      rewrite val_msd, Hzero0.
      pose proof (val_nonneg d' (0 + 1) (Z.to_nat (p - 1)) Hd') as Hr.
      rewrite Z2Nat.id in Hr by lia. lia. }
    assert (0 <= transferred p (power bigger - power smaller) smaller).
    { rewrite <- HT. apply (val_nonneg d 0 (Z.to_nat p) Hd). }
    subst sm. lia. }
  destruct (add_carry_out_val p (power bigger) sd z c' d')
    as (r & -> & Hrp & Hrl & Hrd & Hrt & Hrpw & Hrs & Hr1 & Hr0 & Hrn & Hrv);
    try assumption; try lia.
  exists r. split; [reflexivity|]. split; [assumption|]. split; [assumption|].
  split; [assumption|]. split; [assumption|]. split.
  { destruct (Z.eq_dec c' 1) as [H1|H1].
    - rewrite (Hr1 H1). lia.
    - rewrite (Hr0 ltac:(lia)). apply Hfirst. lia. }
  split; [rewrite <- Hcc; assumption|]. split.
  { unfold mantissa. rewrite Hrp, Hrv, Hsum, Hcc. reflexivity. }
  assert (Hz1 : c' = 0 -> z < sd).
  { intros Hc0. destruct (Z_lt_le_dec z sd); [assumption|]. exfalso.
    apply (Hfirst Hc0). apply Htail'. lia. }
  split; [lia|]. split; [|assumption].
  (* the count leaves the precision when the carry meets a full word *)
  assert (Hlastcell : sm mod 10 = get d' (p - 1)).
  { rewrite <- Hsum. rewrite (pow10_pred p) by lia.
    rewrite Z.mul_assoc, Z.mod_add by lia. apply val_last; [lia | assumption]. }
  rewrite Hlastcell, Hrs. split.
  - intros Heq. assert (c' = 1 /\ sd = p /\ z = 0) as (Hc1 & Hsp & Hz0) by lia.
    split; [lia|]. replace (p - 1) with (sd - z - 1) by lia.
    apply Hlast. lia.
  - intros [Hge Hnz]. assert (c' = 1) by lia.
    destruct (Z_lt_le_dec (sd - z) p) as [Hlt|]; [|lia].
    exfalso. apply Hnz. apply Htail'. lia.
Qed.

(** [bignum_add] on non-zero operands at most [p] powers apart, the one of
    the larger power first or second. *)
Lemma bignum_add_val p r a b :
  1 <= p < 2 ^ 31 -> wf p r -> wf p a -> wf p b ->
  0 < sig_digs a -> 0 < sig_digs b ->
  0 <= power a - power b <= p -> - 2 ^ 63 <= power a < 2 ^ 63 - 1 ->
  let sm := mantissa a + transferred p (power a - power b) b in
  let c := if 10 ^ p <=? sm then 1 else 0 in
  exists r',
    bignum_add r a b = Ok (1, r') /\ bignum_add r b a = Ok (1, r') /\
    precision r' = p /\ len (digits r') = p /\ digit_cells (digits r') /\
    zero_tail r' /\ get (digits r') 0 <> 0 /\
    power r' = power a + c /\ mantissa r' = sm / 10 ^ c /\
    1 <= sig_digs r' <= p + 1 /\
    (sig_digs r' = p + 1 <-> 10 ^ p <= sm /\ sm mod 10 <> 0) /\
    (sig_digs r' <= p -> normal r').
Proof.
  intros Hp Hr Ha Hb Hsa Hsb Hdiff Hpa sm c.
  destruct (bignum_reset_wf p r ltac:(lia) Hr) as (pw & Hreset).
  fold (zero_cells p) in Hreset.
  destruct (add_aligned_val p pw a b Hp Ha Hb Hsa Hdiff)
    as (r' & Hrun & Hrp & Hrl & Hrd & Hrt & Hr0 & Hrpw & Hrest).
  fold sm in Hrpw, Hrest. fold c in Hrpw, Hrest.
  exists r'.
  assert (Hleft : bignum_add r a b = Ok (1, r')).
  { unfold bignum_add. rewrite Hreset. cbn [bind precision].
    rewrite (wrap_long_id (power a - power b)) by lia.
    rewrite (wrap_long_id (power b - power a)) by lia.
    destruct (Z.eqb_spec (sig_digs a) 0); [lia|].
    destruct (Z.eqb_spec (sig_digs b) 0); [lia|]. cbn [andb].
    destruct (Z.ltb_spec 0 (power b - power a)); [lia|]. cbn [andb].
    destruct (Z.leb_spec 0 (power a - power b)); [|lia].
    destruct (Z.ltb_spec 0 (power a - power b)); cbn [andb]; [|assumption].
    rewrite wrap_ulong_id by lia.
    destruct (Z.gtb_spec (power a - power b) p); [lia | assumption]. }
  assert (Hright : bignum_add r b a = Ok (1, r')).
  { unfold bignum_add. rewrite Hreset. cbn [bind precision].
    rewrite (wrap_long_id (power a - power b)) by lia.
    rewrite (wrap_long_id (power b - power a)) by lia.
    destruct (Z.eqb_spec (sig_digs a) 0); [lia|].
    destruct (Z.eqb_spec (sig_digs b) 0); [lia|]. cbn [andb].
    destruct (Z.ltb_spec 0 (power b - power a)); [lia|]. cbn [andb].
    assert (Hno : (0 <? power a - power b)
                  && (wrap_ulong (power a - power b) >? p) = false).
    { destruct (Z.ltb_spec 0 (power a - power b)); [|reflexivity].
      rewrite wrap_ulong_id by lia. cbn [andb].
      destruct (Z.gtb_spec (power a - power b) p); [lia | reflexivity]. }
    rewrite Hno.
    destruct (Z.leb_spec 0 (power b - power a)); [|assumption].
    rewrite (add_aligned_sym p pw b a) by (try assumption; lia). assumption. }
  split; [assumption|]. split; [assumption|].
  split; [assumption|]. split; [assumption|]. split; [assumption|].
  split; [assumption|]. split; [assumption|]. split; [|assumption].
  rewrite Hrpw. subst c. destruct (Z.leb_spec (10 ^ p) sm).
  - change (1 =? 1) with true. cbv iota. apply wrap_long_id. lia.
  - change (0 =? 1) with false. cbv iota. lia.
Qed.

(** ** What the multiplication computes *)

(** A run of digits is zero only if every digit is. *)
Lemma val_zero_inv l lo n : digit_cells l -> val l lo n = 0 ->
  forall j, lo <= j < lo + Z.of_nat n -> get l j = 0.
Proof.
  intros Hl. induction n as [|n IH]; intros Hv j Hj; [lia|].
  rewrite val_S in Hv.
  pose proof (val_nonneg l lo n Hl).
  pose proof (digit_cells_get l (lo + Z.of_nat n) Hl).
  destruct (Z.eq_dec j (lo + Z.of_nat n)) as [->|]; [lia|].
  apply IH; lia.
Qed.

Section MultValue.
Variables (p : Z) (bigger smaller : bignum).
Hypothesis Hp : 1 <= p <= max_precision.
Hypothesis Hbig : wf p bigger.
Hypothesis Hsmall : wf p smaller.
Hypothesis Hbs : 0 < sig_digs bigger.
Hypothesis Hss : 0 < sig_digs smaller.

Local Abbreviation bs := (sig_digs bigger).
Local Abbreviation ss := (sig_digs smaller).
Local Abbreviation A := (val (digits bigger) 0 (Z.to_nat (sig_digs bigger))).

(** One row: the digit of [smaller] times [bigger], added [bc] places up. *)
Lemma mult_row_val bc tw :
  0 <= bc < ss -> len tw = 2 * p -> digit_cells tw ->
  exists t c,
    for_loop 0 bs (mult_inner_step bigger smaller p bc) (tw, 0) = Ok (t, c) /\
    len t = 2 * p /\ digit_cells t /\ 0 <= c <= 9 /\
    (forall j, 0 <= j <= 2 * p - bs - bc - 1 -> get t j = get tw j) /\
    val t 0 (Z.to_nat (2 * p)) + c * 10 ^ (bc + bs)
    = val tw 0 (Z.to_nat (2 * p))
      + get (digits smaller) (ss - 1 - bc) * A * 10 ^ bc.
Proof.
  intros Hbc Hl Htw.
  pose proof (max_precision_int p ltac:(lia)) as Hint.
  pose proof (wf_sig _ _ Hbig). pose proof (wf_sig _ _ Hsmall).
  set (s := get (digits smaller) (ss - 1 - bc)).
  use_for (fun sc (st : list Z * Z) =>
    let '(t, c) := st in
    len t = 2 * p /\ digit_cells t /\ 0 <= c <= 9 /\
    (forall j, 0 <= j <= 2 * p - sc - bc - 1 -> get t j = get tw j) /\
    val t 0 (Z.to_nat (2 * p)) + c * 10 ^ (bc + sc)
    = val tw 0 (Z.to_nat (2 * p))
      + s * val (digits bigger) (bs - sc) (Z.to_nat sc) * 10 ^ bc).
  - lia.
  - repeat split; try lia; try assumption. cbn [Z.to_nat val]. lia.
  - intros sc [t c] Hsc (Hlt & Ht & Hc & Hsame & Hval).
    rewrite (mult_inner_step_ok p bigger smaller Hp Hbig Hsmall)
      by (try assumption; lia).
    cbv zeta. fold s.
    pose proof (digit_cells_get t (2 * p - sc - bc - 1) Ht).
    pose proof (digit_cells_get (digits smaller) (ss - 1 - bc) (wf_cells _ _ Hsmall)).
    pose proof (digit_cells_get (digits bigger) (bs - 1 - sc) (wf_cells _ _ Hbig)).
    fold s in H2.
    set (b := get (digits bigger) (bs - 1 - sc)) in *.
    set (x := get t (2 * p - sc - bc - 1)) in *.
    set (tot := x + (c + s * b)).
    assert (Htot : 0 <= tot <= 99) by (subst tot; nia).
    pose proof (Z.mod_pos_bound tot 10 ltac:(lia)).
    pose proof (Z.div_mod tot 10 ltac:(lia)) as Hdm.
    assert (0 <= tot / 10 <= 9).
    { split; [apply Z.div_pos; lia|].
      assert (tot / 10 < 10) by (apply Z.div_lt_upper_bound; lia). lia. }
    eexists. split; [reflexivity|]. cbv beta iota. rewrite len_put.
    split; [assumption|]. split; [apply digit_cells_put; [assumption | lia]|].
    split; [lia|]. split.
    + intros j Hj. rewrite get_put_other by lia. apply Hsame. lia.
    + rewrite val_put_inside by lia. fold x.
      replace (0 + Z.of_nat (Z.to_nat (2 * p)) - 1 - (2 * p - sc - bc - 1))
        with (bc + sc) by lia.
      replace (Z.to_nat (sc + 1)) with (S (Z.to_nat sc)) by lia.
      rewrite val_msd. rewrite Z2Nat.id by lia.
      replace (bs - (sc + 1) + 1) with (bs - sc) by lia.
      replace (bs - (sc + 1)) with (bs - 1 - sc) by lia. fold b.
      replace (bc + (sc + 1)) with (bc + sc + 1) by lia.
      rewrite (Z.pow_add_r 10 (bc + sc) 1) by lia. change (10 ^ 1) with 10.
      rewrite (Z.pow_add_r 10 bc sc) in * by lia.
      assert (Hx : tot = x + c + s * b) by (subst tot; lia).
      nia.
  - destruct s0 as [t c]. destruct Hinv as (Hlt & Ht & Hc & Hsame & Hval).
    exists t, c. split; [reflexivity|].
    split; [assumption|]. split; [assumption|]. split; [assumption|]. split.
    + intros j Hj. apply Hsame. lia.
    + replace (bs - bs) with 0 in Hval by lia. assumption.
Qed.

(** All rows: the word holds the product of the two digit strings. *)
Lemma mult_rows_val :
  exists t c,
    for_loop 0 ss (mult_outer_step bigger smaller p)
      (zero_cells (2 * p), 0) = Ok (t, c) /\
    len t = 2 * p /\ digit_cells t /\
    c = get t (2 * p - bs - ss) /\
    (forall j, 0 <= j < 2 * p - bs - ss -> get t j = 0) /\
    val t 0 (Z.to_nat (2 * p))
    = A * val (digits smaller) 0 (Z.to_nat ss).
Proof.
  pose proof (max_precision_int p ltac:(lia)) as Hint.
  pose proof (wf_sig _ _ Hbig). pose proof (wf_sig _ _ Hsmall).
  pose proof (wf_len _ _ Hsmall).
  use_for (fun bc (st : list Z * Z) =>
    let '(t, c) := st in
    len t = 2 * p /\ digit_cells t /\ 0 <= c <= 9 /\
    (forall j, 0 <= j < 2 * p - bs - bc -> get t j = 0) /\
    (1 <= bc -> get (digits smaller) (ss - bc) <> 0 ->
     c = get t (2 * p - bs - bc)) /\
    val t 0 (Z.to_nat (2 * p))
    = A * val (digits smaller) (ss - bc) (Z.to_nat bc)).
  - lia.
  - rewrite len_zero_cells by lia. repeat split; try lia.
    + apply digit_cells_zero_cells.
    + intros. apply get_zero_cells.
    + cbn [Z.to_nat val]. rewrite val_zero; [lia|].
      intros. apply get_zero_cells.
  - intros bc [t c] Hbc (Hlt & Ht & Hc & Hzero & Htop & Hval).
    unfold mult_outer_step.
    rewrite rd_ok by lia. cbn [bind].
    assert (Hrow : val (digits smaller) (ss - (bc + 1)) (Z.to_nat (bc + 1))
                   = get (digits smaller) (ss - 1 - bc) * 10 ^ bc
                     + val (digits smaller) (ss - bc) (Z.to_nat bc)).
    { replace (Z.to_nat (bc + 1)) with (S (Z.to_nat bc)) by lia.
      rewrite val_msd, Z2Nat.id by lia.
      replace (ss - (bc + 1) + 1) with (ss - bc) by lia.
      replace (ss - (bc + 1)) with (ss - 1 - bc) by lia. reflexivity. }
    destruct (Z.eqb_spec (get (digits smaller) (ss - 1 - bc)) 0) as [Hz|Hnz];
      cbn [negb].
    + eexists. split; [reflexivity|]. cbv beta iota.
      split; [assumption|]. split; [assumption|]. split; [assumption|]. split.
      { intros j Hj. apply Hzero. lia. }
      split.
      { intros _ Hd. exfalso. apply Hd.
        replace (ss - (bc + 1)) with (ss - 1 - bc) by lia. assumption. }
      rewrite Hrow, Hz. lia.
    + destruct (mult_row_val bc t) as (t' & c' & -> & Hlt' & Ht' & Hc' & Hsame & Hv');
        try assumption; try lia.
      cbn [bind]. rewrite (wrap_ulong_id (2 * p)) by lia.
      rewrite wr_ok by lia. cbn [bind].
      eexists. split; [reflexivity|]. cbv beta iota. rewrite len_put.
      split; [assumption|]. split; [apply digit_cells_put; assumption|].
      split; [assumption|]. split.
      { intros j Hj. rewrite get_put_other by lia. rewrite Hsame by lia.
        apply Hzero. lia. }
      split.
      { intros _ _.
        replace (2 * p - bs - (bc + 1)) with (2 * p - bc - bs - 1) by lia.
        rewrite get_put_same by lia. reflexivity. }
      rewrite val_put_inside by lia.
      rewrite (Hsame (2 * p - bc - bs - 1)) by lia.
      rewrite (Hzero (2 * p - bc - bs - 1)) by lia.
      replace (0 + Z.of_nat (Z.to_nat (2 * p)) - 1 - (2 * p - bc - bs - 1))
        with (bc + bs) by lia.
      rewrite Hrow. lia.
  - destruct s as [t c]. destruct Hinv as (Hlt & Ht & Hc & Hzero & Htop & Hval).
    exists t, c. split; [reflexivity|].
    split; [assumption|]. split; [assumption|]. split.
    { apply Htop; [lia|]. replace (ss - ss) with 0 by lia.
      apply (wf_lead _ _ Hsmall). lia. }
    split; [assumption|].
    replace (ss - ss) with 0 in Hval by lia. assumption.
Qed.
End MultValue.

(** The top of the product word: a product of an [m]-digit and an
    [n - m]-digit number has [n] or [n - 1] digits, and the cell of the last
    carry tells which. *)
Lemma product_lead t w n ab :
  2 <= n <= w -> len t = w -> digit_cells t ->
  (forall j, 0 <= j < w - n -> get t j = 0) ->
  val t 0 (Z.to_nat w) = ab -> 10 ^ (n - 2) <= ab ->
  let e := if get t (w - n) <? 1 then 1 else 0 in
  get t (w - n + e) <> 0 /\
  val t (w - n + e) (Z.to_nat (n - e)) = ab /\
  (e = 0 <-> 10 ^ (n - 1) <= ab).
Proof.
  intros Hn Hl Ht Hzero Hval Hlow e.
  assert (Hab : val t (w - n) (Z.to_nat n) = ab).
  { rewrite <- Hval.
    replace (Z.to_nat w) with (Z.to_nat (w - n) + Z.to_nat n)%nat by lia.
    rewrite val_zero_head by (intros; apply Hzero; lia).
    rewrite Z2Nat.id by lia. reflexivity. }
  pose proof (digit_cells_get t (w - n) Ht) as Hc0.
  pose proof (digit_cells_get t (w - n + 1) Ht) as Hc1.
  pose proof (val_nonneg t (w - n + 1) (Z.to_nat (n - 1)) Ht) as Hr1.
  pose proof (val_nonneg t (w - n + 1 + 1) (Z.to_nat (n - 2)) Ht) as Hr2.
  rewrite Z2Nat.id in Hr1, Hr2 by lia.
  assert (Hm1 : ab = get t (w - n) * 10 ^ (n - 1)
                     + val t (w - n + 1) (Z.to_nat (n - 1))).
  { rewrite <- Hab. replace (Z.to_nat n) with (S (Z.to_nat (n - 1))) by lia.
    rewrite val_msd, Z2Nat.id by lia. reflexivity. }
  assert (Hm2 : val t (w - n + 1) (Z.to_nat (n - 1))
                = get t (w - n + 1) * 10 ^ (n - 2)
                  + val t (w - n + 1 + 1) (Z.to_nat (n - 2))).
  { replace (Z.to_nat (n - 1)) with (S (Z.to_nat (n - 2))) by lia.
    rewrite val_msd, Z2Nat.id by lia. reflexivity. }
  assert (Hpw : 10 ^ (n - 1) = 10 ^ (n - 2) * 10).
  { rewrite (pow10_pred (n - 1)) by lia. do 2 f_equal. lia. }
  assert (0 < 10 ^ (n - 2)) by (apply Z.pow_pos_nonneg; lia).
  subst e. destruct (Z.ltb_spec (get t (w - n)) 1) as [Hz|Hnz].
  - assert (Hz0 : get t (w - n) = 0) by lia. rewrite Hz0 in Hm1.
    split; [nia|]. split; [lia|]. split; [lia|]. intros Hge. nia.
  - replace (w - n + 0) with (w - n) by lia. replace (n - 0) with n by lia.
    split; [lia|]. split; [assumption|]. split; [nia | reflexivity].
Qed.

(** The number in the result cells: the first [p] digits of the product,
    or all of them with zeros after. *)
Lemma product_cells d t p lo n :
  0 <= lo -> 1 <= n -> 0 <= p -> digit_cells t ->
  (forall j, 0 <= j < p -> get d j = if j <? n then get t (lo + j) else 0) ->
  val d 0 (Z.to_nat p)
  = if n <=? p then val t lo (Z.to_nat n) * 10 ^ (p - n)
    else val t lo (Z.to_nat n) / 10 ^ (n - p).
Proof.
  intros Hlo Hn Hp Ht Hget. destruct (Z.leb_spec n p) as [Hle|Hgt].
  - replace (Z.to_nat p) with (Z.to_nat n + Z.to_nat (p - n))%nat by lia.
    rewrite val_zero_tail.
    + rewrite Z2Nat.id by lia. f_equal. apply val_eq. intros j Hj.
      rewrite Hget by lia. destruct (Z.ltb_spec (0 + j) n); [|lia].
      f_equal.
    + intros j Hj. rewrite Hget by lia. destruct (Z.ltb_spec j n); [lia|].
      reflexivity.
  - replace (Z.to_nat n) with (Z.to_nat p + Z.to_nat (n - p))%nat by lia.
    rewrite <- (Z2Nat.id (n - p)) at 2 by lia.
    rewrite <- val_prefix by assumption.
    apply val_eq. intros j Hj. rewrite Hget by lia.
    destruct (Z.ltb_spec (0 + j) n); [|lia]. f_equal.
Qed.

(** [bignum_mult] on well-formed, non-zero operands: the product cut to
    [p] digits, and when the count of digits is exact. *)
Lemma bignum_mult_val p r a b :
  1 <= p <= max_precision -> wf p r -> wf p a -> wf p b ->
  0 < sig_digs a -> 0 < sig_digs b -> power_ok a -> power_ok b ->
  let P := mantissa a * mantissa b in
  let c := if 10 ^ (2 * p - 1) <=? P then 1 else 0 in
  exists r',
    bignum_mult true r a b = Ok (1, r') /\ wf p r' /\ 0 < sig_digs r' /\
    power r' = power a + power b + c /\
    mantissa r' = P / 10 ^ (p - 1 + c) /\
    (P mod 10 ^ (p - 1 + c) = 0 -> normal r') /\
    (P mod 10 ^ (p - 1 + c) <> 0 -> sig_digs r' = p).
Proof.
  intros Hp Hr Ha Hb Hsa Hsb Hpa Hpb P c.
  unfold power_ok in Hpa, Hpb.
  pose proof (max_precision_int p ltac:(lia)) as Hint.
  pose proof (wf_sig _ _ Ha) as Hsiga. pose proof (wf_sig _ _ Hb) as Hsigb.
  destruct (bignum_reset_wf p r ltac:(lia) Hr) as (pw & Hreset).
  unfold bignum_mult. rewrite Hreset. cbn [bind precision digits].
  destruct (Z.eqb_spec (sig_digs a) 0) as [|_]; [lia|].
  destruct (Z.eqb_spec (sig_digs b) 0) as [|_]; [lia|]. cbn [orb].
  rewrite (wrap_ulong_id (2 * p)) by lia. rewrite calloc_ok by lia.
  fold (zero_cells (2 * p)). fold (zero_cells p).
  pose proof (wrap_ulong_nonneg (sig_digs a - sig_digs b)) as Hnn.
  destruct (Z.leb_spec 0 (wrap_ulong (sig_digs a - sig_digs b))); [|lia].
  cbn [bind].
  destruct (mult_rows_val p a b Hp Ha Hb Hsa Hsb)
    as (t & c0 & -> & Hlt & Ht & Hc0 & Hzero & Hval).
  cbn [bind].
  set (AB := val (digits a) 0 (Z.to_nat (sig_digs a))
             * val (digits b) 0 (Z.to_nat (sig_digs b))) in *.
  set (n := sig_digs a + sig_digs b).
  set (T := 2 * p - n).
  replace (2 * p - sig_digs a - sig_digs b) with T in * by (subst T n; lia).
  (* the size of the product *)
  pose proof (den_val_bounds p a Ha Hsa) as HA.
  pose proof (den_val_bounds p b Hb Hsb) as HB.
  assert (Hp10 : forall x, 0 <= x -> 0 < 10 ^ x)
    by (intros; apply Z.pow_pos_nonneg; lia).
  assert (HABlo : 10 ^ (n - 2) <= AB).
  { replace (n - 2) with ((sig_digs a - 1) + (sig_digs b - 1)) by (subst n; lia).
    rewrite Z.pow_add_r by lia.
    pose proof (Hp10 (sig_digs a - 1)). pose proof (Hp10 (sig_digs b - 1)).
    subst AB. nia. }
  destruct (product_lead t (2 * p) n AB) as (Htop & HvL & He);
    try assumption; try (subst n; lia).
  fold T in Htop, HvL, He.
  set (e := if get t T <? 1 then 1 else 0) in *.
  assert (He01 : 0 <= e <= 1) by (subst e; destruct (get t T <? 1); lia).
  assert (Hce : (c0 <? 1) = (get t T <? 1)) by (rewrite Hc0; reflexivity).
  rewrite !Hce.
  set (L := n - e) in *.
  assert (HL : 1 <= L /\ T + e + L = 2 * p) by (subst L T n; lia).
  destruct (count_trailing_zeros_spec t (2 * p - 1) (T + e))
    as (zc & -> & Hzc & Hzeros & Hlast); try (subst T n; lia); try assumption.
  cbn [bind].
  replace (if get t T <? 1
           then (n - 1, wrap_long (wrap_long (power a + power b) - 1))
           else (n, wrap_long (power a + power b)))
    with (L, if get t T <? 1
             then wrap_long (wrap_long (power a + power b) - 1)
             else wrap_long (power a + power b))
    by (subst L e; destruct (get t T <? 1); f_equal; lia).
  cbv beta iota.
  rewrite (wrap_ulong_id (L - zc)) by lia.
  set (sd := if L - zc >? p then p else L - zc).
  assert (Hsd : 1 <= sd <= p /\ sd <= L - zc /\
                (L - zc <= p -> sd = L - zc) /\ (p < L - zc -> sd = p)).
  { subst sd. destruct (Z.gtb_spec (L - zc) p); lia. }
  replace (if get t T <? 1 then T + 1 else T) with (T + e)
    by (subst e; destruct (get t T <? 1); lia).
  destruct (copy_loop_from t (zero_cells p) (T + e) sd)
    as (d & -> & Hld & Hd); rewrite ?len_zero_cells; try lia;
    try assumption.
  cbn [bind]. rewrite len_zero_cells in Hld by lia.
  (* the cells of the result *)
  assert (Hcells : forall j, 0 <= j < p ->
            get d j = if j <? L then get t (T + e + j) else 0).
  { intros j Hj. rewrite Hd by lia. rewrite get_zero_cells.
    destruct (Z.ltb_spec j sd), (Z.ltb_spec j L); try lia; try reflexivity.
    symmetry. apply Hzeros. lia. }
  pose proof (product_cells d t p (T + e) L ltac:(lia) ltac:(lia) ltac:(lia)
                Ht Hcells) as HMd.
  rewrite HvL in HMd.
  (* the product of the mantissas *)
  assert (HP : P = AB * 10 ^ T).
  { subst P AB. rewrite (mantissa_sig p a Ha), (mantissa_sig p b Hb).
    replace T with ((p - sig_digs a) + (p - sig_digs b)) by (subst T n; lia).
    rewrite Z.pow_add_r by lia. ring. }
  assert (Hc : c = 1 - e).
  { subst c. rewrite HP.
    replace (2 * p - 1) with ((n - 1) + T) by (subst T; lia).
    rewrite Z.pow_add_r by (subst T n; lia).
    pose proof (Hp10 T ltac:(subst T n; lia)).
    destruct (Z.leb_spec (10 ^ (n - 1) * 10 ^ T) (AB * 10 ^ T)) as [Hge|Hless].
    - assert (Hge' : 10 ^ (n - 1) <= AB) by nia. apply He in Hge'. lia.
    - destruct (Z.eq_dec e 0) as [He0|]; [|lia].
      apply He in He0. nia. }
  replace (p - 1 + c) with (p - e) by lia.
  assert (Hdiv : P / 10 ^ (p - e) = val d 0 (Z.to_nat p) /\
                 (P mod 10 ^ (p - e) = 0 <-> L - zc <= p)).
  { rewrite HMd, HP. destruct (Z.leb_spec L p) as [HLp|HLp].
    - replace T with ((p - L) + (p - e)) by lia.
      rewrite Z.pow_add_r, Z.mul_assoc by lia.
      pose proof (Hp10 (p - e) ltac:(lia)).
      rewrite Z.div_mul, Z.mod_mul by lia. split; [reflexivity|]. lia.
    - replace (p - e) with ((L - p) + T) by lia.
      rewrite Z.pow_add_r by (subst T n; lia).
      pose proof (Hp10 T ltac:(subst T n; lia)).
      pose proof (Hp10 (L - p) ltac:(lia)).
      rewrite Z.div_mul_cancel_r, Z.mul_mod_distr_r by lia.
      split; [reflexivity|].
      (* the zeros at the end of the product *)
      assert (Hsuf : AB mod 10 ^ (L - p)
                     = val t (2 * p - (L - p)) (Z.to_nat (L - p))).
      { replace (2 * p - (L - p)) with (T + e + Z.of_nat (Z.to_nat p)) by lia.
        rewrite (val_suffix t (T + e) (Z.to_nat p) (Z.to_nat (L - p)) Ht).
        replace (Z.to_nat p + Z.to_nat (L - p))%nat with (Z.to_nat L) by lia.
        rewrite HvL, Z2Nat.id by lia. reflexivity. }
      split.
      + intros Hmod. assert (Hz : AB mod 10 ^ (L - p) = 0) by nia.
        rewrite Hsuf in Hz.
        destruct (Z_le_gt_dec (L - zc) p) as [|Hbig]; [assumption|].
        exfalso. apply Hlast.
        apply (val_zero_inv t _ _ Ht Hz). lia.
      + intros Hfit. rewrite Hsuf, val_zero; [lia|].
        intros j Hj. apply Hzeros. lia. }
  destruct Hdiv as [Hquot Hexact].
  assert (Hwf : wf p (mk_bignum
                  (wrap_long
                     ((if get t T <? 1
                       then wrap_long (wrap_long (power a + power b) - 1)
                       else wrap_long (power a + power b)) + 1)) sd d p)).
  { constructor; cbn [precision digits sig_digs]; try lia.
    - apply digit_cells_of_get. intros j Hj. rewrite Hd by lia.
      destruct (Z.ltb_spec j sd).
      + now apply digit_cells_get.
      + rewrite get_zero_cells. lia.
    - intros j Hj. cbn [sig_digs digits] in Hj. rewrite Hd by lia.
      destruct (Z.ltb_spec j sd); [lia|]. apply get_zero_cells.
    - intros _. rewrite Hd by lia. destruct (Z.ltb_spec 0 sd); [|lia].
      replace (T + e + 0) with (T + e) by lia. assumption. }
  eexists. split; [reflexivity|]. split; [exact Hwf|].
  cbn [sig_digs power]. split; [lia|]. split.
  { rewrite (wrap_long_id (power a + power b)) by lia.
    subst e. destruct (get t T <? 1).
    - rewrite (wrap_long_id (power a + power b - 1)) by lia.
      rewrite wrap_long_id by lia. lia.
    - rewrite wrap_long_id by lia. lia. }
  split.
  { unfold mantissa. cbn [digits precision]. symmetry. assumption. }
  split.
  - intros Hmod _. cbn [sig_digs digits].
    apply Hexact in Hmod. rewrite Hd by lia.
    destruct (Z.ltb_spec (sd - 1) sd); [|lia].
    replace (T + e + (sd - 1)) with (2 * p - 1 - zc) by lia. assumption.
  - intros Hmod. destruct (Z_le_gt_dec (L - zc) p) as [Hfit|]; [|lia].
    apply Hexact in Hfit. contradiction.
Qed.

(** ** What the division computes *)

(** The zero detection says yes exactly when the window and the cell above
    it hold zeros only. *)
Lemma window_is_zero_spec tw ds ni :
  0 <= ds -> 0 <= ni -> ni + ds < len tw -> len tw < 2 ^ 31 -> digit_cells tw ->
  exists z, window_is_zero tw ds ni = Ok z /\
    (z = true <-> forall j, ni <= j <= ni + ds -> get tw j = 0).
Proof.
  intros Hds Hni Hni' Hl Htw. unfold window_is_zero.
  use_while
    (fun st : Z * Z =>
       let '(i, zc) := st in
       0 <= i <= ds + 1 /\
       ((zc = i /\ forall j, ni <= j < ni + i -> get tw j = 0) \/
        (zc = i - 1 /\ 1 <= i /\ get tw (ni + i - 1) <> 0)))
    (fun st : Z * Z => ds + 1 - fst st).
  - split; [lia|]. left. split; [reflexivity|]. intros; lia.
  - cbn [fst]. lia.
  - intros [i zc] (Hi & Hinv) Hcond. cbn [fst].
    apply andb_true_iff in Hcond. destruct Hcond as [Heq Hle].
    apply Z.eqb_eq in Heq. apply Z.leb_le in Hle. subst zc.
    destruct Hinv as [[_ Hz]|[Hbad _]]; [|lia].
    rewrite rd_ok by lia. cbn [bind].
    pose proof (digit_cells_get tw (ni + i) Htw).
    eexists. split; [reflexivity|]. cbn [fst]. split; [|lia]. split; [lia|].
    destruct (Z.ltb_spec (get tw (ni + i)) 1).
    + left. split; [reflexivity|]. intros j Hj.
      destruct (Z.eq_dec j (ni + i)) as [->|]; [lia|]. apply Hz. lia.
    + right. split; [lia|]. split; [lia|].
      replace (ni + (i + 1) - 1) with (ni + i) by lia. lia.
  - destruct s as [i zc]. destruct Hinv as (Hi & Hinv).
    eexists. split; [reflexivity|].
    apply andb_false_iff in Hexit.
    destruct Hinv as [[-> Hz]|(-> & Hi1 & Hnz)].
    + destruct Hexit as [Hne|Hgt]; [rewrite Z.eqb_refl in Hne; discriminate|].
      apply Z.leb_gt in Hgt. assert (i = ds + 1) by lia. subst i.
      rewrite Z.eqb_refl. split; [|reflexivity].
      intros _ j Hj. apply Hz. lia.
    + split.
      * intros Heq. apply Z.eqb_eq in Heq. lia.
      * intros Hall. exfalso. apply Hnz. apply Hall. lia.
Qed.

Section DivideValue.
Variables (p : Z) (fuel : nat) (num den : bignum).
Hypothesis Hp : 1 <= p <= max_precision.
Hypothesis Hden : wf p den.
Hypothesis Hsd : 0 < sig_digs den.
Hypothesis Hfuel : (10 <= fuel)%nat.

Local Abbreviation ds := (sig_digs den).
Local Abbreviation n := (Z.to_nat (sig_digs den)).
Local Abbreviation D := (val (digits den) 0 (Z.to_nat (sig_digs den))).

(** One quotient digit: the window loses [q] denominators and keeps less
    than one. *)
Lemma divide_step_val tw d k ni nz :
  len tw = 2 * p + 2 -> digit_cells tw -> len d = p ->
  0 <= k < p -> 0 <= ni <= k + 1 ->
  val tw ni (S n) < 10 * D ->
  exists tw' q nz',
    divide_step fuel num den p (tw, d, k, ni, nz)
    = Ok (tw', put d k q, k + 1, ni + 1, nz') /\
    len tw' = 2 * p + 2 /\ digit_cells tw' /\ 0 <= q <= 9 /\
    (forall j, 0 <= j -> j < ni \/ ni + ds < j -> get tw' j = get tw j) /\
    val tw ni (S n) = q * D + val tw' (ni + 1) n /\
    0 <= val tw' (ni + 1) n < D /\
    (nz' = nz \/
     (nz' = 0 /\ sig_digs num < k /\ val tw' (ni + 1) n = 0)).
Proof.
  intros Hltw Htw Hld Hk Hni HW.
  pose proof (max_precision_int p ltac:(lia)) as Hint.
  pose proof (den_val_bounds p den Hden Hsd) as HD.
  assert (0 < 10 ^ (sig_digs den - 1)) by (apply Z.pow_pos_nonneg; lia).
  destruct Hden as [Hprec Hlen Hsig Hcells Htail Hlead].
  unfold divide_step.
  destruct (subtract_loop_spec fuel (digits den) (sig_digs den) tw ni)
    as (tw' & q & -> & Hq & Hl' & Ht' & Hsame & Hval & Hlt);
    try assumption; try lia.
  cbn [bind].
  pose proof (val_nonneg tw' (ni + 1) n Ht') as Hrest.
  pose proof (digit_cells_get tw' ni Ht') as Hov.
  pose proof (val_msd tw' ni n) as Hmsd.
  rewrite Z2Nat.id in * by lia.
  assert (Hov0 : get tw' ni = 0) by nia.
  assert (Hwin : val tw' ni (S n) = val tw' (ni + 1) n) by nia.
  assert (Hnz : exists nz',
            (if k >? sig_digs num
             then z <- window_is_zero tw' (sig_digs den) ni ;;
                  Ok (if z then 0 else nz)
             else Ok nz) = Ok nz' /\
            (nz' = nz \/
             (nz' = 0 /\ sig_digs num < k /\ val tw' (ni + 1) n = 0))).
  { destruct (Z.gtb_spec k (sig_digs num)); [|exists nz; auto].
    destruct (window_is_zero_spec tw' (sig_digs den) ni) as (z & -> & Hz);
      try assumption; try lia.
    cbn [bind]. destruct z; eexists; (split; [reflexivity|]); [right | left; reflexivity].
    split; [reflexivity|]. split; [lia|].
    apply val_zero. intros j Hj. apply Hz; [reflexivity | lia]. }
  destruct Hnz as (nz' & -> & Hnz'). cbn [bind].
  destruct (Z.ltb_spec k p); [|lia].
  rewrite wr_ok by lia. cbn [bind].
  exists tw', q, nz'. split; [reflexivity|].
  split; [lia|]. split; [assumption|]. split; [assumption|].
  split; [assumption|]. split; [lia|]. split; [lia|]. assumption.
Qed.

(** The main loop: the digits written are the quotient of the word by the
    denominator. *)
Lemma divide_loop_val tw ni0 :
  len tw = 2 * p + 2 -> digit_cells tw -> 0 <= ni0 <= 1 ->
  val tw ni0 n < D -> D <= val tw ni0 (S n) ->
  (forall j, sig_digs num + 1 < j -> get tw j = 0) ->
  exists tw' d k ni nz rem,
    while (Z.to_nat p)
      (fun '(_, _, sigdigctr, _, nonzero) =>
         (sigdigctr <? p) && (nonzero =? 1))
      (divide_step fuel num den p)
      (tw, zero_cells p, 0, ni0, 1) = Ok (tw', d, k, ni, nz) /\
    1 <= k <= p /\ len d = p /\ digit_cells d /\ get d 0 <> 0 /\
    (forall j, k <= j -> get d j = 0) /\
    0 <= rem < D /\
    val tw ni0 (n + Z.to_nat p) = val d 0 (Z.to_nat p) * D + rem.
Proof.
  intros Hltw Htw Hni0 HW0 HW1 Hzeros.
  pose proof (max_precision_int p ltac:(lia)) as Hint.
  pose proof (wf_sig _ _ Hden) as Hsigd.
  use_while
    (fun st : list Z * list Z * Z * Z * Z =>
       let '(t, d, k, ni, nz) := st in
       len t = 2 * p + 2 /\ digit_cells t /\ len d = p /\ digit_cells d /\
       0 <= k <= p /\ ni = ni0 + k /\
       (forall j, ni + ds <= j -> get t j = get tw j) /\
       (forall j, k <= j -> get d j = 0) /\
       (1 <= k -> get d 0 <> 0) /\
       exists R, 0 <= R < D /\
         val tw ni0 (n + Z.to_nat k) = val d 0 (Z.to_nat k) * D + R /\
         val t ni (S n) = 10 * R + get tw (ni0 + Z.of_nat n + k) /\
         (k = 0 -> D <= val t ni (S n)) /\
         (nz = 1 \/ (nz = 0 /\ sig_digs num + 2 <= k /\ R = 0)) /\
         (k = 0 -> nz = 1))
    (fun st : list Z * list Z * Z * Z * Z =>
       let '(_, _, k, _, _) := st in p - k).
  - rewrite len_zero_cells by lia.
    split; [assumption|]. split; [assumption|]. split; [reflexivity|].
    split; [apply digit_cells_zero_cells|]. split; [lia|]. split; [lia|].
    split; [reflexivity|]. split; [intros; apply get_zero_cells|].
    split; [lia|].
    exists (val tw ni0 n). split.
    { split; [apply (val_nonneg tw ni0 n Htw) | assumption]. }
    cbn [Z.to_nat val]. rewrite Nat.add_0_r, !Z.add_0_r.
    split; [lia|]. split; [apply val_S|]. split; [intros _; assumption|].
    split; [left; reflexivity | reflexivity].
  - lia.
  - intros [[[[t d] k] ni] nz]
      (Hlt & Ht & Hld & Hd & Hk & Hni & Hright & Htail & Hlead &
       R & HR & HU & HWt & HDt & Hnz & Hnz0) Hcond.
    apply andb_true_iff in Hcond. destruct Hcond as [Hkp Hnz1].
    apply Z.ltb_lt in Hkp. apply Z.eqb_eq in Hnz1.
    pose proof (digit_cells_get tw (ni0 + Z.of_nat n + k) Htw) as Hcell.
    destruct (divide_step_val t d k ni nz)
      as (t' & q & nz' & -> & Hlt' & Ht' & Hq & Hsame & Hval & HR' & Hnz');
      try assumption; try lia.
    eexists. split; [reflexivity|]. cbv beta iota.
    rewrite len_put. split; [|lia].
    split; [assumption|]. split; [assumption|]. split; [assumption|].
    split; [apply digit_cells_put; assumption|].
    split; [lia|]. split; [lia|]. split.
    { intros j Hj. rewrite Hsame by lia. apply Hright. lia. }
    split.
    { intros j Hj. rewrite get_put_other by lia. apply Htail. lia. }
    split.
    { intros _. rewrite get_put by lia.
      destruct (Z.eqb_spec 0 k) as [<-|Hne].
      - specialize (HDt eq_refl). nia.
      - apply Hlead. lia. }
    exists (val t' (ni + 1) n). split; [assumption|].
    rewrite Z2Nat.id in HWt by lia.
    assert (HQ : val (put d k q) 0 (Z.to_nat (k + 1))
                 = 10 * val d 0 (Z.to_nat k) + q).
    { replace (Z.to_nat (k + 1)) with (S (Z.to_nat k)) by lia.
      rewrite val_S, Z2Nat.id by lia.
      rewrite Z.add_0_l, get_put_same by lia.
      rewrite val_put_outside by lia. reflexivity. }
    assert (HU' : val tw ni0 (n + Z.to_nat (k + 1))
                  = 10 * val tw ni0 (n + Z.to_nat k) + get tw (ni0 + ds + k)).
    { replace (n + Z.to_nat (k + 1))%nat with (S (n + Z.to_nat k)) by lia.
      rewrite val_S. do 2 f_equal. lia. }
    assert (HW' : val t' (ni + 1) (S n)
                  = 10 * val t' (ni + 1) n + get tw (ni0 + ds + (k + 1))).
    { rewrite val_S. f_equal. rewrite Z2Nat.id by lia.
      rewrite Hsame by lia. rewrite Hright by lia. f_equal. lia. }
    rewrite Z2Nat.id by lia.
    split; [rewrite HU', HQ, HU; lia|].
    split; [replace (ni0 + (k + 1)) with (ni + 1) by lia; exact HW'|].
    split; [lia|]. split; [|lia].
    destruct Hnz' as [->|(-> & Hsn & Hz)]; [left; assumption|].
    right. split; [reflexivity|]. split; [lia | assumption].
  - destruct s as [[[[t d] k] ni] nz].
    destruct Hinv as (Hlt & Ht & Hld & Hd & Hk & Hni & Hright & Htail & Hlead &
                      R & HR & HU & HWt & HDt & Hnz & Hnz0).
    assert (Hk1 : 1 <= k).
    { destruct (Z.eq_dec k 0) as [->|]; [|lia]. exfalso.
      rewrite (Hnz0 eq_refl) in Hexit.
      destruct (Z.ltb_spec 0 p); [discriminate Hexit | lia]. }
    assert (Hq : val d 0 (Z.to_nat p)
                 = val d 0 (Z.to_nat k) * 10 ^ (p - k)).
    { replace (Z.to_nat p) with (Z.to_nat k + Z.to_nat (p - k))%nat by lia.
      rewrite val_zero_tail by (intros; apply Htail; lia).
      rewrite Z2Nat.id by lia. reflexivity. }
    destruct (Z.eq_dec k p) as [->|Hkp].
    + exists t, d, p, ni, nz, R. split; [reflexivity|].
      split; [lia|]. split; [assumption|]. split; [assumption|].
      split; [apply Hlead; lia|]. split; [assumption|]. split; assumption.
    + (* an early end: the division came out even *)
      assert (Hnz' : nz = 0 /\ sig_digs num + 2 <= k /\ R = 0).
      { destruct Hnz as [->|H]; [|assumption]. exfalso.
        destruct (Z.ltb_spec k p); [discriminate Hexit | lia]. }
      destruct Hnz' as (-> & Hsn & ->).
      exists t, d, k, ni, 0, 0. split; [reflexivity|].
      split; [lia|]. split; [assumption|]. split; [assumption|].
      split; [apply Hlead; lia|]. split; [assumption|].
      pose proof (den_val_bounds p den Hden Hsd) as HD.
      assert (0 < 10 ^ (sig_digs den - 1)) by (apply Z.pow_pos_nonneg; lia).
      split; [lia|].
      replace (n + Z.to_nat p)%nat
        with ((n + Z.to_nat k) + Z.to_nat (p - k))%nat by lia.
      rewrite val_zero_tail.
      * rewrite HU, Hq, Z2Nat.id by lia. ring.
      * intros j Hj. apply Hzeros. lia.
Qed.
End DivideValue.

(** The word that [bignum_divide] starts from, read from cell 1: the
    mantissa of the numerator and zeros. *)
Lemma numerator_word p num tw :
  1 <= p -> wf p num -> len tw = 2 * p + 2 ->
  (forall j, 0 <= j ->
     get tw j = if (1 <=? j) && (j <=? sig_digs num)
                then get (digits num) (j - 1) else 0) ->
  forall m, (Z.to_nat p <= m)%nat ->
    val tw 1 m = mantissa num * 10 ^ (Z.of_nat m - p).
Proof.
  intros Hp Hnum Hl Hget m Hm.
  pose proof (wf_sig _ _ Hnum) as Hsig.
  replace m with (Z.to_nat p + (m - Z.to_nat p))%nat at 1 by lia.
  rewrite val_zero_tail.
  - replace (Z.of_nat (m - Z.to_nat p)) with (Z.of_nat m - p) by lia.
    f_equal. unfold mantissa. rewrite (wf_prec _ _ Hnum).
    apply val_eq. intros j Hj. rewrite Hget by lia.
    destruct (Z.leb_spec 1 (1 + j)), (Z.leb_spec (1 + j) (sig_digs num));
      try lia; cbn [andb].
    + f_equal. lia.
    + symmetry. apply (wf_get_tail p num); [assumption | lia].
  - intros j Hj. rewrite Hget by lia.
    destruct (Z.leb_spec 1 j), (Z.leb_spec j (sig_digs num)); try lia;
      reflexivity.
Qed.

(** [bignum_divide] on well-formed, non-zero operands: the quotient of the
    mantissas, cut to [p] digits. *)
Lemma bignum_divide_val p fuel r num den :
  1 <= p <= max_precision -> wf p r -> wf p num -> wf p den ->
  0 < sig_digs num -> 0 < sig_digs den -> power_ok num -> power_ok den ->
  (10 <= fuel)%nat ->
  let s := if mantissa den >? mantissa num then 1 else 0 in
  exists r',
    bignum_divide fuel true r num den = Ok (1, r') /\
    wf p r' /\ normal r' /\ 0 < sig_digs r' /\
    power r' = power num - power den - s /\
    mantissa r' = mantissa num * 10 ^ (p - 1 + s) / mantissa den.
Proof.
  intros Hp Hr Hnum Hden Hsn Hsd Hpn Hpd Hfuel s.
  unfold power_ok in Hpn, Hpd.
  pose proof (max_precision_int p ltac:(lia)) as Hint.
  destruct (bignum_reset_wf p r ltac:(lia) Hr) as (pw & Hreset).
  unfold bignum_divide. rewrite Hreset. cbn [bind precision digits].
  destruct (Z.eqb_spec (sig_digs den) 0) as [|_]; [lia|].
  destruct (Z.eqb_spec (sig_digs num) 0) as [|_]; [lia|].
  rewrite (wrap_ulong_id (2 * p + 2)) by lia. rewrite calloc_ok by lia.
  fold (zero_cells (2 * p + 2)). fold (zero_cells p).
  destruct (numerator_copy p num Hp Hnum) as (tw & -> & Hltw & Htw & Hget).
  cbn [bind].
  pose proof (den_val_bounds p den Hden Hsd) as HD.
  assert (Hp10 : forall x, 0 <= x -> 0 < 10 ^ x)
    by (intros; apply Z.pow_pos_nonneg; lia).
  pose proof (Hp10 (sig_digs den - 1) ltac:(lia)) as Hpow.
  pose proof (wf_sig _ _ Hden) as Hsigd. pose proof (wf_sig _ _ Hnum) as Hsign.
  rewrite denom_compare_spec
    by (try assumption; try apply Hden; rewrite ?(wf_len _ _ Hden); lia).
  cbn [bind].
  set (n := Z.to_nat (sig_digs den)) in *.
  set (D := val (digits den) 0 n) in *.
  pose proof (mantissa_sig p den Hden) as HMd. fold n in HMd. fold D in HMd.
  pose proof (mantissa_bound p num Hnum) as HMn.
  pose proof (mantissa_lead p num Hnum Hsn) as HMl.
  pose proof (Hp10 (p - sig_digs den) ltac:(lia)) as Hpd10.
  pose proof (numerator_word p num tw ltac:(lia) Hnum Hltw Hget) as Hword.
  assert (Hcell0 : get tw 0 = 0) by (rewrite Hget by lia; reflexivity).
  (* the first comparison is the comparison of the mantissas *)
  assert (Htop : val tw 1 n = mantissa num / 10 ^ (p - sig_digs den)).
  { rewrite (val_prefix tw 1 n (Z.to_nat (p - sig_digs den)) Htw).
    rewrite Hword by lia. rewrite Z2Nat.id by lia.
    replace (Z.of_nat (n + Z.to_nat (p - sig_digs den)) - p) with 0 by lia.
    rewrite Z.mul_1_r. reflexivity. }
  assert (Hcmp : (D >? val tw (0 + 1) n) = (mantissa den >? mantissa num)).
  { change (0 + 1) with 1. rewrite Htop, HMd.
    destruct (Z.gtb_spec D (mantissa num / 10 ^ (p - sig_digs den))) as [Hgt|Hle];
      destruct (Z.gtb_spec (D * 10 ^ (p - sig_digs den)) (mantissa num));
      try reflexivity; exfalso.
    - assert (mantissa num / 10 ^ (p - sig_digs den) >= D); [|lia].
      apply Z.le_ge, Z.div_le_lower_bound; lia.
    - assert (mantissa num / 10 ^ (p - sig_digs den) < D); [|lia].
      apply Z.div_lt_upper_bound; lia. }
  rewrite Hcmp. fold s.
  assert (Hs01 : 0 <= s <= 1).
  { subst s. destruct (mantissa den >? mantissa num); lia. }
  replace (if s =? 1
           then (1, wrap_long (wrap_long (power num - power den) - 1))
           else (0, wrap_long (power num - power den)))
    with (s, power num - power den - s).
  2:{ rewrite (wrap_long_id (power num - power den)) by lia.
      assert (s = 0 \/ s = 1) as [->| ->] by lia.
      - change (0 =? 1) with false. cbv iota. f_equal. lia.
      - change (1 =? 1) with true. cbv iota. rewrite wrap_long_id by lia.
        reflexivity. }
  cbv beta iota.
  (* the first window *)
  assert (Hs1 : s = 1 -> val tw 1 n < D).
  { intros Hs. subst s. rewrite <- Hcmp in Hs. change (0 + 1) with 1 in Hs.
    destruct (Z.gtb_spec D (val tw 1 n)); lia. }
  assert (Hs0 : s = 0 -> D <= val tw 1 n).
  { intros Hs. subst s. rewrite <- Hcmp in Hs. change (0 + 1) with 1 in Hs.
    destruct (Z.gtb_spec D (val tw 1 n)); lia. }
  pose proof (val_nonneg tw 1 n Htw) as Hw1.
  assert (Hwin : val tw s n < D /\ D <= val tw s (S n)).
  { assert (s = 0 \/ s = 1) as [Hs| Hs] by lia; rewrite Hs.
    - split.
      + replace n with (S (Z.to_nat (sig_digs den - 1))) by lia.
        rewrite val_msd, Hcell0.
        pose proof (val_nonneg tw (0 + 1) (Z.to_nat (sig_digs den - 1)) Htw) as Hx.
        rewrite Z2Nat.id in Hx by lia. lia.
      + rewrite val_msd, Hcell0. change (0 + 1) with 1.
        specialize (Hs0 Hs). lia.
    - split; [apply Hs1; assumption|].
      rewrite val_msd.
      pose proof (val_nonneg tw (1 + 1) n Htw) as Hx.
      assert (Hl1 : 1 <= get tw 1).
      { rewrite Hget by lia.
        destruct (Z.leb_spec 1 1), (Z.leb_spec 1 (sig_digs num)); try lia.
        cbn [andb]. change (1 - 1) with 0.
        pose proof (wf_lead _ _ Hnum Hsn).
        pose proof (digit_cells_get (digits num) 0 (wf_cells _ _ Hnum)). lia. }
      subst n. rewrite Z2Nat.id in * by lia.
      replace (10 ^ sig_digs den) with (10 * 10 ^ (sig_digs den - 1)) in *
        by (rewrite (pow10_pred (sig_digs den)) by lia; lia).
      nia. }
  destruct Hwin as [Hwlo Hwhi].
  destruct (divide_loop_val p fuel num den Hp Hden Hsd Hfuel tw s)
    as (tw' & d & k & ni & nz & rem & -> & Hk & Hld & Hd & Hlead & Htail
        & Hrem & Hquot); try assumption; try lia.
  { intros j Hj. rewrite Hget by lia.
    destruct (Z.leb_spec 1 j), (Z.leb_spec j (sig_digs num)); try lia;
      reflexivity. }
  cbn [bind]. fold n in Hquot. fold D in Hquot, Hrem.
  destruct (count_trailing_zeros_spec d (k - 1) 0)
    as (zc & -> & Hzc & Hzeros & Hlast); try lia; try assumption.
  cbn [bind]. rewrite wrap_ulong_id by lia.
  eexists. split; [reflexivity|]. cbn [sig_digs power]. split.
  { constructor; cbn [precision digits sig_digs]; try assumption; try lia.
    intros j Hj. cbn [sig_digs digits] in Hj.
    destruct (Z_lt_le_dec j k); [apply Hzeros | apply Htail]; lia. }
  split.
  { intros _. cbn [sig_digs digits].
    replace (k - zc - 1) with (k - 1 - zc) by lia. assumption. }
  split; [lia|]. split; [reflexivity|].
  (* the quotient *)
  unfold mantissa at 1. cbn [digits precision].
  assert (Hw : val tw s (n + Z.to_nat p)
               = mantissa num * 10 ^ (sig_digs den - 1 + s)).
  { assert (s = 0 \/ s = 1) as [Hs| Hs] by lia; rewrite Hs.
    - replace (n + Z.to_nat p)%nat with (S (n + Z.to_nat p - 1)) by lia.
      rewrite val_msd, Hcell0. change (0 + 1) with 1.
      rewrite Hword by lia. rewrite Z.mul_0_l, Z.add_0_l. do 2 f_equal. lia.
    - rewrite Hword by lia. do 2 f_equal. lia. }
  rewrite Hw in Hquot.
  rewrite HMd.
  replace (p - 1 + s) with ((sig_digs den - 1 + s) + (p - sig_digs den)) by lia.
  rewrite Z.pow_add_r by lia.
  rewrite Z.mul_assoc, Z.div_mul_cancel_r by lia.
  rewrite Hquot. rewrite Z.div_add_l by lia.
  change (0 <= rem < D) in Hrem.
  rewrite Z.div_small by lia. lia.
Qed.

(** ** Loops that go wrong *)

Lemma for_iter_split {St : Type} (body : Z -> St -> result St) a b : forall lo s,
  for_iter (a + b) lo body s
  = (s' <- for_iter a lo body s ;; for_iter b (lo + Z.of_nat a) body s').
Proof.
  induction a as [|a IH]; intros lo s.
  - cbn [for_iter bind Nat.add]. rewrite Z.add_0_r. reflexivity.
  - cbn [for_iter Nat.add]. destruct (body lo s) as [s1| |]; cbn [bind];
      [|reflexivity|reflexivity].
    rewrite IH. replace (lo + 1 + Z.of_nat a) with (lo + Z.of_nat (S a)) by lia.
    reflexivity.
Qed.

(** A loop whose body goes wrong in round [m] goes wrong. *)
Lemma for_loop_undef {St : Type} (body : Z -> St -> result St) m n s s' :
  0 <= m < n -> for_loop 0 m body s = Ok s' -> body m s' = Undef ->
  for_loop 0 n body s = Undef.
Proof.
  intros Hm Hrun Hbad. unfold for_loop in *.
  replace (Z.to_nat (n - 0))
    with (Z.to_nat (m - 0) + S (Z.to_nat (n - m - 1)))%nat by lia.
  rewrite for_iter_split, Hrun. cbn [bind for_iter].
  replace (0 + Z.of_nat (Z.to_nat (m - 0))) with m by lia.
  rewrite Hbad. reflexivity.
Qed.

(** ** Reset and copy, in general *)

(** [bignum_reset] writes [sig_digs] cells whatever the size of the
    buffer: a count beyond the buffer is a write outside it. *)
Lemma bignum_reset_overrun b :
  len (digits b) < sig_digs b < 2 ^ 31 -> bignum_reset b = Undef.
Proof.
  intros Hsig. pose proof (len_nonneg (digits b)) as Hl. unfold bignum_reset.
  destruct (Z.ltb_spec 0 (sig_digs b)); [|lia].
  destruct (zero_loop (digits b) (len (digits b))) as (d' & Hrun & Hl' & _);
    [lia | lia |].
  rewrite (for_loop_undef _ (len (digits b)) (sig_digs b) (digits b) d');
    [reflexivity | lia | assumption |].
  apply wr_outside. lia.
Qed.

(** [bignum_set]: the power and the first digits of the source, as many as
    the destination has room for; the other cells of the destination stay. *)
Lemma bignum_set_spec p q dst src :
  0 <= p < 2 ^ 31 -> 0 <= q < 2 ^ 31 -> wf p src -> 0 < sig_digs src ->
  precision dst = q -> len (digits dst) = q ->
  exists r,
    bignum_set dst src = Ok r /\
    power r = power src /\ sig_digs r = Z.min (sig_digs src) q /\
    precision r = q /\ len (digits r) = q /\
    forall j, 0 <= j ->
      get (digits r) j = if j <? Z.min (sig_digs src) q
                         then get (digits src) j else get (digits dst) j.
Proof.
  intros Hp Hq [Hprec Hlen Hsig Hcells Htail Hlead] Hpos Hdq Hdl.
  unfold bignum_set. destruct (Z.ltb_spec 0 (sig_digs src)); [|lia].
  rewrite Hdq.
  replace (if sig_digs src >? q then q else sig_digs src)
    with (Z.min (sig_digs src) q)
    by (destruct (Z.gtb_spec (sig_digs src) q); lia).
  destruct (copy_loop (digits src) (digits dst) (Z.min (sig_digs src) q))
    as (d' & -> & Hl & Hg); try lia.
  { intros j _. now apply digit_cells_char. }
  cbn [bind]. eexists. split; [reflexivity|].
  cbn [power sig_digs precision digits].
  split; [reflexivity|]. split; [reflexivity|]. split; [reflexivity|].
  split; [lia | assumption].
Qed.

(** Into a reset destination of precision [q], [bignum_set] stores the
    first [q] digits of the mantissa. *)
Lemma bignum_set_val p q pw src :
  1 <= p < 2 ^ 31 -> 1 <= q < 2 ^ 31 -> wf p src -> 0 < sig_digs src ->
  exists r,
    bignum_set (mk_bignum pw 0 (zero_cells q) q) src = Ok r /\
    wf q r /\ power r = power src /\ sig_digs r = Z.min (sig_digs src) q /\
    mantissa r = if q <? p then mantissa src / 10 ^ (p - q)
                 else mantissa src * 10 ^ (q - p).
Proof.
  intros Hp Hq Hsrc Hpos.
  destruct (bignum_set_spec p q (mk_bignum pw 0 (zero_cells q) q) src)
    as (r & Hrun & Hpw & Hsd & Hprec & Hlen & Hget); try assumption; try lia;
    try reflexivity.
  { cbn [digits]. apply len_zero_cells. lia. }
  cbn [digits] in Hget.
  pose proof (wf_sig _ _ Hsrc) as Hsig.
  assert (Hcells : forall j, 0 <= j < q ->
            get (digits r) j = get (digits src) j).
  { intros j Hj. rewrite Hget by lia.
    destruct (Z.ltb_spec j (Z.min (sig_digs src) q)); [reflexivity|].
    rewrite get_zero_cells. symmetry.
    apply (wf_get_tail p src); [assumption | lia]. }
  exists r. split; [assumption|]. split.
  { constructor; try assumption; try lia.
    - apply digit_cells_of_get. intros j Hj. rewrite Hcells by lia.
      apply digit_cells_get, Hsrc.
    - intros j Hj. rewrite Hget by lia.
      destruct (Z.ltb_spec j (Z.min (sig_digs src) q)); [lia|].
      apply get_zero_cells.
    - intros _. rewrite Hcells by lia. now apply (wf_lead _ _ Hsrc). }
  split; [assumption|]. split; [assumption|].
  unfold mantissa at 1. rewrite Hprec.
  rewrite (val_eq (digits r) (digits src) 0 0 (Z.to_nat q))
    by (intros j Hj; apply Hcells; lia).
  destruct (Z.ltb_spec q p).
  - apply mantissa_prefix; [assumption | lia].
  - unfold mantissa. rewrite (wf_prec _ _ Hsrc).
    replace (Z.to_nat q) with (Z.to_nat p + Z.to_nat (q - p))%nat by lia.
    rewrite val_zero_tail.
    + rewrite Z2Nat.id by lia. reflexivity.
    + intros j Hj. apply (wf_get_tail p src); [assumption | lia].
Qed.

(** ** The value of an ingested integer *)

(** Cells that hold the decimal digits of [n] hold [n]. *)
Lemma digits_val d lo k : forall n,
  0 <= n < 10 ^ Z.of_nat k ->
  (forall i, 0 <= i < Z.of_nat k ->
     get d (lo + i) = (n / 10 ^ (Z.of_nat k - 1 - i)) mod 10) ->
  val d lo k = n.
Proof.
  induction k as [|k IH]; intros n Hn Hd.
  - cbn [val]. change (10 ^ Z.of_nat 0) with 1 in Hn. lia.
  - rewrite val_S. rewrite Nat2Z.inj_succ, Z.pow_succ_r in Hn by lia.
    rewrite (IH (n / 10)).
    + rewrite Hd by lia.
      replace (Z.of_nat (S k) - 1 - Z.of_nat k) with 0 by lia.
      change (10 ^ 0) with 1. rewrite Z.div_1_r.
      pose proof (Z.div_mod n 10 ltac:(lia)). lia.
    + split; [apply Z.div_pos; lia|]. apply Z.div_lt_upper_bound; lia.
    + intros i Hi. rewrite Hd by lia.
      replace (Z.of_nat (S k) - 1 - i) with (Z.succ (Z.of_nat k - 1 - i)) by lia.
      rewrite Z.pow_succ_r by lia. rewrite Z.div_div by lia. reflexivity.
Qed.

(** [bignum_set_int] into a reset bignum stores the integer exactly. *)
Lemma bignum_set_int_val p pw n :
  1 <= p < 2 ^ 31 -> 0 < n < 10 ^ p ->
  exists t,
    bignum_set_int true (mk_bignum pw 0 (zero_cells p) p) n = Ok (1, t) /\
    wf p t /\ normal t /\ 0 < sig_digs t <= power t + 1 /\
    0 <= power t < p /\
    10 ^ power t <= n < 10 ^ (power t + 1) /\
    mantissa t = n * 10 ^ (p - 1 - power t).
Proof.
  intros Hp Hn.
  destruct (digit_count n p ltac:(lia) Hn) as (k & Hk & Hnk).
  destruct (bignum_set_int_fits p n k Hp Hk Hnk (mk_bignum pw 0 (zero_cells p) p))
    as (t & Ht & Hpw & Hsig & Hprec & Hlen & Hdig & Hzero & Hlast & Hrest).
  { reflexivity. }
  { cbn [digits]. apply len_zero_cells. lia. }
  cbn [digits] in Hrest.
  assert (Hwf : wf p t).
  { constructor; try assumption; try lia.
    - apply digit_cells_of_get. intros j Hj.
      destruct (Z_lt_le_dec j (sig_digs t)).
      + rewrite Hdig by lia.
        pose proof (Z.mod_pos_bound (n / 10 ^ (k - 1 - j)) 10 ltac:(lia)). lia.
      + rewrite Hrest by lia. rewrite get_zero_cells. lia.
    - intros j Hj. rewrite Hrest by lia. apply get_zero_cells.
    - intros _. rewrite Hdig by lia. rewrite Z.sub_0_r.
      pose proof (lead_digit n k ltac:(lia) Hnk). rewrite Z.mod_small; lia. }
  exists t. split; [assumption|]. split; [assumption|]. split.
  { intros _. assumption. }
  split; [lia|]. split; [lia|]. split.
  { rewrite Hpw. replace (k - 1 + 1) with k by lia. assumption. }
  rewrite Hpw. replace (p - 1 - (k - 1)) with (p - k) by lia.
  unfold mantissa. rewrite Hprec.
  replace (Z.to_nat p) with (Z.to_nat k + Z.to_nat (p - k))%nat by lia.
  rewrite val_zero_tail.
  - rewrite Z2Nat.id by lia. f_equal. apply digits_val.
    + rewrite Z2Nat.id by lia. lia.
    + intros i Hi. rewrite Z2Nat.id in * by lia. rewrite Z.add_0_l.
      destruct (Z_lt_le_dec i (sig_digs t)).
      * apply Hdig. lia.
      * rewrite Hrest by lia. rewrite get_zero_cells. symmetry.
        apply Hzero. lia.
  - intros j Hj. rewrite Hrest by lia. apply get_zero_cells.
Qed.

(** ** The integer wrappers *)

(** The bignum that the wrappers make of a native integer: a fresh bignum,
    then [bignum_set_int].  An integer below one gives zero. *)
Lemma ingest p n :
  1 <= p < 2 ^ 31 -> n < 10 ^ p ->
  exists t,
    bignum_set_int true (mk_bignum 0 0 (zero_cells p) p) n = Ok (1, t) /\
    wf p t /\ normal t /\ 0 <= power t < p /\
    (n <= 0 -> t = mk_bignum 0 0 (zero_cells p) p) /\
    (0 < n -> 0 < sig_digs t <= power t + 1 /\
              mantissa t = n * 10 ^ (p - 1 - power t) /\
              10 ^ power t <= n < 10 ^ (power t + 1)).
Proof.
  intros Hp Hn. destruct (Z_lt_le_dec 0 n) as [Hpos|Hneg].
  - destruct (bignum_set_int_val p 0 n Hp ltac:(lia))
      as (t & Hrun & Hwf & Hnorm & Hsig & Hpw & Hrange & Hm).
    exists t. split; [assumption|]. split; [assumption|]. split; [assumption|].
    split; [assumption|]. split; [lia|]. auto.
  - exists (mk_bignum 0 0 (zero_cells p) p). split.
    { unfold bignum_set_int. destruct (Z.ltb_spec 0 n); [lia | reflexivity]. }
    split; [apply wf_zero; lia|]. split.
    { intros H. cbn [sig_digs] in H. lia. }
    cbn [power]. split; [lia|]. split; [reflexivity | lia].
Qed.

(** The power of the destination does not matter to [bignum_set_int]. *)
Lemma bignum_set_int_power pw1 pw2 d p n : 0 < n -> 0 <= p < 2 ^ 31 ->
  bignum_set_int true (mk_bignum pw1 0 d p) n
  = bignum_set_int true (mk_bignum pw2 0 d p) n.
Proof.
  intros Hn Hp. unfold bignum_set_int. destruct (Z.ltb_spec 0 n); [|lia].
  cbn [precision digits]. rewrite calloc_ok by lia. reflexivity.
Qed.

(** Every wrapper is the bignum operation on the ingested integer. *)
Lemma wrappers_agree p fuel r a n :
  1 <= p < 2 ^ 31 -> wf p r -> wf p a -> n < 10 ^ p ->
  exists t,
    bignum_set_int true (mk_bignum 0 0 (zero_cells p) p) n = Ok (1, t) /\
    bignum_add_int true true r a n = bignum_add r a t /\
    (forall ok, bignum_mult_int true true ok r a n = bignum_mult ok r a t) /\
    (forall ok, bignum_int_divide fuel true true ok r n a
                = bignum_divide fuel ok r t a) /\
    (0 <= n \/ 0 < sig_digs a ->
     forall ok, bignum_divide_int fuel true true ok r a n
                = bignum_divide fuel ok r a t).
Proof.
  intros Hp Hr Ha Hn.
  destruct (ingest p n Hp Hn) as (t & Ht & Hwt & _ & _ & Hneg & Hpos).
  destruct (bignum_reset_wf p r ltac:(lia) Hr) as (pw & Hreset).
  fold (zero_cells p) in Hreset.
  pose proof (wf_sig _ _ Ha) as Hsa. pose proof (wf_sig _ _ Hwt) as Hst.
  assert (Hst0 : n <= 0 -> sig_digs t = 0).
  { intros H. rewrite (Hneg H). reflexivity. }
  exists t. split; [assumption|].
  unfold bignum_add_int, bignum_mult_int, bignum_int_divide, bignum_divide_int,
    bignum_add, bignum_mult, bignum_divide.
  rewrite Hreset. cbn [bind precision].
  rewrite (bignum_init_ok p) by lia. cbn [bind]. rewrite Ht. cbn [bind].
  change (1 =? 0) with false. cbv iota.
  unfold bignum_add, bignum_mult, bignum_divide.
  rewrite bignum_reset_idle. cbn [bind precision].
  split; [|split; [|split]].
  - (* add *)
    destruct (Z.eqb_spec n 0) as [Hn0|Hn0];
      destruct (Z.eqb_spec (sig_digs a) 0) as [Ha0|Ha0]; cbn [andb].
    + destruct (Z.ltb_spec 0 (sig_digs a)); [lia|]. rewrite Hst0 by lia.
      destruct (Z.ltb_spec 0 n); [lia|]. reflexivity.
    + destruct (Z.ltb_spec 0 (sig_digs a)); [|lia]. rewrite Hst0 by lia.
      reflexivity.
    + destruct (Z.ltb_spec 0 n) as [Hlt|Hge].
      * destruct (Hpos Hlt) as (Hsig & _).
        destruct (Z.ltb_spec 0 (sig_digs t)); [|lia].
        unfold zero_cells at 2.
        rewrite (bignum_set_zero p pw t) by (try assumption; lia).
        cbn [bind]. rewrite (bignum_set_int_power pw 0) by (assumption || lia).
        assumption.
      * reflexivity.
    + reflexivity.
  - (* mult *)
    intros ok. destruct (Z.eqb_spec (sig_digs a) 0); cbn [orb]; [reflexivity|].
    destruct (Z.eqb_spec n 0) as [Hn0|Hn0]; [|reflexivity].
    rewrite Hst0 by lia. reflexivity.
  - (* integer by bignum *)
    intros ok. destruct (Z.eqb_spec (sig_digs a) 0); [reflexivity|].
    destruct (Z.eqb_spec n 0) as [Hn0|Hn0]; [|reflexivity].
    rewrite Hst0 by lia. reflexivity.
  - (* bignum by integer *)
    intros Hcase ok. destruct (Z.eqb_spec n 0) as [Hn0|Hn0].
    + rewrite Hst0 by lia. reflexivity.
    + destruct (Z.eqb_spec (sig_digs a) 0) as [Ha0|Ha0]; [|reflexivity].
      assert (Hlt : 0 < n) by lia. destruct (Hpos Hlt) as (Hsig & _).
      destruct (Z.eqb_spec (sig_digs t) 0); [lia | reflexivity].
Qed.

(** ** One *)

(** Well-formed, normal bignums with one power and one mantissa are one
    bignum. *)
Lemma wf_normal_ext p a b :
  wf p a -> wf p b -> normal a -> normal b ->
  power a = power b -> mantissa a = mantissa b -> a = b.
Proof.
  intros Ha Hb Na Nb Hpw Hm.
  apply (wf_ext p); try assumption.
  apply (normal_sig p); try assumption.
  unfold mantissa in Hm. rewrite (wf_prec _ _ Ha), (wf_prec _ _ Hb) in Hm.
  apply val_inj; [apply Ha | apply Hb | |].
  - rewrite (wf_len _ _ Ha), (wf_len _ _ Hb). reflexivity.
  - rewrite (wf_len _ _ Ha). assumption.
Qed.

Lemma mult_commutes p ok r a b :
  1 <= p <= max_precision -> wf p r -> wf p a -> wf p b ->
  power_ok a -> power_ok b ->
  bignum_mult ok r a b = bignum_mult ok r b a.
Proof.
  intros Hp Hr Ha Hb Hpa Hpb.
  pose proof (wf_sig _ _ Ha) as Hsa. pose proof (wf_sig _ _ Hb) as Hsb.
  destruct (Z.eq_dec (sig_digs a) 0) as [Ha0|Ha0];
    [|destruct (Z.eq_dec (sig_digs b) 0) as [Hb0|Hb0]].
  - unfold bignum_mult. rewrite Ha0. change (0 =? 0) with true.
    rewrite orb_true_r. reflexivity.
  - unfold bignum_mult. rewrite Hb0. change (0 =? 0) with true.
    rewrite orb_true_r. reflexivity.
  - destruct ok.
    + destruct (bignum_mult_val p r a b) as (r1 & -> & Hw1 & _ & Hp1 & Hm1 & Hn1 & Hs1);
        try assumption; try lia.
      destruct (bignum_mult_val p r b a) as (r2 & -> & Hw2 & _ & Hp2 & Hm2 & Hn2 & Hs2);
        try assumption; try lia.
      rewrite (Z.mul_comm (mantissa b) (mantissa a)) in Hp2, Hm2, Hn2, Hs2.
      set (P := mantissa a * mantissa b) in *.
      set (c := if 10 ^ (2 * p - 1) <=? P then 1 else 0) in *.
      do 2 f_equal.
      destruct (Z.eq_dec (P mod 10 ^ (p - 1 + c)) 0) as [Hex|Hin].
      * apply (wf_normal_ext p); auto; lia.
      * apply (wf_ext p); try assumption; lia.
    + unfold bignum_mult.
      destruct (bignum_reset r) as [r0| |]; cbn [bind]; try reflexivity.
      destruct (Z.eqb_spec (sig_digs a) 0); [lia|].
      destruct (Z.eqb_spec (sig_digs b) 0); [lia|]. reflexivity.
Qed.

(** The integer one as a bignum. *)
Lemma ingest_one p : 1 <= p < 2 ^ 31 ->
  bignum_set_int true (mk_bignum 0 0 (zero_cells p) p) 1
  = Ok (1, mk_bignum 0 1 (one_digit p 1) p) /\
  wf p (mk_bignum 0 1 (one_digit p 1) p) /\
  normal (mk_bignum 0 1 (one_digit p 1) p) /\
  mantissa (mk_bignum 0 1 (one_digit p 1) p) = 10 ^ (p - 1).
Proof.
  intros Hp.
  assert (H1 : 1 < 10 ^ p).
  { apply Z.lt_le_trans with (10 ^ 1); [reflexivity|].
    apply Z.pow_le_mono_r; lia. }
  destruct (ingest p 1 Hp H1) as (t & Ht & Hwf & Hn & Hpw & _ & Hpos).
  destruct (Hpos ltac:(lia)) as (_ & Hm & Hr).
  rewrite (bignum_set_int_digit p 1) in Ht by lia.
  injection Ht as <-. cbn [power] in *.
  rewrite Z.sub_0_r, Z.mul_1_l in Hm.
  split; [apply bignum_set_int_digit; lia | auto].
Qed.

(** Multiplying and dividing by one, dividing a number by itself. *)
Lemma one_is_neutral p fuel r x :
  1 <= p <= max_precision -> (10 <= fuel)%nat ->
  wf p r -> wf p x -> normal x -> 0 < sig_digs x -> power_ok x ->
  bignum_mult_int true true true r x 1 = Ok (1, x) /\
  bignum_divide_int fuel true true true r x 1 = Ok (1, x) /\
  bignum_divide fuel true r x x = Ok (1, mk_bignum 0 1 (one_digit p 1) p).
Proof.
  intros Hp Hfuel Hr Hx Hnx Hsx Hpx.
  pose proof (max_precision_int p ltac:(lia)) as Hint.
  destruct (ingest_one p ltac:(lia)) as (Hrun & Hw1 & Hn1 & Hm1).
  assert (H1 : 1 < 10 ^ p).
  { apply Z.lt_le_trans with (10 ^ 1); [reflexivity|].
    apply Z.pow_le_mono_r; lia. }
  destruct (wrappers_agree p fuel r x 1 ltac:(lia) Hr Hx H1)
    as (t & Ht & _ & Hmul & _ & Hdiv).
  rewrite Hrun in Ht. injection Ht as <-.
  set (one := mk_bignum 0 1 (one_digit p 1) p) in *.
  assert (Hp1 : power_ok one) by (unfold power_ok; cbn [power one]; lia).
  pose proof (mantissa_bound p x Hx) as Hmb.
  pose proof (mantissa_lead p x Hx Hsx) as Hml.
  assert (Hpow : 0 < 10 ^ (p - 1)) by (apply Z.pow_pos_nonneg; lia).
  pose proof (pow10_pred p ltac:(lia)) as Hpp.
  split; [|split].
  - rewrite Hmul.
    destruct (bignum_mult_val p r x one) as (r' & -> & Hw & _ & Hpw & Hm & Hn & _);
      try assumption; try (cbn [sig_digs one]; lia).
    rewrite Hm1 in Hpw, Hm, Hn.
    assert (Hc : (10 ^ (2 * p - 1) <=? mantissa x * 10 ^ (p - 1)) = false).
    { apply Z.leb_gt. replace (2 * p - 1) with (p + (p - 1)) by lia.
      rewrite Z.pow_add_r by lia. nia. }
    rewrite Hc in Hpw, Hm, Hn. rewrite Z.add_0_r in Hm, Hn.
    rewrite Z.div_mul in Hm by lia. rewrite Z.mod_mul in Hn by lia.
    do 2 f_equal. apply (wf_normal_ext p); auto. cbn [power one] in Hpw. lia.
  - rewrite Hdiv by (left; lia).
    destruct (bignum_divide_val p fuel r x one) as (r' & -> & Hw & Hn & _ & Hpw & Hm);
      try assumption; try (cbn [sig_digs one]; lia).
    rewrite Hm1 in Hpw, Hm.
    assert (Hs : (10 ^ (p - 1) >? mantissa x) = false).
    { destruct (Z.gtb_spec (10 ^ (p - 1)) (mantissa x)); [lia | reflexivity]. }
    rewrite Hs in Hpw, Hm. rewrite Z.add_0_r in Hm.
    rewrite Z.div_mul in Hm by lia.
    do 2 f_equal. apply (wf_normal_ext p); auto. cbn [power one] in Hpw. lia.
  - destruct (bignum_divide_val p fuel r x x) as (r' & -> & Hw & Hn & _ & Hpw & Hm);
      try assumption.
    assert (Hs : (mantissa x >? mantissa x) = false).
    { destruct (Z.gtb_spec (mantissa x) (mantissa x)); [lia | reflexivity]. }
    rewrite Hs in Hpw, Hm. rewrite Z.add_0_r in Hm.
    rewrite Z.mul_comm, Z.div_mul in Hm by lia.
    do 2 f_equal. apply (wf_normal_ext p); auto.
    + cbn [power one]. lia.
    + rewrite Hm1. assumption.
Qed.

(** Zero is neutral for the addition, whatever the order. *)
Lemma zero_is_neutral p r x z :
  1 <= p < 2 ^ 31 -> wf p r -> wf p x -> wf p z -> sig_digs z = 0 ->
  0 < sig_digs x ->
  bignum_add r x z = Ok (1, x) /\ bignum_add r z x = Ok (1, x) /\
  bignum_add_int true true r x 0 = Ok (1, x).
Proof.
  intros Hp Hr Hx Hz Hz0 Hsx.
  destruct (bignum_reset_wf p r ltac:(lia) Hr) as (pw & Hreset).
  unfold bignum_add_int, bignum_add. rewrite Hreset. cbn [bind].
  rewrite Hz0. change (0 =? 0) with true. change (0 <? 0) with false.
  destruct (Z.eqb_spec (sig_digs x) 0); [lia|].
  destruct (Z.ltb_spec 0 (sig_digs x)); [|lia]. cbn [andb].
  rewrite (bignum_set_zero p pw x) by (try assumption; lia).
  auto.
Qed.

(** ** Refused allocations *)

(** [bignum_mult] asks for its scratch word only when both operands are
    non-zero; a refusal is reported with the result reset. *)
Lemma bignum_mult_refused p ok r a b :
  0 <= p < 2 ^ 31 -> wf p r -> wf p a -> wf p b ->
  exists pw,
    (sig_digs a = 0 \/ sig_digs b = 0 ->
     bignum_mult ok r a b = Ok (1, mk_bignum pw 0 (zero_cells p) p)) /\
    (0 < sig_digs a -> 0 < sig_digs b ->
     bignum_mult false r a b = Ok (0, mk_bignum pw 0 (zero_cells p) p)).
Proof.
  intros Hp Hr Ha Hb.
  destruct (bignum_reset_wf p r ltac:(lia) Hr) as (pw & Hreset).
  fold (zero_cells p) in Hreset.
  exists pw. unfold bignum_mult. rewrite Hreset. cbn [bind]. split.
  - intros [Hz|Hz]; rewrite Hz; change (0 =? 0) with true;
      rewrite ?orb_true_r; reflexivity.
  - intros Hsa Hsb.
    destruct (Z.eqb_spec (sig_digs a) 0); [lia|].
    destruct (Z.eqb_spec (sig_digs b) 0); [lia|]. reflexivity.
Qed.

(** The wrappers with a temporary that cannot be made: a refused
    [bignum_init] is a null pointer dereferenced, a refused scratch word of
    [bignum_set_int] is reported. *)
Lemma wrappers_refused p fuel r a n w m :
  1 <= p < 2 ^ 31 -> wf p r -> wf p a -> 0 < sig_digs a -> 0 < n ->
  (bignum_add_int false w r a n = Undef /\
   bignum_mult_int false w m r a n = Undef /\
   bignum_int_divide fuel false w m r n a = Undef /\
   bignum_divide_int fuel false w m r a n = Undef) /\
  exists pw,
    bignum_add_int true false r a n = Ok (0, mk_bignum pw 0 (zero_cells p) p) /\
    bignum_mult_int true false m r a n
    = Ok (0, mk_bignum pw 0 (zero_cells p) p) /\
    bignum_int_divide fuel true false m r n a
    = Ok (0, mk_bignum pw 0 (zero_cells p) p) /\
    bignum_divide_int fuel true false m r a n
    = Ok (0, mk_bignum pw 0 (zero_cells p) p).
Proof.
  intros Hp Hr Ha Hsa Hn.
  destruct (bignum_reset_wf p r ltac:(lia) Hr) as (pw & Hreset).
  fold (zero_cells p) in Hreset.
  unfold bignum_add_int, bignum_mult_int, bignum_int_divide, bignum_divide_int.
  rewrite Hreset. cbn [bind precision].
  destruct (Z.eqb_spec n 0); [lia|].
  destruct (Z.eqb_spec (sig_digs a) 0); [lia|]. cbn [andb orb].
  split.
  - unfold bignum_init, calloc. cbn [andb bind]. auto.
  - exists pw. rewrite (bignum_init_ok p) by lia. cbn [bind].
    unfold bignum_set_int. destruct (Z.ltb_spec 0 n); [|lia].
    unfold calloc. cbn [andb bind]. change (0 =? 0) with true. cbv iota. auto.
Qed.

(** ** Printing an integer

    [print_int] is the decimal numeral of the Standard Library; its digits
    are those of the long division by ten. *)

Lemma little_uint_value q :
  DecimalPos.Unsigned.of_lu (Pos.to_little_uint q) = N.pos q.
Proof.
  rewrite <- DecimalPos.Unsigned.of_lu_rev.
  apply DecimalPos.Unsigned.of_to.
Qed.

Lemma little_uint_normal q :
  DecimalFacts.nztail (Pos.to_little_uint q) = Pos.to_little_uint q /\
  Pos.to_little_uint q <> Decimal.Nil.
Proof.
  pose proof (little_uint_value q) as Hv.
  pose proof (DecimalPos.Unsigned.to_of_lu (Pos.to_little_uint q)) as Hn.
  rewrite Hv in Hn. cbn [DecimalPos.Unsigned.to_lu] in Hn.
  unfold DecimalFacts.lnorm in Hn.
  destruct (DecimalFacts.nztail (Pos.to_little_uint q)) eqn:Ht;
    [exfalso; apply DecimalPos.Unsigned.of_lu_0 in Ht; rewrite Hv in Ht;
     discriminate|..];
    (split; [symmetry; exact Hn | rewrite Hn; discriminate]).
Qed.

(** The numeral of a positive integer, last digit first. *)
Lemma print_int_pos q :
  print_int (Z.pos q)
  = NilEmpty.string_of_uint (Decimal.rev (Pos.to_little_uint q)).
Proof.
  unfold print_int. cbn [Z.to_int NilZero.string_of_int].
  unfold NilZero.string_of_uint. fold (Pos.to_uint q).
  destruct (Pos.to_uint q) eqn:E; try reflexivity.
  exfalso. now apply (DecimalPos.Unsigned.to_uint_nonnil q).
Qed.

Lemma string_of_revapp d : forall acc,
  NilEmpty.string_of_uint (Decimal.revapp d acc)
  = (NilEmpty.string_of_uint (Decimal.rev d) ++ NilEmpty.string_of_uint acc)%string.
Proof.
  unfold Decimal.rev.
  induction d; intros acc; cbn [Decimal.revapp]; [reflexivity|..];
    rewrite IHd; rewrite (IHd (_ Decimal.Nil));
    rewrite string_app_assoc; reflexivity.
Qed.

(** One more digit at the end of the numeral. *)
Lemma print_int_snoc m c : 1 <= m -> 0 <= c <= 9 ->
  print_int (10 * m + c) = (print_int m ++ print_int c)%string.
Proof.
  intros Hm Hc. destruct m as [|q|q]; try lia.
  destruct (little_uint_normal q) as [Hnz Hnil].
  pose proof (little_uint_value q) as Hv.
  assert (Hstep : forall D k,
            (forall u, DecimalPos.Unsigned.of_lu (D u)
                       = (k + 10 * DecimalPos.Unsigned.of_lu u)%N) ->
            (forall u, u <> Decimal.Nil -> DecimalFacts.nztail u = u ->
                       DecimalFacts.nztail (D u) = D u) ->
            (forall u, D u <> Decimal.Nil) ->
            (forall u acc, Decimal.revapp (D u) acc = Decimal.revapp u (D acc)) ->
            NilEmpty.string_of_uint (D Decimal.Nil) = print_int (Z.of_N k) ->
            print_int (10 * Z.pos q + Z.of_N k)
            = (print_int (Z.pos q) ++ print_int (Z.of_N k))%string).
  { intros D k Hof Htail Hne Hrev Hstr.
    pose proof (DecimalPos.Unsigned.to_of_lu (D (Pos.to_little_uint q))) as Hn.
    rewrite Hof, Hv in Hn. unfold DecimalFacts.lnorm in Hn.
    rewrite (Htail _ Hnil Hnz) in Hn.
    assert (Hn' : DecimalPos.Unsigned.to_lu (k + 10 * N.pos q)
                  = D (Pos.to_little_uint q)).
    { rewrite Hn. destruct (D (Pos.to_little_uint q)) eqn:E; try reflexivity.
      exfalso. now apply (Hne (Pos.to_little_uint q)). }
    destruct (k + 10 * N.pos q)%N as [|x] eqn:Ex; [lia|].
    cbn [DecimalPos.Unsigned.to_lu] in Hn'.
    replace (10 * Z.pos q + Z.of_N k) with (Z.pos x) by lia.
    rewrite !print_int_pos, Hn'. unfold Decimal.rev at 1.
    rewrite Hrev, string_of_revapp, Hstr. reflexivity. }
  assert (Hcases : c = 0 \/ c = 1 \/ c = 2 \/ c = 3 \/ c = 4 \/ c = 5 \/
                   c = 6 \/ c = 7 \/ c = 8 \/ c = 9) by lia.
  destruct Hcases as [->|[->|[->|[->|[->|[->|[->|[->|[->| ->]]]]]]]]].
  - apply (Hstep Decimal.D0 0%N); try reflexivity; try discriminate.
    intros u Hu Ht. cbn [DecimalFacts.nztail]. rewrite Ht.
    destruct u; [contradiction|..]; reflexivity.
  - apply (Hstep Decimal.D1 1%N); try reflexivity; try discriminate.
    intros u _ Ht. cbn [DecimalFacts.nztail]. now rewrite Ht.
  - apply (Hstep Decimal.D2 2%N); try reflexivity; try discriminate.
    intros u _ Ht. cbn [DecimalFacts.nztail]. now rewrite Ht.
  - apply (Hstep Decimal.D3 3%N); try reflexivity; try discriminate.
    intros u _ Ht. cbn [DecimalFacts.nztail]. now rewrite Ht.
  - apply (Hstep Decimal.D4 4%N); try reflexivity; try discriminate.
    intros u _ Ht. cbn [DecimalFacts.nztail]. now rewrite Ht.
  - apply (Hstep Decimal.D5 5%N); try reflexivity; try discriminate.
    intros u _ Ht. cbn [DecimalFacts.nztail]. now rewrite Ht.
  - apply (Hstep Decimal.D6 6%N); try reflexivity; try discriminate.
    intros u _ Ht. cbn [DecimalFacts.nztail]. now rewrite Ht.
  - apply (Hstep Decimal.D7 7%N); try reflexivity; try discriminate.
    intros u _ Ht. cbn [DecimalFacts.nztail]. now rewrite Ht.
  - apply (Hstep Decimal.D8 8%N); try reflexivity; try discriminate.
    intros u _ Ht. cbn [DecimalFacts.nztail]. now rewrite Ht.
  - apply (Hstep Decimal.D9 9%N); try reflexivity; try discriminate.
    intros u _ Ht. cbn [DecimalFacts.nztail]. now rewrite Ht.
Qed.

Lemma print_int_digit c : 0 <= c <= 9 ->
  (EmptyString ++ print_int c)%string = print_int c.
Proof. intros _. reflexivity. Qed.

(** Printing cells after a numeral prints the longer numeral. *)
Lemma print_digits_val d : len d < 2 ^ 31 -> digit_cells d ->
  forall n lo v, 0 <= lo -> lo + Z.of_nat n <= len d -> 1 <= v ->
    for_iter n lo (fun i out => x <- rd d i ;; Ok (out ++ print_int x)%string)
      (print_int v)
    = Ok (print_int (v * 10 ^ Z.of_nat n + val d lo n)).
Proof.
  intros Hl Hd. induction n as [|n IH]; intros lo v Hlo Hhi Hv.
  - cbn [for_iter val]. change (10 ^ Z.of_nat 0) with 1.
    rewrite Z.mul_1_r, Z.add_0_r. reflexivity.
  - cbn [for_iter]. rewrite rd_ok by lia. cbn [bind].
    pose proof (digit_cells_get d lo Hd) as Hc.
    rewrite <- print_int_snoc by lia.
    rewrite IH by lia. rewrite val_msd.
    rewrite Nat2Z.inj_succ, Z.pow_succ_r by lia. do 2 f_equal. ring.
Qed.

Lemma print_zeros_val : forall n lo v, 1 <= v ->
  for_iter n lo (fun _ out => Ok (out ++ "0")%string) (print_int v)
  = Ok (print_int (v * 10 ^ Z.of_nat n)).
Proof.
  induction n as [|n IH]; intros lo v Hv.
  - cbn [for_iter]. change (10 ^ Z.of_nat 0) with 1. now rewrite Z.mul_1_r.
  - cbn [for_iter bind]. change "0"%string with (print_int 0).
    rewrite <- print_int_snoc by lia. rewrite IH by lia.
    rewrite Nat2Z.inj_succ, Z.pow_succ_r by lia. do 2 f_equal. ring.
Qed.

(** [bignum_print] of a bignum without fractional digits: the decimal
    numeral of its value, whatever the limit on the digits. *)
Lemma bignum_print_integer p b maxdigits :
  1 <= p < 2 ^ 31 -> wf p b -> 0 < sig_digs b <= power b + 1 ->
  power b < 2 ^ 62 ->
  bignum_print b maxdigits
  = Ok (print_int (val (digits b) 0 (Z.to_nat (sig_digs b))
                   * 10 ^ (power b + 1 - sig_digs b))).
Proof.
  intros Hp Hb Hsig Hpw.
  pose proof (wf_sig _ _ Hb) as Hs. pose proof (wf_len _ _ Hb) as Hl.
  pose proof (wf_cells _ _ Hb) as Hc. pose proof (wf_lead _ _ Hb ltac:(lia)) as Hlead.
  pose proof (digit_cells_get (digits b) 0 Hc) as Hc0.
  unfold bignum_print.
  destruct (Z.eqb_spec (sig_digs b) 0); [lia|].
  destruct (Z.ltb_spec (power b) 0); [lia|].
  rewrite (wrap_long_id (power b + 1)) by lia.
  destruct (Z.gtb_spec (sig_digs b) (power b + 1)); [lia|].
  (* the digits *)
  assert (Hdig : print_digits 0 (sig_digs b) (digits b) ""%string
                 = Ok (print_int (val (digits b) 0 (Z.to_nat (sig_digs b))))).
  { unfold print_digits, for_loop.
    replace (Z.to_nat (sig_digs b - 0))
      with (S (Z.to_nat (sig_digs b - 1))) by lia.
    cbn [for_iter]. rewrite rd_ok by lia. cbn [bind].
    rewrite print_int_digit by lia.
    rewrite (print_digits_val (digits b)) by (try assumption; lia).
    replace (Z.to_nat (sig_digs b)) with (S (Z.to_nat (sig_digs b - 1))) by lia.
    rewrite val_msd. reflexivity. }
  rewrite Hdig. cbn [bind].
  assert (Hv : 1 <= val (digits b) 0 (Z.to_nat (sig_digs b))).
  { pose proof (den_val_bounds p b Hb ltac:(lia)) as [Hlo _].
    assert (0 < 10 ^ (sig_digs b - 1)) by (apply Z.pow_pos_nonneg; lia). lia. }
  destruct (Z.gtb_spec (power b + 1) (sig_digs b)) as [Hgt|Hle].
  - destruct (Z.ltb_spec 0 (power b)); [|lia]. cbn [andb].
    unfold print_zeros, for_loop. rewrite print_zeros_val by assumption.
    rewrite Z2Nat.id by lia. rewrite Z.sub_0_r. reflexivity.
  - rewrite andb_false_r.
    replace (power b + 1 - sig_digs b) with 0 by lia.
    change (10 ^ 0) with 1. now rewrite Z.mul_1_r.
Qed.

(** Printing an ingested integer gives its numeral. *)
Lemma print_ingested p n maxdigits :
  1 <= p < 2 ^ 31 -> 0 <= n < 10 ^ p ->
  exists t,
    bignum_set_int true (mk_bignum 0 0 (zero_cells p) p) n = Ok (1, t) /\
    bignum_print t maxdigits = Ok (print_int n).
Proof.
  intros Hp Hn.
  destruct (ingest p n Hp ltac:(lia)) as (t & Ht & Hwf & _ & Hpw & Hneg & Hpos).
  exists t. split; [assumption|].
  destruct (Z.eq_dec n 0) as [->|Hn0].
  - rewrite (Hneg ltac:(lia)). reflexivity.
  - destruct (Hpos ltac:(lia)) as (Hsig & Hm & Hrange).
    pose proof (wf_sig _ _ Hwf) as Hs.
    pose proof (mantissa_sig p t Hwf) as Hms.
    set (v := val (digits t) 0 (Z.to_nat (sig_digs t))) in *.
    assert (Hp10 : forall x, 0 <= x -> 0 < 10 ^ x)
      by (intros; apply Z.pow_pos_nonneg; lia).
    rewrite (bignum_print_integer p) by (try assumption; lia).
    fold v. do 2 f_equal.
    assert (Heq : v * 10 ^ (p - sig_digs t) = n * 10 ^ (p - 1 - power t))
      by congruence.
    replace (p - sig_digs t)
      with ((power t + 1 - sig_digs t) + (p - 1 - power t)) in Heq by lia.
    rewrite Z.pow_add_r, Z.mul_assoc in Heq by lia.
    pose proof (Hp10 (p - 1 - power t) ltac:(lia)). nia.
Qed.

Lemma string_app_nil (s : string) : (s ++ "")%string = s.
Proof. induction s as [|c s IH]; simpl; [reflexivity | now rewrite IH]. Qed.

(** The digit loop of [bignum_print] appends the characters of the cells. *)
Lemma print_digits_cells d : len d < 2 ^ 31 ->
  forall n lo out, 0 <= lo -> lo + Z.of_nat n <= len d ->
    for_iter n lo (fun i out => x <- rd d i ;; Ok (out ++ print_int x)%string) out
    = Ok (out ++ cell_string d lo n)%string.
Proof.
  intros Hl. induction n as [|n IH]; intros lo out Hlo Hhi.
  - cbn [for_iter cell_string]. now rewrite string_app_nil.
  - cbn [for_iter cell_string]. rewrite rd_ok by lia. cbn [bind].
    rewrite IH by lia. now rewrite string_app_assoc.
Qed.

Lemma print_zeros_cells : forall n lo out,
  for_iter n lo (fun _ out => Ok (out ++ "0")%string) out
  = Ok (out ++ replicate n "0")%string.
Proof.
  induction n as [|n IH]; intros lo out.
  - cbn [for_iter replicate]. now rewrite string_app_nil.
  - cbn [for_iter replicate bind]. rewrite IH, string_app_assoc. reflexivity.
Qed.

(** Cells that start with a non-zero digit print as the numeral of their
    number. *)
Lemma cell_string_numeral d : len d < 2 ^ 31 -> digit_cells d ->
  forall n lo, 0 <= lo -> lo + Z.of_nat (S n) <= len d -> get d lo <> 0 ->
    cell_string d lo (S n) = print_int (val d lo (S n)).
Proof.
  intros Hl Hd n lo Hlo Hhi Hnz.
  pose proof (digit_cells_get d lo Hd) as Hc.
  pose proof (print_digits_cells d Hl n (lo + 1) (print_int (get d lo))
                ltac:(lia) ltac:(lia)) as Hcells.
  rewrite (print_digits_val d Hl Hd n (lo + 1) (get d lo)) in Hcells by lia.
  injection Hcells as Hcells. cbn [cell_string]. rewrite <- Hcells.
  rewrite val_msd. reflexivity.
Qed.

(** [bignum_print] on a well-formed bignum, in closed form: a number below
    one, a number with fractional digits, a whole number. *)
Lemma bignum_print_spec p b maxdigits :
  1 <= p < 2 ^ 31 -> wf p b -> - 2 ^ 62 < power b < 2 ^ 62 ->
  let limit := if (0 <? maxdigits) && (maxdigits <? sig_digs b)
               then maxdigits else sig_digs b in
  bignum_print b maxdigits
  = Ok (if sig_digs b =? 0 then "0"%string
        else if power b <? 0 then
          ("0." ++ replicate (Z.to_nat (- power b - 1)) "0"
                ++ print_int (val (digits b) 0 (Z.to_nat limit)))%string
        else if sig_digs b >? power b + 1 then
          (print_int (val (digits b) 0 (Z.to_nat (power b + 1)))
           ++ (if limit >? power b + 1
               then "." ++ cell_string (digits b) (power b + 1)
                             (Z.to_nat (limit - (power b + 1)))
               else ""))%string
        else
          print_int (val (digits b) 0 (Z.to_nat (sig_digs b))
                     * 10 ^ (power b + 1 - sig_digs b))).
Proof.
  intros Hp Hb Hpw limit.
  pose proof (wf_sig _ _ Hb) as Hs. pose proof (wf_len _ _ Hb) as Hl.
  pose proof (wf_cells _ _ Hb) as Hc.
  destruct (Z.eqb_spec (sig_digs b) 0) as [Hz|Hnz].
  { unfold bignum_print. rewrite Hz. reflexivity. }
  pose proof (wf_lead _ _ Hb ltac:(lia)) as Hlead.
  assert (Hlim : 1 <= limit <= sig_digs b).
  { subst limit. destruct (Z.ltb_spec 0 maxdigits), (Z.ltb_spec maxdigits (sig_digs b));
      cbn [andb]; lia. }
  assert (Hnum : forall n, 1 <= n <= p ->
            cell_string (digits b) 0 (Z.to_nat n)
            = print_int (val (digits b) 0 (Z.to_nat n))).
  { intros n Hn. replace (Z.to_nat n) with (S (Z.to_nat (n - 1))) by lia.
    apply cell_string_numeral; try assumption; lia. }
  destruct (Z.ltb_spec (power b) 0) as [Hneg|Hpos].
  - (* below one *)
    unfold bignum_print.
    destruct (Z.eqb_spec (sig_digs b) 0); [contradiction|].
    fold limit. destruct (Z.ltb_spec (power b) 0); [|lia].
    rewrite (wrap_long_id (-1 * power b)) by lia.
    unfold print_zeros, print_digits, for_loop.
    rewrite print_zeros_cells. cbn [bind].
    rewrite print_digits_cells by lia. rewrite Z.sub_0_r, Hnum by lia.
    destruct (Z.ltb_spec 0 (power b)); [lia|]. cbn [andb].
    replace (Z.to_nat (-1 * power b - 1)) with (Z.to_nat (- power b - 1)) by lia.
    rewrite string_app_assoc. reflexivity.
  - destruct (Z.gtb_spec (sig_digs b) (power b + 1)) as [Hfrac|Hwhole].
    + (* with fractional digits *)
      unfold bignum_print.
      destruct (Z.eqb_spec (sig_digs b) 0); [contradiction|].
      fold limit. destruct (Z.ltb_spec (power b) 0); [lia|].
      rewrite (wrap_long_id (power b + 1)) by lia.
      destruct (Z.gtb_spec (sig_digs b) (power b + 1)); [|lia].
      unfold print_digits, for_loop.
      rewrite print_digits_cells by lia. cbn [bind].
      rewrite Z.sub_0_r, Hnum by lia.
      rewrite print_digits_cells by lia. cbn [bind].
      destruct (Z.gtb_spec (power b + 1) (sig_digs b)); [lia|].
      rewrite andb_false_r.
      destruct (Z.gtb_spec limit (power b + 1)).
      * rewrite string_app_assoc. reflexivity.
      * replace (Z.to_nat (limit - (power b + 1))) with O by lia.
        cbn [cell_string]. reflexivity.
    + rewrite (bignum_print_integer p) by (try assumption; lia). reflexivity.
Qed.

(** ** The reference line at every digit budget *)

Lemma reference_line_ok_sound n : forall D,
  reference_line_ok n D = true ->
  forall E, D - Z.of_nat n < E <= D ->
    print_accepted_pi E = Ok (reference_line E).
Proof.
  induction n as [|n IH]; intros D Hok E HE; [lia|].
  cbn [reference_line_ok] in Hok. apply andb_true_iff in Hok.
  destruct Hok as [Hhere Hrest].
  destruct (Z.eq_dec E D) as [->|Hne].
  - destruct (print_accepted_pi D) as [s| |]; try discriminate.
    apply String.eqb_eq in Hhere. now subst.
  - apply (IH (D - 1)); [assumption | lia].
Qed.

Lemma print_accepted_pi_inside D : 1 <= D <= 103 ->
  print_accepted_pi D = Ok (reference_line D).
Proof.
  intros HD. apply (reference_line_ok_sound 103 103); [|lia].
  vm_compute. reflexivity.
Qed.

(** A budget above 103 makes the loop read after the end of the constant. *)
Lemma print_accepted_pi_outside D : 104 <= D < 2 ^ 31 ->
  print_accepted_pi D = Undef.
Proof.
  intros HD. unfold print_accepted_pi.
  pose proof (print_accepted_pi_inside 103 ltac:(lia)) as Hin.
  unfold print_accepted_pi in Hin. change (103 - 1) with 102 in Hin.
  apply (for_loop_undef _ 102 (D - 1) _ _ ltac:(lia) Hin).
  reflexivity.
Qed.

(** ** The worker *)

(** More iterations than the precision has room for: the first
    [bignum_set_int] of [calculate] overruns its scratch word. *)
Lemma calculate_overrun fuel N W D j g1 g2 :
  1 <= D < 2 ^ 31 -> 10 ^ D <= N ->
  calculate fuel (funct_args N W D j) g1 g2 = Undef.
Proof.
  intros HD HN. unfold calculate, funct_args.
  cbn [max_digits totaliterations lowlimit highlimit].
  rewrite (bignum_init_ok D) by lia. cbn [bind].
  rewrite (bignum_set_int_overrun D N) by (try reflexivity; lia).
  reflexivity.
Qed.

(** A worker with no iteration of its own leaves its two slots as they
    are. *)
Lemma calculate_idle fuel args g1 g2 :
  1 <= max_digits args <= max_precision ->
  1 <= totaliterations args < 10 ^ max_digits args ->
  lowlimit args = 0 -> highlimit args <= 0 -> (10 <= fuel)%nat ->
  sig_digs g1 = 0 -> sig_digs g2 = 0 ->
  calculate fuel args g1 g2 = Ok (g1, g2).
Proof.
  intros HD HN Hlo Hhi Hfuel Hg1 Hg2.
  set (D := max_digits args) in *. set (N := totaliterations args) in *.
  pose proof (max_precision_int D ltac:(lia)) as Hint.
  assert (HD' : 1 <= D < 2 ^ 31) by lia.
  assert (Hz : forall pw, wf D (mk_bignum pw 0 (zero_cells D) D))
    by (intros; apply wf_zero; lia).
  assert (H2 : 2 < 10 ^ D).
  { pose proof (Z.pow_le_mono_r 10 1 D ltac:(lia) ltac:(lia)). lia. }
  unfold calculate. fold D N. rewrite Hlo.
  rewrite (bignum_init_ok D) by lia. cbn [bind].
  (* 1 / N *)
  destruct (bignum_set_int_val D 0 N HD' ltac:(lia))
    as (t & Ht & Hwt & _ & Hst & _).
  rewrite Ht. cbn [bind].
  destruct (wrappers_agree D fuel (mk_bignum 0 0 (zero_cells D) D) t 1
              HD' (Hz 0) Hwt ltac:(lia)) as (one & Hone & _ & _ & Hid & _).
  destruct (ingest D 1 HD' ltac:(lia)) as (one' & Hone' & Hwone & _ & _ & _ & Hpone).
  rewrite Hone in Hone'. injection Hone' as <-.
  destruct (Hpone ltac:(lia)) as (Hsone & _).
  rewrite Hid.
  destruct (bignum_divide_spec D fuel (mk_bignum 0 0 (zero_cells D) D) one t
              HD (Hz 0) Hwone Hwt ltac:(lia) ltac:(lia) Hfuel)
    as (inv & Hinv & Hwinv & Hsinv).
  rewrite Hinv. cbn [bind].
  destruct (bignum_reset_wf D t ltac:(lia) Hwt) as (pw1 & Hrt).
  fold (zero_cells D) in Hrt. rewrite Hrt. cbn [bind].
  (* 1 / 2N *)
  destruct (wrappers_agree D fuel (mk_bignum pw1 0 (zero_cells D) D) inv 2
              HD' (Hz pw1) Hwinv ltac:(lia)) as (two & Htwo & _ & _ & _ & Hdi).
  destruct (ingest D 2 HD' ltac:(lia)) as (two' & Htwo' & Hwtwo & _ & _ & _ & Hptwo).
  rewrite Htwo in Htwo'. injection Htwo' as <-.
  destruct (Hptwo ltac:(lia)) as (Hstwo & _).
  rewrite Hdi by lia.
  destruct (bignum_divide_spec D fuel (mk_bignum pw1 0 (zero_cells D) D) inv two
              HD (Hz pw1) Hwinv Hwtwo ltac:(lia) ltac:(lia) Hfuel)
    as (half & Hhalf & Hwhalf & Hshalf).
  rewrite Hhalf. cbn [bind].
  (* inc = 0 * (1 / N) + 1 / 2N *)
  change (bignum_set_int true (mk_bignum 0 0 (zero_cells D) D) 0)
    with (Ok (1, mk_bignum 0 0 (zero_cells D) D)). cbn [bind].
  destruct (bignum_mult_refused D true (mk_bignum 0 0 (zero_cells D) D)
              (mk_bignum 0 0 (zero_cells D) D) inv ltac:(lia) (Hz 0) (Hz 0) Hwinv)
    as (pw2 & Hmz & _).
  rewrite (Hmz ltac:(left; reflexivity)). cbn [bind].
  rewrite !bignum_reset_idle. cbn [bind].
  change (bignum_set (mk_bignum 0 0 (zero_cells D) D)
            (mk_bignum pw2 0 (zero_cells D) D))
    with (Ok (mk_bignum 0 0 (zero_cells D) D)). cbn [bind].
  destruct (zero_is_neutral D (mk_bignum pw2 0 (zero_cells D) D) half
              (mk_bignum 0 0 (zero_cells D) D) HD' (Hz pw2) Hwhalf (Hz 0)
              eq_refl Hshalf) as (_ & Hadd & _).
  rewrite Hadd. cbn [bind]. rewrite !bignum_reset_idle. cbn [bind].
  destruct (bignum_set_val D D 0 half HD' HD' Hwhalf Hshalf)
    as (inc & Hinc & _).
  rewrite Hinc. cbn [bind].
  destruct (bignum_reset_wf D half ltac:(lia) Hwhalf) as (pw3 & Hrh).
  rewrite Hrh. cbn [bind].
  rewrite for_loop_none by lia. cbn [bind].
  unfold bignum_set. cbn [sig_digs]. change (0 <? 0) with false. cbv iota.
  unfold bignum_reset. rewrite Hg1, Hg2. reflexivity.
Qed.

(** The descriptor of a worker that gets no iteration: fewer iterations
    than threads and not the last thread. *)
Lemma funct_args_idle N W D j :
  0 <= N < W -> W < 2 ^ 63 -> 0 <= j -> j + 1 < W ->
  lowlimit (funct_args N W D j) = 0 /\ highlimit (funct_args N W D j) = 0 /\
  totaliterations (funct_args N W D j) = N /\
  max_digits (funct_args N W D j) = D.
Proof.
  intros HN HW Hj Hj'. unfold funct_args.
  cbn [lowlimit highlimit totaliterations max_digits].
  rewrite Z.quot_small by lia. rewrite !Z.mul_0_r.
  rewrite (wrap_long_id (j + 1)) by lia.
  destruct (Z.eqb_spec (j + 1) W); [lia|].
  repeat split; reflexivity.
Qed.

Lemma bind_eq {A B : Type} (m m' : result A) (k : A -> result B) r :
  m = m' -> bind m' k = r -> bind m k = r.
Proof. intros ->. exact id. Qed.

(** Runs the closed operation at the head of a sequence. *)
Ltac run_head :=
  lazymatch goal with
  | |- bind ?m ?k = _ =>
      let v := eval vm_compute in m in
      apply (bind_eq m v k); [vm_compute; reflexivity|];
      unfold bind at 1; cbv beta iota zeta
  end.

(** 20000 iterations at 25 digits from iteration 0 on: the third pass ends
    in a sum that carries at full precision, and the reset that follows
    writes past the buffer. *)
Lemma calculate_default_overrun j hi g1 g2 :
  3 <= hi -> calculate 10 (mk_limits j 0 hi 20000 25) g1 g2 = Undef.
Proof.
  intros Hhi. unfold calculate.
  cbn [max_digits totaliterations lowlimit highlimit].
  do 22 run_head.
  erewrite for_loop_undef with (m := 2);
    [reflexivity | lia | vm_compute; reflexivity | vm_compute; reflexivity].
Qed.

Lemma funct_args_first W D :
  1 <= W <= 6666 ->
  exists hi, 3 <= hi /\ funct_args 20000 W D 0 = mk_limits 0 0 hi 20000 D.
Proof.
  intros HW. unfold funct_args.
  assert (Hq : 3 <= Z.quot 20000 W <= 20000).
  { rewrite Z.quot_div_nonneg by lia. split.
    - apply Z.div_le_lower_bound; lia.
    - apply Z.div_le_upper_bound; lia. }
  change (wrap_long (0 * Z.quot 20000 W)) with 0.
  change (wrap_long (0 + 1)) with 1. rewrite Z.mul_1_l.
  rewrite (wrap_long_id (Z.quot 20000 W)) by lia.
  destruct (Z.eqb_spec 1 W); eexists; (split; [|reflexivity]); lia.
Qed.

(** ** A bignum with more digits than cells *)

Lemma rd_outside l i : len l <= i < 2 ^ 31 -> rd l i = Undef.
Proof.
  unfold rd, in_buf, len. intros H. pose proof (Zle_0_nat (length l)).
  rewrite wrap_int_id by lia. break_cmp; try lia. reflexivity.
Qed.

(** A loop that reads cell after cell leaves the buffer at its end. *)
Lemma print_digits_overrun d hi : len d < hi -> len d < 2 ^ 31 ->
  forall n lo out, 0 <= lo -> Z.of_nat n = len d - lo ->
    print_digits lo hi d out = Undef.
Proof.
  intros Hhi Hl. unfold print_digits, for_loop.
  induction n as [|n IH]; intros lo out Hlo Hn.
  - replace (Z.to_nat (hi - lo)) with (S (Z.to_nat (hi - lo - 1))) by lia.
    cbn [for_iter]. rewrite rd_outside by lia. reflexivity.
  - replace (Z.to_nat (hi - lo)) with (S (Z.to_nat (hi - (lo + 1)))) by lia.
    cbn [for_iter]. rewrite rd_ok by lia. cbn [bind]. apply IH; lia.
Qed.

Lemma print_digits_inside d lo hi out :
  0 <= lo <= hi -> hi <= len d -> len d < 2 ^ 31 ->
  exists out', print_digits lo hi d out = Ok out'.
Proof.
  intros Hlo Hhi Hl. unfold print_digits, for_loop.
  rewrite print_digits_cells by lia. eauto.
Qed.

Lemma bignum_print_overfull p b :
  1 <= p < 2 ^ 31 - 1 -> overfull p b -> power_ok b ->
  bignum_print b 0 = Undef.
Proof.
  intros Hp (Hprec & Hlen & Hsig & Hcells) Hpw. unfold power_ok in Hpw.
  unfold bignum_print. rewrite Hsig.
  destruct (Z.eqb_spec (p + 1) 0); [lia|].
  change (0 <? 0) with false. cbn [andb]. cbv zeta.
  rewrite (wrap_long_id (power b + 1)) by lia.
  destruct (Z.ltb_spec (power b) 0) as [Hneg|Hpos].
  - rewrite wrap_long_id by lia. unfold print_zeros, for_loop.
    rewrite print_zeros_cells. cbn [bind].
    rewrite (print_digits_overrun (digits b) (p + 1) ltac:(lia) ltac:(lia)
               (Z.to_nat p) 0) by lia.
    reflexivity.
  - destruct (Z.gtb_spec (p + 1) (power b + 1)) as [Hfrac|Hwhole].
    + destruct (print_digits_inside (digits b) 0 (power b + 1) ""%string)
        as (out' & Hout); [lia | lia | lia |].
      rewrite Hout. cbn [bind].
      rewrite (print_digits_overrun (digits b) (p + 1) ltac:(lia) ltac:(lia)
                 (Z.to_nat (p - (power b + 1))) (power b + 1)) by lia.
      reflexivity.
    + rewrite (print_digits_overrun (digits b) (p + 1) ltac:(lia) ltac:(lia)
                 (Z.to_nat p) 0) by lia.
      reflexivity.
Qed.

Lemma bignum_divide_overfull p fuel r num den :
  1 <= p <= max_precision -> wf p r -> overfull p num -> 0 < sig_digs den ->
  bignum_divide fuel true r num den = Undef.
Proof.
  intros Hp Hr (Hprec & Hlen & Hsig & Hcells) Hden.
  pose proof (max_precision_int p ltac:(lia)) as Hint.
  destruct (bignum_reset_wf p r ltac:(lia) Hr) as (pw & Hreset).
  unfold bignum_divide. rewrite Hreset. cbn [bind precision].
  destruct (Z.eqb_spec (sig_digs den) 0); [lia|].
  destruct (Z.eqb_spec (sig_digs num) 0); [lia|].
  rewrite (wrap_ulong_id (2 * p + 2)) by lia. rewrite calloc_ok by lia.
  destruct (for_loop_rule (fun (_ : Z) tw => len tw = 2 * p + 2) 0 p
              (fun i tw => v <- rd (digits num) i ;; wr tw (i + 1) v)
              (repeat 0 (Z.to_nat (2 * p + 2)))) as (tw & Htw & Hl);
    [lia | rewrite len_repeat; lia | |].
  { intros i s Hi Hs. rewrite rd_ok by lia. cbn [bind].
    pose proof (digit_cells_get _ i Hcells).
    rewrite wr_ok by lia. eexists. split; [reflexivity|].
    rewrite len_put. exact Hs. }
  rewrite Hsig.
  rewrite (for_loop_undef _ p (p + 1) _ tw); [reflexivity | lia | exact Htw |].
  rewrite rd_outside by lia. reflexivity.
Qed.

Lemma bignum_set_overfull p dst b :
  1 <= p < 2 ^ 31 -> overfull p b -> wf p dst ->
  exists r,
    bignum_set dst b = Ok r /\ sig_digs r = p /\ power r = power b /\
    precision r = p /\ len (digits r) = p /\
    forall j, 0 <= j < p -> get (digits r) j = get (digits b) j.
Proof.
  intros Hp (Hprec & Hlen & Hsig & Hcells) Hdst.
  pose proof (wf_prec _ _ Hdst) as Hpd. pose proof (wf_len _ _ Hdst) as Hld.
  unfold bignum_set. rewrite Hsig, Hpd.
  destruct (Z.ltb_spec 0 (p + 1)); [|lia].
  destruct (Z.gtb_spec (p + 1) p); [|lia].
  destruct (copy_loop (digits b) (digits dst) p) as (d' & Hd & Hl & Hget);
    try lia.
  { intros j Hj. pose proof (digit_cells_get _ j Hcells). lia. }
  rewrite Hd. cbn [bind]. eexists. split; [reflexivity|].
  cbn [sig_digs power precision digits].
  repeat split; try lia.
  intros j Hj. rewrite Hget by lia. destruct (Z.ltb_spec j p); [reflexivity | lia].
Qed.

(** * Further properties of the code *)

(** ** Reset, copy and ingestion *)

(** X1: [bignum_reset] clears the first [sig_digs] cells and nothing else,
    and a second reset changes nothing; a bignum that is already zero keeps
    its power.  When [sig_digs] exceeds the length of the buffer the
    clearing loop writes past its end. *)
Theorem X1_reset_bounds b :
  0 <= sig_digs b < 2 ^ 31 -> len (digits b) < 2 ^ 31 ->
  (len (digits b) < sig_digs b -> bignum_reset b = Undef) /\
  (sig_digs b <= len (digits b) ->
   exists b',
     bignum_reset b = Ok b' /\ bignum_reset b' = Ok b' /\
     sig_digs b' = 0 /\ precision b' = precision b /\
     power b' = (if 0 <? sig_digs b then 0 else power b) /\
     len (digits b') = len (digits b) /\
     forall j, 0 <= j ->
       get (digits b') j = if j <? sig_digs b then 0 else get (digits b) j).
Proof.
  intros Hs Hl. split.
  - intros Hover. apply bignum_reset_overrun. lia.
  - intros Hfit. unfold bignum_reset.
    destruct (Z.ltb_spec 0 (sig_digs b)) as [Hpos|Hz].
    + destruct (zero_loop (digits b) (sig_digs b) ltac:(lia) Hl)
        as (d' & Hd & Hlen & Hget).
      rewrite Hd. cbn [bind].
      exists (mk_bignum 0 0 d' (precision b)).
      cbn [sig_digs precision power digits].
      repeat split; try reflexivity; assumption.
    + exists b. destruct (Z.ltb_spec 0 (sig_digs b)); [lia|].
      repeat split; try reflexivity; try lia.
      intros j Hj. destruct (Z.ltb_spec j (sig_digs b)); [lia | reflexivity].
Qed.

Lemma X1_reset_bounds_witness :
  bignum_reset (mk_bignum 3 4 [1; 0; 0] 3) = Undef /\
  exists b', bignum_reset (mk_bignum 2 2 [1; 2; 0] 3) = Ok b' /\ sig_digs b' = 0.
Proof.
  split.
  - apply (X1_reset_bounds (mk_bignum 3 4 [1; 0; 0] 3)); unfold len; cbn; lia.
  - destruct (X1_reset_bounds (mk_bignum 2 2 [1; 2; 0] 3)) as [_ H];
      [unfold len; cbn; lia | unfold len; cbn; lia |].
    destruct H as (b' & Hb & _ & Hs & _); [unfold len; cbn; lia|].
    exists b'. split; [exact Hb | exact Hs].
Defined.

(** X2: [bignum_set] into a reset bignum of another precision keeps the
    power and the leading digits: a shorter destination truncates the
    source (it does not round), a longer one holds the same number.  A zero
    source leaves the destination as it is. *)
Theorem X2_set_truncates p q dst src :
  1 <= p < 2 ^ 31 -> 1 <= q < 2 ^ 31 ->
  wf p src -> wf q dst -> sig_digs dst = 0 ->
  exists r,
    bignum_set dst src = Ok r /\ wf q r /\
    (sig_digs src = 0 -> r = dst) /\
    (0 < sig_digs src ->
     power r = power src /\ sig_digs r = Z.min (sig_digs src) q /\
     mantissa r = if q <? p then mantissa src / 10 ^ (p - q)
                  else mantissa src * 10 ^ (q - p)).
Proof.
  intros Hp Hq Hsrc Hdst Hz.
  pose proof (wf_sig _ _ Hsrc) as Hs.
  destruct (Z.eq_dec (sig_digs src) 0) as [Hz'|Hnz].
  - exists dst. unfold bignum_set. rewrite Hz'. change (0 <? 0) with false.
    unfold bignum_reset. rewrite Hz. change (0 <? 0) with false.
    split; [reflexivity|]. split; [assumption|]. split; [reflexivity | lia].
  - rewrite (wf_reset_form q dst Hdst Hz).
    destruct (bignum_set_val p q (power dst) src Hp Hq Hsrc ltac:(lia))
      as (r & Hr & Hwf & Hpw & Hsd & Hm).
    exists r. split; [exact Hr|]. split; [exact Hwf|]. split; [lia|]. auto.
Qed.

Lemma X2_set_truncates_witness :
  exists r,
    bignum_set (mk_bignum 0 0 [0; 0] 2) (mk_bignum 1 4 [1; 9; 9; 9] 4) = Ok r /\
    mantissa r = 19.
Proof.
  destruct (X2_set_truncates 4 2 (mk_bignum 0 0 [0; 0] 2)
              (mk_bignum 1 4 [1; 9; 9; 9] 4))
    as (r & Hr & _ & _ & H); [lia | lia | wf_by_check | wf_by_check | reflexivity |].
  exists r. split; [exact Hr|].
  destruct H as (_ & _ & Hm); [cbn; lia|]. exact Hm.
Defined.

(** X3: [bignum_set_int] into a reset bignum stores exactly the integer: the
    digits scaled by the power are [n], with no trailing zero kept.  A
    negative integer is stored as zero. *)
Theorem X3_set_int_value p dst n :
  1 <= p < 2 ^ 31 -> wf p dst -> sig_digs dst = 0 -> n < 10 ^ p ->
  exists t,
    bignum_set_int true dst n = Ok (1, t) /\ wf p t /\ normal t /\
    (n <= 0 -> t = dst) /\
    (0 < n ->
     0 <= power t < p /\ 0 < sig_digs t <= power t + 1 /\
     10 ^ power t <= n < 10 ^ (power t + 1) /\
     mantissa t = n * 10 ^ (p - 1 - power t)).
Proof.
  intros Hp Hdst Hz Hn.
  destruct (Z_lt_le_dec 0 n) as [Hpos|Hneg].
  - rewrite (wf_reset_form p dst Hdst Hz).
    destruct (bignum_set_int_val p (power dst) n Hp ltac:(lia))
      as (t & Ht & Hwf & Hnorm & Hsd & Hpw & Hrange & Hm).
    exists t. split; [exact Ht|]. split; [exact Hwf|]. split; [exact Hnorm|].
    split; [lia|]. auto.
  - exists dst. unfold bignum_set_int.
    destruct (Z.ltb_spec 0 n); [lia|].
    unfold bignum_reset. rewrite Hz. change (0 <? 0) with false. cbn [bind].
    split; [reflexivity|]. split; [exact Hdst|]. split.
    + unfold normal. lia.
    + split; [reflexivity | lia].
Qed.

Lemma X3_set_int_value_witness :
  exists t,
    bignum_set_int true (mk_bignum 0 0 [0; 0; 0; 0] 4) 120 = Ok (1, t) /\
    mantissa t = 120 * 10 ^ (4 - 1 - power t).
Proof.
  destruct (X3_set_int_value 4 (mk_bignum 0 0 [0; 0; 0; 0] 4) 120)
    as (t & Ht & _ & _ & _ & H); [lia | wf_by_check | reflexivity | lia |].
  exists t. split; [exact Ht|].
  destruct H as (_ & _ & _ & Hm); [lia|]. exact Hm.
Defined.

(** ** Printing *)

(** X4: what [bignum_print] writes for a well-formed bignum.  Zero is [0].
    A number below one is [0.], then [-power - 1] zeros, then the digits.
    A number with a fractional part is its integral part, a point and the
    remaining digits.  A whole number is its decimal numeral, and is not
    cut by the limit.  The limit counts stored digits, not decimals. *)
Theorem X4_print_closed_form p b maxdigits :
  1 <= p < 2 ^ 31 -> wf p b -> - 2 ^ 62 < power b < 2 ^ 62 ->
  let limit := if (0 <? maxdigits) && (maxdigits <? sig_digs b)
               then maxdigits else sig_digs b in
  bignum_print b maxdigits
  = Ok (if sig_digs b =? 0 then "0"%string
        else if power b <? 0 then
          ("0." ++ replicate (Z.to_nat (- power b - 1)) "0"
                ++ print_int (val (digits b) 0 (Z.to_nat limit)))%string
        else if sig_digs b >? power b + 1 then
          (print_int (val (digits b) 0 (Z.to_nat (power b + 1)))
           ++ (if limit >? power b + 1
               then "." ++ cell_string (digits b) (power b + 1)
                             (Z.to_nat (limit - (power b + 1)))
               else ""))%string
        else
          print_int (val (digits b) 0 (Z.to_nat (sig_digs b))
                     * 10 ^ (power b + 1 - sig_digs b))).
Proof. exact (bignum_print_spec p b maxdigits). Qed.

Lemma X4_print_closed_form_witness :
  bignum_print (mk_bignum 0 4 [3; 1; 4; 1] 4) 3 = Ok "3.14"%string.
Proof.
  refine (eq_trans
    (X4_print_closed_form 4 (mk_bignum 0 4 [3; 1; 4; 1] 4) 3 _ _ _) _);
    [lia | wf_by_check | cbn; lia | reflexivity].
Defined.

(** X5: an integer stored by [bignum_set_int] is printed by [bignum_print]
    as its decimal numeral, whatever the digit limit. *)
Theorem X5_print_of_set_int p n maxdigits :
  1 <= p < 2 ^ 31 -> 0 <= n < 10 ^ p ->
  exists t,
    bignum_set_int true (mk_bignum 0 0 (zero_cells p) p) n = Ok (1, t) /\
    bignum_print t maxdigits = Ok (print_int n).
Proof. exact (print_ingested p n maxdigits). Qed.

Lemma X5_print_of_set_int_witness :
  exists t,
    bignum_set_int true (mk_bignum 0 0 (zero_cells 5) 5) 1200 = Ok (1, t) /\
    bignum_print t 2 = Ok (print_int 1200).
Proof. apply (X5_print_of_set_int 5 1200 2); lia. Defined.

(** ** Addition *)

(** X6: the value of a sum.  With the operand of the larger power first and
    the powers at most [p] apart, the result holds the first [p] digits of
    [mantissa a + transferred]: the digits of the smaller operand shifted
    right by the difference of the powers, truncated.  When the smaller
    operand does not fit after the shift, it is cut at cell [p - diff], not
    at cell [p]: as many more of its digits are dropped.  A carry out of the
    first cell raises the power by one; when the digit that it pushes out is
    not zero, [sig_digs] becomes [p + 1].  The operand order does not
    matter. *)
Theorem X6_add_value p r a b :
  1 <= p < 2 ^ 31 -> wf p r -> wf p a -> wf p b ->
  0 < sig_digs a -> 0 < sig_digs b ->
  0 <= power a - power b <= p -> - 2 ^ 63 <= power a < 2 ^ 63 - 1 ->
  let sm := mantissa a + transferred p (power a - power b) b in
  let c := if 10 ^ p <=? sm then 1 else 0 in
  exists r',
    bignum_add r a b = Ok (1, r') /\ bignum_add r b a = Ok (1, r') /\
    precision r' = p /\ len (digits r') = p /\ digit_cells (digits r') /\
    zero_tail r' /\ get (digits r') 0 <> 0 /\
    power r' = power a + c /\ mantissa r' = sm / 10 ^ c /\
    1 <= sig_digs r' <= p + 1 /\
    (sig_digs r' = p + 1 <-> 10 ^ p <= sm /\ sm mod 10 <> 0) /\
    (sig_digs r' <= p -> normal r').
Proof. exact (bignum_add_val p r a b). Qed.

(** [1000 + 9.999] at precision 4 is [1000]: the smaller operand is cut
    after [4 - 3 = 1] cell and shifted by three. *)
Lemma X6_add_value_witness :
  exists r',
    bignum_add (mk_bignum 0 0 [0; 0; 0; 0] 4)
      (mk_bignum 3 1 [1; 0; 0; 0] 4) (mk_bignum 0 4 [9; 9; 9; 9] 4)
    = Ok (1, r') /\ power r' = 3 /\ mantissa r' = 1000.
Proof.
  destruct (X6_add_value 4 (mk_bignum 0 0 [0; 0; 0; 0] 4)
              (mk_bignum 3 1 [1; 0; 0; 0] 4) (mk_bignum 0 4 [9; 9; 9; 9] 4))
    as (r' & Hr & _ & _ & _ & _ & _ & _ & Hpw & Hm & _);
    [lia | wf_by_check | wf_by_check | wf_by_check | cbn; lia | cbn; lia
    | cbn; lia | cbn; lia |].
  exists r'. split; [exact Hr|]. split; [exact Hpw | exact Hm].
Defined.

(** X7: an addition that carries at full precision with a non-zero last
    digit leaves a sum with [p + 1] significant digits in [p] cells, and the
    [bignum_reset] that every caller applies to it next writes past the end
    of its buffer. *)
Theorem X7_add_carry_breaks_reset p r a b :
  1 <= p < 2 ^ 31 - 1 -> wf p r -> wf p a -> wf p b ->
  0 < sig_digs a -> 0 < sig_digs b ->
  0 <= power a - power b <= p -> - 2 ^ 63 <= power a < 2 ^ 63 - 1 ->
  let sm := mantissa a + transferred p (power a - power b) b in
  10 ^ p <= sm -> sm mod 10 <> 0 ->
  exists r',
    bignum_add r a b = Ok (1, r') /\ bignum_add r b a = Ok (1, r') /\
    overfull p r' /\ power r' = power a + 1 /\
    bignum_reset r' = Undef.
Proof.
  intros Hp Hr Ha Hb Hsa Hsb Hd Hpa sm Hcarry Hlast.
  destruct (bignum_add_val p r a b ltac:(lia) Hr Ha Hb Hsa Hsb Hd Hpa)
    as (r' & H1 & H2 & Hprec & Hlen & Hcells & _ & _ & Hpw & _ & _ & Hiff & _).
  fold sm in Hpw, Hiff.
  destruct (Z.leb_spec (10 ^ p) sm) as [_|]; [|lia].
  assert (Hs : sig_digs r' = p + 1) by (apply Hiff; split; assumption).
  exists r'. split; [exact H1|]. split; [exact H2|].
  split; [repeat split; assumption|]. split; [exact Hpw|].
  apply bignum_reset_overrun. lia.
Qed.

Lemma X7_add_carry_breaks_reset_witness :
  exists r',
    bignum_add (mk_bignum 0 0 [0; 0; 0] 3)
      (mk_bignum 2 3 [9; 9; 9] 3) (mk_bignum 0 1 [2; 0; 0] 3) = Ok (1, r') /\
    bignum_reset r' = Undef.
Proof.
  destruct (X7_add_carry_breaks_reset 3 (mk_bignum 0 0 [0; 0; 0] 3)
              (mk_bignum 2 3 [9; 9; 9] 3) (mk_bignum 0 1 [2; 0; 0] 3))
    as (r' & Hr & _ & _ & _ & Hu);
    [lia | wf_by_check | wf_by_check | wf_by_check | cbn; lia | cbn; lia
    | cbn; lia | cbn; lia | vm_compute; discriminate
    | vm_compute; discriminate |].
  exists r'. split; [exact Hr | exact Hu].
Defined.

(** X8: a bignum with [precision + 1] significant digits, as an addition
    that carries at full precision leaves it, cannot be reset, printed or
    divided: each of these reads or writes the cell after its buffer.
    [bignum_set] from it is defined and keeps the first [precision]
    digits. *)
Theorem X8_overfull_operand p b :
  1 <= p <= max_precision -> overfull p b -> power_ok b ->
  bignum_reset b = Undef /\
  bignum_print b 0 = Undef /\
  (forall fuel r den, wf p r -> 0 < sig_digs den ->
     bignum_divide fuel true r b den = Undef) /\
  (forall dst, wf p dst ->
     exists r,
       bignum_set dst b = Ok r /\ sig_digs r = p /\ power r = power b /\
       precision r = p /\ len (digits r) = p /\
       forall j, 0 <= j < p -> get (digits r) j = get (digits b) j).
Proof.
  intros Hp Hb Hpw.
  pose proof (max_precision_int p ltac:(lia)) as Hint.
  split; [|split; [|split]].
  - destruct Hb as (_ & Hlen & Hsig & _). apply bignum_reset_overrun. lia.
  - apply (bignum_print_overfull p); [lia | assumption | assumption].
  - intros fuel r den Hr Hden. now apply (bignum_divide_overfull p).
  - intros dst Hdst. apply bignum_set_overfull; [lia | assumption | assumption].
Qed.

(** The sum [999 + 2] at precision 3. *)
Lemma X8_overfull_operand_witness :
  bignum_print (mk_bignum 3 4 [1; 0; 0] 3) 0 = Undef.
Proof.
  destruct (X8_overfull_operand 3 (mk_bignum 3 4 [1; 0; 0] 3))
    as (_ & H & _);
    [ unfold max_precision; lia
    | unfold overfull; cbn [precision digits sig_digs];
      repeat split; repeat constructor; lia
    | unfold power_ok; cbn; lia
    | exact H ].
Defined.

(** X9: zero is neutral for addition, on either side and through
    [bignum_add_int]: the sum is the other operand, cell by cell. *)
Theorem X9_add_zero p r x z :
  1 <= p < 2 ^ 31 -> wf p r -> wf p x -> wf p z -> sig_digs z = 0 ->
  0 < sig_digs x ->
  bignum_add r x z = Ok (1, x) /\ bignum_add r z x = Ok (1, x) /\
  bignum_add_int true true r x 0 = Ok (1, x).
Proof. exact (zero_is_neutral p r x z). Qed.

Lemma X9_add_zero_witness :
  bignum_add (mk_bignum 0 0 [0; 0; 0] 3)
    (mk_bignum 1 2 [1; 2; 0] 3) (mk_bignum 7 0 [0; 0; 0] 3)
  = Ok (1, mk_bignum 1 2 [1; 2; 0] 3).
Proof.
  apply (X9_add_zero 3 (mk_bignum 0 0 [0; 0; 0] 3)
           (mk_bignum 1 2 [1; 2; 0] 3) (mk_bignum 7 0 [0; 0; 0] 3));
    [lia | wf_by_check | wf_by_check | wf_by_check | reflexivity | cbn; lia].
Defined.

(** ** Multiplication *)

(** X10: the value of a product of non-zero bignums: the first [p] digits of
    the exact product of the two digit strings, truncated, with the power
    raised by one when the product has [2p] digits.  An exact product keeps
    no trailing zero; an inexact one fills all [p] cells. *)
Theorem X10_mult_value p r a b :
  1 <= p <= max_precision -> wf p r -> wf p a -> wf p b ->
  0 < sig_digs a -> 0 < sig_digs b -> power_ok a -> power_ok b ->
  let P := mantissa a * mantissa b in
  let c := if 10 ^ (2 * p - 1) <=? P then 1 else 0 in
  exists r',
    bignum_mult true r a b = Ok (1, r') /\ wf p r' /\ 0 < sig_digs r' /\
    power r' = power a + power b + c /\
    mantissa r' = P / 10 ^ (p - 1 + c) /\
    (P mod 10 ^ (p - 1 + c) = 0 -> normal r') /\
    (P mod 10 ^ (p - 1 + c) <> 0 -> sig_digs r' = p).
Proof. exact (bignum_mult_val p r a b). Qed.

(** [9.99 * 9.99 = 99.8001] is stored as [99.8]. *)
Lemma X10_mult_value_witness :
  exists r',
    bignum_mult true (mk_bignum 0 0 [0; 0; 0] 3)
      (mk_bignum 0 3 [9; 9; 9] 3) (mk_bignum 0 3 [9; 9; 9] 3) = Ok (1, r') /\
    power r' = 1 /\ mantissa r' = 998.
Proof.
  destruct (X10_mult_value 3 (mk_bignum 0 0 [0; 0; 0] 3)
              (mk_bignum 0 3 [9; 9; 9] 3) (mk_bignum 0 3 [9; 9; 9] 3))
    as (r' & Hr & _ & _ & Hpw & Hm & _);
    [unfold max_precision; lia | wf_by_check | wf_by_check | wf_by_check
    | cbn; lia | cbn; lia | unfold power_ok; cbn; lia
    | unfold power_ok; cbn; lia |].
  exists r'. split; [exact Hr|]. split; [exact Hpw | exact Hm].
Defined.

(** X11: [bignum_mult] gives the same bignum and the same return code for
    either order of its operands, whether or not its scratch word can be
    allocated. *)
Theorem X11_mult_commutes p ok r a b :
  1 <= p <= max_precision -> wf p r -> wf p a -> wf p b ->
  power_ok a -> power_ok b ->
  bignum_mult ok r a b = bignum_mult ok r b a.
Proof. exact (mult_commutes p ok r a b). Qed.

Lemma X11_mult_commutes_witness :
  bignum_mult true (mk_bignum 0 0 [0; 0; 0] 3)
    (mk_bignum 0 2 [1; 2; 0] 3) (mk_bignum 1 3 [9; 9; 9] 3)
  = bignum_mult true (mk_bignum 0 0 [0; 0; 0] 3)
    (mk_bignum 1 3 [9; 9; 9] 3) (mk_bignum 0 2 [1; 2; 0] 3).
Proof.
  apply (X11_mult_commutes 3 true);
    [unfold max_precision; lia | wf_by_check | wf_by_check | wf_by_check
    | unfold power_ok; cbn; lia | unfold power_ok; cbn; lia].
Defined.

(** X12: [bignum_mult] on well-formed operands always returns, with a
    well-formed result.  It reports failure exactly when both operands are
    non-zero and the scratch word is refused, and the result is zero exactly
    then or when an operand is zero. *)
Theorem X12_mult_return_code p ok r a b :
  1 <= p <= max_precision -> wf p r -> wf p a -> wf p b ->
  exists rc r',
    bignum_mult ok r a b = Ok (rc, r') /\ wf p r' /\
    (rc = 0 \/ rc = 1) /\
    (rc = 0 <-> ok = false /\ 0 < sig_digs a /\ 0 < sig_digs b) /\
    (sig_digs r' = 0 <-> ok = false \/ sig_digs a = 0 \/ sig_digs b = 0).
Proof.
  intros Hp Hr Ha Hb.
  pose proof (max_precision_int p ltac:(lia)) as Hint.
  pose proof (wf_sig _ _ Ha) as Hsa. pose proof (wf_sig _ _ Hb) as Hsb.
  destruct (bignum_mult_refused p ok r a b ltac:(lia) Hr Ha Hb)
    as (pw & Hzero & Hrefused).
  assert (Hwz : wf p (mk_bignum pw 0 (zero_cells p) p)).
  { apply wf_zero. lia. }
  destruct (Z.eq_dec (sig_digs a) 0) as [Hza|Hnza];
    [|destruct (Z.eq_dec (sig_digs b) 0) as [Hzb|Hnzb]].
  - exists 1, (mk_bignum pw 0 (zero_cells p) p).
    split; [apply Hzero; auto|]. split; [exact Hwz|].
    cbn [sig_digs]. split; [auto|]. split; split; try lia; auto.
  - exists 1, (mk_bignum pw 0 (zero_cells p) p).
    split; [apply Hzero; auto|]. split; [exact Hwz|].
    cbn [sig_digs]. split; [auto|]. split; split; try lia; auto.
  - destruct ok.
    + destruct (bignum_mult_spec p r a b Hp Hr Ha Hb ltac:(lia) ltac:(lia))
        as (r' & Hr' & Hwf & Hpos).
      exists 1, r'. split; [exact Hr'|]. split; [exact Hwf|].
      split; [auto|]. split; split; lia.
    + exists 0, (mk_bignum pw 0 (zero_cells p) p).
      split; [apply Hrefused; lia|]. split; [exact Hwz|].
      cbn [sig_digs]. split; [auto|]. split; split; try lia; auto.
Qed.

Lemma X12_mult_return_code_witness :
  exists rc r',
    bignum_mult false (mk_bignum 0 0 [0; 0; 0] 3)
      (mk_bignum 0 2 [1; 2; 0] 3) (mk_bignum 1 3 [9; 9; 9] 3) = Ok (rc, r') /\
    wf 3 r'.
Proof.
  destruct (X12_mult_return_code 3 false (mk_bignum 0 0 [0; 0; 0] 3)
              (mk_bignum 0 2 [1; 2; 0] 3) (mk_bignum 1 3 [9; 9; 9] 3))
    as (rc & r' & Hr & Hwf & _);
    [unfold max_precision; lia | wf_by_check | wf_by_check | wf_by_check |].
  exists rc, r'. split; [exact Hr | exact Hwf].
Defined.

(** ** Division *)

(** X13: the value of a quotient of non-zero bignums: the first [p] digits
    of the exact quotient of the two digit strings, truncated, with no
    trailing zero kept.  The power is the difference of the powers, one less
    when the digits of the divisor exceed those of the dividend. *)
Theorem X13_divide_value p fuel r num den :
  1 <= p <= max_precision -> wf p r -> wf p num -> wf p den ->
  0 < sig_digs num -> 0 < sig_digs den -> power_ok num -> power_ok den ->
  (10 <= fuel)%nat ->
  let s := if mantissa den >? mantissa num then 1 else 0 in
  exists r',
    bignum_divide fuel true r num den = Ok (1, r') /\
    wf p r' /\ normal r' /\ 0 < sig_digs r' /\
    power r' = power num - power den - s /\
    mantissa r' = mantissa num * 10 ^ (p - 1 + s) / mantissa den.
Proof. exact (bignum_divide_val p fuel r num den). Qed.

(** [2 / 3] at precision 3 is [0.666]. *)
Lemma X13_divide_value_witness :
  exists r',
    bignum_divide 10 true (mk_bignum 0 0 [0; 0; 0] 3)
      (mk_bignum 0 1 [2; 0; 0] 3) (mk_bignum 0 1 [3; 0; 0] 3) = Ok (1, r') /\
    power r' = -1 /\ mantissa r' = 666.
Proof.
  destruct (X13_divide_value 3 10 (mk_bignum 0 0 [0; 0; 0] 3)
              (mk_bignum 0 1 [2; 0; 0] 3) (mk_bignum 0 1 [3; 0; 0] 3))
    as (r' & Hr & _ & _ & _ & Hpw & Hm);
    [unfold max_precision; lia | wf_by_check | wf_by_check | wf_by_check
    | cbn; lia | cbn; lia | unfold power_ok; cbn; lia
    | unfold power_ok; cbn; lia | lia |].
  exists r'. split; [exact Hr|]. split; [exact Hpw | exact Hm].
Defined.

(** X14: one is neutral: multiplying or dividing a non-zero bignum without
    trailing zero by the integer 1 gives the same bignum back, and dividing
    it by itself gives the bignum 1. *)
Theorem X14_one_is_neutral p fuel r x :
  1 <= p <= max_precision -> (10 <= fuel)%nat ->
  wf p r -> wf p x -> normal x -> 0 < sig_digs x -> power_ok x ->
  bignum_mult_int true true true r x 1 = Ok (1, x) /\
  bignum_divide_int fuel true true true r x 1 = Ok (1, x) /\
  bignum_divide fuel true r x x = Ok (1, mk_bignum 0 1 (one_digit p 1) p).
Proof. exact (one_is_neutral p fuel r x). Qed.

Lemma X14_one_is_neutral_witness :
  bignum_divide 10 true (mk_bignum 0 0 [0; 0; 0] 3)
    (mk_bignum 1 3 [9; 9; 7] 3) (mk_bignum 1 3 [9; 9; 7] 3)
  = Ok (1, mk_bignum 0 1 (one_digit 3 1) 3).
Proof.
  apply (X14_one_is_neutral 3 10 (mk_bignum 0 0 [0; 0; 0] 3)
           (mk_bignum 1 3 [9; 9; 7] 3));
    [unfold max_precision; lia | lia | wf_by_check | wf_by_check
    | vm_compute; intros _ H; discriminate H | cbn; lia
    | unfold power_ok; cbn; lia].
Defined.

(** ** The integer wrappers *)

(** X15: each wrapper does what its operation does on the bignum that
    [bignum_set_int] makes of the integer, shortcuts included.  The one
    exception is [bignum_divide_int] of a zero bignum by a negative
    integer. *)
Theorem X15_wrappers_agree p fuel r a n :
  1 <= p < 2 ^ 31 -> wf p r -> wf p a -> n < 10 ^ p ->
  exists t,
    bignum_set_int true (mk_bignum 0 0 (zero_cells p) p) n = Ok (1, t) /\
    bignum_add_int true true r a n = bignum_add r a t /\
    (forall ok, bignum_mult_int true true ok r a n = bignum_mult ok r a t) /\
    (forall ok, bignum_int_divide fuel true true ok r n a
                = bignum_divide fuel ok r t a) /\
    (0 <= n \/ 0 < sig_digs a ->
     forall ok, bignum_divide_int fuel true true ok r a n
                = bignum_divide fuel ok r a t).
Proof. exact (wrappers_agree p fuel r a n). Qed.

Lemma X15_wrappers_agree_witness :
  exists t,
    bignum_set_int true (mk_bignum 0 0 (zero_cells 3) 3) 7 = Ok (1, t) /\
    bignum_add_int true true (mk_bignum 0 0 [0; 0; 0] 3)
      (mk_bignum 1 2 [1; 2; 0] 3) 7
    = bignum_add (mk_bignum 0 0 [0; 0; 0] 3) (mk_bignum 1 2 [1; 2; 0] 3) t.
Proof.
  destruct (X15_wrappers_agree 3 10 (mk_bignum 0 0 [0; 0; 0] 3)
              (mk_bignum 1 2 [1; 2; 0] 3) 7)
    as (t & Ht & Hadd & _); [lia | wf_by_check | wf_by_check | lia |].
  exists t. split; [exact Ht | exact Hadd].
Defined.

(** X16: a negative integer acts as zero in [bignum_add_int],
    [bignum_mult_int] and [bignum_int_divide], and as a zero divisor in
    [bignum_divide_int] of a non-zero bignum.  [bignum_divide_int] of a zero
    bignum reports success for a negative divisor and failure for the
    divisor zero. *)
Theorem X16_negative_int p fuel r a n :
  1 <= p < 2 ^ 31 -> wf p r -> wf p a -> n < 0 ->
  bignum_add_int true true r a n = bignum_add_int true true r a 0 /\
  (forall ok, bignum_mult_int true true ok r a n
              = bignum_mult_int true true ok r a 0) /\
  (forall ok, bignum_int_divide fuel true true ok r n a
              = bignum_int_divide fuel true true ok r 0 a) /\
  (forall ok, 0 < sig_digs a ->
     bignum_divide_int fuel true true ok r a n
     = bignum_divide_int fuel true true ok r a 0) /\
  (forall ok, sig_digs a = 0 ->
     exists z, bignum_divide_int fuel true true ok r a n = Ok (1, z) /\
               bignum_divide_int fuel true true ok r a 0 = Ok (0, z)).
Proof.
  intros Hp Hr Ha Hn.
  assert (Hbig : 0 < 10 ^ p) by (apply Z.pow_pos_nonneg; lia).
  destruct (wrappers_agree p fuel r a n Hp Hr Ha ltac:(lia))
    as (t & Ht & Hadd & Hmul & Hidiv & Hdivi).
  destruct (wrappers_agree p fuel r a 0 Hp Hr Ha ltac:(lia))
    as (t0 & Ht0 & Hadd0 & Hmul0 & Hidiv0 & Hdivi0).
  assert (Heq : t = t0).
  { destruct (ingest p n Hp ltac:(lia)) as (u & Hu & _ & _ & _ & Hneg & _).
    destruct (ingest p 0 Hp ltac:(lia)) as (u0 & Hu0 & _ & _ & _ & Hneg0 & _).
    rewrite Hu in Ht. rewrite Hu0 in Ht0.
    injection Ht as <-. injection Ht0 as <-.
    rewrite (Hneg ltac:(lia)), (Hneg0 ltac:(lia)). reflexivity. }
  subst t0.
  split; [congruence|]. split; [intros ok; rewrite Hmul, Hmul0; reflexivity|].
  split; [intros ok; rewrite Hidiv, Hidiv0; reflexivity|]. split.
  - intros ok Hpos. rewrite Hdivi, Hdivi0 by lia. reflexivity.
  - intros ok Hz.
    destruct (bignum_reset_wf p r ltac:(lia) Hr) as (pw & Hreset).
    exists (mk_bignum pw 0 (repeat 0 (Z.to_nat p)) p).
    unfold bignum_divide_int. rewrite Hreset. cbn [bind].
    destruct (Z.eqb_spec n 0); [lia|]. rewrite Hz.
    change (0 =? 0) with true. cbv iota. auto.
Qed.

Lemma X16_negative_int_witness :
  bignum_add_int true true (mk_bignum 0 0 [0; 0; 0] 3)
    (mk_bignum 1 2 [1; 2; 0] 3) (-5)
  = bignum_add_int true true (mk_bignum 0 0 [0; 0; 0] 3)
    (mk_bignum 1 2 [1; 2; 0] 3) 0.
Proof.
  destruct (X16_negative_int 3 10 (mk_bignum 0 0 [0; 0; 0] 3)
              (mk_bignum 1 2 [1; 2; 0] 3) (-5)) as [H _];
    [lia | wf_by_check | wf_by_check | lia | exact H].
Defined.

(** X17: a wrapper whose temporary bignum cannot be allocated dereferences
    the null pointer that [bignum_init] makes, so its own null test is never
    reached; a refused scratch word of [bignum_set_int] is reported with the
    result reset. *)
Theorem X17_wrappers_refused p fuel r a n w m :
  1 <= p < 2 ^ 31 -> wf p r -> wf p a -> 0 < sig_digs a -> 0 < n ->
  (bignum_add_int false w r a n = Undef /\
   bignum_mult_int false w m r a n = Undef /\
   bignum_int_divide fuel false w m r n a = Undef /\
   bignum_divide_int fuel false w m r a n = Undef) /\
  exists pw,
    bignum_add_int true false r a n = Ok (0, mk_bignum pw 0 (zero_cells p) p) /\
    bignum_mult_int true false m r a n
    = Ok (0, mk_bignum pw 0 (zero_cells p) p) /\
    bignum_int_divide fuel true false m r n a
    = Ok (0, mk_bignum pw 0 (zero_cells p) p) /\
    bignum_divide_int fuel true false m r a n
    = Ok (0, mk_bignum pw 0 (zero_cells p) p).
Proof. exact (wrappers_refused p fuel r a n w m). Qed.

Lemma X17_wrappers_refused_witness :
  bignum_add_int false true (mk_bignum 0 0 [0; 0; 0] 3)
    (mk_bignum 1 2 [1; 2; 0] 3) 7 = Undef.
Proof.
  apply (X17_wrappers_refused 3 10 (mk_bignum 0 0 [0; 0; 0] 3)
           (mk_bignum 1 2 [1; 2; 0] 3) 7 true true);
    [lia | wf_by_check | wf_by_check | cbn; lia | lia].
Defined.

(** ** The driver *)

(** X18: the reference line of [main] for every third argument.  Up to the
    digit budget 103 it is [3.] and the first [budget - 1] of the hundred
    stored decimals; from 104 on the loop reads past the end of the
    literal. *)
Theorem X18_reference_line a :
  (max_digits_arg a <= 103 ->
   print_accepted_pi (max_digits_arg a) = Ok (reference_line (max_digits_arg a))) /\
  (104 <= max_digits_arg a -> print_accepted_pi (max_digits_arg a) = Undef).
Proof.
  assert (H : 1 <= max_digits_arg a < 2 ^ 31).
  { unfold max_digits_arg. destruct a as [v|]; [|lia].
    assert (Hw : - 2 ^ 31 <= wrap_int v < 2 ^ 31).
    { unfold wrap_int.
      pose proof (Z.mod_pos_bound (v + 2 ^ 31) (2 ^ 32) ltac:(lia)). lia. }
    destruct (Z.ltb_spec (wrap_int v) 1); lia. }
  split; intros Hd.
  - apply print_accepted_pi_inside. lia.
  - apply print_accepted_pi_outside. lia.
Qed.

(** ** The worker *)

(** X19: when the iteration count has more decimal digits than the digit
    budget, every worker overruns a scratch buffer in its first
    [bignum_set_int]: such a run has no defined outcome. *)
Theorem X19_too_many_iterations fuel N W D j g1 g2 :
  1 <= D < 2 ^ 31 -> 10 ^ D <= N ->
  calculate fuel (funct_args N W D j) g1 g2 = Undef.
Proof. exact (calculate_overrun fuel N W D j g1 g2). Qed.

Lemma X19_too_many_iterations_witness :
  calculate 10 (funct_args 20000 8 4 0)
    (mk_bignum 0 0 [0; 0; 0; 0] 4) (mk_bignum 0 0 [0; 0; 0; 0] 4) = Undef.
Proof. apply (X19_too_many_iterations 10 20000 8 4 0); lia. Defined.

(** X20: with fewer iterations than threads, every worker but the last gets
    an empty range; it computes its step widths, runs no pass of the loop
    and leaves its two result slots zero. *)
Theorem X20_idle_worker fuel N W D j g1 g2 :
  1 <= D <= max_precision -> 1 <= N < 10 ^ D -> N < W < 2 ^ 63 ->
  0 <= j -> j + 1 < W -> (10 <= fuel)%nat ->
  sig_digs g1 = 0 -> sig_digs g2 = 0 ->
  calculate fuel (funct_args N W D j) g1 g2 = Ok (g1, g2).
Proof.
  intros HD HN HW Hj Hj' Hfuel Hg1 Hg2.
  destruct (funct_args_idle N W D j ltac:(lia) ltac:(lia) Hj Hj')
    as (Hlo & Hhi & Htot & Hmax).
  apply calculate_idle; rewrite ?Hlo, ?Hhi, ?Htot, ?Hmax; try assumption; lia.
Qed.

Lemma X20_idle_worker_witness :
  calculate 10 (funct_args 2 4 25 1)
    (mk_bignum 0 0 (zero_cells 25) 25) (mk_bignum 0 0 (zero_cells 25) 25)
  = Ok (mk_bignum 0 0 (zero_cells 25) 25, mk_bignum 0 0 (zero_cells 25) 25).
Proof.
  apply (X20_idle_worker 10 2 4 25 1);
    [unfold max_precision; lia | lia | lia | lia | lia | lia
    | reflexivity | reflexivity].
Defined.

(** X21: the run with the default 20000 iterations and 25 digits.  For
    every thread count up to 6666 the first worker has at least three
    passes, and its third pass writes past the end of a digit buffer,
    whatever the result slots hold.  The budget 10 is what the subtraction
    loop of a division can need. *)
Theorem X21_default_run_overruns W g1 g2 :
  1 <= W <= 6666 ->
  calculate 10
    (funct_args (iterations_arg None) W (max_digits_arg None) 0) g1 g2
  = Undef.
Proof.
  intros HW. change (iterations_arg None) with 20000.
  change (max_digits_arg None) with 25.
  destruct (funct_args_first W 25 HW) as (hi & Hhi & ->).
  apply calculate_default_overrun. exact Hhi.
Qed.

Lemma X21_default_run_overruns_witness :
  calculate 10
    (funct_args (iterations_arg None) (num_threads_arg None)
       (max_digits_arg None) 0)
    (mk_bignum 0 0 (zero_cells 25) 25) (mk_bignum 0 0 (zero_cells 25) 25)
  = Undef.
Proof. apply (X21_default_run_overruns 8). lia. Defined.
